(** * Universal Hardware Programmer: NAND / SPI flash / I2C EEPROM drivers

    A shallow embedding of [src/main.cpp] and the properties its
    specification states about it.

    The sketch runs on the 8-bit AVR boards it names (Uno, Mega): it drives
    the NAND data bus through the AVR port registers DDRD/PORTD/PIND and
    DDRB/PORTB/PINB.  On these targets [byte] has 8 bits, [unsigned int] 16
    and [unsigned long] 32; every conversion to one of these types is written
    out below as a reduction modulo the corresponding power of two.

    The devices on the other side of the wires are a parameter of the model
    (class [Hardware]); the sketch is a program in a state monad over the
    microcontroller state, the attached hardware, the log of bus activity and
    the serial output.  Polling loops take a bound on their iterations and
    answer [None] when it is used up. *)

From Stdlib Require Import String Ascii ZArith List Bool Lia.
Import ListNotations.
Open Scope Z_scope.

(** ** Integer types of the target *)

Definition to_byte (x : Z) : Z := x mod 2 ^ 8.
Definition to_uint (x : Z) : Z := x mod 2 ^ 16.
Definition to_ulong (x : Z) : Z := x mod 2 ^ 32.

Definition is_byte (x : Z) : Prop := 0 <= x < 2 ^ 8.
Definition is_uint (x : Z) : Prop := 0 <= x < 2 ^ 16.
Definition is_ulong (x : Z) : Prop := 0 <= x < 2 ^ 32.

(** ** Pin and command definitions *)

Inductive Pin : Type :=
| SPI_CS_PIN | NAND_CLE_PIN | NAND_ALE_PIN | NAND_WE_PIN
| NAND_RE_PIN | NAND_CE_PIN | NAND_RB_PIN.

Definition LOW : bool := false.
Definition HIGH : bool := true.

Definition SPI_CMD_WRITE_ENABLE : Z := 0x06.
Definition SPI_CMD_READ_STATUS : Z := 0x05.
Definition SPI_CMD_FAST_READ : Z := 0x0B.
Definition SPI_CMD_PAGE_PROGRAM : Z := 0x02.
Definition SPI_CMD_SECTOR_ERASE : Z := 0x20.
Definition SPI_CMD_BLOCK_ERASE_64K : Z := 0xD8.
Definition SPI_CMD_CHIP_ERASE : Z := 0xC7.
Definition SPI_CMD_READ_ID : Z := 0x9F.

Definition NAND_CMD_READ_ID : Z := 0x90.
Definition NAND_CMD_READ_STATUS : Z := 0x70.
Definition NAND_CMD_READ : Z := 0x00.
Definition NAND_CMD_READ_CONFIRM : Z := 0x30.
Definition NAND_CMD_PROGRAM : Z := 0x80.
Definition NAND_CMD_PROGRAM_CONFIRM : Z := 0x10.
Definition NAND_CMD_ERASE : Z := 0x60.
Definition NAND_CMD_ERASE_CONFIRM : Z := 0xD0.
Definition NAND_CMD_RESET : Z := 0xFF.

Inductive MemoryType : Type :=
| MEM_UNKNOWN | MEM_NAND_FLASH | MEM_SPI_FLASH | MEM_I2C_EEPROM.

Definition MemoryType_eqb (a b : MemoryType) : bool :=
  match a, b with
  | MEM_UNKNOWN, MEM_UNKNOWN | MEM_NAND_FLASH, MEM_NAND_FLASH
  | MEM_SPI_FLASH, MEM_SPI_FLASH | MEM_I2C_EEPROM, MEM_I2C_EEPROM => true
  | _, _ => false
  end.

(** ** The hardware on the other side of the wires *)

(** What the attached devices do when the controller acts on them.  The NAND
    chip latches the value on the data lines at a rising edge of WE, as a
    command, address or data cycle according to CLE and ALE; it drives the
    byte at its read pointer while RE is low and moves on at the rising edge
    of RE.  [nand_rb] samples the ready/busy line, [hw_millis] the
    millisecond counter, [hw_delay] lets the given microseconds pass. *)
Class Hardware (H : Type) : Type := {
  nand_latch : bool -> bool -> Z -> H -> H;
  nand_drive : H -> Z;
  nand_advance : H -> H;
  nand_rb : H -> bool * H;
  spi_select : bool -> H -> H;
  spi_exchange : Z -> H -> Z * H;
  i2c_transmit : Z -> list Z -> H -> Z * H;
  i2c_request : Z -> Z -> H -> list Z * H;
  hw_millis : H -> Z * H;
  hw_delay : Z -> H -> H
}.

(** Bus activity, in the order it happens. *)
Inductive BusEvent : Type :=
| NandCE (level : bool)
| NandWrite (cle ale : bool) (v : Z)
| NandRead (v : Z)
| SpiCS (level : bool)
| SpiXfer (mosi miso : Z)
| WireTx (addr : Z) (payload : list Z) (err : Z)
| WireRx (addr : Z) (quantity : Z) (got : list Z).

(** Serial output, one token per [Serial.print] / [println] / [write]. *)
Inductive Out : Type :=
| Print (s : string)
| Println (s : string)
| PrintNum (v base : Z)
| PrintlnNum (v base : Z)
| WriteRaw (v : Z)
| Newline.

Record Pins : Type := mkPins {
  cs : bool; cle : bool; ale : bool; we : bool; re : bool; ce : bool
}.

Definition pin_set (p : Pin) (v : bool) (ps : Pins) : Pins :=
  match p with
  | SPI_CS_PIN => mkPins v (cle ps) (ale ps) (we ps) (re ps) (ce ps)
  | NAND_CLE_PIN => mkPins (cs ps) v (ale ps) (we ps) (re ps) (ce ps)
  | NAND_ALE_PIN => mkPins (cs ps) (cle ps) v (we ps) (re ps) (ce ps)
  | NAND_WE_PIN => mkPins (cs ps) (cle ps) (ale ps) v (re ps) (ce ps)
  | NAND_RE_PIN => mkPins (cs ps) (cle ps) (ale ps) (we ps) v (ce ps)
  | NAND_CE_PIN => mkPins (cs ps) (cle ps) (ale ps) (we ps) (re ps) v
  | NAND_RB_PIN => ps
  end.

(** The TwoWire object: transmit address and buffer, receive buffer. *)
Record Wire : Type := mkWire {
  txAddress : Z; txBuffer : list Z; rxBuffer : list Z
}.

Definition BUFFER_LENGTH : Z := 32.

Section Sketch.

Context {H : Type} {HW : Hardware H}.

(** ** Controller state *)

Record World : Type := mkWorld {
  hw : H;
  DDRD : Z; PORTD : Z; DDRB : Z; PORTB : Z;
  pins : Pins;
  wire : Wire;
  currentMemoryType : MemoryType;
  i2cAddress : Z;
  bus : list BusEvent;
  serial : list Out
}.

Definition with_hw (h : H) (w : World) : World :=
  mkWorld h (DDRD w) (PORTD w) (DDRB w) (PORTB w) (pins w) (wire w)
          (currentMemoryType w) (i2cAddress w) (bus w) (serial w).
Definition with_DDRD (x : Z) (w : World) : World :=
  mkWorld (hw w) x (PORTD w) (DDRB w) (PORTB w) (pins w) (wire w)
          (currentMemoryType w) (i2cAddress w) (bus w) (serial w).
Definition with_PORTD (x : Z) (w : World) : World :=
  mkWorld (hw w) (DDRD w) x (DDRB w) (PORTB w) (pins w) (wire w)
          (currentMemoryType w) (i2cAddress w) (bus w) (serial w).
Definition with_DDRB (x : Z) (w : World) : World :=
  mkWorld (hw w) (DDRD w) (PORTD w) x (PORTB w) (pins w) (wire w)
          (currentMemoryType w) (i2cAddress w) (bus w) (serial w).
Definition with_PORTB (x : Z) (w : World) : World :=
  mkWorld (hw w) (DDRD w) (PORTD w) (DDRB w) x (pins w) (wire w)
          (currentMemoryType w) (i2cAddress w) (bus w) (serial w).
Definition with_pins (p : Pins) (w : World) : World :=
  mkWorld (hw w) (DDRD w) (PORTD w) (DDRB w) (PORTB w) p (wire w)
          (currentMemoryType w) (i2cAddress w) (bus w) (serial w).
Definition with_wire (x : Wire) (w : World) : World :=
  mkWorld (hw w) (DDRD w) (PORTD w) (DDRB w) (PORTB w) (pins w) x
          (currentMemoryType w) (i2cAddress w) (bus w) (serial w).
Definition with_currentMemoryType (t : MemoryType) (w : World) : World :=
  mkWorld (hw w) (DDRD w) (PORTD w) (DDRB w) (PORTB w) (pins w) (wire w)
          t (i2cAddress w) (bus w) (serial w).
Definition with_i2cAddress (a : Z) (w : World) : World :=
  mkWorld (hw w) (DDRD w) (PORTD w) (DDRB w) (PORTB w) (pins w) (wire w)
          (currentMemoryType w) a (bus w) (serial w).
Definition with_bus (b : list BusEvent) (w : World) : World :=
  mkWorld (hw w) (DDRD w) (PORTD w) (DDRB w) (PORTB w) (pins w) (wire w)
          (currentMemoryType w) (i2cAddress w) b (serial w).
Definition with_serial (s : list Out) (w : World) : World :=
  mkWorld (hw w) (DDRD w) (PORTD w) (DDRB w) (PORTB w) (pins w) (wire w)
          (currentMemoryType w) (i2cAddress w) (bus w) s.

Definition log (e : BusEvent) (w : World) : World := with_bus (bus w ++ [e]) w.
Definition say (o : Out) (w : World) : World := with_serial (serial w ++ [o]) w.

(** ** The monad of the sketch *)

Definition M (A : Type) : Type := World -> option (A * World).

Definition ret {A : Type} (a : A) : M A := fun w => Some (a, w).

Definition bind {A B : Type} (m : M A) (k : A -> M B) : M B :=
  fun w => match m w with
           | Some (a, w') => k a w'
           | None => None
           end.

Definition out_of_fuel {A : Type} : M A := fun _ => None.

Definition modify (f : World -> World) : M unit := fun w => Some (tt, f w).
Definition gets {A : Type} (f : World -> A) : M A := fun w => Some (f w, w).

End Sketch.

Arguments World H : clear implicits.
Arguments M H A : clear implicits.

Declare Scope sketch_scope.
Delimit Scope sketch_scope with sketch.
Notation "x <- m ;; k" := (bind m (fun x => k))
  (at level 61, m at next level, right associativity) : sketch_scope.
Notation "m ;; k" := (bind m (fun _ => k))
  (at level 61, right associativity) : sketch_scope.
Open Scope sketch_scope.

(** ** Arduino primitives *)

Section Arduino.

Context {H : Type} {HW : Hardware H}.

Definition HEX : Z := 16.
Definition BIN : Z := 2.

Definition Serial_print (s : string) : M H unit := modify (say (Print s)).
Definition Serial_println (s : string) : M H unit := modify (say (Println s)).
Definition Serial_print_num (v base : Z) : M H unit := modify (say (PrintNum v base)).
Definition Serial_println_num (v base : Z) : M H unit := modify (say (PrintlnNum v base)).
Definition Serial_write (v : Z) : M H unit := modify (say (WriteRaw v)).
Definition Serial_newline : M H unit := modify (say Newline).

(** The byte the controller presents on the eight data lines: bits 0-5 on
    D2-D7 (port D), bits 6-7 on D8-D9 (port B). *)
Definition data_lines (w : World H) : Z :=
  Z.lor (Z.land (Z.shiftr (PORTD w) 2) 0x3F) (Z.shiftl (Z.land (PORTB w) 0x03) 6).

(** The level of the data lines as the controller reads them back: the
    selected chip drives them while RE is low. *)
Definition sampled_lines (w : World H) : Z :=
  if negb (re (pins w)) && negb (ce (pins w))
  then to_byte (nand_drive (hw w))
  else data_lines w.

Definition PIND (w : World H) : Z :=
  Z.lor (Z.land (PORTD w) 0x03) (Z.shiftl (Z.land (sampled_lines w) 0x3F) 2).
Definition PINB (w : World H) : Z :=
  Z.lor (Z.land (PORTB w) 0xFC) (Z.land (Z.shiftr (sampled_lines w) 6) 0x03).

(** [digitalWrite]: sets the level of the pin; a rising edge of WE (resp. RE)
    on the selected chip completes a write (resp. read) cycle. *)
Definition digitalWrite (p : Pin) (v : bool) : M H unit :=
  modify (fun w =>
    let ps := pins w in
    let w1 := with_pins (pin_set p v ps) w in
    match p with
    | NAND_WE_PIN =>
        if v && negb (we ps) && negb (ce ps)
        then log (NandWrite (cle ps) (ale ps) (data_lines w))
                 (with_hw (nand_latch (cle ps) (ale ps) (data_lines w) (hw w)) w1)
        else w1
    | NAND_RE_PIN =>
        if v && negb (re ps) && negb (ce ps)
        then log (NandRead (to_byte (nand_drive (hw w))))
                 (with_hw (nand_advance (hw w)) w1)
        else w1
    | NAND_CE_PIN => log (NandCE v) w1
    | SPI_CS_PIN => log (SpiCS v) (with_hw (spi_select v (hw w)) w1)
    | _ => w1
    end).

Definition digitalRead (p : Pin) : M H bool :=
  fun w =>
    match p with
    | NAND_RB_PIN => Some (fst (nand_rb (hw w)), with_hw (snd (nand_rb (hw w))) w)
    | SPI_CS_PIN => Some (cs (pins w), w)
    | NAND_CLE_PIN => Some (cle (pins w), w)
    | NAND_ALE_PIN => Some (ale (pins w), w)
    | NAND_WE_PIN => Some (we (pins w), w)
    | NAND_RE_PIN => Some (re (pins w), w)
    | NAND_CE_PIN => Some (ce (pins w), w)
    end.

Definition millis : M H Z :=
  fun w => Some (to_ulong (fst (hw_millis (hw w))), with_hw (snd (hw_millis (hw w))) w).

Definition delayMicroseconds (us : Z) : M H unit :=
  modify (fun w => with_hw (hw_delay us (hw w)) w).
Definition delay (ms : Z) : M H unit :=
  modify (fun w => with_hw (hw_delay (1000 * ms) (hw w)) w).

Definition SPI_transfer (b : Z) : M H Z :=
  fun w => let r := spi_exchange (to_byte b) (hw w) in
           Some (to_byte (fst r),
                 log (SpiXfer (to_byte b) (to_byte (fst r))) (with_hw (snd r) w)).

Definition Wire_beginTransmission (address : Z) : M H unit :=
  modify (fun w => with_wire (mkWire address [] (rxBuffer (wire w))) w).

Definition Wire_write (b : Z) : M H unit :=
  modify (fun w =>
    let x := wire w in
    if Z.of_nat (length (txBuffer x)) <? BUFFER_LENGTH
    then with_wire (mkWire (txAddress x) (txBuffer x ++ [to_byte b]) (rxBuffer x)) w
    else w).

Definition Wire_endTransmission : M H Z :=
  fun w =>
    let x := wire w in
    let r := i2c_transmit (txAddress x) (txBuffer x) (hw w) in
    Some (to_byte (fst r),
          log (WireTx (txAddress x) (txBuffer x) (to_byte (fst r)))
              (with_wire (mkWire (txAddress x) [] (rxBuffer x)) (with_hw (snd r) w))).

Definition Wire_requestFrom (address quantity : Z) : M H unit :=
  fun w =>
    let q := Z.min (to_byte quantity) BUFFER_LENGTH in
    let r := i2c_request address q (hw w) in
    let rx := map to_byte (firstn (Z.to_nat q) (fst r)) in
    Some (tt, log (WireRx address q rx)
                  (with_wire (mkWire (txAddress (wire w)) (txBuffer (wire w)) rx)
                             (with_hw (snd r) w))).

Definition Wire_available : M H Z :=
  gets (fun w => Z.of_nat (length (rxBuffer (wire w)))).

Definition Wire_read : M H Z :=
  fun w =>
    let x := wire w in
    match rxBuffer x with
    | [] => Some (-1, w)
    | b :: rest => Some (b, with_wire (mkWire (txAddress x) (txBuffer x) rest) w)
    end.

(** ** Loops *)

Fixpoint for_each {A : Type} (l : list A) (body : A -> M H unit) : M H unit :=
  match l with
  | [] => ret tt
  | x :: l' => body x ;; for_each l' body
  end.

Fixpoint foldM {A S : Type} (l : list A) (s : S) (body : A -> S -> M H S) : M H S :=
  match l with
  | [] => ret s
  | x :: l' => s' <- body x s ;; foldM l' s' body
  end.

(** [interval a b]: the values [a], [a+1], ..., below [b]. *)
Definition interval (a b : Z) : list Z :=
  map (fun k => a + Z.of_nat k) (seq 0 (Z.to_nat (b - a))).

Definition when (c : bool) (m : M H unit) : M H unit := if c then m else ret tt.

(** Arrays: reading [data[i]] and writing [buffer[i] = v]. *)
Definition elt (data : list Z) (i : Z) : Z := nth (Z.to_nat i) data 0.

Fixpoint set_nth (n : nat) (v : Z) (l : list Z) : list Z :=
  match l, n with
  | [], _ => []
  | _ :: l', O => v :: l'
  | x :: l', S n' => x :: set_nth n' v l'
  end.

Definition set_elt (buffer : list Z) (i v : Z) : list Z := set_nth (Z.to_nat i) v buffer.

End Arduino.

Arguments Print s%_string.
Arguments Println s%_string.
Arguments Serial_print {H} s%_string.
Arguments Serial_println {H} s%_string.

(** ** NAND flash driver *)

Section Nand.

Context {H : Type} {HW : Hardware H}.

Definition nandReadByte : M H Z :=
  modify (fun w => with_DDRD (Z.land (DDRD w) 0x03) w) ;;
  modify (fun w => with_DDRB (Z.land (DDRB w) 0xFC) w) ;;
  digitalWrite NAND_RE_PIN LOW ;;
  delayMicroseconds 1 ;;
  pind <- gets PIND ;;
  pinb <- gets PINB ;;
  let data := 0 in
  let data := to_byte (Z.lor data (Z.land (Z.shiftr pind 2) 0x3F)) in
  let data := to_byte (Z.lor data (Z.shiftl (Z.land pinb 0x03) 6)) in
  digitalWrite NAND_RE_PIN HIGH ;;
  delayMicroseconds 1 ;;
  ret data.

Definition nandWriteByte (data : Z) : M H unit :=
  modify (fun w => with_DDRD (Z.lor (DDRD w) 0xFC) w) ;;
  modify (fun w => with_DDRB (Z.lor (DDRB w) 0x03) w) ;;
  modify (fun w => with_PORTD
    (to_byte (Z.lor (Z.land (PORTD w) 0x03) (Z.shiftl (Z.land data 0x3F) 2))) w) ;;
  modify (fun w => with_PORTB
    (to_byte (Z.lor (Z.land (PORTB w) 0xFC) (Z.land (Z.shiftr data 6) 0x03))) w) ;;
  digitalWrite NAND_WE_PIN LOW ;;
  delayMicroseconds 1 ;;
  digitalWrite NAND_WE_PIN HIGH ;;
  delayMicroseconds 1.

(** The polling loop of [waitForNandReady]; [fuel] bounds the number of
    times the ready/busy line is sampled. *)
Fixpoint waitForNandReady_loop (fuel : nat) (startTime : Z) : M H unit :=
  match fuel with
  | O => out_of_fuel
  | S fuel' =>
      rb <- digitalRead NAND_RB_PIN ;;
      if Bool.eqb rb LOW
      then (now <- millis ;;
            if 1000 <? to_ulong (now - startTime)
            then Serial_println "Warning: NAND Flash timeout"
            else waitForNandReady_loop fuel' startTime)
      else ret tt
  end.

Definition waitForNandReady (fuel : nat) : M H unit :=
  startTime <- millis ;;
  waitForNandReady_loop fuel startTime.

Definition nandReset (fuel : nat) : M H unit :=
  digitalWrite NAND_CE_PIN LOW ;;
  digitalWrite NAND_CLE_PIN HIGH ;;
  nandWriteByte NAND_CMD_RESET ;;
  digitalWrite NAND_CLE_PIN LOW ;;
  waitForNandReady fuel ;;
  digitalWrite NAND_CE_PIN HIGH ;;
  Serial_println "NAND Flash reset complete".

Definition nandReadID : M H unit :=
  digitalWrite NAND_CE_PIN LOW ;;
  digitalWrite NAND_CLE_PIN HIGH ;;
  nandWriteByte NAND_CMD_READ_ID ;;
  digitalWrite NAND_CLE_PIN LOW ;;
  digitalWrite NAND_ALE_PIN HIGH ;;
  nandWriteByte 0x00 ;;
  digitalWrite NAND_ALE_PIN LOW ;;
  Serial_print "Manufacturer ID: 0x" ;;
  b <- nandReadByte ;; Serial_println_num b HEX ;;
  Serial_print "Device ID: 0x" ;;
  b <- nandReadByte ;; Serial_println_num b HEX ;;
  Serial_print "Third ID byte: 0x" ;;
  b <- nandReadByte ;; Serial_println_num b HEX ;;
  Serial_print "Fourth ID byte: 0x" ;;
  b <- nandReadByte ;; Serial_println_num b HEX ;;
  Serial_print "Fifth ID byte: 0x" ;;
  b <- nandReadByte ;; Serial_println_num b HEX ;;
  digitalWrite NAND_CE_PIN HIGH.

(** [hexDump]: reads [numBytes] bytes with [readFunc] and prints them in
    rows of sixteen. *)
Definition hexDump (readFunc : M H Z) (numBytes : Z) : M H unit :=
  _ <- foldM (interval 0 numBytes) (repeat 0 16%nat) (fun i buffer =>
    when (i mod 16 =? 0)
      (when (0 <? i) Serial_newline ;;
       Serial_print "0x" ;;
       when (i <? 0x1000) (Serial_print "0") ;;
       when (i <? 0x100) (Serial_print "0") ;;
       when (i <? 0x10) (Serial_print "0") ;;
       Serial_print_num i HEX ;;
       Serial_print ": ") ;;
    b <- readFunc ;;
    let buffer := set_elt buffer (i mod 16) b in
    when (elt buffer (i mod 16) <? 0x10) (Serial_print "0") ;;
    Serial_print_num (elt buffer (i mod 16)) HEX ;;
    Serial_print " " ;;
    when ((i mod 16 =? 15) || (i =? to_uint (numBytes - 1)))
      (for_each (interval (i mod 16 + 1) 16) (fun _ => Serial_print "   ") ;;
       Serial_print " | " ;;
       for_each (interval 0 (i mod 16 + 1)) (fun j =>
         if (32 <=? elt buffer j) && (elt buffer j <=? 126)
         then Serial_write (elt buffer j)
         else Serial_print ".")) ;;
    ret buffer) ;;
  Serial_newline.

(** The five address cycles that [nandReadData] and [nandWriteData] both
    send: column low, column high, page low, page high, page highest.
    [offset] and [page] are [unsigned int]s: [page >> 16] has no bit left. *)
Definition nandSendAddress (offset page : Z) : M H unit :=
  digitalWrite NAND_ALE_PIN HIGH ;;
  nandWriteByte (Z.land offset 0xFF) ;;
  nandWriteByte (Z.land (Z.shiftr offset 8) 0xFF) ;;
  nandWriteByte (Z.land page 0xFF) ;;
  nandWriteByte (Z.land (Z.shiftr page 8) 0xFF) ;;
  nandWriteByte (Z.land (Z.shiftr page 16) 0xFF) ;;
  digitalWrite NAND_ALE_PIN LOW.

Definition nandReadData (fuel : nat) (address numBytes : Z) : M H unit :=
  let pageSize := 512 in
  let page := to_uint (address / pageSize) in
  let offset := to_uint (address mod pageSize) in
  digitalWrite NAND_CE_PIN LOW ;;
  digitalWrite NAND_CLE_PIN HIGH ;;
  nandWriteByte NAND_CMD_READ ;;
  digitalWrite NAND_CLE_PIN LOW ;;
  nandSendAddress offset page ;;
  digitalWrite NAND_CLE_PIN HIGH ;;
  nandWriteByte NAND_CMD_READ_CONFIRM ;;
  digitalWrite NAND_CLE_PIN LOW ;;
  waitForNandReady fuel ;;
  hexDump nandReadByte numBytes ;;
  digitalWrite NAND_CE_PIN HIGH.

Definition nandWriteData (fuel : nat) (address : Z) (data : list Z) (numBytes : Z)
  : M H unit :=
  let pageSize := 512 in
  let page := to_uint (address / pageSize) in
  let offset := to_uint (address mod pageSize) in
  if pageSize <? to_uint (offset + numBytes)
  then Serial_println "Error: Write crosses page boundary!"
  else
    digitalWrite NAND_CE_PIN LOW ;;
    digitalWrite NAND_CLE_PIN HIGH ;;
    nandWriteByte NAND_CMD_PROGRAM ;;
    digitalWrite NAND_CLE_PIN LOW ;;
    nandSendAddress offset page ;;
    for_each (interval 0 numBytes) (fun i => nandWriteByte (elt data i)) ;;
    digitalWrite NAND_CLE_PIN HIGH ;;
    nandWriteByte NAND_CMD_PROGRAM_CONFIRM ;;
    digitalWrite NAND_CLE_PIN LOW ;;
    waitForNandReady fuel ;;
    digitalWrite NAND_CLE_PIN HIGH ;;
    nandWriteByte NAND_CMD_READ_STATUS ;;
    digitalWrite NAND_CLE_PIN LOW ;;
    status <- nandReadByte ;;
    digitalWrite NAND_CE_PIN HIGH ;;
    if negb (Z.land status 0x01 =? 0)
    then Serial_println "Program failed!"
    else Serial_println "Program successful".

(** The block index of [nandErase], an [unsigned int]. *)
Definition nandBlock (address : Z) : Z :=
  let blockSize := to_uint (16 * 1024) in
  to_uint (address / blockSize).

Definition nandErase (fuel : nat) (option : ascii) (address : Z) : M H unit :=
  digitalWrite NAND_CE_PIN LOW ;;
  digitalWrite NAND_CLE_PIN HIGH ;;
  nandWriteByte NAND_CMD_ERASE ;;
  digitalWrite NAND_CLE_PIN LOW ;;
  when (Ascii.eqb option "1" || Ascii.eqb option "2")
    (let block := nandBlock address in
     digitalWrite NAND_ALE_PIN HIGH ;;
     nandWriteByte (Z.land block 0xFF) ;;
     nandWriteByte (Z.land (Z.shiftr block 8) 0xFF) ;;
     nandWriteByte (Z.land (Z.shiftr block 16) 0xFF) ;;
     digitalWrite NAND_ALE_PIN LOW) ;;
  digitalWrite NAND_CLE_PIN HIGH ;;
  nandWriteByte NAND_CMD_ERASE_CONFIRM ;;
  digitalWrite NAND_CLE_PIN LOW ;;
  waitForNandReady fuel ;;
  digitalWrite NAND_CLE_PIN HIGH ;;
  nandWriteByte NAND_CMD_READ_STATUS ;;
  digitalWrite NAND_CLE_PIN LOW ;;
  status <- nandReadByte ;;
  digitalWrite NAND_CE_PIN HIGH ;;
  if negb (Z.land status 0x01 =? 0)
  then Serial_println "Erase failed!"
  else Serial_println "Erase successful".

Definition nandReadStatus : M H unit :=
  digitalWrite NAND_CE_PIN LOW ;;
  digitalWrite NAND_CLE_PIN HIGH ;;
  nandWriteByte NAND_CMD_READ_STATUS ;;
  digitalWrite NAND_CLE_PIN LOW ;;
  status <- nandReadByte ;;
  digitalWrite NAND_CE_PIN HIGH ;;
  Serial_print "Status: 0x" ;;
  Serial_println_num status HEX ;;
  Serial_print "Program/Erase Failed: " ;;
  Serial_println (if negb (Z.land status 0x01 =? 0) then "Yes" else "No") ;;
  Serial_print "Ready/Busy: " ;;
  Serial_println (if negb (Z.land status 0x40 =? 0) then "Ready" else "Busy") ;;
  Serial_print "Write Protected: " ;;
  Serial_println (if negb (Z.land status 0x80 =? 0) then "Yes" else "No").

End Nand.

(** ** SPI flash driver *)

Section Spi.

Context {H : Type} {HW : Hardware H}.

Definition identifySPIFlash (manufacturerID deviceID1 deviceID2 : Z) : M H unit :=
  Serial_print "Device: " ;;
  if manufacturerID =? 0x01 then Serial_print "Spansion/Cypress "
  else if manufacturerID =? 0x20 then Serial_print "Micron/ST "
  else if manufacturerID =? 0xEF then
    Serial_print "Winbond " ;;
    if deviceID1 =? 0x40 then
      if deviceID2 =? 0x14 then Serial_println "W25Q80 (8Mbit)"
      else if deviceID2 =? 0x15 then Serial_println "W25Q16 (16Mbit)"
      else if deviceID2 =? 0x16 then Serial_println "W25Q32 (32Mbit)"
      else if deviceID2 =? 0x17 then Serial_println "W25Q64 (64Mbit)"
      else if deviceID2 =? 0x18 then Serial_println "W25Q128 (128Mbit)"
      else Serial_println "Unknown W25Q series"
    else Serial_println "Unknown model"
  else if manufacturerID =? 0xC2 then Serial_print "Macronix "
  else if manufacturerID =? 0xBF then Serial_print "SST "
  else Serial_println "Unknown manufacturer".

Definition spiReadID : M H unit :=
  digitalWrite SPI_CS_PIN LOW ;;
  _ <- SPI_transfer SPI_CMD_READ_ID ;;
  manufacturerID <- SPI_transfer 0 ;;
  deviceID1 <- SPI_transfer 0 ;;
  deviceID2 <- SPI_transfer 0 ;;
  digitalWrite SPI_CS_PIN HIGH ;;
  Serial_print "Manufacturer ID: 0x" ;;
  Serial_println_num manufacturerID HEX ;;
  Serial_print "Device ID: 0x" ;;
  Serial_print_num deviceID1 HEX ;;
  Serial_println_num deviceID2 HEX ;;
  identifySPIFlash manufacturerID deviceID1 deviceID2.

Definition spiReadData (address numBytes : Z) : M H unit :=
  digitalWrite SPI_CS_PIN LOW ;;
  _ <- SPI_transfer SPI_CMD_FAST_READ ;;
  _ <- SPI_transfer (Z.land (Z.shiftr address 16) 0xFF) ;;
  _ <- SPI_transfer (Z.land (Z.shiftr address 8) 0xFF) ;;
  _ <- SPI_transfer (Z.land address 0xFF) ;;
  _ <- SPI_transfer 0 ;;
  _ <- foldM (interval 0 numBytes) (repeat 0 16%nat) (fun i buffer =>
    when (i mod 16 =? 0)
      (when (0 <? i) Serial_newline ;;
       Serial_print "0x" ;;
       when (to_ulong (address + i) <? 0x1000) (Serial_print "0") ;;
       when (to_ulong (address + i) <? 0x100) (Serial_print "0") ;;
       when (to_ulong (address + i) <? 0x10) (Serial_print "0") ;;
       Serial_print_num (to_ulong (address + i)) HEX ;;
       Serial_print ": ") ;;
    b <- SPI_transfer 0 ;;
    let buffer := set_elt buffer (i mod 16) b in
    when (elt buffer (i mod 16) <? 0x10) (Serial_print "0") ;;
    Serial_print_num (elt buffer (i mod 16)) HEX ;;
    Serial_print " " ;;
    when ((i mod 16 =? 15) || (i =? to_uint (numBytes - 1)))
      (for_each (interval (i mod 16 + 1) 16) (fun _ => Serial_print "   ") ;;
       Serial_print " | " ;;
       for_each (interval 0 (i mod 16 + 1)) (fun j =>
         if (32 <=? elt buffer j) && (elt buffer j <=? 126)
         then Serial_write (elt buffer j)
         else Serial_print ".")) ;;
    ret buffer) ;;
  digitalWrite SPI_CS_PIN HIGH ;;
  Serial_newline.

(** [waitForSpiReady]: one read of the status register; answers whether the
    write-in-progress bit is set. *)
Definition waitForSpiReady : M H bool :=
  digitalWrite SPI_CS_PIN LOW ;;
  _ <- SPI_transfer SPI_CMD_READ_STATUS ;;
  status <- SPI_transfer 0 ;;
  digitalWrite SPI_CS_PIN HIGH ;;
  ret (negb (Z.land status 0x01 =? 0)).

Definition spiWritePage (address : Z) (data : list Z) (numBytes : Z) : M H unit :=
  digitalWrite SPI_CS_PIN LOW ;;
  _ <- SPI_transfer SPI_CMD_WRITE_ENABLE ;;
  digitalWrite SPI_CS_PIN HIGH ;;
  delay 1 ;;
  digitalWrite SPI_CS_PIN LOW ;;
  _ <- SPI_transfer SPI_CMD_PAGE_PROGRAM ;;
  _ <- SPI_transfer (Z.land (Z.shiftr address 16) 0xFF) ;;
  _ <- SPI_transfer (Z.land (Z.shiftr address 8) 0xFF) ;;
  _ <- SPI_transfer (Z.land address 0xFF) ;;
  for_each (interval 0 numBytes) (fun i => _ <- SPI_transfer (elt data i) ;; ret tt) ;;
  digitalWrite SPI_CS_PIN HIGH ;;
  _ <- waitForSpiReady ;;
  Serial_println "Write complete".

Definition spiWriteData (address : Z) (data : list Z) (numBytes : Z) : M H unit :=
  let pageSize := 256 in
  let offset := to_uint (address mod pageSize) in
  if pageSize <? to_uint (offset + numBytes)
  then
    Serial_println "Warning: Write crosses page boundary!" ;;
    let firstPageBytes := to_uint (pageSize - offset) in
    spiWritePage address data firstPageBytes ;;
    spiWritePage (to_ulong (address + firstPageBytes))
                 (skipn (Z.to_nat firstPageBytes) data)
                 (to_uint (numBytes - firstPageBytes))
  else spiWritePage address data numBytes.

(** The polling loop of [spiErase]; [fuel] bounds the number of status
    reads. *)
Fixpoint spiErase_loop (fuel : nat) (startTime : Z) : M H unit :=
  match fuel with
  | O => out_of_fuel
  | S fuel' =>
      busy <- waitForSpiReady ;;
      if busy
      then (now <- millis ;;
            if 500 <? to_ulong (now - startTime)
            then (Serial_print "." ;;
                  startTime' <- millis ;;
                  spiErase_loop fuel' startTime')
            else spiErase_loop fuel' startTime)
      else ret tt
  end.

Definition spiErase (fuel : nat) (option : ascii) (address : Z) : M H unit :=
  digitalWrite SPI_CS_PIN LOW ;;
  _ <- SPI_transfer SPI_CMD_WRITE_ENABLE ;;
  digitalWrite SPI_CS_PIN HIGH ;;
  delay 1 ;;
  digitalWrite SPI_CS_PIN LOW ;;
  (if Ascii.eqb option "1" then
     _ <- SPI_transfer SPI_CMD_SECTOR_ERASE ;;
     _ <- SPI_transfer (Z.land (Z.shiftr address 16) 0xFF) ;;
     _ <- SPI_transfer (Z.land (Z.shiftr address 8) 0xFF) ;;
     _ <- SPI_transfer (Z.land address 0xFF) ;;
     ret tt
   else if Ascii.eqb option "2" then
     _ <- SPI_transfer SPI_CMD_BLOCK_ERASE_64K ;;
     _ <- SPI_transfer (Z.land (Z.shiftr address 16) 0xFF) ;;
     _ <- SPI_transfer (Z.land (Z.shiftr address 8) 0xFF) ;;
     _ <- SPI_transfer (Z.land address 0xFF) ;;
     ret tt
   else if Ascii.eqb option "3" then
     _ <- SPI_transfer SPI_CMD_CHIP_ERASE ;;
     ret tt
   else ret tt) ;;
  digitalWrite SPI_CS_PIN HIGH ;;
  startTime <- millis ;;
  Serial_print "Erasing" ;;
  spiErase_loop fuel startTime ;;
  Serial_println (String "010" "Erase complete").

Definition spiReadStatus : M H unit :=
  digitalWrite SPI_CS_PIN LOW ;;
  _ <- SPI_transfer SPI_CMD_READ_STATUS ;;
  status <- SPI_transfer 0 ;;
  digitalWrite SPI_CS_PIN HIGH ;;
  Serial_print "Status Register: 0x" ;;
  Serial_println_num status HEX ;;
  Serial_print "Busy: " ;;
  Serial_println (if negb (Z.land status 0x01 =? 0) then "Yes" else "No") ;;
  Serial_print "Write Enable Latch: " ;;
  Serial_println (if negb (Z.land status 0x02 =? 0) then "Enabled" else "Disabled") ;;
  Serial_print "Block Protection: " ;;
  Serial_println_num (Z.land (Z.shiftr status 2) 0x0F) BIN ;;
  Serial_print "Write Protect Enable: " ;;
  Serial_println (if negb (Z.land status 0x80 =? 0) then "Yes" else "No").

End Spi.

(** ** I2C EEPROM driver *)

Section I2c.

Context {H : Type} {HW : Hardware H}.

Definition i2cDetect : M H unit :=
  Serial_println "Scanning I2C bus for devices..." ;;
  count <- foldM (interval 0x08 0x78) 0 (fun addr count =>
    Wire_beginTransmission addr ;;
    error <- Wire_endTransmission ;;
    if error =? 0 then
      Serial_print "Device found at address 0x" ;;
      when (addr <? 16) (Serial_print "0") ;;
      Serial_print_num addr HEX ;;
      (if (0x50 <=? addr) && (addr <=? 0x57)
       then Serial_println " (likely EEPROM)"
       else Serial_newline) ;;
      ret (to_byte (count + 1))
    else ret count) ;;
  when (count =? 0) (Serial_println "No I2C devices found!").

(** [for (j = 0; j < bytesToRead && Wire.available(); j++) buffer[j] = Wire.read();] *)
Fixpoint i2cFill (js : list Z) (buffer : list Z) : M H (list Z) :=
  match js with
  | [] => ret buffer
  | j :: js' =>
      avail <- Wire_available ;;
      if avail =? 0 then ret buffer
      else (b <- Wire_read ;; i2cFill js' (set_elt buffer j (to_byte b)))
  end.

(** The chunk loop of [i2cReadData]: [i] advances by sixteen in
    [unsigned int] arithmetic; [fuel] bounds the number of chunks. *)
Fixpoint i2cReadData_loop (fuel : nat) (address numBytes : Z) (use16bitAddr : bool)
  (i : Z) (buffer : list Z) : M H unit :=
  match fuel with
  | O => out_of_fuel
  | S fuel' =>
      if i <? numBytes then
        let chunkSize := 16 in
        let bytesToRead := Z.min chunkSize (to_uint (numBytes - i)) in
        let currentAddr := to_ulong (address + i) in
        target <- gets i2cAddress ;;
        Wire_beginTransmission target ;;
        when use16bitAddr (Wire_write (Z.land (Z.shiftr currentAddr 8) 0xFF)) ;;
        Wire_write (Z.land currentAddr 0xFF) ;;
        _ <- Wire_endTransmission ;;
        Wire_requestFrom target bytesToRead ;;
        buffer <- i2cFill (interval 0 bytesToRead) buffer ;;
        for_each (interval 0 bytesToRead) (fun j =>
          let ij := to_uint (i + j) in
          let a := to_ulong (address + i + j) in
          when (ij mod 16 =? 0)
            (when (0 <? ij) Serial_newline ;;
             Serial_print "0x" ;;
             when (a <? 0x1000) (Serial_print "0") ;;
             when (a <? 0x100) (Serial_print "0") ;;
             when (a <? 0x10) (Serial_print "0") ;;
             Serial_print_num a HEX ;;
             Serial_print ": ") ;;
          when (elt buffer j <? 0x10) (Serial_print "0") ;;
          Serial_print_num (elt buffer j) HEX ;;
          Serial_print " " ;;
          when ((ij mod 16 =? 15) || (ij =? to_uint (numBytes - 1)))
            (for_each (interval (ij mod 16 + 1) 16) (fun _ => Serial_print "   ") ;;
             Serial_print " | " ;;
             for_each (interval 0 (ij mod 16 + 1)) (fun k =>
               when (k <? bytesToRead)
                 (if (32 <=? elt buffer k) && (elt buffer k <=? 126)
                  then Serial_write (elt buffer k)
                  else Serial_print ".")))) ;;
        i2cReadData_loop fuel' address numBytes use16bitAddr (to_uint (i + chunkSize)) buffer
      else ret tt
  end.

Definition i2cReadData (fuel : nat) (address numBytes : Z) : M H unit :=
  target <- gets i2cAddress ;;
  Wire_beginTransmission target ;;
  error <- Wire_endTransmission ;;
  if negb (error =? 0) then
    Serial_print "Error: Device at address 0x" ;;
    Serial_print_num target HEX ;;
    Serial_println " not responding"
  else
    let use16bitAddr := 0xFF <? address in
    i2cReadData_loop fuel address numBytes use16bitAddr 0 (repeat 0 16%nat) ;;
    Serial_newline.

(** One chunk of [i2cWriteData]: the address phase and [bytesToWrite] data
    bytes in a single transmission, then the 5 ms write-cycle delay. *)
Definition i2cWriteChunk (use16bitAddr : bool) (currentAddr : Z) (data : list Z)
  (bytesWritten bytesToWrite : Z) : M H unit :=
  target <- gets i2cAddress ;;
  Wire_beginTransmission target ;;
  when use16bitAddr (Wire_write (Z.land (Z.shiftr currentAddr 8) 0xFF)) ;;
  Wire_write (Z.land currentAddr 0xFF) ;;
  for_each (interval 0 bytesToWrite) (fun i =>
    Wire_write (elt data (to_uint (bytesWritten + i)))) ;;
  _ <- Wire_endTransmission ;;
  delay 5.

(** The chunk loop [while (bytesWritten < numBytes)] of [i2cWriteData];
    [fuel] bounds the number of chunks. *)
Fixpoint i2cWriteData_loop (fuel : nat) (address : Z) (data : list Z) (numBytes : Z)
  (use16bitAddr : bool) (bytesWritten : Z) : M H unit :=
  if bytesWritten <? numBytes then
    match fuel with
    | O => out_of_fuel
    | S fuel' =>
        let pageSize := 8 in
        let currentAddr := to_ulong (address + bytesWritten) in
        let pageOffset := to_uint (currentAddr mod pageSize) in
        let bytesToWrite :=
          Z.min (to_uint (pageSize - pageOffset)) (to_uint (numBytes - bytesWritten)) in
        i2cWriteChunk use16bitAddr currentAddr data bytesWritten bytesToWrite ;;
        i2cWriteData_loop fuel' address data numBytes use16bitAddr
                          (to_uint (bytesWritten + bytesToWrite))
    end
  else ret tt.

(** Every chunk writes at least one byte, so [numBytes] chunks are enough. *)
Definition i2cWriteData (address : Z) (data : list Z) (numBytes : Z) : M H unit :=
  target <- gets i2cAddress ;;
  Wire_beginTransmission target ;;
  error <- Wire_endTransmission ;;
  if negb (error =? 0) then
    Serial_print "Error: Device at address 0x" ;;
    Serial_print_num target HEX ;;
    Serial_println " not responding"
  else
    let use16bitAddr := 0xFF <? address in
    i2cWriteData_loop (Z.to_nat numBytes) address data numBytes use16bitAddr 0 ;;
    Serial_println "Write complete".

Definition i2cErase (option : ascii) (address : Z) : M H unit :=
  if Ascii.eqb option "3" then
    let pageSize := 8 in
    let maxSize := to_uint (32 * 1024) in
    let eraseData := repeat 0xFF 8%nat in
    Serial_print "Erasing EEPROM" ;;
    for_each (map (fun k => pageSize * k) (interval 0 (maxSize / pageSize))) (fun i =>
      i2cWriteData i eraseData pageSize ;;
      when (i mod 256 =? 0) (Serial_print ".")) ;;
    Serial_println (String "010" "Erase complete")
  else
    let eraseSize := if Ascii.eqb option "1" then 256 else 4096 in
    let eraseData := repeat 0xFF 8%nat in
    Serial_print "Erasing" ;;
    for_each (map (fun k => 8 * k) (interval 0 (eraseSize / 8))) (fun i =>
      i2cWriteData (to_ulong (address + i)) eraseData 8 ;;
      when (i mod 64 =? 0) (Serial_print ".")) ;;
    Serial_println (String "010" "Erase complete").

Definition i2cReadStatus : M H unit :=
  target <- gets i2cAddress ;;
  Wire_beginTransmission target ;;
  error <- Wire_endTransmission ;;
  Serial_print "Device present: " ;;
  Serial_println (if error =? 0 then "Yes" else "No") ;;
  when (error =? 0)
    (Wire_beginTransmission target ;;
     Wire_write 0 ;;
     error <- Wire_endTransmission ;;
     Serial_print "Device ready: " ;;
     Serial_println (if error =? 0 then "Yes" else "No")).

End I2c.

(** ** The command layer *)

(** What the text interface hands to a command: the values that
    [readHexValue], [readDecValue], [strtol] and [Serial.read] return for the
    lines the user types.  Parsing itself is outside the model. *)
Record Input : Type := mkInput {
  hexValue : Z;
  decValue : Z;
  dataTokens : list Z;
  eraseOption : ascii;
  confirmation : string;
  addressValue : Z
}.

Section Commands.

Context {H : Type} {HW : Hardware H}.

Definition DEC : Z := 10.

Definition printMenu : M H unit :=
  Serial_println "==== COMMANDS ====" ;;
  Serial_println "1: Set NAND Flash mode" ;;
  Serial_println "2: Set SPI Flash mode" ;;
  Serial_println "3: Set I2C EEPROM mode" ;;
  Serial_println "i: Read device ID" ;;
  Serial_println "r: Read data" ;;
  Serial_println "w: Write data" ;;
  Serial_println "e: Erase" ;;
  Serial_println "s: Read status" ;;
  Serial_println "a: Set I2C address (EEPROM mode)" ;;
  Serial_println "h: Show this menu" ;;
  Serial_newline.

Definition setMemoryType (fuel : nat) (type : MemoryType) : M H unit :=
  modify (with_currentMemoryType type) ;;
  match type with
  | MEM_NAND_FLASH =>
      Serial_println "NAND Flash mode selected" ;;
      nandReset fuel
  | MEM_SPI_FLASH =>
      Serial_println "SPI Flash mode selected"
  | MEM_I2C_EEPROM =>
      Serial_println "I2C EEPROM mode selected" ;;
      Serial_print "Current I2C address: 0x" ;;
      a <- gets i2cAddress ;;
      Serial_println_num a HEX
  | MEM_UNKNOWN =>
      Serial_println "Unknown memory type!"
  end.

Definition readDeviceID : M H unit :=
  t <- gets currentMemoryType ;;
  if MemoryType_eqb t MEM_UNKNOWN then
    Serial_println "Please select memory type first!"
  else
    Serial_println "Reading device ID..." ;;
    match t with
    | MEM_NAND_FLASH => nandReadID
    | MEM_SPI_FLASH => spiReadID
    | MEM_I2C_EEPROM => i2cDetect
    | MEM_UNKNOWN => Serial_println "Unknown memory type!"
    end.

Definition readData (fuel : nat) (inp : Input) : M H unit :=
  t <- gets currentMemoryType ;;
  if MemoryType_eqb t MEM_UNKNOWN then
    Serial_println "Please select memory type first!"
  else
    Serial_println "Enter start address (in hex):" ;;
    let startAddr := to_ulong (hexValue inp) in
    Serial_println "Enter number of bytes to read:" ;;
    let numBytes := to_uint (decValue inp) in
    when (256 <? numBytes) (Serial_println "Warning: Limiting to 256 bytes") ;;
    let numBytes := if 256 <? numBytes then 256 else numBytes in
    Serial_print "Reading " ;;
    Serial_print_num numBytes DEC ;;
    Serial_print " bytes from address 0x" ;;
    Serial_println_num startAddr HEX ;;
    match t with
    | MEM_NAND_FLASH => nandReadData fuel startAddr numBytes
    | MEM_SPI_FLASH => spiReadData startAddr numBytes
    | MEM_I2C_EEPROM => i2cReadData fuel startAddr numBytes
    | MEM_UNKNOWN => Serial_println "Unknown memory type!"
    end.

Definition writeData (fuel : nat) (inp : Input) : M H unit :=
  t <- gets currentMemoryType ;;
  if MemoryType_eqb t MEM_UNKNOWN then
    Serial_println "Please select memory type first!"
  else
    Serial_println "Enter start address (in hex):" ;;
    let startAddr := to_ulong (hexValue inp) in
    Serial_println "Enter data (hex bytes separated by spaces, max 32 bytes):" ;;
    let data := map to_byte (firstn 32 (dataTokens inp)) in
    let numBytes := Z.of_nat (length data) in
    Serial_print "Writing " ;;
    Serial_print_num numBytes DEC ;;
    Serial_print " bytes to address 0x" ;;
    Serial_println_num startAddr HEX ;;
    match t with
    | MEM_NAND_FLASH => nandWriteData fuel startAddr data numBytes
    | MEM_SPI_FLASH => spiWriteData startAddr data numBytes
    | MEM_I2C_EEPROM => i2cWriteData startAddr data numBytes
    | MEM_UNKNOWN => Serial_println "Unknown memory type!"
    end.

Definition eraseDispatch (fuel : nat) (option : ascii) (address : Z) : M H unit :=
  t <- gets currentMemoryType ;;
  match t with
  | MEM_NAND_FLASH => nandErase fuel option address
  | MEM_SPI_FLASH => spiErase fuel option address
  | MEM_I2C_EEPROM => i2cErase option address
  | MEM_UNKNOWN => Serial_println "Unknown memory type!"
  end.

Definition eraseMemory (fuel : nat) (inp : Input) : M H unit :=
  t <- gets currentMemoryType ;;
  if MemoryType_eqb t MEM_UNKNOWN then
    Serial_println "Please select memory type first!"
  else
    Serial_println "Erase options:" ;;
    Serial_println "1. Sector erase" ;;
    Serial_println "2. Block erase" ;;
    Serial_println "3. Chip erase" ;;
    let option := eraseOption inp in
    when (Ascii.eqb option "1" || Ascii.eqb option "2")
      (Serial_println "Enter start address (in hex):") ;;
    let address :=
      if Ascii.eqb option "1" || Ascii.eqb option "2"
      then to_ulong (hexValue inp) else 0 in
    if Ascii.eqb option "1" then
      Serial_print "Erasing sector at 0x" ;;
      Serial_println_num address HEX ;;
      eraseDispatch fuel option address
    else if Ascii.eqb option "2" then
      Serial_print "Erasing block at 0x" ;;
      Serial_println_num address HEX ;;
      eraseDispatch fuel option address
    else if Ascii.eqb option "3" then
      Serial_println "WARNING: This will erase the entire chip!" ;;
      Serial_println "Type 'YES' to confirm:" ;;
      if negb (String.eqb (confirmation inp) "YES") then
        Serial_println "Erase aborted!"
      else
        Serial_println "Erasing entire chip..." ;;
        eraseDispatch fuel option address
    else Serial_println "Invalid option".

Definition readStatus : M H unit :=
  t <- gets currentMemoryType ;;
  if MemoryType_eqb t MEM_UNKNOWN then
    Serial_println "Please select memory type first!"
  else
    Serial_println "Reading status register..." ;;
    match t with
    | MEM_NAND_FLASH => nandReadStatus
    | MEM_SPI_FLASH => spiReadStatus
    | MEM_I2C_EEPROM => i2cReadStatus
    | MEM_UNKNOWN => Serial_println "Unknown memory type!"
    end.

Definition setI2CAddress (inp : Input) : M H unit :=
  Serial_println "Enter I2C address (in hex, e.g. 50 for 0x50):" ;;
  let newAddress := to_byte (addressValue inp) in
  if (0x08 <=? newAddress) && (newAddress <=? 0x77) then
    modify (with_i2cAddress newAddress) ;;
    Serial_print "I2C address set to 0x" ;;
    a <- gets i2cAddress ;;
    Serial_println_num a HEX
  else
    Serial_println "Invalid I2C address! Valid range is 0x08-0x77".

Definition handleCommand (fuel : nat) (cmd : ascii) (inp : Input) : M H unit :=
  if Ascii.eqb cmd "1" then setMemoryType fuel MEM_NAND_FLASH
  else if Ascii.eqb cmd "2" then setMemoryType fuel MEM_SPI_FLASH
  else if Ascii.eqb cmd "3" then setMemoryType fuel MEM_I2C_EEPROM
  else if Ascii.eqb cmd "i" then readDeviceID
  else if Ascii.eqb cmd "r" then readData fuel inp
  else if Ascii.eqb cmd "w" then writeData fuel inp
  else if Ascii.eqb cmd "e" then eraseMemory fuel inp
  else if Ascii.eqb cmd "s" then readStatus
  else if Ascii.eqb cmd "a" then setI2CAddress inp
  else if Ascii.eqb cmd "h" then printMenu
  else if Ascii.eqb cmd "010" || Ascii.eqb cmd "013" then ret tt
  else Serial_println "Unknown command. Type 'h' for help.".

(** The state [setup] leaves behind on hardware [h]: the globals as
    initialised, the NAND control lines and the SPI chip select idle. *)
Definition power_on (h : H) : World H :=
  mkWorld h 0 0 0 0 (mkPins HIGH LOW LOW HIGH HIGH HIGH) (mkWire 0 [] [])
          MEM_UNKNOWN 0x50 [] [].

(** A session: commands handled one after the other. *)
Fixpoint session (fuel : nat) (cmds : list (ascii * Input)) : M H unit :=
  match cmds with
  | [] => ret tt
  | (cmd, inp) :: rest => handleCommand fuel cmd inp ;; session fuel rest
  end.

End Commands.

(** ** A test bench: simulated devices

    A small-page NAND chip whose R/B line reads low for [nand_latency]
    samples after a confirm or reset command and which, as long as it is
    busy, takes no command but read status and reset and gives no data, a
    serial flash that reports
    write-in-progress for a while after a program or erase, EEPROMs that
    acknowledge at some bus addresses, and a millisecond clock that advances
    by [tick] every time it is read. *)

Inductive NandOut : Type := OutData | OutStatus | OutId.

Record NandChip : Type := mkNand {
  cells : Z -> Z -> Z;       (* row -> column -> byte *)
  bad : Z -> bool;           (* rows that fail to program *)
  command : Z;               (* last set-up command *)
  addr : list Z;             (* address cycles since that command *)
  page_reg : list Z;         (* data cycles since that command *)
  row : Z; col : Z;          (* read pointer *)
  out : NandOut;             (* what a read cycle returns *)
  status : Z                 (* bit 0: last program/erase failed; bit 6: ready *)
}.

Definition nand_id : list Z := [0xEC; 0x76; 0xA5; 0xC0; 0x00].

Definition nand_with_cmd (c : Z) (n : NandChip) : NandChip :=
  mkNand (cells n) (bad n) c [] [] (row n) (col n) (out n) (status n).

Definition nand_with_out (o : NandOut) (n : NandChip) : NandChip :=
  mkNand (cells n) (bad n) (command n) (addr n) (page_reg n) (row n) (col n) o
         (status n).

(** Program confirm: with five address cycles latched, the page register is
    stored from the column on, unless the row is bad. *)
Definition nand_program (n : NandChip) : NandChip :=
  match addr n with
  | [c0; c1; r0; r1; r2] =>
      let c := c0 + 256 * c1 in
      let r := r0 + 256 * r1 + 65536 * r2 in
      let d := page_reg n in
      if bad n r
      then mkNand (cells n) (bad n) (command n) (addr n) d (row n) (col n) (out n) 0x41
      else mkNand (fun r' c' =>
                     if (r' =? r) && (c <=? c') && (c' <? c + Z.of_nat (length d))
                     then nth (Z.to_nat (c' - c)) d 0
                     else cells n r' c')
                  (bad n) (command n) (addr n) d (row n) (col n) (out n) 0x40
  | _ => n
  end.

(** Read confirm: with five address cycles latched, the read pointer moves
    to the addressed byte. *)
Definition nand_load (n : NandChip) : NandChip :=
  match addr n with
  | [c0; c1; r0; r1; r2] =>
      mkNand (cells n) (bad n) (command n) (addr n) (page_reg n)
             (r0 + 256 * r1 + 65536 * r2) (c0 + 256 * c1) OutData (status n)
  | _ => n
  end.

(** Erase confirm: with three address cycles latched, the 32 pages of the
    block read 0xFF. *)
Definition nand_erase (n : NandChip) : NandChip :=
  match addr n with
  | [b0; b1; b2] =>
      let b := b0 + 256 * b1 + 65536 * b2 in
      mkNand (fun r' c' => if r' / 32 =? b then 0xFF else cells n r' c')
             (bad n) (command n) (addr n) (page_reg n) (row n) (col n) (out n) 0x40
  | _ => n
  end.

Definition sim_nand_latch (cle ale : bool) (v : Z) (n : NandChip) : NandChip :=
  if cle then
    if v =? NAND_CMD_PROGRAM then nand_with_cmd v n
    else if v =? NAND_CMD_READ then nand_with_cmd v n
    else if v =? NAND_CMD_ERASE then nand_with_cmd v n
    else if v =? NAND_CMD_PROGRAM_CONFIRM then
      if command n =? NAND_CMD_PROGRAM then nand_program n else n
    else if v =? NAND_CMD_READ_CONFIRM then
      if command n =? NAND_CMD_READ then nand_load n else n
    else if v =? NAND_CMD_ERASE_CONFIRM then
      if command n =? NAND_CMD_ERASE then nand_erase n else n
    else if v =? NAND_CMD_READ_STATUS then nand_with_out OutStatus n
    else if v =? NAND_CMD_READ_ID then
      mkNand (cells n) (bad n) v [] [] 0 0 OutId (status n)
    else if v =? NAND_CMD_RESET then
      mkNand (cells n) (bad n) v [] [] (row n) (col n) OutData 0x40
    else n
  else if ale then
    mkNand (cells n) (bad n) (command n) (addr n ++ [v]) (page_reg n) (row n) (col n)
           (out n) (status n)
  else
    mkNand (cells n) (bad n) (command n) (addr n) (page_reg n ++ [v]) (row n) (col n)
           (out n) (status n).

Definition sim_nand_drive (n : NandChip) : Z :=
  match out n with
  | OutData => cells n (row n) (col n)
  | OutStatus => status n
  | OutId => nth (Z.to_nat (col n)) nand_id 0
  end.

Definition sim_nand_advance (n : NandChip) : NandChip :=
  match out n with
  | OutStatus => n
  | _ => mkNand (cells n) (bad n) (command n) (addr n) (page_reg n) (row n) (col n + 1)
                (out n) (status n)
  end.

(** A confirm or reset command keeps the chip busy for a while. *)
Definition nand_starts_work (cle : bool) (v : Z) : bool :=
  cle && ((v =? NAND_CMD_PROGRAM_CONFIRM) || (v =? NAND_CMD_READ_CONFIRM)
          || (v =? NAND_CMD_ERASE_CONFIRM) || (v =? NAND_CMD_RESET)).

(** A busy chip takes the read status and the reset command and nothing
    else: no other command, no address cycle, no data cycle. *)
Definition nand_accepts (busy : nat) (cle : bool) (v : Z) : bool :=
  Nat.eqb busy 0 || (cle && ((v =? NAND_CMD_READ_STATUS) || (v =? NAND_CMD_RESET))).

(** What a read cycle gets from a busy chip: after a read status command
    the status register with the ready bit (bit 6) clear, else no data. *)
Definition sim_nand_busy_drive (n : NandChip) : Z :=
  match out n with
  | OutStatus => Z.land (status n) 0xBF
  | _ => 0x00
  end.

(** The serial flash: [frame] holds the bytes received since chip select
    fell; a page program or erase frame leaves the chip busy for
    [program_time] reads of its status register. *)
Record FlashChip : Type := mkFlash {
  frame : list Z;
  wel : bool;
  wip_reads : nat;
  program_time : nat
}.

Definition flash_status (f : FlashChip) : Z :=
  (match wip_reads f with O => 0 | S _ => 1 end) + (if wel f then 2 else 0).

Definition sim_spi_select (level : bool) (f : FlashChip) : FlashChip :=
  if level then
    match frame f with
    | c :: _ =>
        if c =? SPI_CMD_WRITE_ENABLE then mkFlash [] true (wip_reads f) (program_time f)
        else if wel f && ((c =? SPI_CMD_PAGE_PROGRAM) || (c =? SPI_CMD_SECTOR_ERASE)
                          || (c =? SPI_CMD_BLOCK_ERASE_64K) || (c =? SPI_CMD_CHIP_ERASE))
        then mkFlash [] false (program_time f) (program_time f)
        else mkFlash [] (wel f) (wip_reads f) (program_time f)
    | [] => f
    end
  else mkFlash [] (wel f) (wip_reads f) (program_time f).

Definition sim_spi_exchange (b : Z) (f : FlashChip) : Z * FlashChip :=
  match frame f with
  | [c] =>
      if c =? SPI_CMD_READ_STATUS
      then (flash_status f,
            mkFlash (frame f ++ [b]) (wel f) (Nat.pred (wip_reads f)) (program_time f))
      else (0xFF, mkFlash (frame f ++ [b]) (wel f) (wip_reads f) (program_time f))
  | _ => (0xFF, mkFlash (frame f ++ [b]) (wel f) (wip_reads f) (program_time f))
  end.

Record Bench : Type := mkBench {
  nand : NandChip;
  nand_busy : nat;           (* samples of R/B that still read low *)
  nand_latency : nat;        (* samples a program, read, erase or reset keeps R/B low *)
  nand_stuck : bool;         (* R/B never rises *)
  flash : FlashChip;
  present : Z -> bool;       (* bus addresses at which an EEPROM acknowledges *)
  clock : Z;                 (* milliseconds *)
  tick : Z                   (* milliseconds that pass at each reading of the clock *)
}.

#[export] Instance BenchHW : Hardware Bench := {
  nand_latch cle ale v b :=
    if nand_accepts (nand_busy b) cle v
    then mkBench (sim_nand_latch cle ale v (nand b))
                 (if nand_starts_work cle v then nand_latency b else nand_busy b)
                 (nand_latency b) (nand_stuck b) (flash b) (present b) (clock b) (tick b)
    else b;
  nand_drive b :=
    if Nat.eqb (nand_busy b) 0 then sim_nand_drive (nand b)
    else sim_nand_busy_drive (nand b);
  nand_advance b :=
    if Nat.eqb (nand_busy b) 0
    then mkBench (sim_nand_advance (nand b)) (nand_busy b) (nand_latency b) (nand_stuck b)
                 (flash b) (present b) (clock b) (tick b)
    else b;
  nand_rb b :=
    (negb (nand_stuck b) && Nat.eqb (nand_busy b) 0,
     mkBench (nand b) (Nat.pred (nand_busy b)) (nand_latency b) (nand_stuck b)
             (flash b) (present b) (clock b) (tick b));
  spi_select level b :=
    mkBench (nand b) (nand_busy b) (nand_latency b) (nand_stuck b)
            (sim_spi_select level (flash b)) (present b) (clock b) (tick b);
  spi_exchange v b :=
    (fst (sim_spi_exchange v (flash b)),
     mkBench (nand b) (nand_busy b) (nand_latency b) (nand_stuck b)
             (snd (sim_spi_exchange v (flash b))) (present b) (clock b) (tick b));
  i2c_transmit a payload b := (if present b a then 0 else 2, b);
  i2c_request a q b :=
    (if present b a then repeat 0xFF (Z.to_nat q) else [], b);
  hw_millis b :=
    (clock b, mkBench (nand b) (nand_busy b) (nand_latency b) (nand_stuck b)
                      (flash b) (present b) (clock b + tick b) (tick b));
  hw_delay us b :=
    mkBench (nand b) (nand_busy b) (nand_latency b) (nand_stuck b)
            (flash b) (present b) (clock b + us / 1000) (tick b)
}.

Definition blank_nand : NandChip :=
  mkNand (fun _ _ => 0xFF) (fun _ => false) 0 [] [] 0 0 OutData 0x40.

Definition idle_flash : FlashChip := mkFlash [] false 0 3.

(** A bench with a blank NAND chip that is busy for two samples of R/B
    after each operation, an idle flash, an EEPROM at 0x50 and a clock that
    advances by one millisecond per reading. *)
Definition bench0 : Bench :=
  mkBench blank_nand 0 2 false idle_flash (fun a => a =? 0x50) 0 1.

(** The same bench with a ready/busy line that never rises. *)
Definition bench_stuck : Bench :=
  mkBench blank_nand 0 2 true idle_flash (fun a => a =? 0x50) 0 1.

(** A board with nothing in the NAND socket: R/B reads low whenever it is
    sampled; the state is the millisecond clock, which advances by one at
    each reading. *)
Record NoChip : Type := mkNoChip { now : Z }.

#[export] Instance NoChipHW : Hardware NoChip := {
  nand_latch _ _ _ h := h;
  nand_drive _ := 0xFF;
  nand_advance h := h;
  nand_rb h := (LOW, h);
  spi_select _ h := h;
  spi_exchange _ h := (0xFF, h);
  i2c_transmit _ _ h := (2, h);
  i2c_request _ _ h := ([], h);
  hw_millis h := (now h, mkNoChip (now h + 1));
  hw_delay us h := mkNoChip (now h + us / 1000)
}.

(** Projections of the bus log. *)
Definition nand_read_bytes (evs : list BusEvent) : list Z :=
  flat_map (fun e => match e with NandRead v => [v] | _ => [] end) evs.

Inductive NandCycle : Type :=
| Select | Deselect | Cmd (v : Z) | Addr (v : Z) | DataIn (v : Z) | DataOut (v : Z).

Definition nand_cycles (evs : list BusEvent) : list NandCycle :=
  flat_map (fun e =>
    match e with
    | NandCE level => [if level then Deselect else Select]
    | NandWrite true false v => [Cmd v]
    | NandWrite false true v => [Addr v]
    | NandWrite _ _ v => [DataIn v]
    | NandRead v => [DataOut v]
    | _ => []
    end) evs.

(** The frames of the SPI traffic: the MOSI bytes between a falling and a
    rising edge of chip select. *)
Fixpoint spi_frames_from (cur : option (list Z)) (evs : list BusEvent) : list (list Z) :=
  match evs with
  | [] => match cur with Some f => [f] | None => [] end
  | SpiCS level :: rest =>
      match cur, level with
      | Some f, true => f :: spi_frames_from None rest
      | Some f, false => f :: spi_frames_from (Some []) rest
      | None, true => spi_frames_from None rest
      | None, false => spi_frames_from (Some []) rest
      end
  | SpiXfer mosi _ :: rest =>
      match cur with
      | Some f => spi_frames_from (Some (f ++ [mosi])) rest
      | None => spi_frames_from None rest
      end
  | _ :: rest => spi_frames_from cur rest
  end.

Definition spi_frames (evs : list BusEvent) : list (list Z) := spi_frames_from None evs.

(** The I2C write transactions that carry data: target and payload. *)
Definition wire_writes (evs : list BusEvent) : list (Z * list Z) :=
  flat_map (fun e =>
    match e with
    | WireTx a (b :: p) _ => [(a, b :: p)]
    | _ => []
    end) evs.

Definition wire_target (e : BusEvent) : option Z :=
  match e with
  | WireTx a _ _ => Some a
  | WireRx a _ _ => Some a
  | _ => None
  end.

(** Running a sketch program and keeping the final state. *)
Definition run {H A : Type} (m : M H A) (w : World H) : option (World H) :=
  match m w with Some (_, w') => Some w' | None => None end.

(** ** Vocabulary of the statements *)

Section Cycles.

Context {H : Type} {HW : Hardware H}.

(** The state after [nandWriteByte v] on the selected chip. *)
Definition write_cycle (v : Z) (w : World H) : World H :=
  mkWorld (hw_delay 1 (nand_latch (cle (pins w)) (ale (pins w)) (to_byte v)
                                  (hw_delay 1 (hw w))))
          (Z.lor (DDRD w) 0xFC)
          (to_byte (Z.lor (Z.land (PORTD w) 0x03) (Z.shiftl (Z.land v 0x3F) 2)))
          (Z.lor (DDRB w) 0x03)
          (to_byte (Z.lor (Z.land (PORTB w) 0xFC) (Z.land (Z.shiftr v 6) 0x03)))
          (pin_set NAND_WE_PIN HIGH (pins w))
          (wire w) (currentMemoryType w) (i2cAddress w)
          (bus w ++ [NandWrite (cle (pins w)) (ale (pins w)) (to_byte v)])
          (serial w).

Definition write_cycles (l : list Z) (w : World H) : World H :=
  fold_left (fun w v => write_cycle v w) l w.

(** The byte [nandReadByte] returns on the selected chip, and the state
    after it. *)
Definition driven (w : World H) : Z := to_byte (nand_drive (hw_delay 1 (hw w))).

Definition read_cycle (w : World H) : World H :=
  mkWorld (hw_delay 1 (nand_advance (hw_delay 1 (hw w))))
          (Z.land (DDRD w) 0x03) (PORTD w) (Z.land (DDRB w) 0xFC) (PORTB w)
          (pin_set NAND_RE_PIN HIGH (pins w))
          (wire w) (currentMemoryType w) (i2cAddress w)
          (bus w ++ [NandRead (driven w)])
          (serial w).

(** A command cycle: CLE high, the byte, CLE low. *)
Definition command_cycle (c : Z) (w : World H) : World H :=
  let w1 := with_pins (pin_set NAND_CLE_PIN HIGH (pins w)) w in
  let w2 := write_cycle c w1 in
  with_pins (pin_set NAND_CLE_PIN LOW (pins w2)) w2.

(** Address cycles: ALE high, the bytes, ALE low. *)
Definition address_cycles (l : list Z) (w : World H) : World H :=
  let w1 := with_pins (pin_set NAND_ALE_PIN HIGH (pins w)) w in
  let w2 := write_cycles l w1 in
  with_pins (pin_set NAND_ALE_PIN LOW (pins w2)) w2.

Definition select (w : World H) : World H :=
  log (NandCE LOW) (with_pins (pin_set NAND_CE_PIN LOW (pins w)) w).

Definition deselect (w : World H) : World H :=
  log (NandCE HIGH) (with_pins (pin_set NAND_CE_PIN HIGH (pins w)) w).

(** The state after [SPI.transfer b]. *)
Definition spi_byte (b : Z) (w : World H) : World H :=
  log (SpiXfer (to_byte b) (to_byte (fst (spi_exchange (to_byte b) (hw w)))))
      (with_hw (snd (spi_exchange (to_byte b) (hw w))) w).

Definition spi_bytes (l : list Z) (w : World H) : World H :=
  fold_left (fun w b => spi_byte b w) l w.

Definition spi_cs (level : bool) (w : World H) : World H :=
  log (SpiCS level)
      (with_hw (spi_select level (hw w)) (with_pins (pin_set SPI_CS_PIN level (pins w)) w)).

(** The state after [waitForSpiReady], and the status byte it read. *)
Definition status_poll (w : World H) : World H :=
  spi_cs HIGH (spi_bytes [SPI_CMD_READ_STATUS; 0] (spi_cs LOW w)).

Definition polled_status (w : World H) : Z :=
  to_byte (fst (spi_exchange (to_byte 0) (hw (spi_byte SPI_CMD_READ_STATUS (spi_cs LOW w))))).

(** The state after [spiWritePage address data n] with [n] bytes of [data]. *)
Definition page_program (address : Z) (chunk : list Z) (w : World H) : World H :=
  let w1 := spi_cs HIGH (spi_byte SPI_CMD_WRITE_ENABLE (spi_cs LOW w)) in
  let w2 := with_hw (hw_delay (1000 * 1) (hw w1)) w1 in
  let w3 := spi_bytes ([SPI_CMD_PAGE_PROGRAM;
                         Z.land (Z.shiftr address 16) 0xFF;
                         Z.land (Z.shiftr address 8) 0xFF;
                         Z.land address 0xFF] ++ chunk) (spi_cs LOW w2) in
  say (Println "Write complete") (status_poll (spi_cs HIGH w3)).


(** [scans w w' before after closed]: the bus activity from [w] to [w']
    takes the frame scanner from [before] to [after] and closes the frames
    [closed]. *)
Definition scans (w w' : World H) (before after : option (list Z))
  (closed : list (list Z)) : Prop :=
  exists evs, bus w' = bus w ++ evs /\
    forall rest, spi_frames_from before (evs ++ rest)
                 = closed ++ spi_frames_from after rest.

End Cycles.

(** A buffer handed to a driver: [data] points to [numBytes] bytes.  No
    object of the target is larger than 32767 bytes. *)
Definition buffer (data : list Z) (numBytes : Z) : Prop :=
  numBytes = Z.of_nat (length data) /\ numBytes <= 32767 /\ Forall is_byte data.

Section NandVocabulary.

Context {H : Type} {HW : Hardware H}.

(** The NAND latch lines as every driver function leaves them. *)
Definition nand_idle (w : World H) : Prop :=
  cle (pins w) = LOW /\ ale (pins w) = LOW.

(** [waits w w']: from [w] to [w'] only the hardware has moved on and lines
    were added to the serial output. *)
Definition waits (w w' : World H) : Prop :=
  exists h s, w' = with_serial (serial w ++ s) (with_hw h w).

(** [nandErase]: the state when the ready-wait begins, and the state the
    function ends in when the wait has left [w2]. *)
Definition erase_setup (option : ascii) (address : Z) (w : World H) : World H :=
  let w1 := command_cycle NAND_CMD_ERASE (select w) in
  let w2 :=
    if Ascii.eqb option "1" || Ascii.eqb option "2"
    then address_cycles [Z.land (nandBlock address) 0xFF;
                         Z.land (Z.shiftr (nandBlock address) 8) 0xFF;
                         Z.land (Z.shiftr (nandBlock address) 16) 0xFF] w1
    else w1 in
  command_cycle NAND_CMD_ERASE_CONFIRM w2.

Definition status_read (w2 : World H) : Z :=
  driven (command_cycle NAND_CMD_READ_STATUS w2).

Definition erase_finish (w2 : World H) : World H :=
  let w3 := command_cycle NAND_CMD_READ_STATUS w2 in
  say (Println (if negb (Z.land (driven w3) 0x01 =? 0)
                then "Erase failed!" else "Erase successful"))
      (deselect (read_cycle w3)).

End NandVocabulary.

Section SessionVocabulary.

Context {H : Type} {HW : Hardware H}.

(** [keeps m]: running [m] leaves the EEPROM bus address as it was. *)
Definition keeps {A : Type} (m : M H A) : Prop :=
  forall w x w', m w = Some (x, w') -> i2cAddress w' = i2cAddress w.

Definition valid_i2cAddress (a : Z) : Prop := 0x08 <= a <= 0x77.

End SessionVocabulary.

Section WireVocabulary.

Context {H : Type} {HW : Hardware H}.

(** [obeys a pre post m]: run with [i2cAddress = a], [m] keeps it, and every
    bus event it adds is an I2C transaction with target [a].  [pre] says that
    a transmission to [a] is assumed to be open when [m] starts, [post] that
    one is open when it ends. *)
Definition obeys (a : Z) (pre post : bool) {A : Type} (m : M H A) : Prop :=
  forall w x w',
    m w = Some (x, w') ->
    i2cAddress w = a ->
    (pre = true -> txAddress (wire w) = a) ->
    i2cAddress w' = a /\
    (post = true -> txAddress (wire w') = a) /\
    exists evs, bus w' = bus w ++ evs /\ Forall (fun e => wire_target e = Some a) evs.

End WireVocabulary.

(** An EEPROM write transaction as seen on the bus: the address phase (two
    bytes, most significant first, when [use16bitAddr]; else one byte) and
    the data bytes after it. *)
Definition chunk_start (use16bitAddr : bool) (payload : list Z) : Z :=
  if use16bitAddr then 256 * nth 0 payload 0 + nth 1 payload 0 else nth 0 payload 0.

Definition chunk_length (use16bitAddr : bool) (payload : list Z) : Z :=
  Z.of_nat (length payload) - (if use16bitAddr then 2 else 1).

Definition chunk_in_page (use16bitAddr : bool) (payload : list Z) : Prop :=
  chunk_start use16bitAddr payload mod 8 + chunk_length use16bitAddr payload <= 8.

(** The event is a data-carrying EEPROM write whose chunk stays in its page. *)
Definition chunk_event (use16bitAddr : bool) (e : BusEvent) : Prop :=
  match e with
  | WireTx _ payload _ =>
      0 < chunk_length use16bitAddr payload /\ chunk_in_page use16bitAddr payload
  | _ => False
  end.

Section WirePush.

Context {H : Type} {HW : Hardware H}.

(** [Wire.write] of the bytes [l] while the transmit buffer has room. *)
Definition wire_push (l : list Z) (w : World H) : World H :=
  with_wire (mkWire (txAddress (wire w)) (txBuffer (wire w) ++ map to_byte l)
                    (rxBuffer (wire w))) w.

End WirePush.

Section PollVocabulary.

Context {H : Type} {HW : Hardware H}.

(** One turn of the loop of [waitForNandReady] that finds R/B low: the line
    is sampled, then the clock is read.  [polls k h] is the hardware after
    [k] such turns, [poll_rb] what the next sample of R/B gives and
    [poll_clock] the clock value the next turn reads. *)
Definition poll (h : H) : H := snd (hw_millis (snd (nand_rb h))).
Definition poll_rb (h : H) : bool := fst (nand_rb h).
Definition poll_clock (h : H) : Z := to_ulong (fst (hw_millis (snd (nand_rb h)))).

Fixpoint polls (k : nat) (h : H) : H :=
  match k with
  | O => h
  | S k' => polls k' (poll h)
  end.

(** The elapsed time the loop computes at its turn number [k], counted from
    zero, when it started on hardware [h] at time [startTime]. *)
Definition elapsed (startTime : Z) (h : H) (k : nat) : Z :=
  to_ulong (poll_clock (polls k h) - startTime).

(** The start time [waitForNandReady] takes and the hardware it then polls. *)
Definition wait_start (w : World H) : Z := to_ulong (fst (hw_millis (hw w))).
Definition wait_hw (w : World H) : H := snd (hw_millis (hw w)).

Definition TIMEOUT_WARNING : Out := Println "Warning: NAND Flash timeout".

(** A wait that begins in the state [ws] and never sees the chip ready:
    every sample of R/B that this wait takes reads low. *)
Definition stays_busy (ws : World H) : Prop :=
  forall j, poll_rb (polls j (wait_hw ws)) = LOW.

(** Time passes for that wait: at some turn it reads a clock more than
    1000 ms ahead of its start. *)
Definition clock_passes (ws : World H) : Prop :=
  exists k, 1000 < elapsed (wait_start ws) (wait_hw ws) k.

(** The wait that begins in [ws] gives up at its turn number [k]: that is
    the first turn at which it computes more than 1000 ms, and when
    consecutive readings of the clock are at most [slack] apart it computes
    no more than 1000 ms + [slack] there. *)
Definition gives_up_at (ws : World H) (k : nat) : Prop :=
  1000 < elapsed (wait_start ws) (wait_hw ws) k /\
  (forall j, (j < k)%nat -> elapsed (wait_start ws) (wait_hw ws) j <= 1000) /\
  (forall slack,
     0 <= slack -> 1000 + slack < 2 ^ 32 ->
     elapsed (wait_start ws) (wait_hw ws) 0 <= slack ->
     (forall j, to_ulong (poll_clock (polls (S j) (wait_hw ws))
                          - poll_clock (polls j (wait_hw ws))) <= slack) ->
     elapsed (wait_start ws) (wait_hw ws) k <= 1000 + slack).

(** The state such a wait returns in: the start time was taken, R/B was
    sampled and the clock read [k] + 1 times, and the warning is the one
    line it has printed. *)
Definition timed_out (ws : World H) (k : nat) : World H :=
  say TIMEOUT_WARNING (with_hw (polls (S k) (wait_hw ws)) ws).

(** [nandReset], [nandReadData] and [nandWriteData]: the state when the
    ready-wait begins. *)
Definition reset_setup (w : World H) : World H :=
  command_cycle NAND_CMD_RESET (select w).

Definition nand_address (address : Z) : list Z :=
  let page := to_uint (address / 512) in
  let offset := to_uint (address mod 512) in
  [Z.land offset 0xFF; Z.land (Z.shiftr offset 8) 0xFF;
   Z.land page 0xFF; Z.land (Z.shiftr page 8) 0xFF; Z.land (Z.shiftr page 16) 0xFF].

Definition read_setup (address : Z) (w : World H) : World H :=
  command_cycle NAND_CMD_READ_CONFIRM
    (address_cycles (nand_address address) (command_cycle NAND_CMD_READ (select w))).

Definition program_setup (address : Z) (chunk : list Z) (w : World H) : World H :=
  command_cycle NAND_CMD_PROGRAM_CONFIRM
    (write_cycles chunk
       (address_cycles (nand_address address) (command_cycle NAND_CMD_PROGRAM (select w)))).

(** The state [nandWriteData] ends in when the wait has left [w2]. *)
Definition program_finish (w2 : World H) : World H :=
  let w3 := command_cycle NAND_CMD_READ_STATUS w2 in
  say (Println (if negb (Z.land (driven w3) 0x01 =? 0)
                then "Program failed!" else "Program successful"))
      (deselect (read_cycle w3)).

End PollVocabulary.

Section ReadVocabulary.

Context {H : Type} {HW : Hardware H}.

(** [k] read cycles in a row, and the bytes they return. *)
Fixpoint read_cycles (k : nat) (w : World H) : World H :=
  match k with
  | O => w
  | S k' => read_cycles k' (read_cycle w)
  end.

Fixpoint read_bytes (k : nat) (w : World H) : list Z :=
  match k with
  | O => []
  | S k' => driven w :: read_bytes k' (read_cycle w)
  end.

(** [only_prints m]: [m] always returns, and all it does is add to the
    serial output. *)
Definition only_prints {A : Type} (m : M H A) : Prop :=
  forall w, exists x t, m w = Some (x, with_serial (serial w ++ t) w).

End ReadVocabulary.

(** ** Reading a hex dump

    What a dump on the serial output shows: [hex_column] lists the values
    printed in the hex columns (a number printed in base 16 and followed by
    one blank; the address label of a row is followed by a colon), and
    [ascii_column] the characters of the text column, [None] for the dot
    that stands for a byte that is not printable. *)
Fixpoint hex_column (out : list Out) : list Z :=
  match out with
  | [] => []
  | PrintNum v base :: rest =>
      match rest with
      | Print s :: _ =>
          if (base =? HEX) && String.eqb s " " then v :: hex_column rest
          else hex_column rest
      | _ => hex_column rest
      end
  | _ :: rest => hex_column rest
  end.

Definition ascii_column (out : list Out) : list (option Z) :=
  flat_map (fun o =>
    match o with
    | WriteRaw v => [Some v]
    | Print s => if String.eqb s "." then [None] else []
    | _ => []
    end) out.

(** A byte as the text column of a dump shows it. *)
Definition as_text (b : Z) : option Z :=
  if (32 <=? b) && (b <=? 126) then Some b else None.

Section DumpVocabulary.

Context {H : Type} {HW : Hardware H}.

(** [shows m x hex text]: [m] always returns [x], all it does is add to the
    serial output, and what it adds shows the values [hex] in the hex
    columns and [text] in the text column, whatever is printed next. *)
Definition shows {A : Type} (m : M H A) (x : A) (hex : list Z) (text : list (option Z))
  : Prop :=
  forall w, exists t,
    m w = Some (x, with_serial (serial w ++ t) w) /\
    (forall rest, hex_column (t ++ rest) = hex ++ hex_column rest) /\
    ascii_column t = text.

End DumpVocabulary.

(** ** The simulated NAND chip under a run of cycles *)

(** The chip after the bytes [l] have been latched with the lines at [cle]
    and [ale]. *)
Definition chip_latches (cle ale : bool) (l : list Z) (n : NandChip) : NandChip :=
  fold_left (fun n v => sim_nand_latch cle ale (to_byte v) n) l n.

(** The bytes that [k] read cycles take from the chip. *)
Fixpoint chip_reads (k : nat) (n : NandChip) : list Z :=
  match k with
  | O => []
  | S k' => to_byte (sim_nand_drive n) :: chip_reads k' (sim_nand_advance n)
  end.

(** The chip after the cycles of a page program and of the status read that
    follows it, and after the cycles that set up a read. *)
Definition chip_programmed (a chunk : list Z) (n : NandChip) : NandChip :=
  sim_nand_advance
    (sim_nand_latch true false (to_byte NAND_CMD_READ_STATUS)
       (sim_nand_latch true false (to_byte NAND_CMD_PROGRAM_CONFIRM)
          (chip_latches false false chunk
             (chip_latches false true a
                (sim_nand_latch true false (to_byte NAND_CMD_PROGRAM) n))))).

Definition chip_loaded (a : list Z) (n : NandChip) : NandChip :=
  sim_nand_latch true false (to_byte NAND_CMD_READ_CONFIRM)
    (chip_latches false true a
       (sim_nand_latch true false (to_byte NAND_CMD_READ) n)).

(** The settings of the bench: the latency of the NAND chip, whether its
    ready/busy line is stuck, and the step of the clock. *)
Definition settings (b : Bench) : nat * bool * Z :=
  (nand_latency b, nand_stuck b, tick b).

(** [ready_bench b]: the NAND chip of the bench is ready, its ready/busy
    line works, and a wait for it is over before the 1000 ms are: the chip
    is busy for [nand_latency] samples of R/B, and the clock advances by
    [tick] between two of them. *)
Definition ready_bench (b : Bench) : Prop :=
  nand_busy b = 0%nat /\ nand_stuck b = false /\
  0 <= tick b /\ Z.of_nat (nand_latency b) * tick b <= 1000.

(** ** Vocabulary of the further properties *)

(** The control lines as [setup] leaves them: both chips deselected, the
    NAND latches low, the strobes high. *)
Definition safe_pins : Pins := mkPins HIGH LOW LOW HIGH HIGH HIGH.

Section FrameVocabulary.

Context {H : Type} {HW : Hardware H}.

(** [frames m before after closed]: [m] always returns, and its bus
    activity takes the SPI frame scanner from [before] to [after], closing
    the frames [closed]. *)
Definition frames {A : Type} (m : M H A) (before after : option (list Z))
  (closed : list (list Z)) : Prop :=
  forall w, exists x w', m w = Some (x, w') /\ scans w w' before after closed.

(** The erase frame of [spiErase]: the command the option selects and, for
    a sector or block erase, the 24-bit address, most significant byte
    first. *)
Definition spi_erase_frame (option : ascii) (address : Z) : list Z :=
  if Ascii.eqb option "1" then
    [SPI_CMD_SECTOR_ERASE; Z.land (Z.shiftr address 16) 0xFF;
     Z.land (Z.shiftr address 8) 0xFF; Z.land address 0xFF]
  else if Ascii.eqb option "2" then
    [SPI_CMD_BLOCK_ERASE_64K; Z.land (Z.shiftr address 16) 0xFF;
     Z.land (Z.shiftr address 8) 0xFF; Z.land address 0xFF]
  else if Ascii.eqb option "3" then [SPI_CMD_CHIP_ERASE]
  else [].

End FrameVocabulary.

(** The data bytes of an EEPROM write transaction: what follows the address
    phase. *)
Definition chunk_data (use16bitAddr : bool) (payload : list Z) : list Z :=
  skipn (if use16bitAddr then 2 else 1)%nat payload.

(** [carries use16bitAddr cur evs data]: the events [evs] are EEPROM write
    transactions that carry [data] in order and without gaps, the first
    addressed at [cur], each next one right after the last byte of the one
    before.  The address phase has room for the low 16 (resp. 8) bits of an
    address only. *)
Fixpoint carries (use16bitAddr : bool) (cur : Z) (evs : list BusEvent) (data : list Z)
  : Prop :=
  match evs with
  | [] => data = []
  | WireTx _ payload _ :: rest =>
      let d := chunk_data use16bitAddr payload in
      chunk_start use16bitAddr payload = cur mod (if use16bitAddr then 65536 else 256) /\
      d <> [] /\
      firstn (length d) data = d /\
      carries use16bitAddr (cur + Z.of_nat (length d)) rest (skipn (length d) data)
  | _ :: _ => False
  end.


(** The memory a bus event belongs to. *)
Definition bus_kind (e : BusEvent) : MemoryType :=
  match e with
  | NandCE _ | NandWrite _ _ _ | NandRead _ => MEM_NAND_FLASH
  | SpiCS _ | SpiXfer _ _ => MEM_SPI_FLASH
  | WireTx _ _ _ | WireRx _ _ _ => MEM_I2C_EEPROM
  end.

Section FrameConditions.

Context {H : Type} {HW : Hardware H}.

(** [preserves f m]: whenever [m] returns, the component [f] of the state
    is what it was. *)
Definition preserves {A B : Type} (f : World H -> B) (m : M H A) : Prop :=
  forall w x w', m w = Some (x, w') -> f w' = f w.

(** [moves p q m]: started with the control lines at [p], [m] leaves them
    at [q] whenever it returns. *)
Definition moves {A : Type} (p q : Pins) (m : M H A) : Prop :=
  forall w x w', m w = Some (x, w') -> pins w = p -> pins w' = q.

(** [on_bus t m]: run with memory type [t] selected, [m] keeps the
    selection and every bus event it adds belongs to [t]. *)
Definition on_bus (t : MemoryType) {A : Type} (m : M H A) : Prop :=
  forall w x w',
    m w = Some (x, w') ->
    currentMemoryType w = t ->
    currentMemoryType w' = t /\
    exists evs, bus w' = bus w ++ evs /\ Forall (fun e => bus_kind e = t) evs.

End FrameConditions.

(** * Properties *)

(** ** Integers and bits *)

Lemma below_eight (n : Z) :
  0 <= n < 8 -> n = 0 \/ n = 1 \/ n = 2 \/ n = 3 \/ n = 4 \/ n = 5 \/ n = 6 \/ n = 7.
Proof. lia. Qed.

Ltac bitwise :=
  repeat first
    [ rewrite Z.lor_spec | rewrite Z.land_spec
    | rewrite Z.shiftr_spec by lia | rewrite Z.shiftl_spec by lia
    | rewrite Z.mod_pow2_bits_low by lia ].

Ltac closed_bits :=
  repeat match goal with
  | |- context [Z.testbit ?x (?a + ?b)] =>
      let i := eval cbv in (a + b) in change (a + b) with i
  | |- context [Z.testbit ?x (?a - ?b)] =>
      let i := eval cbv in (a - b) in change (a - b) with i
  end;
  repeat match goal with
  | |- context [Z.testbit (Z.pos ?p) ?i] =>
      let v := eval cbv in (Z.testbit (Z.pos p) i) in
      change (Z.testbit (Z.pos p) i) with v
  | |- context [Z.testbit 0 ?i] =>
      let v := eval cbv in (Z.testbit 0 i) in
      change (Z.testbit 0 i) with v
  | |- context [Z.testbit ?x (Z.neg ?q)] =>
      rewrite (Z.testbit_neg_r x (Z.neg q)) by lia
  end;
  rewrite ?andb_true_r, ?andb_false_r, ?orb_false_r, ?orb_false_l, ?andb_false_l.

Ltac byte_bits n :=
  let Hlt := fresh in let Hge := fresh in let E := fresh in
  destruct (Z.lt_ge_cases n 8) as [Hlt | Hge];
  [ destruct (below_eight n ltac:(lia)) as [E|[E|[E|[E|[E|[E|[E|E]]]]]]];
    subst n; repeat (progress (bitwise; closed_bits)); try reflexivity
  | ].

Lemma lines_of_ports (P B d : Z) :
  Z.lor (Z.land (Z.shiftr (to_byte (Z.lor (Z.land P 3) (Z.shiftl (Z.land d 63) 2))) 2) 63)
        (Z.shiftl (Z.land (to_byte (Z.lor (Z.land B 252) (Z.land (Z.shiftr d 6) 3))) 3) 6)
  = to_byte d.
Proof.
  unfold to_byte. apply Z.bits_inj'. intros n Hn.
  byte_bits n.
  rewrite (Z.mod_pow2_bits_high d 8 n) by lia.
  rewrite Z.lor_spec, Z.land_spec, Z.shiftl_spec, Z.land_spec by lia.
  change 63 with (Z.ones 6). change 3 with (Z.ones 2).
  rewrite !Z.testbit_ones_nonneg by lia.
  replace (n <? 6) with false by (symmetry; apply Z.ltb_ge; lia).
  replace (n - 6 <? 2) with false by (symmetry; apply Z.ltb_ge; lia).
  now rewrite !andb_false_r.
Qed.

(* what nandReadByte assembles from PIND and PINB is the byte on the lines *)
Lemma byte_of_pins (P B v : Z) :
  to_byte (Z.lor (to_byte (Z.lor 0
      (Z.land (Z.shiftr (Z.lor (Z.land P 3) (Z.shiftl (Z.land (to_byte v) 63) 2)) 2) 63)))
      (Z.shiftl (Z.land (Z.lor (Z.land B 252) (Z.land (Z.shiftr (to_byte v) 6) 3)) 3) 6))
  = to_byte v.
Proof.
  unfold to_byte. apply Z.bits_inj'. intros n Hn.
  byte_bits n.
  rewrite !(Z.mod_pow2_bits_high _ 8 n) by lia. reflexivity.
Qed.

Lemma to_byte_small (v : Z) : is_byte v -> to_byte v = v.
Proof. unfold is_byte, to_byte. intros. apply Z.mod_small. lia. Qed.

Lemma to_byte_is_byte (v : Z) : is_byte (to_byte v).
Proof. unfold is_byte, to_byte. apply Z.mod_pos_bound. lia. Qed.

(* three address bytes of a 24-bit quantity do not see the wrap at 2^32 *)
Lemma byte_of_ulong (x s : Z) :
  0 <= s -> s + 8 <= 32 ->
  Z.land (Z.shiftr (to_ulong x) s) 255 = Z.land (Z.shiftr x s) 255.
Proof.
  intros Hs Hs'. unfold to_ulong. apply Z.bits_inj'. intros n Hn.
  rewrite !Z.land_spec, !Z.shiftr_spec by lia.
  destruct (Z.lt_ge_cases n 8).
  - rewrite Z.mod_pow2_bits_low by lia. reflexivity.
  - change 255 with (Z.ones 8). rewrite Z.testbit_ones_nonneg by lia.
    replace (n <? 8) with false by (symmetry; apply Z.ltb_ge; lia).
    now rewrite !andb_false_r.
Qed.

Lemma land_255_byte (x : Z) : Z.land x 255 = to_byte x.
Proof. unfold to_byte. change 255 with (Z.ones 8). apply Z.land_ones. lia. Qed.

(** ** The monad *)

Section Exec.

Context {H : Type} {HW : Hardware H}.

Lemma bind_exec {A B : Type} (m : M H A) (k : A -> M H B) (w w1 : World H) (a : A) :
  m w = Some (a, w1) -> bind m k w = k a w1.
Proof. intros E. unfold bind. now rewrite E. Qed.

Lemma bind_inv {A B : Type} (m : M H A) (k : A -> M H B) (w w' : World H) (b : B) :
  bind m k w = Some (b, w') ->
  exists a w1, m w = Some (a, w1) /\ k a w1 = Some (b, w').
Proof.
  unfold bind. destruct (m w) as [[a w1]|]; [|discriminate].
  intros E. now exists a, w1.
Qed.

Lemma when_exec (c : bool) (m : M H unit) (w : World H) :
  when c m w = if c then m w else Some (tt, w).
Proof. now destruct c. Qed.

Lemma for_each_app {A : Type} (l1 l2 : list A) (body : A -> M H unit) (w : World H) :
  for_each (l1 ++ l2) body w = (for_each l1 body ;; for_each l2 body) w.
Proof.
  revert w. induction l1 as [|x l1 IH]; intros w; cbn.
  - reflexivity.
  - unfold bind. destruct (body x w) as [[[] w1]|]; [|reflexivity].
    rewrite IH. reflexivity.
Qed.

Lemma for_each_map {A B : Type} (f : A -> B) (l : list A) (body : B -> M H unit) :
  for_each (map f l) body = for_each l (fun x => body (f x)).
Proof. induction l as [|x l IH]; cbn; [reflexivity | now rewrite IH]. Qed.

Lemma for_each_exec {A : Type} (l : list A) (body : A -> M H unit)
      (step : A -> World H -> World H) (w : World H) :
  (forall x w0, body x w0 = Some (tt, step x w0)) ->
  for_each l body w = Some (tt, fold_left (fun w0 x => step x w0) l w).
Proof.
  intros Hb. revert w. induction l as [|x l IH]; intros w; cbn.
  - reflexivity.
  - rewrite (bind_exec _ _ _ _ _ (Hb x w)). apply IH.
Qed.

(** Reading [data[0]] ... [data[n-1]] in turn reads the buffer. *)
Lemma interval_0 (n : Z) : interval 0 n = map Z.of_nat (seq 0 (Z.to_nat n)).
Proof. unfold interval. rewrite Z.sub_0_r. reflexivity. Qed.

Lemma elts_firstn (data : list Z) (n : nat) :
  (n <= length data)%nat ->
  map (fun k => elt data (Z.of_nat k)) (seq 0 n) = firstn n data.
Proof.
  revert n. induction data as [|d data IH]; intros n Hn.
  - cbn in Hn. assert (n = 0%nat) by lia. now subst.
  - destruct n as [|n]; [reflexivity|].
    cbn [seq map firstn]. f_equal.
    rewrite <- seq_shift, map_map. rewrite <- (IH n) by (cbn in Hn; lia).
    apply map_ext. intros k. unfold elt. rewrite !Nat2Z.id. reflexivity.
Qed.

Lemma elts_all (data : list Z) (n : Z) :
  n = Z.of_nat (length data) -> map (elt data) (interval 0 n) = data.
Proof.
  intros ->. rewrite interval_0, Nat2Z.id, map_map, elts_firstn by lia.
  apply firstn_all.
Qed.

Lemma elts_prefix (data : list Z) (n : Z) :
  0 <= n <= Z.of_nat (length data) ->
  map (elt data) (interval 0 n) = firstn (Z.to_nat n) data.
Proof.
  intros Hn. rewrite interval_0, map_map. apply elts_firstn. lia.
Qed.

End Exec.

Section NandExec.

Context {H : Type} {HW : Hardware H}.

Lemma nandWriteByte_raw (v : Z) (w : World H) :
  ce (pins w) = LOW ->
  nandWriteByte v w = Some (tt,
    let pd := to_byte (Z.lor (Z.land (PORTD w) 0x03) (Z.shiftl (Z.land v 0x3F) 2)) in
    let pb := to_byte (Z.lor (Z.land (PORTB w) 0xFC) (Z.land (Z.shiftr v 6) 0x03)) in
    let lines := Z.lor (Z.land (Z.shiftr pd 2) 0x3F) (Z.shiftl (Z.land pb 0x03) 6) in
  mkWorld (hw_delay 1 (nand_latch (cle (pins w)) (ale (pins w)) lines
                                  (hw_delay 1 (hw w))))
          (Z.lor (DDRD w) 0xFC) pd (Z.lor (DDRB w) 0x03) pb
          (pin_set NAND_WE_PIN HIGH (pins w))
          (wire w) (currentMemoryType w) (i2cAddress w)
          (bus w ++ [NandWrite (cle (pins w)) (ale (pins w)) lines])
          (serial w)).
Proof.
  destruct w as [h dd pd db pb [pcs pcle pale pwe pre pce] wi mt ia b s].
  cbn [pins ce]. intros ->.
  reflexivity.
Qed.

Lemma nandWriteByte_exec (v : Z) (w : World H) :
  ce (pins w) = LOW -> nandWriteByte v w = Some (tt, write_cycle v w).
Proof.
  intros Hce. rewrite (nandWriteByte_raw v w Hce). cbv zeta.
  unfold write_cycle. rewrite lines_of_ports. reflexivity.
Qed.

Lemma nandReadByte_raw (w : World H) :
  ce (pins w) = LOW ->
  nandReadByte w = Some (
    let v := to_byte (nand_drive (hw_delay 1 (hw w))) in
    let pind := Z.lor (Z.land (PORTD w) 0x03) (Z.shiftl (Z.land v 0x3F) 2) in
    let pinb := Z.lor (Z.land (PORTB w) 0xFC) (Z.land (Z.shiftr v 6) 0x03) in
    (to_byte (Z.lor (to_byte (Z.lor 0 (Z.land (Z.shiftr pind 2) 0x3F)))
                    (Z.shiftl (Z.land pinb 0x03) 6)),
     read_cycle w)).
Proof.
  destruct w as [h dd pd db pb [pcs pcle pale pwe pre pce] wi mt ia b s].
  cbn [pins ce]. intros ->.
  reflexivity.
Qed.

Lemma nandReadByte_exec (w : World H) :
  ce (pins w) = LOW -> nandReadByte w = Some (driven w, read_cycle w).
Proof.
  intros Hce. rewrite (nandReadByte_raw w Hce). cbv zeta.
  rewrite byte_of_pins. reflexivity.
Qed.

End NandExec.

Lemma to_uint_small (x : Z) : 0 <= x < 65536 -> to_uint x = x.
Proof. unfold to_uint. intros. apply Z.mod_small. lia. Qed.

Lemma to_ulong_small (x : Z) : 0 <= x < 4294967296 -> to_ulong x = x.
Proof. unfold to_ulong. intros. apply Z.mod_small. lia. Qed.

Lemma map_to_byte_bytes (l : list Z) : Forall is_byte l -> map to_byte l = l.
Proof.
  induction 1 as [|x l Hx _ IH]; cbn; [reflexivity|].
  now rewrite IH, to_byte_small.
Qed.

Section SpiExec.

Context {H : Type} {HW : Hardware H}.

Ltac step E := rewrite (bind_exec _ _ _ _ _ E).

Lemma digitalWrite_CS (v : bool) (w : World H) :
  digitalWrite SPI_CS_PIN v w = Some (tt, spi_cs v w).
Proof. reflexivity. Qed.

Lemma SPI_transfer_exec (b : Z) (w : World H) :
  SPI_transfer b w = Some (to_byte (fst (spi_exchange (to_byte b) (hw w))), spi_byte b w).
Proof. reflexivity. Qed.

Lemma spi_bytes_app (l1 l2 : list Z) (w : World H) :
  spi_bytes (l1 ++ l2) w = spi_bytes l2 (spi_bytes l1 w).
Proof. apply fold_left_app. Qed.

Lemma spi_loop_exec (data : list Z) (n : Z) (w : World H) :
  0 <= n <= Z.of_nat (length data) ->
  for_each (interval 0 n) (fun i => _ <- SPI_transfer (elt data i) ;; ret tt) w
  = Some (tt, spi_bytes (firstn (Z.to_nat n) data) w).
Proof.
  intros Hn.
  rewrite (for_each_exec _ _ (fun i w0 => spi_byte (elt data i) w0)) by reflexivity.
  rewrite <- (elts_prefix data n Hn). unfold spi_bytes.
  f_equal. f_equal. revert w. induction (interval 0 n) as [|i l IH]; intros w; cbn.
  - reflexivity.
  - apply IH.
Qed.

Lemma waitForSpiReady_exec (w : World H) :
  waitForSpiReady w = Some (negb (Z.land (polled_status w) 0x01 =? 0), status_poll w).
Proof. reflexivity. Qed.

Lemma spiWritePage_exec (address : Z) (data : list Z) (n : Z) (w : World H) :
  0 <= n <= Z.of_nat (length data) ->
  spiWritePage address data n w
  = Some (tt, page_program address (firstn (Z.to_nat n) data) w).
Proof.
  intros Hn. unfold spiWritePage.
  step (digitalWrite_CS LOW w).
  step (SPI_transfer_exec SPI_CMD_WRITE_ENABLE (spi_cs LOW w)).
  step (digitalWrite_CS HIGH (spi_byte SPI_CMD_WRITE_ENABLE (spi_cs LOW w))).
  unfold bind at 1, delay at 1, modify at 1.
  match goal with |- bind _ _ ?w1 = _ => step (digitalWrite_CS LOW w1) end.
  do 4 match goal with |- bind (SPI_transfer ?b) _ ?w1 = _ => step (SPI_transfer_exec b w1) end.
  match goal with |- bind _ _ ?w1 = _ => step (spi_loop_exec data n w1 Hn) end.
  match goal with |- bind _ _ ?w1 = _ => step (digitalWrite_CS HIGH w1) end.
  match goal with |- bind _ _ ?w1 = _ => step (waitForSpiReady_exec w1) end.
  unfold page_program. cbv zeta. rewrite spi_bytes_app. reflexivity.
Qed.

End SpiExec.

Section SpiFrames.

Context {H : Type} {HW : Hardware H}.

Lemma scans_trans (w w1 w2 : World H) (a b c : option (list Z)) (f1 f2 : list (list Z)) :
  scans w w1 a b f1 -> scans w1 w2 b c f2 -> scans w w2 a c (f1 ++ f2).
Proof.
  intros (e1 & B1 & S1) (e2 & B2 & S2). exists (e1 ++ e2). split.
  - rewrite B2, B1. now rewrite app_assoc.
  - intros rest. rewrite <- !app_assoc, S1, S2. reflexivity.
Qed.

Lemma scans_quiet (w w' : World H) (c : option (list Z)) :
  bus w' = bus w -> scans w w' c c [].
Proof. intros E. exists []. split; [now rewrite E, app_nil_r | reflexivity]. Qed.

Lemma scans_select (w : World H) : scans w (spi_cs LOW w) None (Some []) [].
Proof. exists [SpiCS LOW]. split; reflexivity. Qed.

Lemma scans_release (w : World H) (f : list Z) :
  scans w (spi_cs HIGH w) (Some f) None [f].
Proof. exists [SpiCS HIGH]. split; reflexivity. Qed.

Lemma scans_byte (b : Z) (w : World H) (f : list Z) :
  scans w (spi_byte b w) (Some f) (Some (f ++ [to_byte b])) [].
Proof. eexists [SpiXfer _ _]. split; reflexivity. Qed.

Lemma scans_bytes (l : list Z) (w : World H) (f : list Z) :
  scans w (spi_bytes l w) (Some f) (Some (f ++ map to_byte l)) [].
Proof.
  revert w f. induction l as [|b l IH]; intros w f.
  - cbn. rewrite app_nil_r. now apply scans_quiet.
  - change (spi_bytes (b :: l) w) with (spi_bytes l (spi_byte b w)).
    change (map to_byte (b :: l)) with ([to_byte b] ++ map to_byte l).
    rewrite app_assoc.
    apply (scans_trans _ _ _ _ _ _ [] []) with (1 := scans_byte b w f). apply IH.
Qed.

Lemma scans_delay (us : Z) (w : World H) (c : option (list Z)) :
  scans w (with_hw (hw_delay us (hw w)) w) c c [].
Proof. now apply scans_quiet. Qed.

Lemma scans_say (o : Out) (w : World H) (c : option (list Z)) :
  scans w (say o w) c c [].
Proof. now apply scans_quiet. Qed.

Lemma to_byte_land (x : Z) : to_byte (Z.land x 0xFF) = Z.land x 0xFF.
Proof. rewrite land_255_byte. apply to_byte_small, to_byte_is_byte. Qed.

Lemma scans_page_program (address : Z) (chunk : list Z) (w : World H) :
  Forall is_byte chunk ->
  scans w (page_program address chunk w) None None
        [[0x06];
         [0x02; Z.land (Z.shiftr address 16) 0xFF; Z.land (Z.shiftr address 8) 0xFF;
          Z.land address 0xFF] ++ chunk;
         [0x05; 0]].
Proof.
  intros Hc.
  pose proof (scans_select w) as S.
  pose proof (scans_trans _ _ _ _ _ _ _ _ S (scans_byte SPI_CMD_WRITE_ENABLE _ _)) as S1.
  pose proof (scans_trans _ _ _ _ _ _ _ _ S1 (scans_release _ _)) as S2.
  pose proof (scans_trans _ _ _ _ _ _ _ _ S2
    (scans_delay (1000 * 1) _ None)) as S3.
  pose proof (scans_trans _ _ _ _ _ _ _ _ S3 (scans_select _)) as S4.
  pose proof (scans_trans _ _ _ _ _ _ _ _ S4
    (scans_bytes ([SPI_CMD_PAGE_PROGRAM; Z.land (Z.shiftr address 16) 0xFF;
                   Z.land (Z.shiftr address 8) 0xFF; Z.land address 0xFF] ++ chunk) _ _))
    as S5.
  pose proof (scans_trans _ _ _ _ _ _ _ _ S5 (scans_release _ _)) as S6.
  pose proof (scans_trans _ _ _ _ _ _ _ _ S6 (scans_select _)) as S7.
  pose proof (scans_trans _ _ _ _ _ _ _ _ S7
    (scans_bytes [SPI_CMD_READ_STATUS; 0] _ _)) as S8.
  pose proof (scans_trans _ _ _ _ _ _ _ _ S8 (scans_release _ _)) as S9.
  pose proof (scans_trans _ _ _ _ _ _ _ _ S9
    (scans_say (Println "Write complete") _ None)) as S10.
  clear - S10 Hc.
  cbn [app map] in S10.
  rewrite !to_byte_land, (map_to_byte_bytes chunk Hc) in S10.
  exact S10.
Qed.

End SpiFrames.

Section Split.

Context {H : Type} {HW : Hardware H}.

(** C1: a SerialFlash write that crosses a 256-byte page boundary is split
    into exactly two page-program transactions, the first with the
    [256 - offset] bytes that fit at [address], the second with the rest at
    [address + (256 - offset)]; the two chunks, in order, are the payload. *)
Theorem spiWriteData_splits_in_two (address : Z) (data : list Z) (numBytes : Z)
        (w : World H) :
  is_ulong address ->
  buffer data numBytes ->
  256 < address mod 256 + numBytes ->
  let k := 256 - address mod 256 in
  let first := firstn (Z.to_nat k) data in
  let second := skipn (Z.to_nat k) data in
  exists w' evs,
    spiWriteData address data numBytes w = Some (tt, w') /\
    bus w' = bus w ++ evs /\
    spi_frames evs =
      [[SPI_CMD_WRITE_ENABLE];
       [SPI_CMD_PAGE_PROGRAM; Z.land (Z.shiftr address 16) 0xFF;
        Z.land (Z.shiftr address 8) 0xFF; Z.land address 0xFF] ++ first;
       [SPI_CMD_READ_STATUS; 0];
       [SPI_CMD_WRITE_ENABLE];
       [SPI_CMD_PAGE_PROGRAM; Z.land (Z.shiftr (address + k) 16) 0xFF;
        Z.land (Z.shiftr (address + k) 8) 0xFF; Z.land (address + k) 0xFF] ++ second;
       [SPI_CMD_READ_STATUS; 0]] /\
    first ++ second = data /\
    Z.of_nat (length first) = k /\
    Z.of_nat (length second) = numBytes - k.
Proof.
  intros Ha (Hn & Hmax & Hbytes) Hcross k first second.
  assert (Hoff : 0 <= address mod 256 < 256) by (apply Z.mod_pos_bound; lia).
  assert (Hk : 0 < k <= 256) by (unfold k; lia).
  assert (Hkn : k < numBytes) by (unfold k; lia).
  assert (Hak : address mod 256 = 256 - k) by (unfold k; lia).
  clearbody k.
  assert (Hlen1 : Z.of_nat (length first) = k).
  { unfold first. rewrite length_firstn. lia. }
  assert (Hlen2 : Z.of_nat (length second) = numBytes - k).
  { unfold second. rewrite length_skipn. lia. }
  assert (Hcat : first ++ second = data) by apply firstn_skipn.
  assert (Hb1 : Forall is_byte first).
  { rewrite <- Hcat in Hbytes. now apply Forall_app in Hbytes. }
  assert (Hb2 : Forall is_byte second).
  { rewrite <- Hcat in Hbytes. now apply Forall_app in Hbytes. }
  unfold spiWriteData. cbv zeta. rewrite Hak.
  rewrite (to_uint_small (256 - k)) by lia.
  rewrite (to_uint_small (256 - k + numBytes)) by lia.
  replace (256 <? 256 - k + numBytes) with true by (symmetry; apply Z.ltb_lt; lia).
  replace (256 - (256 - k)) with k by lia.
  rewrite (to_uint_small k) by lia.
  rewrite (to_uint_small (numBytes - k)) by lia.
  rewrite (bind_exec _ _ _ _ _ (eq_refl :
    Serial_println "Warning: Write crosses page boundary!" w = Some (tt, _))).
  rewrite (bind_exec _ _ _ _ _ (spiWritePage_exec address data k _ ltac:(lia))).
  rewrite spiWritePage_exec by (fold second; lia).
  fold first. fold second.
  replace (firstn (Z.to_nat (numBytes - k)) second) with second
    by (symmetry; apply firstn_all2; lia).
  pose proof (scans_say (Println "Warning: Write crosses page boundary!") w None) as S0.
  pose proof (scans_trans _ _ _ _ _ _ _ _ S0 (scans_page_program address first _ Hb1)) as S1.
  pose proof (scans_trans _ _ _ _ _ _ _ _ S1
    (scans_page_program (to_ulong (address + k)) second _ Hb2)) as S2.
  destruct S2 as (evs & HB & HF).
  eexists. exists evs. split; [reflexivity|]. split; [exact HB|].
  split; [|now repeat split].
  unfold spi_frames. rewrite <- (app_nil_r evs), HF.
  rewrite !byte_of_ulong by lia.
  rewrite <- (Z.shiftr_0_r (to_ulong (address + k))) at 1.
  rewrite (byte_of_ulong (address + k) 0) by lia. rewrite Z.shiftr_0_r.
  reflexivity.
Qed.

End Split.

(** ** NAND driver: execution *)

Ltac exec E := rewrite (bind_exec _ _ _ _ _ E); cbv beta.
Tactic Notation "exec_by" tactic3(tac) := erewrite bind_exec by tac; cbv beta.

Section NandDriver.

Context {H : Type} {HW : Hardware H}.

Lemma with_hw_with_hw (h1 h2 : H) (w : World H) :
  with_hw h2 (with_hw h1 w) = with_hw h2 w.
Proof. reflexivity. Qed.

Lemma waits_refl (w : World H) : waits w w.
Proof.
  exists (hw w), []. destruct w. unfold with_serial, with_hw. cbn [serial hw].
  now rewrite app_nil_r.
Qed.

Lemma waits_trans (w1 w2 w3 : World H) : waits w1 w2 -> waits w2 w3 -> waits w1 w3.
Proof.
  intros (h1 & s1 & ->) (h2 & s2 & ->). exists h2, (s1 ++ s2).
  destruct w1. unfold with_serial, with_hw. cbn. now rewrite app_assoc.
Qed.

Lemma waits_hw (h : H) (w : World H) : waits w (with_hw h w).
Proof.
  exists h, []. destruct w. unfold with_serial, with_hw. cbn. now rewrite app_nil_r.
Qed.

Lemma waits_say (o : Out) (w : World H) : waits w (say o w).
Proof. exists (hw w), [o]. destruct w. reflexivity. Qed.

Lemma waits_pins (w w' : World H) : waits w w' -> pins w' = pins w.
Proof. now intros (h & s & ->). Qed.

Lemma waits_bus (w w' : World H) : waits w w' -> bus w' = bus w.
Proof. now intros (h & s & ->). Qed.

Lemma waitForNandReady_loop_waits (fuel : nat) (startTime : Z) (w w' : World H) :
  waitForNandReady_loop fuel startTime w = Some (tt, w') -> waits w w'.
Proof.
  revert w. induction fuel as [|fuel IH]; intros w; cbn [waitForNandReady_loop].
  - discriminate.
  - unfold bind at 1. cbn [digitalRead].
    destruct (Bool.eqb (fst (nand_rb (hw w))) LOW).
    + unfold bind at 1. cbn [millis].
      match goal with |- (if ?c then _ else _) _ = _ -> _ => destruct c end.
      * intros E. injection E as <-.
        eapply waits_trans; [|apply waits_say].
        eapply waits_trans; apply waits_hw.
      * intros E. apply IH in E.
        eapply waits_trans; [|exact E].
        eapply waits_trans; apply waits_hw.
    + intros E. injection E as <-. apply waits_hw.
Qed.

Lemma waitForNandReady_waits (fuel : nat) (w w' : World H) :
  waitForNandReady fuel w = Some (tt, w') -> waits w w'.
Proof.
  unfold waitForNandReady, bind. cbn [millis]. intros E.
  apply waitForNandReady_loop_waits in E.
  eapply waits_trans; [apply waits_hw | exact E].
Qed.

Lemma digitalWrite_select (w : World H) :
  digitalWrite NAND_CE_PIN LOW w = Some (tt, select w).
Proof. reflexivity. Qed.

Lemma digitalWrite_deselect (w : World H) :
  digitalWrite NAND_CE_PIN HIGH w = Some (tt, deselect w).
Proof. reflexivity. Qed.

Lemma digitalWrite_latch (p : Pin) (v : bool) (w : World H) :
  p = NAND_CLE_PIN \/ p = NAND_ALE_PIN ->
  digitalWrite p v w = Some (tt, with_pins (pin_set p v (pins w)) w).
Proof. intros [-> | ->]; reflexivity. Qed.

(** A command cycle, as the drivers write it. *)
Lemma command_exec {B : Type} (c : Z) (k : M H B) (w : World H) :
  ce (pins w) = LOW ->
  (digitalWrite NAND_CLE_PIN HIGH ;; nandWriteByte c ;; digitalWrite NAND_CLE_PIN LOW ;; k) w
  = k (command_cycle c w).
Proof.
  intros Hce.
  exec_by (apply digitalWrite_latch; now left).
  exec_by (apply nandWriteByte_exec; exact Hce).
  exec_by (apply digitalWrite_latch; now left).
  reflexivity.
Qed.

Lemma ce_command_cycle (c : Z) (w : World H) :
  ce (pins (command_cycle c w)) = ce (pins w).
Proof. reflexivity. Qed.

Lemma ce_write_cycles (l : list Z) (w : World H) :
  ce (pins (write_cycles l w)) = ce (pins w).
Proof.
  revert w. induction l as [|v l IH]; intros w; [reflexivity|].
  change (write_cycles (v :: l) w) with (write_cycles l (write_cycle v w)).
  now rewrite IH.
Qed.

Lemma ce_address_cycles (l : list Z) (w : World H) :
  ce (pins (address_cycles l w)) = ce (pins w).
Proof.
  unfold address_cycles. cbv zeta. cbn [pins with_pins pin_set ce].
  now rewrite ce_write_cycles.
Qed.

Lemma write_loop_exec (data : list Z) (n : Z) (w : World H) :
  ce (pins w) = LOW ->
  0 <= n <= Z.of_nat (length data) ->
  for_each (interval 0 n) (fun i => nandWriteByte (elt data i)) w
  = Some (tt, write_cycles (firstn (Z.to_nat n) data) w).
Proof.
  intros Hce Hn. rewrite <- (elts_prefix data n Hn).
  revert w Hce. induction (interval 0 n) as [|i l IH]; intros w Hce.
  - reflexivity.
  - cbn [for_each map]. exec_by (apply nandWriteByte_exec; exact Hce).
    apply IH. exact Hce.
Qed.

Lemma address_exec {B : Type} (l : list Z) (k : M H B) (w : World H) :
  ce (pins w) = LOW ->
  (digitalWrite NAND_ALE_PIN HIGH ;;
   for_each l nandWriteByte ;;
   digitalWrite NAND_ALE_PIN LOW ;; k) w
  = k (address_cycles l w).
Proof.
  intros Hce.
  exec_by (apply digitalWrite_latch; now right).
  assert (Hl : forall w1, ce (pins w1) = LOW ->
            for_each l nandWriteByte w1 = Some (tt, write_cycles l w1)).
  { induction l as [|v l IH]; intros w1 H1; [reflexivity|].
    cbn [for_each]. exec_by (apply nandWriteByte_exec; exact H1).
    apply IH. exact H1. }
  exec_by (apply Hl; exact Hce).
  exec_by (apply digitalWrite_latch; now right).
  reflexivity.
Qed.

Lemma nandErase_unfold (fuel : nat) (option : ascii) (address : Z) (w : World H) :
  nandErase fuel option address w
  = match waitForNandReady fuel (erase_setup option address w) with
    | Some (_, w2) => Some (tt, erase_finish w2)
    | None => None
    end.
Proof.
  unfold nandErase.
  exec_by (apply digitalWrite_select).
  rewrite command_exec by reflexivity.
  assert (Hphase :
    forall (k : M H unit) w1, ce (pins w1) = LOW ->
      (when (Ascii.eqb option "1" || Ascii.eqb option "2")
         (let block := nandBlock address in
          digitalWrite NAND_ALE_PIN HIGH ;;
          nandWriteByte (Z.land block 0xFF) ;;
          nandWriteByte (Z.land (Z.shiftr block 8) 0xFF) ;;
          nandWriteByte (Z.land (Z.shiftr block 16) 0xFF) ;;
          digitalWrite NAND_ALE_PIN LOW) ;; k) w1
      = k (if Ascii.eqb option "1" || Ascii.eqb option "2"
           then address_cycles [Z.land (nandBlock address) 0xFF;
                                Z.land (Z.shiftr (nandBlock address) 8) 0xFF;
                                Z.land (Z.shiftr (nandBlock address) 16) 0xFF] w1
           else w1)).
  { intros k w1 Hce. destruct (Ascii.eqb option "1" || Ascii.eqb option "2").
    - cbv zeta. unfold when.
      pose proof (address_exec [Z.land (nandBlock address) 0xFF;
                                Z.land (Z.shiftr (nandBlock address) 8) 0xFF;
                                Z.land (Z.shiftr (nandBlock address) 16) 0xFF]
                               (ret tt) w1 Hce) as E.
      exec_by (etransitivity; [|exact E]; unfold bind; cbn [for_each];
               unfold bind, ret;
               repeat match goal with
                      | |- context [match ?x with _ => _ end] => destruct x as [[[] ?]|]
                      end; reflexivity).
      reflexivity.
    - reflexivity. }
  rewrite Hphase by reflexivity.
  rewrite command_exec
    by (destruct (Ascii.eqb option "1" || Ascii.eqb option "2"); reflexivity).
  fold (erase_setup option address w).
  unfold bind at 1.
  destruct (waitForNandReady fuel (erase_setup option address w)) as [[[] w2]|] eqn:Hwait;
    [|reflexivity].
  assert (Hce2 : ce (pins w2) = LOW).
  { rewrite (waits_pins _ _ (waitForNandReady_waits _ _ _ Hwait)).
    unfold erase_setup. cbv zeta.
    destruct (Ascii.eqb option "1" || Ascii.eqb option "2"); reflexivity. }
  rewrite command_exec by exact Hce2.
  exec_by (apply nandReadByte_exec; exact Hce2).
  exec_by (apply digitalWrite_deselect).
  unfold erase_finish. cbv zeta.
  destruct (negb (Z.land (driven (command_cycle NAND_CMD_READ_STATUS w2)) 1 =? 0));
    reflexivity.
Qed.

End NandDriver.

Section NandCycles.

Context {H : Type} {HW : Hardware H}.

(** *** What the erase puts on the bus *)

Lemma bus_write_cycles (l : list Z) (w : World H) :
  bus (write_cycles l w)
  = bus w ++ map (fun v => NandWrite (cle (pins w)) (ale (pins w)) (to_byte v)) l.
Proof.
  revert w. induction l as [|v l IH]; intros w.
  - cbn. now rewrite app_nil_r.
  - change (write_cycles (v :: l) w) with (write_cycles l (write_cycle v w)).
    rewrite IH. cbn [write_cycle bus pins pin_set cle ale map].
    now rewrite <- app_assoc.
Qed.

Lemma bus_command_cycle (c : Z) (w : World H) :
  bus (command_cycle c w) = bus w ++ [NandWrite HIGH (ale (pins w)) (to_byte c)].
Proof. reflexivity. Qed.

Lemma bus_address_cycles (l : list Z) (w : World H) :
  bus (address_cycles l w)
  = bus w ++ map (fun v => NandWrite (cle (pins w)) HIGH (to_byte v)) l.
Proof.
  unfold address_cycles. cbv zeta. cbn [bus with_pins]. now rewrite bus_write_cycles.
Qed.

Lemma latches_command_cycle (c : Z) (w : World H) :
  cle (pins (command_cycle c w)) = LOW /\
  ale (pins (command_cycle c w)) = ale (pins w).
Proof. split; vm_compute; reflexivity. Qed.

Lemma pins_write_cycles (l : list Z) (w : World H) :
  cle (pins (write_cycles l w)) = cle (pins w) /\
  ale (pins (write_cycles l w)) = ale (pins w).
Proof.
  revert w. induction l as [|v l IH]; intros w; [now split|].
  change (write_cycles (v :: l) w) with (write_cycles l (write_cycle v w)).
  destruct (IH (write_cycle v w)) as [-> ->]. now split.
Qed.

Lemma latches_address_cycles (l : list Z) (w : World H) :
  cle (pins (address_cycles l w)) = cle (pins w) /\
  ale (pins (address_cycles l w)) = LOW.
Proof.
  split; [|reflexivity].
  change (cle (pins (write_cycles l (with_pins (pin_set NAND_ALE_PIN HIGH (pins w)) w)))
          = cle (pins w)).
  now rewrite (proj1 (pins_write_cycles l _)).
Qed.

(** The cycles of [nandErase]: select, erase command, the three block
    bytes when the option is '1' or '2', erase confirm, then the status
    read and deselect. *)
Lemma nandErase_cycles (fuel : nat) (option : ascii) (address : Z) (w w' : World H) :
  nand_idle w ->
  nandErase fuel option address w = Some (tt, w') ->
  exists st,
    nand_cycles (bus w') =
    nand_cycles (bus w) ++
      [Select; Cmd NAND_CMD_ERASE] ++
      (if Ascii.eqb option "1" || Ascii.eqb option "2"
       then [Addr (Z.land (nandBlock address) 0xFF);
             Addr (Z.land (Z.shiftr (nandBlock address) 8) 0xFF);
             Addr (Z.land (Z.shiftr (nandBlock address) 16) 0xFF)]
       else []) ++
      [Cmd NAND_CMD_ERASE_CONFIRM; Cmd NAND_CMD_READ_STATUS; DataOut st; Deselect].
Proof.
  intros [Hcle Hale]. rewrite nandErase_unfold.
  destruct (waitForNandReady fuel (erase_setup option address w)) as [[[] w2]|] eqn:Hwait;
    [|discriminate].
  intros E. injection E as <-.
  pose proof (waitForNandReady_waits _ _ _ Hwait) as Hw.
  exists (driven (command_cycle NAND_CMD_READ_STATUS w2)).
  unfold erase_finish. cbv zeta.
  change (bus (say ?o ?x)) with (bus x).
  change (bus (deselect ?x)) with (bus x ++ [NandCE HIGH]).
  change (bus (read_cycle ?x)) with (bus x ++ [NandRead (driven x)]).
  rewrite bus_command_cycle, (waits_bus _ _ Hw), (waits_pins _ _ Hw).
  unfold erase_setup. cbv zeta.
  destruct (Ascii.eqb option "1" || Ascii.eqb option "2").
  - rewrite bus_command_cycle.
    destruct (latches_address_cycles
      [Z.land (nandBlock address) 0xFF; Z.land (Z.shiftr (nandBlock address) 8) 0xFF;
       Z.land (Z.shiftr (nandBlock address) 16) 0xFF]
      (command_cycle NAND_CMD_ERASE (select w))) as [_ Ha].
    rewrite Ha, bus_address_cycles, bus_command_cycle.
    cbn [pins command_cycle select log with_pins with_bus write_cycle pin_set cle ale bus map].
    rewrite Hale, !to_byte_land.
    unfold nand_cycles. rewrite !flat_map_app. cbn [flat_map app].
    rewrite <- !app_assoc. reflexivity.
  - rewrite !bus_command_cycle.
    cbn [pins command_cycle select log with_pins with_bus write_cycle pin_set cle ale bus].
    rewrite Hale.
    unfold nand_cycles. rewrite !flat_map_app. cbn [flat_map app].
    rewrite <- !app_assoc. reflexivity.
Qed.

(** Below 2^30 the block index is the quotient by the block size; it never
    has a bit above the sixteenth. *)
Lemma nandBlock_small (address : Z) :
  0 <= address < 2 ^ 30 -> nandBlock address = address / 16384.
Proof.
  intros Ha. unfold nandBlock. cbv zeta.
  change (to_uint (16 * 1024)) with 16384.
  apply to_uint_small. split.
  - apply Z.div_pos; lia.
  - apply Z.div_lt_upper_bound; lia.
Qed.

Lemma nandBlock_high_byte (address : Z) :
  Z.land (Z.shiftr (nandBlock address) 16) 0xFF = 0.
Proof.
  unfold nandBlock. cbv zeta. unfold to_uint at 1.
  rewrite Z.shiftr_div_pow2 by lia.
  rewrite Z.div_small by (apply Z.mod_pos_bound; lia). reflexivity.
Qed.

Example nandBlock_20000 : nandBlock 20000 = 1.
Proof. reflexivity. Qed.

(** Sector scope and block scope are the same erase. *)
Lemma nandErase_sector_is_block (fuel : nat) (address : Z) :
  nandErase fuel "1" address = nandErase fuel "2" address.
Proof.
  unfold nandErase.
  change (Ascii.eqb "1" "1" || Ascii.eqb "1" "2") with true.
  change (Ascii.eqb "2" "1" || Ascii.eqb "2" "2") with true.
  reflexivity.
Qed.

(** C2: a NAND write that would cross the 512-byte page boundary is refused
    at once: the only effect is the error line on the serial output; no pin
    moves, nothing is put on the bus, the hardware is not touched. *)
Theorem nandWriteData_refuses_boundary_crossing (fuel : nat) (address : Z)
        (data : list Z) (numBytes : Z) (w : World H) :
  is_ulong address ->
  buffer data numBytes ->
  512 < address mod 512 + numBytes ->
  nandWriteData fuel address data numBytes w
  = Some (tt, say (Println "Error: Write crosses page boundary!") w).
Proof.
  intros Ha (Hn & Hmax & _) Hcross.
  assert (Hoff : 0 <= address mod 512 < 512) by (apply Z.mod_pos_bound; lia).
  unfold nandWriteData. cbv zeta.
  rewrite (to_uint_small (address mod 512)) by lia.
  rewrite (to_uint_small (address mod 512 + numBytes)) by lia.
  replace (512 <? address mod 512 + numBytes) with true
    by (symmetry; apply Z.ltb_lt; lia).
  reflexivity.
Qed.

End NandCycles.

Lemma nandWriteData_refuses_boundary_crossing_witness :
  nandWriteData 3 510 [1; 2; 3] 3 (power_on bench0)
  = Some (tt, say (Println "Error: Write crosses page boundary!") (power_on bench0)).
Proof.
  apply nandWriteData_refuses_boundary_crossing.
  - (unfold is_ulong; lia).
  - (unfold buffer; cbn [length]; repeat split; try lia;
    repeat constructor; unfold is_byte; lia).
  - reflexivity.
Defined.

(** C9 (defect in the code): the block index is held in an [unsigned int].
    At address 0x40000000 the quotient by the block size is 65536, and the
    erase sends the block bytes 00 00 00. *)
Theorem nandErase_block_index_wraps :
  0x40000000 / 16384 = 65536 /\
  option_map (fun w => nand_cycles (bus w))
             (run (nandErase 3 "2" 0x40000000) (power_on bench0))
  = Some [Select; Cmd NAND_CMD_ERASE; Addr 0; Addr 0; Addr 0;
          Cmd NAND_CMD_ERASE_CONFIRM; Cmd NAND_CMD_READ_STATUS; DataOut 0x40; Deselect].
Proof. split; vm_compute; reflexivity. Qed.

(** C10 (defect in the code, the one of C9): on NAND a sector-scope erase is
    the block erase of the same address, with the block index held in an
    [unsigned int]: at address 0x40000000, where the quotient by the block
    size is 65536, it sends the block bytes 00 00 00. *)
Theorem nand_sector_erase_block_index_wraps :
  0x40000000 / 16384 = 65536 /\
  option_map (fun w => nand_cycles (bus w))
             (run (eraseMemory 3 (mkInput 0x40000000 0 [] "1" "" 0))
                  (with_currentMemoryType MEM_NAND_FLASH (power_on bench0)))
  = Some [Select; Cmd NAND_CMD_ERASE; Addr 0; Addr 0; Addr 0;
          Cmd NAND_CMD_ERASE_CONFIRM; Cmd NAND_CMD_READ_STATUS; DataOut 0x40; Deselect].
Proof. split; vm_compute; reflexivity. Qed.

(** C7 (defect in the code): [spiWritePage] reads the status register once
    and drops what it read.  On a flash that stays busy for three status
    reads after a page program, the write of one byte is reported complete
    after the single read that returned write-in-progress, and the chip is
    still busy; in a split write the second page program follows that read
    at once. *)
Theorem spiWritePage_completes_while_busy :
  option_map (fun w => (bus w, serial w, flash_status (flash (hw w))))
             (run (spiWritePage 0 [0xAB] 1) (power_on bench0))
  = Some ([SpiCS LOW; SpiXfer 0x06 0xFF; SpiCS HIGH;
           SpiCS LOW; SpiXfer 0x02 0xFF; SpiXfer 0 0xFF; SpiXfer 0 0xFF; SpiXfer 0 0xFF;
           SpiXfer 0xAB 0xFF; SpiCS HIGH;
           SpiCS LOW; SpiXfer 0x05 0xFF; SpiXfer 0 0x01; SpiCS HIGH],
          [Println "Write complete"], 1)
  /\
  option_map (fun w => bus w) (run (spiWriteData 255 [0xAB; 0xCD] 2) (power_on bench0))
  = Some [SpiCS LOW; SpiXfer 0x06 0xFF; SpiCS HIGH;
          SpiCS LOW; SpiXfer 0x02 0xFF; SpiXfer 0 0xFF; SpiXfer 0 0xFF; SpiXfer 0xFF 0xFF;
          SpiXfer 0xAB 0xFF; SpiCS HIGH;
          SpiCS LOW; SpiXfer 0x05 0xFF; SpiXfer 0 0x01; SpiCS HIGH;
          SpiCS LOW; SpiXfer 0x06 0xFF; SpiCS HIGH;
          SpiCS LOW; SpiXfer 0x02 0xFF; SpiXfer 0 0xFF; SpiXfer 1 0xFF; SpiXfer 0 0xFF;
          SpiXfer 0xCD 0xFF; SpiCS HIGH;
          SpiCS LOW; SpiXfer 0x05 0xFF; SpiXfer 0 0x01; SpiCS HIGH].
Proof. split; vm_compute; reflexivity. Qed.

Lemma spiWriteData_splits_in_two_witness :
  exists w' evs,
    spiWriteData 254 [1; 2; 3; 4] 4 (power_on bench0) = Some (tt, w') /\
    bus w' = bus (power_on bench0) ++ evs /\
    spi_frames evs =
      [[0x06]; [0x02; 0; 0; 254; 1; 2]; [0x05; 0];
       [0x06]; [0x02; 0; 1; 0; 3; 4]; [0x05; 0]] /\
    [1; 2] ++ [3; 4] = [1; 2; 3; 4] /\
    Z.of_nat (length [1; 2]) = 2 /\
    Z.of_nat (length [3; 4]) = 4 - 2.
Proof.
  apply (spiWriteData_splits_in_two 254 [1; 2; 3; 4] 4 (power_on bench0)).
  - unfold is_ulong. lia.
  - unfold buffer. cbn [length]. repeat split; try lia.
    repeat constructor; unfold is_byte; lia.
  - reflexivity.
Defined.

(** ** The command layer *)

Create HintDb keeps discriminated.

Section Keeps.

Context {H : Type} {HW : Hardware H}.

Lemma keeps_ret {A : Type} (a : A) : keeps (ret (H := H) a).
Proof. intros w x w' E. now injection E as _ <-. Qed.

Lemma keeps_bind {A B : Type} (m : M H A) (k : A -> M H B) :
  keeps m -> (forall a, keeps (k a)) -> keeps (bind m k).
Proof.
  intros Hm Hk w x w' E. apply bind_inv in E as (a & w1 & E1 & E2).
  rewrite (Hk a _ _ _ E2). exact (Hm _ _ _ E1).
Qed.

Lemma keeps_modify (f : World H -> World H) :
  (forall w, i2cAddress (f w) = i2cAddress w) -> keeps (modify f).
Proof. intros Hf w x w' E. injection E as _ <-. apply Hf. Qed.

Lemma keeps_gets {A : Type} (f : World H -> A) : keeps (gets f).
Proof. intros w x w' E. now injection E as _ <-. Qed.

Lemma keeps_out_of_fuel {A : Type} : keeps (out_of_fuel (H := H) (A := A)).
Proof. intros w x w' E. discriminate. Qed.

Lemma keeps_when (c : bool) (m : M H unit) : keeps m -> keeps (when c m).
Proof. destruct c; [trivial | intros _; apply keeps_ret]. Qed.

Lemma keeps_for_each {A : Type} (l : list A) (body : A -> M H unit) :
  (forall x, keeps (body x)) -> keeps (for_each l body).
Proof.
  intros Hb. induction l as [|x l IH]; cbn [for_each].
  - apply keeps_ret.
  - apply keeps_bind; [apply Hb | intros _; exact IH].
Qed.

Lemma keeps_foldM {A S : Type} (l : list A) (s : S) (body : A -> S -> M H S) :
  (forall x s0, keeps (body x s0)) -> keeps (foldM l s body).
Proof.
  intros Hb. revert s. induction l as [|x l IH]; intros s; cbn [foldM].
  - apply keeps_ret.
  - apply keeps_bind; [apply Hb | intros s'; apply IH].
Qed.

Lemma keeps_Serial_print (s : string) : keeps (Serial_print (H := H) s).
Proof. now apply keeps_modify. Qed.
Lemma keeps_Serial_println (s : string) : keeps (Serial_println (H := H) s).
Proof. now apply keeps_modify. Qed.
Lemma keeps_Serial_print_num (v b : Z) : keeps (Serial_print_num (H := H) v b).
Proof. now apply keeps_modify. Qed.
Lemma keeps_Serial_println_num (v b : Z) : keeps (Serial_println_num (H := H) v b).
Proof. now apply keeps_modify. Qed.
Lemma keeps_Serial_write (v : Z) : keeps (Serial_write (H := H) v).
Proof. now apply keeps_modify. Qed.
Lemma keeps_Serial_newline : keeps (Serial_newline (H := H)).
Proof. now apply keeps_modify. Qed.

Lemma keeps_digitalWrite (p : Pin) (v : bool) : keeps (digitalWrite p v).
Proof.
  apply keeps_modify. intros w. destruct p; cbv zeta beta;
    repeat match goal with |- context [if ?c then _ else _] => destruct c end;
    reflexivity.
Qed.

Lemma keeps_digitalRead (p : Pin) : keeps (digitalRead p).
Proof. intros w x w' E. destruct p; injection E as _ <-; reflexivity. Qed.

Lemma keeps_millis : keeps millis.
Proof. intros w x w' E. now injection E as _ <-. Qed.

Lemma keeps_delay (ms : Z) : keeps (delay ms).
Proof. now apply keeps_modify. Qed.
Lemma keeps_delayMicroseconds (us : Z) : keeps (delayMicroseconds us).
Proof. now apply keeps_modify. Qed.

Lemma keeps_SPI_transfer (b : Z) : keeps (SPI_transfer b).
Proof. intros w x w' E. now injection E as _ <-. Qed.

Lemma keeps_Wire_beginTransmission (a : Z) : keeps (Wire_beginTransmission (H := H) a).
Proof. now apply keeps_modify. Qed.

Lemma keeps_Wire_write (b : Z) : keeps (Wire_write (H := H) b).
Proof.
  apply keeps_modify. intros w. cbv zeta beta.
  now destruct (Z.of_nat (length (txBuffer (wire w))) <? BUFFER_LENGTH).
Qed.

Lemma keeps_Wire_endTransmission : keeps Wire_endTransmission.
Proof. intros w x w' E. now injection E as _ <-. Qed.

Lemma keeps_Wire_requestFrom (a q : Z) : keeps (Wire_requestFrom a q).
Proof. intros w x w' E. now injection E as _ <-. Qed.

Lemma keeps_Wire_available : keeps (Wire_available (H := H)).
Proof. apply keeps_gets. Qed.

Lemma keeps_Wire_read : keeps (Wire_read (H := H)).
Proof.
  intros w x w' E. unfold Wire_read in E. cbv zeta in E.
  destruct (rxBuffer (wire w)); now injection E as _ <-.
Qed.

End Keeps.

#[export] Hint Resolve keeps_ret keeps_gets keeps_out_of_fuel
  keeps_Serial_print keeps_Serial_println keeps_Serial_print_num
  keeps_Serial_println_num keeps_Serial_write keeps_Serial_newline
  keeps_digitalWrite keeps_digitalRead keeps_millis keeps_delay
  keeps_delayMicroseconds keeps_SPI_transfer keeps_Wire_beginTransmission
  keeps_Wire_write keeps_Wire_endTransmission keeps_Wire_requestFrom
  keeps_Wire_available keeps_Wire_read : keeps.

Ltac keeps_step :=
  lazymatch goal with
  | |- keeps (bind _ _) => apply keeps_bind; [|intro]
  | |- keeps (ret _) => apply keeps_ret
  | |- keeps (when _ _) => apply keeps_when
  | |- keeps (for_each _ _) => apply keeps_for_each; intro
  | |- keeps (foldM _ _ _) => apply keeps_foldM; intros
  | |- keeps (modify _) => apply keeps_modify; intros; reflexivity
  | |- keeps (if ?c then _ else _) => destruct c
  | |- keeps (match ?t with _ => _ end) => destruct t
  | |- keeps (let _ := _ in _) => cbv zeta
  | |- keeps _ => solve [auto with keeps]
  end.

Ltac keeps_all := repeat keeps_step.

Section KeepsDrivers.

Context {H : Type} {HW : Hardware H}.

Lemma keeps_nandWriteByte (v : Z) : keeps (nandWriteByte v).
Proof. unfold nandWriteByte. keeps_all. Qed.

Lemma keeps_nandReadByte : keeps nandReadByte.
Proof. unfold nandReadByte. keeps_all. Qed.

Local Hint Resolve keeps_nandWriteByte keeps_nandReadByte : keeps.

Lemma keeps_waitForNandReady (fuel : nat) : keeps (waitForNandReady fuel).
Proof.
  unfold waitForNandReady. apply keeps_bind; [auto with keeps | intros startTime].
  induction fuel as [|fuel IH]; cbn [waitForNandReady_loop]; keeps_all.
Qed.

Local Hint Resolve keeps_waitForNandReady : keeps.

Lemma keeps_nandReset (fuel : nat) : keeps (nandReset fuel).
Proof. unfold nandReset. keeps_all. Qed.

Lemma keeps_nandReadID : keeps nandReadID.
Proof. unfold nandReadID. keeps_all. Qed.

Lemma keeps_hexDump (readFunc : M H Z) (numBytes : Z) :
  keeps readFunc -> keeps (hexDump readFunc numBytes).
Proof. intros Hr. unfold hexDump. keeps_all. Qed.

Lemma keeps_nandSendAddress (offset page : Z) : keeps (nandSendAddress offset page).
Proof. unfold nandSendAddress. keeps_all. Qed.

Local Hint Resolve keeps_nandReset keeps_nandReadID keeps_hexDump
  keeps_nandSendAddress : keeps.

Lemma keeps_nandReadData (fuel : nat) (address numBytes : Z) :
  keeps (nandReadData fuel address numBytes).
Proof. unfold nandReadData. keeps_all. Qed.

Lemma keeps_nandWriteData (fuel : nat) (address : Z) (data : list Z) (numBytes : Z) :
  keeps (nandWriteData fuel address data numBytes).
Proof. unfold nandWriteData. keeps_all. Qed.

Lemma keeps_nandErase (fuel : nat) (option : ascii) (address : Z) :
  keeps (nandErase fuel option address).
Proof. unfold nandErase. keeps_all. Qed.

Lemma keeps_nandReadStatus : keeps nandReadStatus.
Proof. unfold nandReadStatus. keeps_all. Qed.

Lemma keeps_identifySPIFlash (m d1 d2 : Z) : keeps (identifySPIFlash (H := H) m d1 d2).
Proof. unfold identifySPIFlash. keeps_all. Qed.

Local Hint Resolve keeps_identifySPIFlash : keeps.

Lemma keeps_spiReadID : keeps spiReadID.
Proof. unfold spiReadID. keeps_all. Qed.

Lemma keeps_spiReadData (address numBytes : Z) : keeps (spiReadData address numBytes).
Proof. unfold spiReadData. keeps_all. Qed.

Lemma keeps_waitForSpiReady : keeps waitForSpiReady.
Proof. unfold waitForSpiReady. keeps_all. Qed.

Local Hint Resolve keeps_waitForSpiReady : keeps.

Lemma keeps_spiWritePage (address : Z) (data : list Z) (numBytes : Z) :
  keeps (spiWritePage address data numBytes).
Proof. unfold spiWritePage. keeps_all. Qed.

Local Hint Resolve keeps_spiWritePage : keeps.

Lemma keeps_spiWriteData (address : Z) (data : list Z) (numBytes : Z) :
  keeps (spiWriteData address data numBytes).
Proof. unfold spiWriteData. keeps_all. Qed.

Lemma keeps_spiErase_loop (fuel : nat) (startTime : Z) :
  keeps (spiErase_loop fuel startTime).
Proof.
  revert startTime. induction fuel as [|fuel IH]; intros startTime;
    cbn [spiErase_loop]; keeps_all.
Qed.

Local Hint Resolve keeps_spiErase_loop : keeps.

Lemma keeps_spiErase (fuel : nat) (option : ascii) (address : Z) :
  keeps (spiErase fuel option address).
Proof. unfold spiErase. keeps_all. Qed.

Lemma keeps_spiReadStatus : keeps spiReadStatus.
Proof. unfold spiReadStatus. keeps_all. Qed.

Lemma keeps_i2cDetect : keeps i2cDetect.
Proof. unfold i2cDetect. keeps_all. Qed.

Lemma keeps_i2cFill (js buffer : list Z) : keeps (i2cFill (H := H) js buffer).
Proof.
  revert buffer. induction js as [|j js IH]; intros buffer; cbn [i2cFill]; keeps_all.
Qed.

Local Hint Resolve keeps_i2cFill : keeps.

Lemma keeps_i2cReadData_loop (fuel : nat) (address numBytes : Z) (use16 : bool)
      (i : Z) (buffer : list Z) :
  keeps (i2cReadData_loop fuel address numBytes use16 i buffer).
Proof.
  revert i buffer. induction fuel as [|fuel IH]; intros i buffer;
    cbn [i2cReadData_loop]; keeps_all.
Qed.

Local Hint Resolve keeps_i2cReadData_loop : keeps.

Lemma keeps_i2cReadData (fuel : nat) (address numBytes : Z) :
  keeps (i2cReadData fuel address numBytes).
Proof. unfold i2cReadData. keeps_all. Qed.

Lemma keeps_i2cWriteChunk (use16 : bool) (currentAddr : Z) (data : list Z)
      (bytesWritten bytesToWrite : Z) :
  keeps (i2cWriteChunk use16 currentAddr data bytesWritten bytesToWrite).
Proof. unfold i2cWriteChunk. keeps_all. Qed.

Local Hint Resolve keeps_i2cWriteChunk : keeps.

Lemma keeps_i2cWriteData_loop (fuel : nat) (address : Z) (data : list Z) (numBytes : Z)
      (use16 : bool) (bytesWritten : Z) :
  keeps (i2cWriteData_loop fuel address data numBytes use16 bytesWritten).
Proof.
  revert bytesWritten. induction fuel as [|fuel IH]; intros bytesWritten;
    cbn [i2cWriteData_loop]; keeps_all.
Qed.

Local Hint Resolve keeps_i2cWriteData_loop : keeps.

Lemma keeps_i2cWriteData (address : Z) (data : list Z) (numBytes : Z) :
  keeps (i2cWriteData address data numBytes).
Proof. unfold i2cWriteData. keeps_all. Qed.

Local Hint Resolve keeps_i2cWriteData : keeps.

Lemma keeps_i2cErase (option : ascii) (address : Z) : keeps (i2cErase option address).
Proof. unfold i2cErase. keeps_all. Qed.

Lemma keeps_i2cReadStatus : keeps i2cReadStatus.
Proof. unfold i2cReadStatus. keeps_all. Qed.

Local Hint Resolve keeps_nandReadData keeps_nandWriteData keeps_nandErase
  keeps_nandReadStatus keeps_spiReadID keeps_spiReadData keeps_spiWriteData
  keeps_spiErase keeps_spiReadStatus keeps_i2cDetect keeps_i2cReadData
  keeps_i2cErase keeps_i2cReadStatus : keeps.

Lemma keeps_printMenu : keeps (printMenu (H := H)).
Proof. unfold printMenu. keeps_all. Qed.

Lemma keeps_setMemoryType (fuel : nat) (type : MemoryType) :
  keeps (setMemoryType fuel type).
Proof. unfold setMemoryType. keeps_all. Qed.

Lemma keeps_readDeviceID : keeps readDeviceID.
Proof. unfold readDeviceID. keeps_all. Qed.

Lemma keeps_readData (fuel : nat) (inp : Input) : keeps (readData fuel inp).
Proof. unfold readData. keeps_all. Qed.

Lemma keeps_writeData (fuel : nat) (inp : Input) : keeps (writeData fuel inp).
Proof. unfold writeData. keeps_all. Qed.

Lemma keeps_eraseDispatch (fuel : nat) (option : ascii) (address : Z) :
  keeps (eraseDispatch fuel option address).
Proof. unfold eraseDispatch. keeps_all. Qed.

Local Hint Resolve keeps_eraseDispatch : keeps.

Lemma keeps_eraseMemory (fuel : nat) (inp : Input) : keeps (eraseMemory fuel inp).
Proof. unfold eraseMemory. keeps_all. Qed.

Lemma keeps_readStatus : keeps readStatus.
Proof. unfold readStatus. keeps_all. Qed.

End KeepsDrivers.

(** ** EEPROM driver: every transaction goes to the session's bus address *)

Section Obeys.

Context {H : Type} {HW : Hardware H}.

Lemma obeys_bind {A B : Type} (a : Z) (p q r : bool) (m : M H A) (k : A -> M H B) :
  obeys a p q m -> (forall x, obeys a q r (k x)) -> obeys a p r (bind m k).
Proof.
  intros Hm Hk w x w' E Ha Hp. apply bind_inv in E as (y & w1 & E1 & E2).
  destruct (Hm _ _ _ E1 Ha Hp) as (Ha1 & Hq & evs1 & B1 & F1).
  destruct (Hk y _ _ _ E2 Ha1 Hq) as (Ha2 & Hr & evs2 & B2 & F2).
  split; [exact Ha2|]. split; [exact Hr|].
  exists (evs1 ++ evs2). split.
  - rewrite B2, B1. now rewrite app_assoc.
  - apply Forall_app. now split.
Qed.

Lemma obeys_target {B : Type} (a : Z) (p r : bool) (k : Z -> M H B) :
  obeys a p r (k a) -> obeys a p r (bind (gets i2cAddress) k).
Proof.
  intros Hk w x w' E Ha Hp. unfold bind, gets in E. rewrite Ha in E.
  exact (Hk _ _ _ E Ha Hp).
Qed.

Lemma obeys_weaken_post {A : Type} (a : Z) (p : bool) (m : M H A) :
  obeys a p true m -> obeys a p false m.
Proof.
  intros Hm w x w' E Ha Hp. destruct (Hm _ _ _ E Ha Hp) as (Ha1 & _ & Hev).
  split; [exact Ha1|]. split; [discriminate | exact Hev].
Qed.

Lemma obeys_strengthen_pre {A : Type} (a : Z) (q : bool) (m : M H A) :
  obeys a false q m -> obeys a true q m.
Proof.
  intros Hm w x w' E Ha Hp. apply (Hm _ _ _ E Ha). discriminate.
Qed.

(** Steps that put nothing on the bus and leave the TwoWire object alone. *)
Lemma obeys_quiet {A : Type} (a : Z) (p : bool) (m : M H A) :
  (forall w x w', m w = Some (x, w') ->
     i2cAddress w' = i2cAddress w /\ txAddress (wire w') = txAddress (wire w) /\
     bus w' = bus w) ->
  obeys a p p m.
Proof.
  intros Hm w x w' E Ha Hp. destruct (Hm _ _ _ E) as (E1 & E2 & E3).
  split; [congruence|]. split; [intros Hq; rewrite E2; auto|].
  exists []. split; [now rewrite E3, app_nil_r | constructor].
Qed.

Lemma obeys_ret {A : Type} (a : Z) (p : bool) (x : A) : obeys a p p (ret (H := H) x).
Proof. apply obeys_quiet. intros w y w' E. now injection E as _ <-. Qed.

Lemma obeys_modify_quiet (a : Z) (p : bool) (f : World H -> World H) :
  (forall w, i2cAddress (f w) = i2cAddress w /\
             txAddress (wire (f w)) = txAddress (wire w) /\ bus (f w) = bus w) ->
  obeys a p p (modify f).
Proof. intros Hf. apply obeys_quiet. intros w y w' E. injection E as _ <-. apply Hf. Qed.

Lemma obeys_out_of_fuel {A : Type} (a : Z) (p q : bool) :
  obeys a p q (out_of_fuel (H := H) (A := A)).
Proof. intros w x w' E. discriminate. Qed.

Lemma obeys_when (a : Z) (p : bool) (c : bool) (m : M H unit) :
  obeys a p p m -> obeys a p p (when c m).
Proof. destruct c; [trivial | intros _; apply obeys_ret]. Qed.

Lemma obeys_for_each {A : Type} (a : Z) (p : bool) (l : list A) (body : A -> M H unit) :
  (forall x, obeys a p p (body x)) -> obeys a p p (for_each l body).
Proof.
  intros Hb. induction l as [|x l IH]; cbn [for_each].
  - apply obeys_ret.
  - eapply obeys_bind; [apply Hb | intros _; exact IH].
Qed.

Lemma obeys_Wire_beginTransmission (a : Z) (p : bool) :
  obeys a p true (Wire_beginTransmission (H := H) a).
Proof.
  intros w x w' E Ha _. injection E as _ <-.
  split; [exact Ha|]. split; [reflexivity|].
  exists []. split; [cbn; now rewrite app_nil_r | constructor].
Qed.

Lemma obeys_Wire_write (a : Z) (b : Z) : obeys a true true (Wire_write (H := H) b).
Proof.
  apply obeys_modify_quiet. intros w. cbv zeta beta.
  now destruct (Z.of_nat (length (txBuffer (wire w))) <? BUFFER_LENGTH).
Qed.

Lemma obeys_Wire_endTransmission (a : Z) : obeys a true true Wire_endTransmission.
Proof.
  intros w x w' E Ha Hp. injection E as _ <-.
  split; [exact Ha|]. split; [intros _; now apply Hp|].
  eexists [_]. split; [reflexivity|].
  constructor; [|constructor]. cbn. now rewrite Hp.
Qed.

Lemma obeys_Wire_requestFrom (a q : Z) : obeys a true true (Wire_requestFrom a q).
Proof.
  intros w x w' E Ha Hp. injection E as _ <-.
  split; [exact Ha|]. split; [intros _; now apply Hp|].
  eexists [_]. split; [reflexivity|].
  constructor; [|constructor]. reflexivity.
Qed.

Lemma obeys_Wire_available (a : Z) (p : bool) : obeys a p p (Wire_available (H := H)).
Proof. apply obeys_quiet. intros w y w' E. now injection E as _ <-. Qed.

Lemma obeys_Wire_read (a : Z) (p : bool) : obeys a p p (Wire_read (H := H)).
Proof.
  apply obeys_quiet. intros w y w' E. unfold Wire_read in E. cbv zeta in E.
  destruct (rxBuffer (wire w)); now injection E as _ <-.
Qed.

Lemma obeys_say (a : Z) (p : bool) (o : Out) : obeys a p p (modify (say (H := H) o)).
Proof. now apply obeys_modify_quiet. Qed.

Lemma obeys_delay (a : Z) (p : bool) (ms : Z) : obeys a p p (delay ms).
Proof. now apply obeys_modify_quiet. Qed.

End Obeys.

Ltac obeys_leaf :=
  first
    [ apply obeys_Wire_beginTransmission
    | apply obeys_Wire_write
    | apply obeys_Wire_endTransmission
    | apply obeys_Wire_requestFrom
    | apply obeys_Wire_available
    | apply obeys_Wire_read
    | apply obeys_say
    | apply obeys_delay
    | apply obeys_ret
    | apply obeys_out_of_fuel
    | assumption ].

Ltac obeys_step :=
  lazymatch goal with
  | |- obeys _ _ _ (bind (gets i2cAddress) _) => apply obeys_target
  | |- obeys _ _ _ (bind _ _) => eapply obeys_bind; [|intro]
  | |- obeys _ _ _ (when _ _) => apply obeys_when
  | |- obeys _ _ _ (for_each _ _) => apply obeys_for_each; intro
  | |- obeys _ _ _ (if ?c then _ else _) => destruct c
  | |- obeys _ _ _ (let _ := _ in _) => cbv zeta
  | |- obeys _ _ _ (Serial_print _) => apply obeys_say
  | |- obeys _ _ _ (Serial_println _) => apply obeys_say
  | |- obeys _ _ _ (Serial_print_num _ _) => apply obeys_say
  | |- obeys _ _ _ (Serial_println_num _ _) => apply obeys_say
  | |- obeys _ _ _ (Serial_write _) => apply obeys_say
  | |- obeys _ _ _ Serial_newline => apply obeys_say
  | |- obeys _ true false _ => apply obeys_weaken_post
  | |- obeys _ _ _ _ => obeys_leaf
  end.

Ltac obeys_all := repeat obeys_step.

Section ObeysDrivers.

Context {H : Type} {HW : Hardware H}.

Lemma obeys_i2cFill (a : Z) (js buffer : list Z) :
  obeys a true true (i2cFill (H := H) js buffer).
Proof.
  revert buffer. induction js as [|j js IH]; intros buffer; cbn [i2cFill].
  - apply obeys_ret.
  - obeys_all. apply IH.
Qed.

Lemma obeys_i2cReadData_loop (a : Z) (fuel : nat) (address numBytes : Z) (use16 : bool)
      (i : Z) (buffer : list Z) :
  obeys a true true (i2cReadData_loop fuel address numBytes use16 i buffer).
Proof.
  revert i buffer. induction fuel as [|fuel IH]; intros i buffer;
    cbn [i2cReadData_loop]; [apply obeys_out_of_fuel|].
  destruct (i <? numBytes); [|apply obeys_ret].
  cbv zeta. apply obeys_target.
  eapply obeys_bind; [apply obeys_Wire_beginTransmission | intros _].
  eapply obeys_bind; [apply obeys_when, obeys_Wire_write | intros _].
  eapply obeys_bind; [apply obeys_Wire_write | intros _].
  eapply obeys_bind; [apply obeys_Wire_endTransmission | intros _].
  eapply obeys_bind; [apply obeys_Wire_requestFrom | intros _].
  eapply obeys_bind; [apply obeys_i2cFill | intros buffer'].
  eapply obeys_bind; [|intros _; apply IH].
  obeys_all.
Qed.

Lemma obeys_i2cReadData (a : Z) (fuel : nat) (address numBytes : Z) :
  obeys a false false (i2cReadData fuel address numBytes).
Proof.
  unfold i2cReadData. apply obeys_target.
  eapply obeys_bind; [apply obeys_Wire_beginTransmission | intros _].
  eapply obeys_bind; [apply obeys_Wire_endTransmission | intros error].
  apply obeys_weaken_post.
  destruct (negb (error =? 0)).
  - obeys_all.
  - cbv zeta. eapply obeys_bind; [apply obeys_i2cReadData_loop | intros _].
    apply obeys_say.
Qed.

Lemma obeys_i2cWriteChunk (a : Z) (use16 : bool) (currentAddr : Z) (data : list Z)
      (bytesWritten bytesToWrite : Z) :
  obeys a true true (i2cWriteChunk use16 currentAddr data bytesWritten bytesToWrite).
Proof.
  unfold i2cWriteChunk. apply obeys_target.
  eapply obeys_bind; [apply obeys_Wire_beginTransmission | intros _].
  obeys_all.
Qed.

Lemma obeys_i2cWriteData_loop (a : Z) (fuel : nat) (address : Z) (data : list Z)
      (numBytes : Z) (use16 : bool) (bytesWritten : Z) :
  obeys a true true (i2cWriteData_loop fuel address data numBytes use16 bytesWritten).
Proof.
  revert bytesWritten. induction fuel as [|fuel IH]; intros bytesWritten;
    cbn [i2cWriteData_loop]; destruct (bytesWritten <? numBytes);
    try apply obeys_ret; try apply obeys_out_of_fuel.
  cbv zeta. eapply obeys_bind; [apply obeys_i2cWriteChunk | intros _; apply IH].
Qed.

Lemma obeys_i2cWriteData (a : Z) (p : bool) (address : Z) (data : list Z) (numBytes : Z) :
  obeys a p true (i2cWriteData address data numBytes).
Proof.
  assert (Hf : obeys a false true (i2cWriteData address data numBytes)).
  { unfold i2cWriteData. apply obeys_target.
    eapply obeys_bind; [apply obeys_Wire_beginTransmission | intros _].
    eapply obeys_bind; [apply obeys_Wire_endTransmission | intros error].
    destruct (negb (error =? 0)).
    - obeys_all.
    - cbv zeta. eapply obeys_bind; [apply obeys_i2cWriteData_loop | intros _].
      apply obeys_say. }
  destruct p; [apply obeys_strengthen_pre|]; exact Hf.
Qed.

Lemma obeys_i2cErase (a : Z) (option : ascii) (address : Z) :
  obeys a false false (i2cErase option address).
Proof.
  unfold i2cErase.
  destruct (Ascii.eqb option "3"); cbv zeta.
  - eapply obeys_bind; [apply obeys_say | intros _].
    eapply obeys_bind; [|intros _; apply obeys_say].
    apply obeys_for_each. intros i.
    eapply obeys_bind; [apply obeys_i2cWriteData | intros _].
    apply obeys_weaken_post, obeys_when, obeys_say.
  - eapply obeys_bind; [apply obeys_say | intros _].
    eapply obeys_bind; [|intros _; apply obeys_say].
    apply obeys_for_each. intros i.
    eapply obeys_bind; [apply obeys_i2cWriteData | intros _].
    apply obeys_weaken_post, obeys_when, obeys_say.
Qed.

Lemma obeys_i2cReadStatus (a : Z) : obeys a false false i2cReadStatus.
Proof.
  unfold i2cReadStatus. apply obeys_target.
  eapply obeys_bind; [apply obeys_Wire_beginTransmission | intros _].
  eapply obeys_bind; [apply obeys_Wire_endTransmission | intros error].
  apply obeys_weaken_post.
  eapply obeys_bind; [apply obeys_say | intros _].
  eapply obeys_bind; [apply obeys_say | intros _].
  apply obeys_when.
  eapply obeys_bind; [apply obeys_Wire_beginTransmission | intros _].
  obeys_all.
Qed.

End ObeysDrivers.

(** ** Commands and the session state *)

Section Session.

Context {H : Type} {HW : Hardware H}.

Lemma setI2CAddress_accepts (inp : Input) (w : World H) :
  valid_i2cAddress (to_byte (addressValue inp)) ->
  setI2CAddress inp w
  = Some (tt, say (PrintlnNum (to_byte (addressValue inp)) HEX)
               (say (Print "I2C address set to 0x")
                 (with_i2cAddress (to_byte (addressValue inp))
                   (say (Println "Enter I2C address (in hex, e.g. 50 for 0x50):") w)))).
Proof.
  intros [Hlo Hhi]. unfold setI2CAddress. cbv zeta.
  exec_by reflexivity.
  replace ((8 <=? to_byte (addressValue inp)) && (to_byte (addressValue inp) <=? 119))
    with true
    by (symmetry; apply andb_true_intro; split; apply Z.leb_le; assumption).
  reflexivity.
Qed.

Lemma setI2CAddress_rejects (inp : Input) (w : World H) :
  ~ valid_i2cAddress (to_byte (addressValue inp)) ->
  setI2CAddress inp w
  = Some (tt, say (Println "Invalid I2C address! Valid range is 0x08-0x77")
               (say (Println "Enter I2C address (in hex, e.g. 50 for 0x50):") w)).
Proof.
  intros Hv. unfold setI2CAddress. cbv zeta.
  exec_by reflexivity.
  replace ((8 <=? to_byte (addressValue inp)) && (to_byte (addressValue inp) <=? 119))
    with false; [reflexivity|].
  symmetry. apply andb_false_iff. unfold valid_i2cAddress in Hv.
  destruct (Z.leb_spec 8 (to_byte (addressValue inp))); [|now left].
  right. apply Z.leb_gt. lia.
Qed.

Lemma valid_i2cAddress_dec (a : Z) : {valid_i2cAddress a} + {~ valid_i2cAddress a}.
Proof.
  unfold valid_i2cAddress.
  destruct (Z_le_dec 8 a); [destruct (Z_le_dec a 119)|]; [left | right | right]; lia.
Qed.

Lemma setI2CAddress_valid (inp : Input) (w w' : World H) :
  valid_i2cAddress (i2cAddress w) ->
  setI2CAddress inp w = Some (tt, w') ->
  valid_i2cAddress (i2cAddress w').
Proof.
  intros Hw. destruct (valid_i2cAddress_dec (to_byte (addressValue inp))) as [Hv | Hv].
  - rewrite (setI2CAddress_accepts inp w Hv). intros E. injection E as <-. exact Hv.
  - rewrite (setI2CAddress_rejects inp w Hv). intros E. injection E as <-. exact Hw.
Qed.

Lemma handleCommand_valid (fuel : nat) (cmd : ascii) (inp : Input) (w w' : World H) :
  valid_i2cAddress (i2cAddress w) ->
  handleCommand fuel cmd inp w = Some (tt, w') ->
  valid_i2cAddress (i2cAddress w').
Proof.
  intros Hw. unfold handleCommand.
  repeat match goal with
  | |- (if ?c then _ else _) w = _ -> _ => destruct c
  end;
  intros E;
  lazymatch type of E with
  | setI2CAddress _ _ = _ => exact (setI2CAddress_valid _ _ _ Hw E)
  | setMemoryType _ _ _ = _ => rewrite (keeps_setMemoryType _ _ _ _ _ E); exact Hw
  | readDeviceID _ = _ => rewrite (keeps_readDeviceID _ _ _ E); exact Hw
  | readData _ _ _ = _ => rewrite (keeps_readData _ _ _ _ _ E); exact Hw
  | writeData _ _ _ = _ => rewrite (keeps_writeData _ _ _ _ _ E); exact Hw
  | eraseMemory _ _ _ = _ => rewrite (keeps_eraseMemory _ _ _ _ _ E); exact Hw
  | readStatus _ = _ => rewrite (keeps_readStatus _ _ _ E); exact Hw
  | printMenu _ = _ => rewrite (keeps_printMenu _ _ _ E); exact Hw
  | ret _ _ = _ => rewrite (keeps_ret _ _ _ _ E); exact Hw
  | Serial_println _ _ = _ => rewrite (keeps_Serial_println _ _ _ _ E); exact Hw
  end.
Qed.

Lemma session_valid (fuel : nat) (cmds : list (ascii * Input)) (w w' : World H) :
  valid_i2cAddress (i2cAddress w) ->
  session fuel cmds w = Some (tt, w') ->
  valid_i2cAddress (i2cAddress w').
Proof.
  revert w. induction cmds as [|[cmd inp] cmds IH]; intros w Hw; cbn [session].
  - intros E. now injection E as <-.
  - intros E. apply bind_inv in E as ([] & w1 & E1 & E2).
    exact (IH _ (handleCommand_valid _ _ _ _ _ Hw E1) E2).
Qed.

(** C6: [setI2CAddress] stores every address in [0x08, 0x77] and refuses
    every other one, leaving the address as it was; started from the default
    0x50, the address is in that range after every command of a session; and
    every bus transaction of the EEPROM read, write, erase and status
    operations goes to the address of the session. *)
Theorem setI2CAddress_keeps_the_bus_address_valid :
  (forall (inp : Input) (w : World H),
     let v := to_byte (addressValue inp) in
     (valid_i2cAddress v ->
      setI2CAddress inp w
      = Some (tt, say (PrintlnNum v HEX)
                   (say (Print "I2C address set to 0x")
                     (with_i2cAddress v
                       (say (Println "Enter I2C address (in hex, e.g. 50 for 0x50):") w)))))
     /\
     (~ valid_i2cAddress v ->
      setI2CAddress inp w
      = Some (tt, say (Println "Invalid I2C address! Valid range is 0x08-0x77")
                   (say (Println "Enter I2C address (in hex, e.g. 50 for 0x50):") w))))
  /\
  (forall (fuel : nat) (cmds : list (ascii * Input)) (h : H) (w' : World H),
     session fuel cmds (power_on h) = Some (tt, w') ->
     valid_i2cAddress (i2cAddress w'))
  /\
  (forall (a : Z) (fuel : nat) (address numBytes : Z) (data : list Z) (option : ascii),
     obeys a false false (i2cReadData fuel address numBytes) /\
     obeys a false false (i2cWriteData address data numBytes) /\
     obeys a false false (i2cErase option address) /\
     obeys a false false i2cReadStatus).
Proof.
  split; [|split].
  - intros inp w v. split.
    + apply setI2CAddress_accepts.
    + apply setI2CAddress_rejects.
  - intros fuel cmds h w'. apply session_valid. unfold valid_i2cAddress. cbn. lia.
  - intros a fuel address numBytes data option. split; [|split; [|split]].
    + apply obeys_i2cReadData.
    + apply obeys_weaken_post, obeys_i2cWriteData.
    + apply obeys_i2cErase.
    + apply obeys_i2cReadStatus.
Qed.

(** The five memory commands answer "Please select memory type first!" and
    do nothing else while no memory type is selected. *)
Lemma guarded_commands_refuse (fuel : nat) (inp : Input) (w : World H) :
  currentMemoryType w = MEM_UNKNOWN ->
  let refused := Some (tt, say (Println "Please select memory type first!") w) in
  readDeviceID w = refused /\
  readData fuel inp w = refused /\
  writeData fuel inp w = refused /\
  eraseMemory fuel inp w = refused /\
  readStatus w = refused.
Proof.
  intros Ht refused.
  assert (Hg : gets currentMemoryType w = Some (MEM_UNKNOWN, w))
    by (unfold gets; now rewrite Ht).
  split; [|split; [|split; [|split]]].
  - unfold readDeviceID. exec Hg. reflexivity.
  - unfold readData. exec Hg. reflexivity.
  - unfold writeData. exec Hg. reflexivity.
  - unfold eraseMemory. exec Hg. reflexivity.
  - unfold readStatus. exec Hg. reflexivity.
Qed.

Lemma serial_is_not_refusal (w : World H) (s : list Out) (w' : World H) :
  serial w' = serial w ++ s ->
  (2 <= length s)%nat ->
  Some (tt, w') <> Some (tt, say (Println "Please select memory type first!") w).
Proof.
  intros Hs Hl E. injection E as ->. cbn [serial say with_serial] in Hs.
  apply app_inv_head in Hs. subst s. cbn in Hl. lia.
Qed.

(** C5 (defect in the code): [setI2CAddress] lacks the guard its five
    siblings have.  While no memory type is selected, [readDeviceID],
    [readData], [writeData], [eraseMemory] and [readStatus] print "Please
    select memory type first!" and change nothing else.  [setI2CAddress]
    does not refuse: for every input it prompts for the address and goes
    on; with an address in [0x08, 0x77] it stores it as the bus address of
    the session and confirms, the memory type still unselected. *)
Theorem setI2CAddress_lacks_the_memory_type_guard (fuel : nat) (inp : Input)
        (w : World H) :
  currentMemoryType w = MEM_UNKNOWN ->
  let refused := Some (tt, say (Println "Please select memory type first!") w) in
  (readDeviceID w = refused /\
   readData fuel inp w = refused /\
   writeData fuel inp w = refused /\
   eraseMemory fuel inp w = refused /\
   readStatus w = refused) /\
  setI2CAddress inp w <> refused /\
  handleCommand fuel "a" inp w = setI2CAddress inp w /\
  (valid_i2cAddress (to_byte (addressValue inp)) ->
   exists w',
     setI2CAddress inp w = Some (tt, w') /\
     currentMemoryType w' = MEM_UNKNOWN /\
     i2cAddress w' = to_byte (addressValue inp) /\
     bus w' = bus w /\
     serial w'
     = serial w ++ [Println "Enter I2C address (in hex, e.g. 50 for 0x50):";
                    Print "I2C address set to 0x";
                    PrintlnNum (to_byte (addressValue inp)) HEX]).
Proof.
  intros Ht refused.
  split; [exact (guarded_commands_refuse fuel inp w Ht)|].
  split; [|split; [reflexivity|]].
  - destruct (valid_i2cAddress_dec (to_byte (addressValue inp))) as [Hv | Hv].
    + rewrite (setI2CAddress_accepts inp w Hv).
      apply (serial_is_not_refusal w
               [Println "Enter I2C address (in hex, e.g. 50 for 0x50):";
                Print "I2C address set to 0x";
                PrintlnNum (to_byte (addressValue inp)) HEX]); [|cbn; lia].
      cbn [serial say with_serial with_i2cAddress]. rewrite <- !app_assoc. reflexivity.
    + rewrite (setI2CAddress_rejects inp w Hv).
      apply (serial_is_not_refusal w
               [Println "Enter I2C address (in hex, e.g. 50 for 0x50):";
                Println "Invalid I2C address! Valid range is 0x08-0x77"]); [|cbn; lia].
      cbn [serial say with_serial]. rewrite <- !app_assoc. reflexivity.
  - intros Hv. eexists. split; [exact (setI2CAddress_accepts inp w Hv)|].
    split; [exact Ht|]. split; [reflexivity|]. split; [reflexivity|].
    cbn [serial say with_serial with_i2cAddress]. rewrite <- !app_assoc. reflexivity.
Qed.

End Session.

Lemma setI2CAddress_lacks_the_memory_type_guard_witness :
  let w := power_on bench0 in
  let inp := mkInput 0x100 16 [1; 2; 3] "2" "YES" 0x61 in
  readData 3 inp w = Some (tt, say (Println "Please select memory type first!") w) /\
  option_map (fun w' => (currentMemoryType w', i2cAddress w', serial w'))
             (run (handleCommand 3 "a" inp) w)
  = Some (MEM_UNKNOWN, 0x61,
          [Println "Enter I2C address (in hex, e.g. 50 for 0x50):";
           Print "I2C address set to 0x"; PrintlnNum 0x61 16]) /\
  i2cAddress w = 0x50.
Proof.
  intros w inp.
  destruct (setI2CAddress_lacks_the_memory_type_guard 3 inp w eq_refl)
    as ((_ & Hr & _) & _ & Hh & Ha).
  split; [exact Hr|]. split; [|reflexivity].
  destruct Ha as (w' & E & Ht & Hi & _ & Hs); [split; cbn; lia|].
  unfold run. rewrite Hh, E. cbn [option_map]. rewrite Ht, Hi, Hs. reflexivity.
Defined.

Lemma setI2CAddress_keeps_the_bus_address_valid_witness :
  let cmds := [("3"%char, mkInput 0 0 [] "1" "" 0);
               ("a"%char, mkInput 0 0 [] "1" "" 0x61);
               ("a"%char, mkInput 0 0 [] "1" "" 0x05)] in
  exists w',
    session 3 cmds (power_on bench0) = Some (tt, w') /\
    i2cAddress w' = 0x61 /\
    valid_i2cAddress (i2cAddress w').
Proof.
  intros cmds. eexists. split; [vm_compute; reflexivity|]. split; [reflexivity|].
  apply (proj1 (proj2 setI2CAddress_keeps_the_bus_address_valid) 3%nat cmds bench0).
  vm_compute. reflexivity.
Defined.

(** ** EEPROM driver: page-bounded chunks *)

Section Chunks.

Context {H : Type} {HW : Hardware H}.

Lemma Wire_write_exec (b : Z) (w : World H) :
  Z.of_nat (length (txBuffer (wire w))) < BUFFER_LENGTH ->
  Wire_write b w = Some (tt, wire_push [b] w).
Proof.
  intros Hl. unfold Wire_write, modify. cbv zeta.
  replace (Z.of_nat (length (txBuffer (wire w))) <? BUFFER_LENGTH) with true
    by (symmetry; now apply Z.ltb_lt).
  reflexivity.
Qed.

Lemma wire_push_push (l1 l2 : list Z) (w : World H) :
  wire_push l2 (wire_push l1 w) = wire_push (l1 ++ l2) w.
Proof.
  unfold wire_push. destruct w. cbn. now rewrite map_app, app_assoc.
Qed.

Lemma wire_writes_exec (l : list Z) (f : Z -> Z) (w : World H) :
  Z.of_nat (length (txBuffer (wire w))) + Z.of_nat (length l) <= BUFFER_LENGTH ->
  for_each l (fun i => Wire_write (f i)) w = Some (tt, wire_push (map f l) w).
Proof.
  revert w. induction l as [|i l IH]; intros w Hl.
  - cbn. unfold wire_push. destruct w as [? ? ? ? ? ? [? ? ?] ? ? ? ?]. cbn.
    now rewrite app_nil_r.
  - cbn [for_each map]. cbn [length] in Hl.
    exec_by (apply Wire_write_exec; lia).
    rewrite IH.
    + now rewrite wire_push_push.
    + unfold wire_push. cbn. rewrite length_app. cbn. lia.
Qed.


Lemma length_interval (a b : Z) : Z.of_nat (length (interval a b)) = Z.max 0 (b - a).
Proof. unfold interval. rewrite length_map, length_seq. lia. Qed.

(** One chunk is one write transaction to the session's address: the
    address phase followed by the data bytes. *)
Lemma i2cWriteChunk_event (use16 : bool) (cur : Z) (data : list Z) (bw btw : Z)
      (w : World H) :
  0 <= btw <= 8 ->
  exists w' err,
    i2cWriteChunk use16 cur data bw btw w = Some (tt, w') /\
    bus w' = bus w ++
      [WireTx (i2cAddress w)
              (map to_byte
                 ((if use16 then [Z.land (Z.shiftr cur 8) 0xFF] else []) ++
                  [Z.land cur 0xFF] ++
                  map (fun i => elt data (to_uint (bw + i))) (interval 0 btw)))
              err].
Proof.
  intros Hb. unfold i2cWriteChunk.
  exec_by reflexivity. exec_by reflexivity.
  set (w1 := with_wire _ w).
  assert (Hhdr : exists w2,
    when use16 (Wire_write (Z.land (Z.shiftr cur 8) 0xFF)) w1 = Some (tt, w2) /\
    w2 = wire_push (if use16 then [Z.land (Z.shiftr cur 8) 0xFF] else []) w1).
  { destruct use16; cbn [when].
    - eexists. split; [apply Wire_write_exec; unfold w1, BUFFER_LENGTH; cbn; lia | reflexivity].
    - eexists. split; [reflexivity|]. unfold wire_push, w1. destruct w. reflexivity. }
  destruct Hhdr as (w2 & E2 & ->).
  exec E2.
  exec_by (apply Wire_write_exec; unfold wire_push, w1, BUFFER_LENGTH; destruct use16; cbn; lia).
  rewrite wire_push_push.
  exec_by (apply wire_writes_exec; unfold wire_push, w1, BUFFER_LENGTH;
           cbn [wire with_wire txBuffer app];
           rewrite length_map, length_app, length_interval;
           destruct use16; cbn [length]; lia).
  rewrite wire_push_push.
  exec_by reflexivity.
  eexists. eexists. split; [reflexivity|].
  unfold wire_push, w1. cbn [bus log with_bus with_wire with_hw wire txBuffer txAddress
                             i2cAddress app].
  rewrite <- app_assoc. reflexivity.
Qed.


Lemma low_byte_mod_8 (x : Z) : to_byte (Z.land x 0xFF) mod 8 = x mod 8.
Proof.
  rewrite to_byte_land, land_255_byte. unfold to_byte.
  change (2 ^ 8) with 256. apply Z.mod_mod_divide. exists 32. reflexivity.
Qed.

(** The transaction of a chunk that starts at [cur] and has [btw] data
    bytes stays in the page of [cur] when [cur mod 8 + btw <= 8]. *)
Lemma chunk_event_in_page (use16 : bool) (cur btw target err : Z) (datapart : list Z) :
  Z.of_nat (length datapart) = btw ->
  0 < btw ->
  cur mod 8 + btw <= 8 ->
  chunk_event use16
    (WireTx target
       (map to_byte ((if use16 then [Z.land (Z.shiftr cur 8) 0xFF] else []) ++
                     [Z.land cur 0xFF] ++ datapart)) err).
Proof.
  intros Hlen Hpos Hin. unfold chunk_event, chunk_in_page, chunk_length, chunk_start.
  destruct use16; cbn [app map nth length]; rewrite length_map.
  - split; [lia|].
    replace ((256 * to_byte (Z.land (Z.shiftr cur 8) 255) + to_byte (Z.land cur 255)) mod 8)
      with (cur mod 8); [lia|].
    rewrite Z.add_comm, Z.mul_comm.
    replace 256 with (32 * 8) by reflexivity. rewrite Z.mul_assoc, Z_mod_plus_full.
    symmetry. apply low_byte_mod_8.
  - split; [lia|]. rewrite low_byte_mod_8. lia.
Qed.

Lemma i2cWriteData_loop_chunks (fuel : nat) (address : Z) (data : list Z) (numBytes : Z)
      (use16 : bool) (bw : Z) (w : World H) :
  is_uint numBytes ->
  0 <= bw <= numBytes ->
  (Z.to_nat (numBytes - bw) <= fuel)%nat ->
  exists w' evs,
    i2cWriteData_loop fuel address data numBytes use16 bw w = Some (tt, w') /\
    bus w' = bus w ++ evs /\
    Forall (chunk_event use16) evs.
Proof.
  intros Hn. revert bw w. induction fuel as [|fuel IH]; intros bw w Hbw Hfuel.
  - cbn [i2cWriteData_loop].
    replace (bw <? numBytes) with false by (symmetry; apply Z.ltb_ge; lia).
    exists w, []. rewrite app_nil_r. repeat split. constructor.
  - cbn [i2cWriteData_loop].
    destruct (Z.ltb_spec bw numBytes) as [Hlt | Hge].
    + cbv zeta.
      set (cur := to_ulong (address + bw)).
      assert (Hoff : 0 <= cur mod 8 < 8) by (apply Z.mod_pos_bound; lia).
      unfold is_uint in Hn.
      rewrite (to_uint_small (cur mod 8)) by lia.
      rewrite (to_uint_small (8 - cur mod 8)) by lia.
      rewrite (to_uint_small (numBytes - bw)) by lia.
      set (btw := Z.min (8 - cur mod 8) (numBytes - bw)).
      assert (Hbtw : 0 < btw <= 8 /\ cur mod 8 + btw <= 8 /\ bw + btw <= numBytes)
        by (unfold btw; lia).
      destruct Hbtw as (Hb1 & Hb2 & Hb3).
      destruct (i2cWriteChunk_event use16 cur data bw btw w ltac:(lia))
        as (w1 & err & E1 & B1).
      exec E1.
      rewrite (to_uint_small (bw + btw)) by lia.
      destruct (IH (bw + btw) w1 ltac:(lia) ltac:(lia)) as (w' & evs & E2 & B2 & F2).
      exists w'. eexists. split; [exact E2|]. split.
      * rewrite B2, B1, <- app_assoc. reflexivity.
      * cbn [app]. constructor; [|exact F2].
        apply chunk_event_in_page with (btw := btw); [|lia|lia].
        rewrite length_map, length_interval. lia.
    + exists w, []. rewrite app_nil_r. repeat split. constructor.
Qed.

(** C4: every data-carrying transaction of an EEPROM write stays in one
    8-byte page: the start address sent in its address phase, modulo 8, plus
    the number of data bytes after it is at most 8.  The write always comes
    to its end: either the device does not answer the presence probe and
    nothing is written, or all chunks are sent. *)
Theorem i2cWriteData_chunks_stay_in_page (address : Z) (data : list Z) (numBytes : Z)
        (w : World H) :
  is_ulong address ->
  is_uint numBytes ->
  exists w' evs,
    i2cWriteData address data numBytes w = Some (tt, w') /\
    bus w' = bus w ++ evs /\
    Forall (fun tx => chunk_in_page (0xFF <? address) (snd tx)) (wire_writes evs).
Proof.
  intros Ha Hn. unfold i2cWriteData.
  exec_by reflexivity. exec_by reflexivity. exec_by reflexivity.
  match goal with |- context [negb (?e =? 0)] => destruct (negb (e =? 0)) end.
  - eexists. eexists. split; [reflexivity|]. split.
    + cbn [bus say with_serial log with_bus with_wire with_hw]. reflexivity.
    + constructor.
  - cbv zeta.
    match goal with |- context [bind _ _ ?w1] =>
      destruct (i2cWriteData_loop_chunks (Z.to_nat numBytes) address data numBytes
                  (0xFF <? address) 0 w1 Hn)
        as (w' & evs & E & B & F)
    end.
    { unfold is_uint in Hn. lia. }
    { rewrite Z.sub_0_r. lia. }
    exec E. eexists. eexists. split; [reflexivity|]. split.
    + cbn [bus say with_serial]. rewrite B.
      cbn [bus log with_bus with_wire with_hw]. rewrite <- app_assoc. reflexivity.
    + cbn [app wire_writes flat_map].
      clear - F. induction F as [|e evs He _ IH]; [constructor|].
      destruct e; try contradiction. destruct payload as [|b payload].
      * cbn in He. unfold chunk_length in He. destruct (255 <? address); cbn in He; lia.
      * cbn [flat_map app]. constructor; [exact (proj2 He) | exact IH].
Qed.

End Chunks.

Lemma i2cWriteData_chunks_stay_in_page_witness :
  exists w' evs,
    i2cWriteData 5 [1; 2; 3; 4; 5; 6; 7; 8; 9; 10; 11; 12] 12 (power_on bench0)
      = Some (tt, w') /\
    bus w' = bus (power_on bench0) ++ evs /\
    Forall (fun tx => chunk_in_page (0xFF <? 5) (snd tx)) (wire_writes evs).
Proof.
  apply (i2cWriteData_chunks_stay_in_page 5 [1; 2; 3; 4; 5; 6; 7; 8; 9; 10; 11; 12] 12
           (power_on bench0)).
  - unfold is_ulong. lia.
  - unfold is_uint. lia.
Defined.

(** On the bench the twelve bytes written at address 5 go out as the chunks
    5..7, 8..15 and 16. *)
Example i2cWriteData_chunks_example :
  option_map (fun w => wire_writes (bus w))
    (run (i2cWriteData 5 [1; 2; 3; 4; 5; 6; 7; 8; 9; 10; 11; 12] 12) (power_on bench0))
  = Some [(0x50, [5; 1; 2; 3]); (0x50, [8; 4; 5; 6; 7; 8; 9; 10; 11]); (0x50, [16; 12])].
Proof. vm_compute. reflexivity. Qed.

(** ** The ready-wait of the NAND driver *)

Section ReadyWait.

Context {H : Type} {HW : Hardware H}.

Lemma polls_S (k : nat) (h : H) : polls (S k) h = poll (polls k h).
Proof.
  revert h. induction k as [|k IH]; intros h; [reflexivity|].
  change (polls (S (S k)) h) with (polls (S k) (poll h)). rewrite IH. reflexivity.
Qed.

(** The loop, turn by turn: while R/B reads low and the time is not up, it
    goes on; at the first turn that reads more than 1000 ms it warns and
    returns. *)
Lemma waitForNandReady_loop_expires (k fuel : nat) (startTime : Z) (w : World H) :
  (forall j, (j <= k)%nat -> poll_rb (polls j (hw w)) = LOW) ->
  (forall j, (j < k)%nat -> elapsed startTime (hw w) j <= 1000) ->
  1000 < elapsed startTime (hw w) k ->
  (k < fuel)%nat ->
  waitForNandReady_loop fuel startTime w
  = Some (tt, say TIMEOUT_WARNING (with_hw (polls (S k) (hw w)) w)).
Proof.
  revert fuel w. induction k as [|k IH]; intros fuel w Hrb Hle Hgt Hfuel.
  - destruct fuel as [|fuel]; [lia|]. cbn [waitForNandReady_loop].
    unfold bind at 1. cbn [digitalRead].
    pose proof (Hrb 0%nat (Nat.le_refl _)) as H0. unfold poll_rb in H0. cbn [polls] in H0.
    rewrite H0. cbn [Bool.eqb LOW].
    unfold bind at 1. cbn [millis].
    unfold elapsed, poll_clock in Hgt. cbn [polls] in Hgt.
    cbn [hw with_hw].
    replace (1000 <? _) with true by (symmetry; apply Z.ltb_lt; exact Hgt).
    destruct w; reflexivity.
  - destruct fuel as [|fuel]; [lia|]. cbn [waitForNandReady_loop].
    unfold bind at 1. cbn [digitalRead].
    pose proof (Hrb 0%nat (Nat.le_0_l _)) as H0. unfold poll_rb in H0. cbn [polls] in H0.
    rewrite H0. cbn [Bool.eqb LOW].
    unfold bind at 1. cbn [millis].
    pose proof (Hle 0%nat (Nat.lt_0_succ _)) as H1.
    unfold elapsed, poll_clock in H1. cbn [polls] in H1.
    cbn [hw with_hw].
    replace (1000 <? _) with false by (symmetry; apply Z.ltb_ge; exact H1).
    rewrite IH.
    + destruct w; reflexivity.
    + intros j Hj. apply (Hrb (S j)). lia.
    + intros j Hj. apply (Hle (S j)). lia.
    + exact Hgt.
    + lia.
Qed.

(** The first turn at which the time is up. *)
Lemma expired_before (e : nat -> Z) (k : nat) :
  (forall j, (j < k)%nat -> e j <= 1000) \/ (exists j, (j < k)%nat /\ 1000 < e j).
Proof.
  induction k as [|k [IH | (j & Hj & He)]].
  - left. intros j Hj. lia.
  - destruct (Z_lt_dec 1000 (e k)) as [Hk | Hk].
    + right. exists k. split; [lia | exact Hk].
    + left. intros j Hj. destruct (Nat.eq_dec j k) as [-> | Hne]; [lia|].
      apply IH. lia.
  - right. exists j. split; [lia | exact He].
Qed.

Lemma first_expiry (e : nat -> Z) (k : nat) :
  1000 < e k ->
  exists k0, (k0 <= k)%nat /\ 1000 < e k0 /\ forall j, (j < k0)%nat -> e j <= 1000.
Proof.
  induction k as [k IH] using lt_wf_ind. intros Hk.
  destruct (expired_before e k) as [Hall | (j & Hj & He)].
  - exists k. repeat split; [lia | exact Hk | exact Hall].
  - destruct (IH j Hj He) as (k0 & Hk0 & He0 & Hmin).
    exists k0. repeat split; [lia | exact He0 | exact Hmin].
Qed.

(** With consecutive clock readings at most [slack] apart, the time
    computed at the first expired turn is at most 1000 + [slack]. *)
Lemma expiry_within_slack (startTime : Z) (h : H) (k : nat) (slack : Z) :
  0 <= slack -> 1000 + slack < 2 ^ 32 ->
  elapsed startTime h 0 <= slack ->
  (forall j, to_ulong (poll_clock (polls (S j) h) - poll_clock (polls j h)) <= slack) ->
  (forall j, (j < k)%nat -> elapsed startTime h j <= 1000) ->
  elapsed startTime h k <= 1000 + slack.
Proof.
  intros Hs Hbound H0 Hgap Hmin. destruct k as [|k]; [lia|].
  pose proof (Hmin k (Nat.lt_succ_diag_r k)) as Hk.
  pose proof (Hgap k) as Hg.
  unfold elapsed, to_ulong in *.
  replace (poll_clock (polls (S k) h) - startTime)
    with ((poll_clock (polls k h) - startTime)
          + (poll_clock (polls (S k) h) - poll_clock (polls k h))) by lia.
  rewrite Z.add_mod by lia.
  assert (Ha : 0 <= (poll_clock (polls k h) - startTime) mod 2 ^ 32)
    by (apply Z.mod_pos_bound; lia).
  assert (Hb : 0 <= (poll_clock (polls (S k) h) - poll_clock (polls k h)) mod 2 ^ 32)
    by (apply Z.mod_pos_bound; lia).
  rewrite Z.mod_small by lia. lia.
Qed.

(** The wait alone: when the ready/busy line never reads high and the clock
    moves, the ready-wait gives up: it stops at the first turn at which more than
    1000 ms have passed since it began, adds the timeout warning to the
    serial output and returns to its caller, having changed nothing else but
    the hardware it polled; with clock readings at most [slack] apart it
    returns at no more than 1000 ms + [slack]. *)
Lemma waitForNandReady_gives_up (w : World H) :
  (forall j, poll_rb (polls j (wait_hw w)) = LOW) ->
  (exists k, 1000 < elapsed (wait_start w) (wait_hw w) k) ->
  exists k,
    1000 < elapsed (wait_start w) (wait_hw w) k /\
    (forall j, (j < k)%nat -> elapsed (wait_start w) (wait_hw w) j <= 1000) /\
    (forall fuel, (k < fuel)%nat ->
       waitForNandReady fuel w
       = Some (tt, say TIMEOUT_WARNING (with_hw (polls (S k) (wait_hw w)) w))) /\
    (forall slack,
       0 <= slack -> 1000 + slack < 2 ^ 32 ->
       elapsed (wait_start w) (wait_hw w) 0 <= slack ->
       (forall j, to_ulong (poll_clock (polls (S j) (wait_hw w))
                            - poll_clock (polls j (wait_hw w))) <= slack) ->
       elapsed (wait_start w) (wait_hw w) k <= 1000 + slack).
Proof.
  intros Hrb (k1 & Hk1).
  destruct (first_expiry (elapsed (wait_start w) (wait_hw w)) k1 Hk1)
    as (k & _ & Hgt & Hmin).
  exists k. split; [exact Hgt|]. split; [exact Hmin|]. split.
  - intros fuel Hfuel. unfold waitForNandReady.
    exec_by reflexivity.
    rewrite (waitForNandReady_loop_expires k fuel); try assumption.
    + destruct w; reflexivity.
    + intros j _. apply Hrb.
  - intros slack Hs Hb H0 Hgap. now apply expiry_within_slack.
Qed.

End ReadyWait.

(** ** NAND driver: reading and programming *)

Section Printing.

Context {H : Type} {HW : Hardware H}.

Lemma with_serial_same (w : World H) : with_serial (serial w ++ []) w = w.
Proof. destruct w. unfold with_serial. cbn. now rewrite app_nil_r. Qed.

Lemma with_serial_twice (s t : list Out) (w : World H) :
  with_serial (serial (with_serial s w) ++ t) (with_serial s w) = with_serial (s ++ t) w.
Proof. reflexivity. Qed.

Lemma only_prints_ret {A : Type} (x : A) : only_prints (ret (H := H) x).
Proof. intros w. exists x, []. unfold ret. now rewrite with_serial_same. Qed.

Lemma only_prints_bind {A B : Type} (m : M H A) (k : A -> M H B) :
  only_prints m -> (forall x, only_prints (k x)) -> only_prints (bind m k).
Proof.
  intros Hm Hk w. destruct (Hm w) as (x & t & E).
  destruct (Hk x (with_serial (serial w ++ t) w)) as (y & t' & E').
  exists y, (t ++ t'). unfold bind. rewrite E, E'. rewrite with_serial_twice.
  now rewrite app_assoc.
Qed.

Lemma only_prints_say (o : Out) : only_prints (modify (say (H := H) o)).
Proof. intros w. exists tt, [o]. reflexivity. Qed.

Lemma only_prints_when (c : bool) (m : M H unit) :
  only_prints m -> only_prints (when c m).
Proof. destruct c; [trivial | intros _; apply only_prints_ret]. Qed.

Lemma only_prints_for_each {A : Type} (l : list A) (body : A -> M H unit) :
  (forall x, only_prints (body x)) -> only_prints (for_each l body).
Proof.
  intros Hb. induction l as [|x l IH]; cbn [for_each].
  - apply only_prints_ret.
  - apply only_prints_bind; [apply Hb | intros _; exact IH].
Qed.

End Printing.

Ltac prints_step :=
  lazymatch goal with
  | |- only_prints (bind _ _) => apply only_prints_bind; [|intro]
  | |- only_prints (ret _) => apply only_prints_ret
  | |- only_prints (when _ _) => apply only_prints_when
  | |- only_prints (for_each _ _) => apply only_prints_for_each; intro
  | |- only_prints (if ?c then _ else _) => destruct c
  | |- only_prints (let _ := _ in _) => cbv zeta
  | |- only_prints (Serial_print _) => apply only_prints_say
  | |- only_prints (Serial_println _) => apply only_prints_say
  | |- only_prints (Serial_print_num _ _) => apply only_prints_say
  | |- only_prints (Serial_println_num _ _) => apply only_prints_say
  | |- only_prints (Serial_write _) => apply only_prints_say
  | |- only_prints Serial_newline => apply only_prints_say
  end.

Section Reading.

Context {H : Type} {HW : Hardware H}.

Lemma read_cycle_with_serial (s : list Out) (w : World H) :
  read_cycle (with_serial s w) = with_serial s (read_cycle w).
Proof. reflexivity. Qed.

Lemma read_cycles_with_serial (k : nat) (s : list Out) (w : World H) :
  read_cycles k (with_serial s w) = with_serial s (read_cycles k w).
Proof.
  revert w. induction k as [|k IH]; intros w; [reflexivity|].
  cbn [read_cycles]. now rewrite read_cycle_with_serial, IH.
Qed.

Lemma read_bytes_with_serial (k : nat) (s : list Out) (w : World H) :
  read_bytes k (with_serial s w) = read_bytes k w.
Proof.
  revert w. induction k as [|k IH]; intros w; [reflexivity|].
  cbn [read_bytes]. rewrite read_cycle_with_serial, IH. reflexivity.
Qed.

Lemma serial_read_cycles (k : nat) (w : World H) : serial (read_cycles k w) = serial w.
Proof. revert w. induction k as [|k IH]; intros w; [reflexivity|]. cbn [read_cycles]. now rewrite IH. Qed.

Lemma ce_read_cycles (k : nat) (w : World H) :
  ce (pins (read_cycles k w)) = ce (pins w).
Proof. revert w. induction k as [|k IH]; intros w; [reflexivity|]. cbn [read_cycles]. now rewrite IH. Qed.

Lemma bus_read_cycles (k : nat) (w : World H) :
  bus (read_cycles k w) = bus w ++ map NandRead (read_bytes k w).
Proof.
  revert w. induction k as [|k IH]; intros w.
  - cbn. now rewrite app_nil_r.
  - cbn [read_cycles read_bytes map]. rewrite IH. cbn [read_cycle bus].
    now rewrite <- app_assoc.
Qed.

(** One turn of the loop of [hexDump] over [nandReadByte]: a read cycle and
    some printing. *)
Lemma hexDump_turn (numBytes i : Z) (buffer : list Z) (w : World H) :
  ce (pins w) = LOW ->
  exists buffer' t,
    (when (i mod 16 =? 0)
       (when (0 <? i) Serial_newline ;;
        Serial_print "0x" ;;
        when (i <? 0x1000) (Serial_print "0") ;;
        when (i <? 0x100) (Serial_print "0") ;;
        when (i <? 0x10) (Serial_print "0") ;;
        Serial_print_num i HEX ;;
        Serial_print ": ") ;;
     b <- nandReadByte ;;
     let buffer := set_elt buffer (i mod 16) b in
     when (elt buffer (i mod 16) <? 0x10) (Serial_print "0") ;;
     Serial_print_num (elt buffer (i mod 16)) HEX ;;
     Serial_print " " ;;
     when ((i mod 16 =? 15) || (i =? to_uint (numBytes - 1)))
       (for_each (interval (i mod 16 + 1) 16) (fun _ => Serial_print "   ") ;;
        Serial_print " | " ;;
        for_each (interval 0 (i mod 16 + 1)) (fun j =>
          if (32 <=? elt buffer j) && (elt buffer j <=? 126)
          then Serial_write (elt buffer j)
          else Serial_print ".")) ;;
     ret buffer) w
    = Some (buffer', with_serial (serial w ++ t) (read_cycle w)).
Proof.
  intros Hce.
  match goal with |- exists _ _, bind ?m _ _ = _ =>
    assert (Hp : only_prints m) by (repeat prints_step)
  end.
  destruct (Hp w) as ([] & t1 & E1). exec E1.
  exec_by (apply nandReadByte_exec; exact Hce).
  rewrite read_cycle_with_serial.
  match goal with |- exists _ _, ?m _ = _ =>
    assert (Hq : only_prints m) by (repeat prints_step)
  end.
  destruct (Hq (with_serial (serial w ++ t1) (read_cycle w))) as (buffer' & t2 & E2).
  exists buffer', (t1 ++ t2). rewrite E2. rewrite with_serial_twice.
  now rewrite app_assoc.
Qed.

Lemma hexDump_reads (numBytes : Z) (w : World H) :
  ce (pins w) = LOW ->
  exists t,
    hexDump nandReadByte numBytes w
    = Some (tt, with_serial (serial w ++ t) (read_cycles (Z.to_nat numBytes) w)).
Proof.
  intros Hce. unfold hexDump.
  match goal with |- context [foldM _ _ ?b] => set (body := b) end.
  assert (Hloop : forall l buffer w0, ce (pins w0) = LOW ->
    exists buffer' t,
      foldM l buffer body w0
      = Some (buffer', with_serial (serial w0 ++ t) (read_cycles (length l) w0))).
  { induction l as [|i l IH]; intros buffer w0 H0.
    - exists buffer, []. cbn [foldM length read_cycles]. unfold ret.
      now rewrite with_serial_same.
    - cbn [foldM length read_cycles].
      destruct (hexDump_turn numBytes i buffer w0 H0) as (buffer1 & t1 & E1).
      exec_by (exact E1).
      destruct (IH buffer1 (with_serial (serial w0 ++ t1) (read_cycle w0)) H0)
        as (buffer2 & t2 & E2).
      exists buffer2, (t1 ++ t2). rewrite E2.
      rewrite read_cycles_with_serial. cbn [serial with_serial].
      unfold with_serial. cbn. now rewrite app_assoc. }
  destruct (Hloop (interval 0 numBytes) (repeat 0 16%nat) w Hce) as (buffer' & t & E).
  exec E. exists (t ++ [Newline]).
  unfold Serial_newline, modify, say. cbn [serial with_serial].
  unfold interval. rewrite length_map, length_seq, Z.sub_0_r.
  unfold with_serial. cbn. now rewrite app_assoc.
Qed.


(** *** What the dump shows *)

Lemma shows_ret {A : Type} (x : A) : shows (ret (H := H) x) x [] [].
Proof.
  intros w. exists []. unfold ret. rewrite with_serial_same.
  split; [reflexivity|]. split; reflexivity.
Qed.

Lemma shows_bind {A B : Type} (m : M H A) (k : A -> M H B) (x : A) (y : B)
      (h1 h2 : list Z) (t1 t2 : list (option Z)) :
  shows m x h1 t1 -> shows (k x) y h2 t2 -> shows (bind m k) y (h1 ++ h2) (t1 ++ t2).
Proof.
  intros Hm Hk w. destruct (Hm w) as (ta & Ea & Ha & Ta).
  destruct (Hk (with_serial (serial w ++ ta) w)) as (tb & Eb & Hb & Tb).
  exists (ta ++ tb). split; [|split].
  - unfold bind. rewrite Ea, Eb, with_serial_twice. now rewrite app_assoc.
  - intros rest. rewrite <- app_assoc, Ha, Hb. now rewrite app_assoc.
  - unfold ascii_column in *. now rewrite flat_map_app, Ta, Tb.
Qed.

Lemma shows_eq {A : Type} (m : M H A) (x : A) (h h' : list Z) (t t' : list (option Z)) :
  shows m x h t -> h = h' -> t = t' -> shows m x h' t'.
Proof. now intros Hm <- <-. Qed.

Lemma shows_token (o : Out) :
  (forall rest, hex_column (o :: rest) = hex_column rest) ->
  shows (modify (say (H := H) o)) tt [] (ascii_column [o]).
Proof.
  intros Ho w. exists [o]. split; [reflexivity|]. split; [exact Ho | reflexivity].
Qed.

Lemma shows_print (s : string) :
  shows (Serial_print (H := H) s) tt [] (if String.eqb s "." then [None] else []).
Proof.
  apply (shows_eq _ _ [] [] (ascii_column [Print s])).
  - apply shows_token. reflexivity.
  - reflexivity.
  - unfold ascii_column. cbn [flat_map]. now rewrite app_nil_r.
Qed.

Lemma shows_write (v : Z) : shows (Serial_write (H := H) v) tt [] [Some v].
Proof. apply (shows_token (WriteRaw v)). reflexivity. Qed.

Lemma shows_newline : shows (Serial_newline (H := H)) tt [] [].
Proof. apply (shows_token Newline). reflexivity. Qed.

(** A number in base 16 and the blank after it: a value of the hex
    columns. *)
Lemma shows_value {B : Type} (v : Z) (k : M H B) (y : B) (h : list Z)
      (t : list (option Z)) :
  shows k y h t ->
  shows (Serial_print_num v HEX ;; Serial_print " " ;; k) y (v :: h) t.
Proof.
  intros Hk w.
  destruct (Hk (with_serial (serial w ++ [PrintNum v HEX; Print " "]) w))
    as (tb & Eb & Hb & Tb).
  exists ([PrintNum v HEX; Print " "] ++ tb). split; [|split].
  - exec_by reflexivity. exec_by reflexivity.
    change (say (Print " ") (say (PrintNum v HEX) w))
      with (with_serial ((serial w ++ [PrintNum v HEX]) ++ [Print " "]) w).
    rewrite <- app_assoc. cbn [app].
    rewrite Eb, with_serial_twice. now rewrite <- app_assoc.
  - intros rest.
    change (hex_column (([PrintNum v HEX; Print " "] ++ tb) ++ rest))
      with (v :: hex_column (tb ++ rest)).
    now rewrite Hb.
  - exact Tb.
Qed.

(** The address label of a row is no value of the hex columns. *)
Lemma shows_label (v : Z) :
  shows (Serial_print_num (H := H) v HEX ;; Serial_print ": ") tt [] [].
Proof.
  intros w. exists [PrintNum v HEX; Print ": "]. split; [|split].
  - exec_by reflexivity.
    change (Serial_print ": " (say (PrintNum v HEX) w))
      with (Some (tt, with_serial ((serial w ++ [PrintNum v HEX]) ++ [Print ": "]) w)).
    now rewrite <- app_assoc.
  - reflexivity.
  - reflexivity.
Qed.

Lemma shows_when (c : bool) (m : M H unit) (h : list Z) (t : list (option Z)) :
  shows m tt h t -> shows (when c m) tt (if c then h else []) (if c then t else []).
Proof. destruct c; [trivial | intros _; apply shows_ret]. Qed.

Lemma shows_for_each {A : Type} (l : list A) (body : A -> M H unit)
      (f : A -> list (option Z)) :
  (forall x, shows (body x) tt [] (f x)) -> shows (for_each l body) tt [] (flat_map f l).
Proof.
  intros Hb. induction l as [|x l IH]; cbn [for_each flat_map].
  - apply shows_ret.
  - apply (shows_bind _ _ tt tt [] [] _ _ (Hb x) IH).
Qed.

Lemma elt_set_nth (n : nat) (v : Z) (l : list Z) :
  (n < length l)%nat -> nth n (set_nth n v l) 0 = v.
Proof.
  revert n. induction l as [|x l IH]; intros n Hn; [cbn in Hn; lia|].
  destruct n as [|n]; [reflexivity|]. cbn [set_nth nth]. apply IH. cbn in Hn. lia.
Qed.

Lemma length_set_nth (n : nat) (v : Z) (l : list Z) : length (set_nth n v l) = length l.
Proof.
  revert n. induction l as [|x l IH]; intros n; [now destruct n|].
  destruct n as [|n]; [reflexivity|]. cbn [set_nth length]. now rewrite IH.
Qed.

Lemma firstn_set_nth (n : nat) (v : Z) (l : list Z) :
  (n < length l)%nat -> firstn (S n) (set_nth n v l) = firstn n l ++ [v].
Proof.
  revert n. induction l as [|x l IH]; intros n Hn; [cbn in Hn; lia|].
  destruct n as [|n]; [reflexivity|].
  cbn [set_nth]. rewrite firstn_cons, IH by (cbn in Hn; lia). reflexivity.
Qed.

(** The part of a turn of [hexDump] that follows the read: the byte goes
    into the row buffer and is printed from there; at the end of a row the
    text column shows the buffer up to that byte. *)
Lemma hexDump_shows_byte (numBytes i b : Z) (buffer : list Z) :
  length buffer = 16%nat ->
  shows (H := H)
    (let buffer := set_elt buffer (i mod 16) b in
     when (elt buffer (i mod 16) <? 0x10) (Serial_print "0") ;;
     Serial_print_num (elt buffer (i mod 16)) HEX ;;
     Serial_print " " ;;
     when ((i mod 16 =? 15) || (i =? to_uint (numBytes - 1)))
       (for_each (interval (i mod 16 + 1) 16) (fun _ => Serial_print "   ") ;;
        Serial_print " | " ;;
        for_each (interval 0 (i mod 16 + 1)) (fun j =>
          if (32 <=? elt buffer j) && (elt buffer j <=? 126)
          then Serial_write (elt buffer j)
          else Serial_print ".")) ;;
     ret buffer)
    (set_elt buffer (i mod 16) b)
    [b]
    (if (i mod 16 =? 15) || (i =? to_uint (numBytes - 1))
     then map as_text (firstn (Z.to_nat (i mod 16 + 1)) (set_elt buffer (i mod 16) b))
     else []).
Proof.
  intros Hlen. cbv zeta.
  assert (Hk : 0 <= i mod 16 < 16) by (apply Z.mod_pos_bound; lia).
  set (buffer' := set_elt buffer (i mod 16) b).
  assert (Hlen' : length buffer' = 16%nat)
    by (unfold buffer', set_elt; now rewrite length_set_nth).
  assert (Hb : elt buffer' (i mod 16) = b).
  { unfold buffer', elt, set_elt. apply elt_set_nth. lia. }
  rewrite Hb.
  eapply shows_eq.
  - eapply shows_bind; [apply shows_when; apply shows_print|].
    apply shows_value.
    eapply shows_bind; [|apply shows_ret].
    apply shows_when.
    eapply shows_bind;
      [apply (shows_for_each _ _ (fun _ => [])); intros _; apply shows_print|].
    eapply shows_bind; [apply shows_print|].
    apply (shows_for_each _ _ (fun j => [as_text (elt buffer' j)])).
    intros j. unfold as_text.
    destruct ((32 <=? elt buffer' j) && (elt buffer' j <=? 126));
      [apply shows_write | apply shows_print].
  - destruct (b <? 16), ((i mod 16 =? 15) || (i =? to_uint (numBytes - 1)));
      reflexivity.
  - assert (Hrow : flat_map (fun _ : Z => @nil (option Z)) (interval (i mod 16 + 1) 16)
                   ++ (if String.eqb " | " "." then [None] else [])
                   ++ flat_map (fun j => [as_text (elt buffer' j)])
                        (interval 0 (i mod 16 + 1))
                   = map as_text (firstn (Z.to_nat (i mod 16 + 1)) buffer')).
    { replace (flat_map (fun _ : Z => @nil (option Z)) (interval (i mod 16 + 1) 16))
        with (@nil (option Z))
        by (induction (interval (i mod 16 + 1) 16); [reflexivity | assumption]).
      cbn [app String.eqb Ascii.eqb Bool.eqb].
      rewrite <- (elts_prefix buffer' (i mod 16 + 1)) by lia.
      induction (interval 0 (i mod 16 + 1)) as [|j l IH]; [reflexivity|].
      cbn [map flat_map app]. now rewrite IH. }
    rewrite Hrow.
    destruct (b <? 16), ((i mod 16 =? 15) || (i =? to_uint (numBytes - 1)));
      cbn [app]; now rewrite ?app_nil_r.
Qed.

Lemma nandSendAddress_exec {B : Type} (offset page : Z) (k : M H B) (w : World H) :
  ce (pins w) = LOW ->
  (nandSendAddress offset page ;; k) w
  = k (address_cycles [Z.land offset 0xFF; Z.land (Z.shiftr offset 8) 0xFF;
                       Z.land page 0xFF; Z.land (Z.shiftr page 8) 0xFF;
                       Z.land (Z.shiftr page 16) 0xFF] w).
Proof.
  intros Hce.
  pose proof (address_exec [Z.land offset 0xFF; Z.land (Z.shiftr offset 8) 0xFF;
                            Z.land page 0xFF; Z.land (Z.shiftr page 8) 0xFF;
                            Z.land (Z.shiftr page 16) 0xFF] (ret tt) w Hce) as E.
  exec_by (etransitivity; [|exact E]; unfold nandSendAddress, bind; cbn [for_each];
           unfold bind, ret;
           repeat match goal with
                  | |- context [match ?x with _ => _ end] => destruct x as [[[] ?]|]
                  end; reflexivity).
  reflexivity.
Qed.

Lemma nandReset_unfold (fuel : nat) (w : World H) :
  nandReset fuel w
  = match waitForNandReady fuel (reset_setup w) with
    | Some (_, w2) => Some (tt, say (Println "NAND Flash reset complete") (deselect w2))
    | None => None
    end.
Proof.
  unfold nandReset.
  exec_by (apply digitalWrite_select).
  rewrite command_exec by reflexivity.
  fold (reset_setup w). unfold bind at 1.
  destruct (waitForNandReady fuel (reset_setup w)) as [[[] w2]|]; reflexivity.
Qed.

Lemma nandReadData_unfold (fuel : nat) (address numBytes : Z) (w : World H) :
  nandReadData fuel address numBytes w
  = match waitForNandReady fuel (read_setup address w) with
    | Some (_, w2) => (hexDump nandReadByte numBytes ;; digitalWrite NAND_CE_PIN HIGH) w2
    | None => None
    end.
Proof.
  unfold nandReadData. cbv zeta.
  exec_by (apply digitalWrite_select).
  rewrite command_exec by reflexivity.
  rewrite nandSendAddress_exec by reflexivity.
  rewrite command_exec by (rewrite ce_address_cycles; reflexivity).
  fold (nand_address address). fold (read_setup address w). unfold bind at 1.
  destruct (waitForNandReady fuel (read_setup address w)) as [[[] w2]|]; reflexivity.
Qed.

Lemma ce_read_setup (address : Z) (w : World H) : ce (pins (read_setup address w)) = LOW.
Proof.
  unfold read_setup. rewrite ce_command_cycle, ce_address_cycles. reflexivity.
Qed.

Lemma ce_program_setup (address : Z) (chunk : list Z) (w : World H) :
  ce (pins (program_setup address chunk w)) = LOW.
Proof.
  unfold program_setup.
  rewrite ce_command_cycle, ce_write_cycles, ce_address_cycles. reflexivity.
Qed.

Lemma nandWriteData_unfold (fuel : nat) (address : Z) (data : list Z) (numBytes : Z)
      (w : World H) :
  to_uint (to_uint (address mod 512) + numBytes) <= 512 ->
  0 <= numBytes <= Z.of_nat (length data) ->
  nandWriteData fuel address data numBytes w
  = match waitForNandReady fuel
            (program_setup address (firstn (Z.to_nat numBytes) data) w) with
    | Some (_, w2) => Some (tt, program_finish w2)
    | None => None
    end.
Proof.
  intros Hin Hn. unfold nandWriteData. cbv zeta.
  replace (512 <? to_uint (to_uint (address mod 512) + numBytes)) with false
    by (symmetry; apply Z.ltb_ge; exact Hin).
  exec_by (apply digitalWrite_select).
  rewrite command_exec by reflexivity.
  rewrite nandSendAddress_exec by reflexivity.
  exec_by (apply write_loop_exec; [rewrite ce_address_cycles; reflexivity | exact Hn]).
  rewrite command_exec
    by (rewrite ce_write_cycles, ce_address_cycles; reflexivity).
  fold (nand_address address).
  fold (program_setup address (firstn (Z.to_nat numBytes) data) w).
  unfold bind at 1.
  destruct (waitForNandReady fuel
              (program_setup address (firstn (Z.to_nat numBytes) data) w))
    as [[[] w2]|] eqn:Hwait; [|reflexivity].
  assert (Hce2 : ce (pins w2) = LOW).
  { rewrite (waits_pins _ _ (waitForNandReady_waits _ _ _ Hwait)).
    apply ce_program_setup. }
  rewrite command_exec by exact Hce2.
  exec_by (apply nandReadByte_exec; exact Hce2).
  exec_by (apply digitalWrite_deselect).
  unfold program_finish. cbv zeta.
  destruct (negb (Z.land (driven (command_cycle NAND_CMD_READ_STATUS w2)) 1 =? 0));
    reflexivity.
Qed.

(** After the wait, [nandReadData] clocks out [numBytes] bytes and
    deselects the chip. *)
Lemma nandReadData_after_wait (fuel : nat) (address numBytes : Z) (w w2 : World H) :
  waitForNandReady fuel (read_setup address w) = Some (tt, w2) ->
  exists t,
    nandReadData fuel address numBytes w
    = Some (tt, deselect (with_serial (serial w2 ++ t)
                                      (read_cycles (Z.to_nat numBytes) w2))).
Proof.
  intros Hwait. rewrite nandReadData_unfold, Hwait.
  assert (Hce2 : ce (pins w2) = LOW).
  { rewrite (waits_pins _ _ (waitForNandReady_waits _ _ _ Hwait)).
    apply ce_read_setup. }
  destruct (hexDump_reads numBytes w2 Hce2) as (t & E).
  exists t. exec E. reflexivity.
Qed.

(** One turn of the loop of [hexDump] over [nandReadByte]: the byte read
    is the one value the turn adds to the hex columns, and at the end of a
    row the text column shows the row. *)
Lemma hexDump_turn_shows (numBytes i : Z) (buffer : list Z) (w : World H) :
  ce (pins w) = LOW ->
  length buffer = 16%nat ->
  exists t,
    (when (i mod 16 =? 0)
       (when (0 <? i) Serial_newline ;;
        Serial_print "0x" ;;
        when (i <? 0x1000) (Serial_print "0") ;;
        when (i <? 0x100) (Serial_print "0") ;;
        when (i <? 0x10) (Serial_print "0") ;;
        Serial_print_num i HEX ;;
        Serial_print ": ") ;;
     b <- nandReadByte ;;
     let buffer := set_elt buffer (i mod 16) b in
     when (elt buffer (i mod 16) <? 0x10) (Serial_print "0") ;;
     Serial_print_num (elt buffer (i mod 16)) HEX ;;
     Serial_print " " ;;
     when ((i mod 16 =? 15) || (i =? to_uint (numBytes - 1)))
       (for_each (interval (i mod 16 + 1) 16) (fun _ => Serial_print "   ") ;;
        Serial_print " | " ;;
        for_each (interval 0 (i mod 16 + 1)) (fun j =>
          if (32 <=? elt buffer j) && (elt buffer j <=? 126)
          then Serial_write (elt buffer j)
          else Serial_print ".")) ;;
     ret buffer) w
    = Some (set_elt buffer (i mod 16) (driven w),
            with_serial (serial w ++ t) (read_cycle w)) /\
    (forall rest, hex_column (t ++ rest) = driven w :: hex_column rest) /\
    ascii_column t
    = if (i mod 16 =? 15) || (i =? to_uint (numBytes - 1))
      then map as_text (firstn (Z.to_nat (i mod 16 + 1))
                               (set_elt buffer (i mod 16) (driven w)))
      else [].
Proof.
  intros Hce Hlen.
  assert (Hlabel : shows (H := H)
            (when (i mod 16 =? 0)
               (when (0 <? i) Serial_newline ;;
                Serial_print "0x" ;;
                when (i <? 0x1000) (Serial_print "0") ;;
                when (i <? 0x100) (Serial_print "0") ;;
                when (i <? 0x10) (Serial_print "0") ;;
                Serial_print_num i HEX ;;
                Serial_print ": ")) tt [] []).
  { eapply shows_eq.
    - apply shows_when.
      eapply shows_bind; [apply shows_when; apply shows_newline|].
      eapply shows_bind; [apply shows_print|].
      eapply shows_bind; [apply shows_when; apply shows_print|].
      eapply shows_bind; [apply shows_when; apply shows_print|].
      eapply shows_bind; [apply shows_when; apply shows_print|].
      apply shows_label.
    - destruct (i mod 16 =? 0), (0 <? i), (i <? 0x1000), (i <? 0x100), (i <? 0x10);
        reflexivity.
    - destruct (i mod 16 =? 0), (0 <? i), (i <? 0x1000), (i <? 0x100), (i <? 0x10);
        reflexivity. }
  destruct (Hlabel w) as (t1 & E1 & H1 & T1). exec E1.
  exec_by (apply nandReadByte_exec; exact Hce).
  rewrite read_cycle_with_serial.
  change (driven (with_serial (serial w ++ t1) w)) with (driven w).
  destruct (hexDump_shows_byte numBytes i (driven w) buffer Hlen
              (with_serial (serial w ++ t1) (read_cycle w))) as (t2 & E2 & H2 & T2).
  exists (t1 ++ t2). split; [|split].
  - rewrite E2, with_serial_twice. now rewrite app_assoc.
  - intros rest. rewrite <- app_assoc, H1, H2. reflexivity.
  - unfold ascii_column in *. rewrite flat_map_app, T1, T2. reflexivity.
Qed.

Lemma indices_from (i0 : Z) (m : nat) :
  map (fun k => i0 + Z.of_nat k) (seq 0 (S m))
  = i0 :: map (fun k => (i0 + 1) + Z.of_nat k) (seq 0 m).
Proof.
  cbn [seq map]. rewrite Z.add_0_r. f_equal.
  rewrite <- seq_shift, map_map. apply map_ext. intros k. lia.
Qed.

(** The loop of [hexDump] from index [i0] on, with [m] bytes to go and the
    bytes [pend] of the current row in the buffer: the hex columns get the
    bytes read, the text column the pending bytes and the bytes read. *)
Lemma hexDump_loop_shows (numBytes : Z) (body : Z -> list Z -> M H (list Z)) :
  0 < numBytes < 65536 ->
  (forall i buffer w,
     ce (pins w) = LOW ->
     length buffer = 16%nat ->
     exists t,
       body i buffer w
       = Some (set_elt buffer (i mod 16) (driven w),
               with_serial (serial w ++ t) (read_cycle w)) /\
       (forall rest, hex_column (t ++ rest) = driven w :: hex_column rest) /\
       ascii_column t
       = if (i mod 16 =? 15) || (i =? to_uint (numBytes - 1))
         then map as_text (firstn (Z.to_nat (i mod 16 + 1))
                                  (set_elt buffer (i mod 16) (driven w)))
         else []) ->
  forall (m : nat) (i0 : Z) (buffer pend : list Z) (w0 : World H),
    ce (pins w0) = LOW ->
    length buffer = 16%nat ->
    0 <= i0 ->
    i0 + Z.of_nat m = numBytes ->
    (m <> 0%nat -> Z.of_nat (length pend) = i0 mod 16) ->
    (m = 0%nat -> pend = []) ->
    firstn (length pend) buffer = pend ->
    exists buffer' t,
      foldM (map (fun k => i0 + Z.of_nat k) (seq 0 m)) buffer body w0
      = Some (buffer', with_serial (serial w0 ++ t) (read_cycles m w0)) /\
      (forall rest, hex_column (t ++ rest) = read_bytes m w0 ++ hex_column rest) /\
      ascii_column t = map as_text (pend ++ read_bytes m w0).
Proof.
  intros Hn Hbody.
  induction m as [|m IH]; intros i0 buffer pend w0 Hce Hlen Hi0 Hsum Hpend Hnone Hfirst.
  - exists buffer, []. cbn [seq map foldM read_cycles read_bytes]. unfold ret.
    rewrite with_serial_same, (Hnone eq_refl). repeat split.
  - rewrite indices_from. cbn [foldM read_cycles read_bytes].
    destruct (Hbody i0 buffer w0 Hce Hlen) as (t1 & E1 & H1 & T1).
    exec_by (exact E1).
    assert (Hk : 0 <= i0 mod 16 < 16) by (apply Z.mod_pos_bound; lia).
    assert (Hp : Z.of_nat (length pend) = i0 mod 16) by (apply Hpend; lia).
    set (b := driven w0) in *.
    set (buffer1 := set_elt buffer (i0 mod 16) b) in *.
    assert (Hlen1 : length buffer1 = 16%nat)
      by (unfold buffer1, set_elt; now rewrite length_set_nth).
    assert (Hrow : firstn (Z.to_nat (i0 mod 16 + 1)) buffer1 = pend ++ [b]).
    { unfold buffer1, set_elt.
      replace (Z.to_nat (i0 mod 16 + 1)) with (S (Z.to_nat (i0 mod 16))) by lia.
      rewrite firstn_set_nth by lia.
      replace (Z.to_nat (i0 mod 16)) with (length pend) by lia.
      now rewrite Hfirst. }
    rewrite Hrow in T1.
    rewrite (to_uint_small (numBytes - 1)) in T1 by lia.
    set (w1 := with_serial (serial w0 ++ t1) (read_cycle w0)).
    assert (Hce1 : ce (pins w1) = LOW) by exact Hce.
    destruct ((i0 mod 16 =? 15) || (i0 =? numBytes - 1)) eqn:Hend.
    + (* the row ends here *)
      destruct (IH (i0 + 1) buffer1 [] w1 Hce1 Hlen1) as (buffer2 & t2 & E2 & H2 & T2);
        try reflexivity; try lia.
      * intros Hm. cbn [length].
        apply orb_true_iff in Hend as [Hend | Hend].
        -- apply Z.eqb_eq in Hend.
           rewrite <- Zplus_mod_idemp_l, Hend. reflexivity.
        -- apply Z.eqb_eq in Hend. lia.
      * exists buffer2, (t1 ++ t2). split; [|split].
        -- rewrite E2. unfold w1. rewrite read_cycles_with_serial.
           cbn [serial with_serial]. unfold with_serial. cbn. now rewrite app_assoc.
        -- intros rest. rewrite <- app_assoc, H1, H2.
           unfold w1. rewrite read_bytes_with_serial. reflexivity.
        -- unfold ascii_column in *. rewrite flat_map_app, T1, T2.
           unfold w1. rewrite read_bytes_with_serial.
           cbn [app]. rewrite <- map_app, <- app_assoc. reflexivity.
    + (* the row goes on *)
      apply orb_false_iff in Hend as [Hrowend Hlast].
      apply Z.eqb_neq in Hrowend, Hlast.
      assert (Hnext : (i0 + 1) mod 16 = i0 mod 16 + 1).
      { rewrite <- Zplus_mod_idemp_l. apply Z.mod_small. lia. }
      destruct (IH (i0 + 1) buffer1 (pend ++ [b]) w1 Hce1 Hlen1)
        as (buffer2 & t2 & E2 & H2 & T2); try lia.
      * intros _. rewrite length_app. cbn [length]. lia.
      * rewrite length_app. cbn [length].
        replace (length pend + 1)%nat with (Z.to_nat (i0 mod 16 + 1)) by lia.
        exact Hrow.
      * exists buffer2, (t1 ++ t2). split; [|split].
        -- rewrite E2. unfold w1. rewrite read_cycles_with_serial.
           cbn [serial with_serial]. unfold with_serial. cbn. now rewrite app_assoc.
        -- intros rest. rewrite <- app_assoc, H1, H2.
           unfold w1. rewrite read_bytes_with_serial. reflexivity.
        -- unfold ascii_column in *. rewrite flat_map_app, T1, T2.
           unfold w1. rewrite read_bytes_with_serial.
           cbn [app]. rewrite <- app_assoc. reflexivity.
Qed.

(** [hexDump] over [nandReadByte]: the hex columns of what it prints show
    the bytes it has read, in order and nothing else, and so does the text
    column. *)
Lemma hexDump_shows (numBytes : Z) (w : World H) :
  ce (pins w) = LOW ->
  0 <= numBytes < 65536 ->
  exists t,
    hexDump nandReadByte numBytes w
    = Some (tt, with_serial (serial w ++ t) (read_cycles (Z.to_nat numBytes) w)) /\
    hex_column t = read_bytes (Z.to_nat numBytes) w /\
    ascii_column t = map as_text (read_bytes (Z.to_nat numBytes) w).
Proof.
  intros Hce Hn. unfold hexDump.
  match goal with |- context [foldM _ _ ?b] => set (body := b) end.
  destruct (Z.eq_dec numBytes 0) as [-> | Hpos].
  - exists [Newline]. cbn [interval Z.sub Z.to_nat seq map foldM read_cycles read_bytes].
    split; [reflexivity|]. split; reflexivity.
  - destruct (hexDump_loop_shows numBytes body ltac:(lia)
                (fun i buffer w0 => hexDump_turn_shows numBytes i buffer w0)
                (Z.to_nat numBytes) 0
                (repeat 0 16%nat) [] w Hce eq_refl ltac:(lia) ltac:(lia))
      as (buffer' & t & E & Hh & Ht).
    + intros _. reflexivity.
    + intros _. reflexivity.
    + reflexivity.
    + unfold interval. rewrite Z.sub_0_r. exec E.
      exists (t ++ [Newline]). split; [|split].
      * unfold Serial_newline, modify, say. cbn [serial with_serial].
        unfold with_serial. cbn. now rewrite app_assoc.
      * rewrite Hh. cbn [hex_column]. now rewrite app_nil_r.
      * unfold ascii_column in *. rewrite flat_map_app, Ht. cbn [flat_map app].
        now rewrite app_nil_r.
Qed.

(** After the wait, [nandReadData] clocks out [numBytes] bytes, and the
    dump it prints shows exactly those bytes. *)
Lemma nandReadData_after_wait_shows (fuel : nat) (address numBytes : Z)
      (w w2 : World H) :
  0 <= numBytes < 65536 ->
  waitForNandReady fuel (read_setup address w) = Some (tt, w2) ->
  exists t,
    nandReadData fuel address numBytes w
    = Some (tt, deselect (with_serial (serial w2 ++ t)
                                      (read_cycles (Z.to_nat numBytes) w2))) /\
    hex_column t = read_bytes (Z.to_nat numBytes) w2 /\
    ascii_column t = map as_text (read_bytes (Z.to_nat numBytes) w2).
Proof.
  intros Hn Hwait. rewrite nandReadData_unfold, Hwait.
  assert (Hce2 : ce (pins w2) = LOW).
  { rewrite (waits_pins _ _ (waitForNandReady_waits _ _ _ Hwait)).
    apply ce_read_setup. }
  destruct (hexDump_shows numBytes w2 Hce2 Hn) as (t & E & Hh & Ht).
  exists t. split; [|split; assumption]. exec E. reflexivity.
Qed.

End Reading.

(** ** NAND operations when the chip never gets ready *)

Section TimedOut.

Context {H : Type} {HW : Hardware H}.

Lemma serial_write_cycles (l : list Z) (w : World H) :
  serial (write_cycles l w) = serial w.
Proof.
  revert w. induction l as [|v l IH]; intros w; [reflexivity|].
  change (write_cycles (v :: l) w) with (write_cycles l (write_cycle v w)).
  now rewrite IH.
Qed.

Lemma serial_address_cycles (l : list Z) (w : World H) :
  serial (address_cycles l w) = serial w.
Proof.
  unfold address_cycles. cbv zeta. cbn [serial with_pins].
  now rewrite serial_write_cycles.
Qed.

Lemma serial_command_cycle (c : Z) (w : World H) :
  serial (command_cycle c w) = serial w.
Proof. reflexivity. Qed.

Lemma serial_say (o : Out) (w : World H) : serial (say o w) = serial w ++ [o].
Proof. reflexivity. Qed.

Lemma serial_with_hw (h : H) (w : World H) : serial (with_hw h w) = serial w.
Proof. reflexivity. Qed.

Lemma serial_with_serial (s : list Out) (w : World H) : serial (with_serial s w) = s.
Proof. reflexivity. Qed.

Lemma serial_deselect (w : World H) : serial (deselect w) = serial w.
Proof. reflexivity. Qed.

Lemma serial_read_cycle (w : World H) : serial (read_cycle w) = serial w.
Proof. reflexivity. Qed.

Lemma serial_erase_finish (w : World H) :
  exists o, serial (erase_finish w) = serial w ++ [o].
Proof.
  unfold erase_finish. cbv zeta. eexists.
  now rewrite serial_say, serial_deselect, serial_read_cycle, serial_command_cycle.
Qed.

Lemma serial_program_finish (w : World H) :
  exists o, serial (program_finish w) = serial w ++ [o].
Proof.
  unfold program_finish. cbv zeta. eexists.
  now rewrite serial_say, serial_deselect, serial_read_cycle, serial_command_cycle.
Qed.

Lemma serial_reset_setup (w : World H) : serial (reset_setup w) = serial w.
Proof. reflexivity. Qed.

Lemma serial_erase_setup (option : ascii) (address : Z) (w : World H) :
  serial (erase_setup option address w) = serial w.
Proof.
  unfold erase_setup. cbv zeta.
  destruct (Ascii.eqb option "1" || Ascii.eqb option "2"); [|reflexivity].
  now rewrite serial_command_cycle, serial_address_cycles.
Qed.

Lemma serial_read_setup (address : Z) (w : World H) :
  serial (read_setup address w) = serial w.
Proof.
  unfold read_setup. now rewrite serial_command_cycle, serial_address_cycles.
Qed.

Lemma serial_program_setup (address : Z) (l : list Z) (w : World H) :
  serial (program_setup address l w) = serial w.
Proof.
  unfold program_setup.
  now rewrite serial_command_cycle, serial_write_cycles, serial_address_cycles.
Qed.

(** A wait that never sees the chip ready gives up. *)
Lemma wait_gives_up (ws : World H) :
  stays_busy ws -> clock_passes ws ->
  exists k,
    gives_up_at ws k /\
    forall fuel, (k < fuel)%nat -> waitForNandReady fuel ws = Some (tt, timed_out ws k).
Proof.
  intros Hrb Hclock.
  destruct (waitForNandReady_gives_up ws Hrb Hclock) as (k & Hgt & Hmin & Hk & Hslack).
  exists k. split; [|exact Hk].
  split; [exact Hgt|]. split; [exact Hmin | exact Hslack].
Qed.

Lemma in_page_no_wrap (address numBytes : Z) :
  0 <= numBytes -> address mod 512 + numBytes <= 512 ->
  to_uint (to_uint (address mod 512) + numBytes) <= 512.
Proof.
  intros Hn Hin.
  assert (Hoff : 0 <= address mod 512 < 512) by (apply Z.mod_pos_bound; lia).
  rewrite (to_uint_small (address mod 512)) by lia.
  rewrite to_uint_small by lia. exact Hin.
Qed.

(** C8: when the ready/busy line stays low for the wait of a NAND
    operation and time passes, the wait stops at the first turn [k] at which
    it computes more than 1000 ms since it began (at no more than 1000 ms +
    [slack] when readings of the clock are at most [slack] apart): it has
    then sampled R/B [k] + 1 times, prints the timeout warning and returns.
    The timeout is soft: the operation goes on from that state as it does
    after a wait that found the chip ready.  So [nandReset] ends with the
    chip deselected and "NAND Flash reset complete", [nandErase] and
    [nandWriteData] read the status and report, [nandReadData] clocks out
    its bytes.  The states are exact: [reset_setup], [erase_setup],
    [read_setup] and [program_setup] are the cycles each operation has put
    on the bus when its wait begins, [timed_out] the state the wait leaves. *)
Theorem nand_ready_wait_times_out (w : World H) :
  (stays_busy w -> clock_passes w ->
   exists k,
     gives_up_at w k /\
     forall fuel, (k < fuel)%nat -> waitForNandReady fuel w = Some (tt, timed_out w k))
  /\
  (stays_busy (reset_setup w) -> clock_passes (reset_setup w) ->
   exists k,
     gives_up_at (reset_setup w) k /\
     forall fuel, (k < fuel)%nat ->
       nandReset fuel w
       = Some (tt, say (Println "NAND Flash reset complete")
                       (deselect (timed_out (reset_setup w) k))))
  /\
  (forall option address,
     stays_busy (erase_setup option address w) ->
     clock_passes (erase_setup option address w) ->
     exists k,
       gives_up_at (erase_setup option address w) k /\
       forall fuel, (k < fuel)%nat ->
         nandErase fuel option address w
         = Some (tt, erase_finish (timed_out (erase_setup option address w) k)))
  /\
  (forall address numBytes,
     stays_busy (read_setup address w) ->
     clock_passes (read_setup address w) ->
     exists k,
       gives_up_at (read_setup address w) k /\
       forall fuel, (k < fuel)%nat ->
       exists dump,
         nandReadData fuel address numBytes w
         = Some (tt, deselect
                       (with_serial (serial (timed_out (read_setup address w) k) ++ dump)
                          (read_cycles (Z.to_nat numBytes)
                             (timed_out (read_setup address w) k)))))
  /\
  (forall address data numBytes,
     buffer data numBytes ->
     address mod 512 + numBytes <= 512 ->
     stays_busy (program_setup address data w) ->
     clock_passes (program_setup address data w) ->
     exists k,
       gives_up_at (program_setup address data w) k /\
       forall fuel, (k < fuel)%nat ->
         nandWriteData fuel address data numBytes w
         = Some (tt, program_finish (timed_out (program_setup address data w) k))).
Proof.
  split; [|split; [|split; [|split]]].
  - apply wait_gives_up.
  - intros Hrb Hclock.
    destruct (wait_gives_up _ Hrb Hclock) as (k & Hk & Hwait).
    exists k. split; [exact Hk|]. intros fuel Hf.
    rewrite nandReset_unfold, (Hwait fuel Hf). reflexivity.
  - intros option address Hrb Hclock.
    destruct (wait_gives_up _ Hrb Hclock) as (k & Hk & Hwait).
    exists k. split; [exact Hk|]. intros fuel Hf.
    rewrite nandErase_unfold, (Hwait fuel Hf). reflexivity.
  - intros address numBytes Hrb Hclock.
    destruct (wait_gives_up _ Hrb Hclock) as (k & Hk & Hwait).
    exists k. split; [exact Hk|]. intros fuel Hf.
    exact (nandReadData_after_wait fuel address numBytes w _ (Hwait fuel Hf)).
  - intros address data numBytes (Hn & Hmax & Hbytes) Hin Hrb Hclock.
    destruct (wait_gives_up _ Hrb Hclock) as (k & Hk & Hwait).
    exists k. split; [exact Hk|]. intros fuel Hf.
    rewrite nandWriteData_unfold by (try apply in_page_no_wrap; lia).
    replace (firstn (Z.to_nat numBytes) data) with data
      by (symmetry; apply firstn_all2; lia).
    rewrite (Hwait fuel Hf). reflexivity.
Qed.

(** What a timed-out reset has put on the bus and on the serial output. *)
Lemma timed_out_reset_observed (w : World H) (k : nat) :
  ale (pins w) = LOW ->
  nand_cycles (bus (say (Println "NAND Flash reset complete")
                        (deselect (timed_out (reset_setup w) k))))
  = nand_cycles (bus w) ++ [Select; Cmd NAND_CMD_RESET; Deselect] /\
  serial (say (Println "NAND Flash reset complete")
              (deselect (timed_out (reset_setup w) k)))
  = serial w ++ [TIMEOUT_WARNING; Println "NAND Flash reset complete"].
Proof.
  intros Ha. split.
  - assert (Bsay : forall o (x : World H), bus (say o x) = bus x) by reflexivity.
    assert (Bhw : forall h (x : World H), bus (with_hw h x) = bus x) by reflexivity.
    assert (Bde : forall x : World H, bus (deselect x) = bus x ++ [NandCE HIGH])
      by reflexivity.
    assert (Bse : forall x : World H, bus (select x) = bus x ++ [NandCE LOW])
      by reflexivity.
    rewrite Bsay, Bde. unfold timed_out. rewrite Bsay, Bhw. unfold reset_setup.
    rewrite bus_command_cycle, Bse.
    change (ale (pins (select w))) with (ale (pins w)). rewrite Ha.
    unfold nand_cycles. rewrite !flat_map_app. cbn [flat_map app].
    rewrite <- !app_assoc. reflexivity.
  - rewrite serial_say, serial_deselect. unfold timed_out.
    rewrite serial_say, serial_with_hw, serial_reset_setup, <- app_assoc. reflexivity.
Qed.

End TimedOut.

(** On the bench a stuck ready/busy line reads low at every sample, and
    the clock passes when it advances at each reading. *)
Lemma bench_polls (j : nat) (b : Bench) :
  nand_stuck (polls j b) = nand_stuck b /\
  tick (polls j b) = tick b /\
  clock (polls j b) = clock b + Z.of_nat j * tick b.
Proof.
  revert b. induction j as [|j IH]; intros b.
  - cbn [polls]. repeat split. lia.
  - cbn [polls]. destruct (IH (poll b)) as (Hs & Ht & Hc).
    rewrite Hs, Ht, Hc. repeat split.
    change (clock (poll b)) with (clock b + tick b).
    change (tick (poll b)) with (tick b). lia.
Qed.

Lemma bench_stays_busy (ws : World Bench) :
  nand_stuck (hw ws) = true -> stays_busy ws.
Proof.
  intros Hs j. unfold poll_rb.
  change (fst (nand_rb (polls j (wait_hw ws))))
    with (negb (nand_stuck (polls j (wait_hw ws)))
          && Nat.eqb (nand_busy (polls j (wait_hw ws))) 0).
  destruct (bench_polls j (wait_hw ws)) as (-> & _ & _).
  change (nand_stuck (wait_hw ws)) with (nand_stuck (hw ws)). rewrite Hs. reflexivity.
Qed.

Lemma bench_elapsed (ws : World Bench) (k : nat) :
  elapsed (wait_start ws) (wait_hw ws) k = to_ulong ((Z.of_nat k + 1) * tick (hw ws)).
Proof.
  unfold elapsed, poll_clock, wait_start.
  change (fst (hw_millis (snd (nand_rb (polls k (wait_hw ws))))))
    with (clock (polls k (wait_hw ws))).
  destruct (bench_polls k (wait_hw ws)) as (_ & _ & ->).
  change (clock (wait_hw ws)) with (clock (hw ws) + tick (hw ws)).
  change (tick (wait_hw ws)) with (tick (hw ws)).
  change (fst (hw_millis (hw ws))) with (clock (hw ws)).
  unfold to_ulong. rewrite Zminus_mod_idemp_l, Zminus_mod_idemp_r.
  f_equal. lia.
Qed.

Lemma bench_clock_step (h : Bench) (j : nat) :
  to_ulong (poll_clock (polls (S j) h) - poll_clock (polls j h)) = to_ulong (tick h).
Proof.
  unfold poll_clock.
  change (fst (hw_millis (snd (nand_rb (polls (S j) h))))) with (clock (polls (S j) h)).
  change (fst (hw_millis (snd (nand_rb (polls j h))))) with (clock (polls j h)).
  destruct (bench_polls (S j) h) as (_ & _ & ->).
  destruct (bench_polls j h) as (_ & _ & ->).
  unfold to_ulong. rewrite Zminus_mod_idemp_l, Zminus_mod_idemp_r.
  f_equal. lia.
Qed.

Lemma bench_clock_passes (ws : World Bench) :
  0 < tick (hw ws) < 2 ^ 31 -> clock_passes ws.
Proof.
  intros Ht. exists (Z.to_nat (1000 / tick (hw ws))). rewrite bench_elapsed.
  assert (Hq : 0 <= 1000 / tick (hw ws)) by (apply Z.div_pos; lia).
  pose proof (Z.mul_div_le 1000 (tick (hw ws)) ltac:(lia)) as Hle.
  pose proof (Z.mul_succ_div_gt 1000 (tick (hw ws)) ltac:(lia)) as Hgt.
  rewrite Z2Nat.id by exact Hq.
  replace ((1000 / tick (hw ws) + 1) * tick (hw ws))
    with (tick (hw ws) * Z.succ (1000 / tick (hw ws))) by lia.
  rewrite Z.mul_succ_r in *.
  change (2 ^ 31) with 2147483648 in Ht.
  unfold to_ulong. change (2 ^ 32) with 4294967296.
  rewrite Z.mod_small; lia.
Qed.

(** On the bench with the stuck line: the reset gives up after the 1000
    samples whose elapsed time is at most 1000 ms, at 1001 ms, and goes on
    to deselect the chip and report. *)
Lemma nand_ready_wait_times_out_witness :
  exists k,
    gives_up_at (reset_setup (power_on bench_stuck)) k /\
    elapsed (wait_start (reset_setup (power_on bench_stuck)))
            (wait_hw (reset_setup (power_on bench_stuck))) k <= 1000 + 1 /\
    forall fuel, (k < fuel)%nat ->
    exists w',
      nandReset fuel (power_on bench_stuck) = Some (tt, w') /\
      nand_cycles (bus w') = [Select; Cmd NAND_CMD_RESET; Deselect] /\
      serial w' = [TIMEOUT_WARNING; Println "NAND Flash reset complete"].
Proof.
  destruct (proj1 (proj2 (nand_ready_wait_times_out (power_on bench_stuck))))
    as (k & Hk & Hreset).
  - apply bench_stays_busy. reflexivity.
  - apply bench_clock_passes. cbn. lia.
  - exists k. split; [exact Hk|]. split.
    + destruct Hk as (_ & _ & Hslack). apply Hslack; try lia.
      * rewrite bench_elapsed. cbn. lia.
      * intros j. rewrite bench_clock_step. vm_compute. discriminate.
    + intros fuel Hf. eexists. split; [exact (Hreset fuel Hf)|].
      exact (timed_out_reset_observed (power_on bench_stuck) k eq_refl).
Defined.

(** With nothing in the socket the reset is over after 1001 samples of
    R/B. *)
Example nandReset_no_chip :
  option_map (fun w => (nand_cycles (bus w), serial w, now (hw w)))
             (run (nandReset 1001) (power_on (mkNoChip 0)))
  = Some ([Select; Cmd NAND_CMD_RESET; Deselect],
          [TIMEOUT_WARNING; Println "NAND Flash reset complete"], 1002).
Proof. vm_compute. reflexivity. Qed.


(** ** The NAND driver on the simulated chip *)

Section SimulatedChip.

Lemma chip_latches_data (l : list Z) (n : NandChip) :
  chip_latches false false l n
  = mkNand (cells n) (bad n) (command n) (addr n) (page_reg n ++ map to_byte l)
           (row n) (col n) (out n) (status n).
Proof.
  revert n. induction l as [|v l IH]; intros n.
  - destruct n. cbn. now rewrite app_nil_r.
  - change (chip_latches false false (v :: l) n)
      with (chip_latches false false l (sim_nand_latch false false (to_byte v) n)).
    rewrite IH. cbn. now rewrite <- app_assoc.
Qed.

Lemma chip_reads_data (k : nat) (n : NandChip) :
  out n = OutData ->
  chip_reads k n
  = map (fun i => to_byte (cells n (row n) (col n + Z.of_nat i))) (seq 0 k).
Proof.
  revert n. induction k as [|k IH]; intros n Hout; [reflexivity|].
  cbn [chip_reads seq map]. unfold sim_nand_drive at 1. rewrite Hout.
  rewrite Z.add_0_r. f_equal.
  rewrite IH by (unfold sim_nand_advance; rewrite Hout; reflexivity).
  rewrite <- seq_shift, map_map.
  apply map_ext. intros i. unfold sim_nand_advance. rewrite Hout. cbn.
  f_equal. f_equal. lia.
Qed.

Lemma nths_all (l : list Z) :
  map (fun i => nth i l 0) (seq 0 (length l)) = l.
Proof.
  apply nth_ext with (d := 0) (d' := 0).
  - now rewrite length_map, length_seq.
  - intros i Hi. rewrite length_map, length_seq in Hi.
    rewrite (nth_indep _ 0 (nth 0 l 0)) by now rewrite length_map, length_seq.
    rewrite (map_nth (fun i => nth i l 0)). now rewrite seq_nth.
Qed.

(** What was programmed is what a read at the same address takes from the
    chip, when the chip reports no failure. *)
Lemma chip_round_trip (a0 a1 a2 a3 a4 : Z) (data : list Z) (n : NandChip) :
  Forall is_byte data ->
  Z.testbit (status (chip_programmed [a0; a1; a2; a3; a4] data n)) 0 = false ->
  chip_reads (length data)
    (chip_loaded [a0; a1; a2; a3; a4] (chip_programmed [a0; a1; a2; a3; a4] data n))
  = data.
Proof.
  intros Hb. unfold chip_programmed, chip_loaded. rewrite chip_latches_data.
  rewrite (map_to_byte_bytes data Hb).
  set (c := to_byte a0 + 256 * to_byte a1).
  set (r := to_byte a2 + 256 * to_byte a3 + 65536 * to_byte a4).
  change (sim_nand_latch true false (to_byte NAND_CMD_PROGRAM_CONFIRM) _)
    with (if bad n r
          then mkNand (cells n) (bad n) NAND_CMD_PROGRAM
                 [to_byte a0; to_byte a1; to_byte a2; to_byte a3; to_byte a4]
                 data (row n) (col n) (out n) 0x41
          else mkNand (fun r' c' =>
                     if (r' =? r) && (c <=? c') && (c' <? c + Z.of_nat (length data))
                     then nth (Z.to_nat (c' - c)) data 0
                     else cells n r' c')
                  (bad n) NAND_CMD_PROGRAM
                  [to_byte a0; to_byte a1; to_byte a2; to_byte a3; to_byte a4]
                  data (row n) (col n) (out n) 0x40).
  destruct (bad n r); [intros Hs; discriminate Hs|]. intros _.
  rewrite chip_reads_data by reflexivity.
  change (row (sim_nand_latch _ _ _ _)) with r.
  change (col (sim_nand_latch _ _ _ _)) with c.
  rewrite <- (nths_all data) at 2.
  apply map_ext_in. intros i Hi. apply in_seq in Hi.
  change (cells (sim_nand_latch _ _ _ _) r (c + Z.of_nat i))
    with (if (r =? r) && (c <=? c + Z.of_nat i)
               && (c + Z.of_nat i <? c + Z.of_nat (length data))
          then nth (Z.to_nat (c + Z.of_nat i - c)) data 0
          else cells n r (c + Z.of_nat i)).
  rewrite Z.eqb_refl.
  replace (c <=? c + Z.of_nat i) with true by (symmetry; apply Z.leb_le; lia).
  replace (c + Z.of_nat i <? c + Z.of_nat (length data)) with true
    by (symmetry; apply Z.ltb_lt; lia).
  cbn [andb]. replace (Z.to_nat (c + Z.of_nat i - c)) with i by lia.
  apply to_byte_small.
  rewrite Forall_forall in Hb. apply Hb. apply nth_In. lia.
Qed.

End SimulatedChip.

Lemma status_bit0 (s : Z) : negb (Z.land (to_byte s) 0x01 =? 0) = Z.testbit s 0.
Proof.
  change 1 with (Z.ones 1). rewrite Z.land_ones by lia.
  unfold to_byte. change (2 ^ 8) with (2 * 128). change (2 ^ 1) with 2.
  rewrite Z.mod_mod_divide by (exists 128; lia).
  rewrite <- Z.bit0_mod. now destruct (Z.testbit s 0).
Qed.

Section OnTheBench.

Implicit Types w : World Bench.

Lemma settings_fields (b b' : Bench) :
  settings b' = settings b ->
  nand_latency b' = nand_latency b /\ nand_stuck b' = nand_stuck b /\ tick b' = tick b.
Proof. unfold settings. intros E. injection E as -> -> ->. repeat split. Qed.

Lemma ready_bench_again (b b' : Bench) :
  settings b' = settings b -> nand_busy b' = 0%nat -> ready_bench b -> ready_bench b'.
Proof.
  intros E Hb (_ & Hs & Ht & Hl). apply settings_fields in E as (El & Es & Et).
  unfold ready_bench. rewrite El, Es, Et. repeat split; assumption.
Qed.

(** *** The chip under the cycles of the driver, while it is ready *)

Lemma bench_write_cycle (v : Z) w :
  nand_busy (hw w) = 0%nat ->
  nand (hw (write_cycle v w))
  = sim_nand_latch (cle (pins w)) (ale (pins w)) (to_byte v) (nand (hw w)) /\
  nand_busy (hw (write_cycle v w))
  = (if nand_starts_work (cle (pins w)) (to_byte v) then nand_latency (hw w) else 0%nat) /\
  settings (hw (write_cycle v w)) = settings (hw w).
Proof.
  intros Hb.
  change (hw (write_cycle v w))
    with (hw_delay 1 (nand_latch (cle (pins w)) (ale (pins w)) (to_byte v)
                                 (hw_delay 1 (hw w)))).
  cbn [hw_delay nand_latch BenchHW nand_busy nand nand_latency nand_stuck tick settings].
  rewrite Hb. cbn [nand_accepts Nat.eqb orb].
  cbn [nand nand_busy nand_latency nand_stuck tick].
  repeat split.
Qed.

Lemma bench_write_cycles (l : list Z) w :
  nand_busy (hw w) = 0%nat ->
  cle (pins w) = LOW ->
  nand (hw (write_cycles l w)) = chip_latches false (ale (pins w)) l (nand (hw w)) /\
  nand_busy (hw (write_cycles l w)) = 0%nat /\
  settings (hw (write_cycles l w)) = settings (hw w).
Proof.
  revert w. induction l as [|v l IH]; intros w Hb Hc; [now repeat split|].
  change (write_cycles (v :: l) w) with (write_cycles l (write_cycle v w)).
  destruct (bench_write_cycle v w Hb) as (Hn & Hb1 & Hs1).
  rewrite Hc in Hn, Hb1. cbn [nand_starts_work andb] in Hb1.
  destruct (IH (write_cycle v w) Hb1 Hc) as (Hn2 & Hb2 & Hs2).
  change (ale (pins (write_cycle v w))) with (ale (pins w)) in Hn2.
  rewrite Hn2, Hb2, Hs2, Hn, Hs1. repeat split.
Qed.

Lemma bench_command_cycle (c : Z) w :
  nand_busy (hw w) = 0%nat ->
  nand (hw (command_cycle c w)) = sim_nand_latch true false (to_byte c) (nand (hw w)) /\
  nand_busy (hw (command_cycle c w))
  = (if nand_starts_work true (to_byte c) then nand_latency (hw w) else 0%nat) /\
  settings (hw (command_cycle c w)) = settings (hw w).
Proof.
  intros Hb.
  exact (bench_write_cycle c (with_pins (pin_set NAND_CLE_PIN HIGH (pins w)) w) Hb).
Qed.

Lemma bench_address_cycles (l : list Z) w :
  nand_busy (hw w) = 0%nat ->
  cle (pins w) = LOW ->
  nand (hw (address_cycles l w)) = chip_latches false true l (nand (hw w)) /\
  nand_busy (hw (address_cycles l w)) = 0%nat /\
  settings (hw (address_cycles l w)) = settings (hw w).
Proof.
  intros Hb Hc.
  exact (bench_write_cycles l (with_pins (pin_set NAND_ALE_PIN HIGH (pins w)) w) Hb Hc).
Qed.

Lemma bench_read_cycle w :
  nand_busy (hw w) = 0%nat ->
  driven w = to_byte (sim_nand_drive (nand (hw w))) /\
  nand (hw (read_cycle w)) = sim_nand_advance (nand (hw w)) /\
  nand_busy (hw (read_cycle w)) = 0%nat /\
  settings (hw (read_cycle w)) = settings (hw w).
Proof.
  intros Hb. unfold driven.
  change (hw (read_cycle w)) with (hw_delay 1 (nand_advance (hw_delay 1 (hw w)))).
  cbn [hw_delay nand_advance nand_drive BenchHW nand_busy nand nand_latency nand_stuck
       tick settings].
  rewrite Hb. cbn [Nat.eqb nand nand_busy nand_latency nand_stuck tick].
  repeat split.
Qed.

Lemma bench_read_bytes (k : nat) w :
  nand_busy (hw w) = 0%nat -> read_bytes k w = chip_reads k (nand (hw w)).
Proof.
  revert w. induction k as [|k IH]; intros w Hb; [reflexivity|].
  cbn [read_bytes chip_reads].
  destruct (bench_read_cycle w Hb) as (Hd & Hn & Hb1 & _).
  rewrite Hd, (IH _ Hb1), Hn. reflexivity.
Qed.

(** *** The ready-wait on the bench *)

Lemma elapsed_since (c0 d : Z) :
  0 <= d <= 1000 -> to_ulong (to_ulong (c0 + d) - to_ulong c0) = d.
Proof.
  intros Hd. unfold to_ulong. rewrite Zminus_mod_idemp_l, Zminus_mod_idemp_r.
  replace (c0 + d - c0) with d by lia. change (2 ^ 32) with 4294967296.
  apply Z.mod_small. lia.
Qed.

(** With the chip busy for no more samples than fit into the 1000 ms, the
    loop ends when R/B reads high: nothing is printed, the chip is ready
    and otherwise as it was. *)
Lemma bench_wait_loop (fuel : nat) (c0 d : Z) w :
  nand_stuck (hw w) = false ->
  (nand_busy (hw w) < fuel)%nat ->
  0 <= tick (hw w) ->
  clock (hw w) = c0 + d ->
  0 <= d ->
  (nand_busy (hw w) <> 0%nat ->
   d + (Z.of_nat (nand_busy (hw w)) - 1) * tick (hw w) <= 1000) ->
  exists h,
    waitForNandReady_loop fuel (to_ulong c0) w = Some (tt, with_hw h w) /\
    nand h = nand (hw w) /\ nand_busy h = 0%nat /\ settings h = settings (hw w).
Proof.
  revert w d. induction fuel as [|fuel IH]; intros w d Hs Hf Ht Hc Hd Hfit; [lia|].
  cbn [waitForNandReady_loop]. unfold bind at 1. cbn [digitalRead].
  change (fst (nand_rb (hw w)))
    with (negb (nand_stuck (hw w)) && Nat.eqb (nand_busy (hw w)) 0).
  rewrite Hs. cbn [negb andb].
  destruct (nand_busy (hw w)) as [|busy] eqn:Hbusy; cbn [Nat.eqb Bool.eqb LOW].
  - exists (snd (nand_rb (hw w))). split; [reflexivity|].
    split; [reflexivity|]. split; [|reflexivity].
    change (nand_busy (snd (nand_rb (hw w)))) with (Nat.pred (nand_busy (hw w))).
    now rewrite Hbusy.
  - unfold bind at 1. cbn [millis].
    change (fst (hw_millis (hw (with_hw (snd (nand_rb (hw w))) w)))) with (clock (hw w)).
    assert (Hb0 : 0 <= Z.of_nat busy * tick (hw w)) by (apply Z.mul_nonneg_nonneg; lia).
    assert (Hd1 : d <= 1000).
    { specialize (Hfit ltac:(discriminate)).
      replace (Z.of_nat (S busy) - 1) with (Z.of_nat busy) in Hfit by lia. lia. }
    rewrite Hc, elapsed_since by lia.
    replace (1000 <? d) with false by (symmetry; apply Z.ltb_ge; exact Hd1).
    set (w' := with_hw (snd (hw_millis (hw (with_hw (snd (nand_rb (hw w))) w))))
                       (with_hw (snd (nand_rb (hw w))) w)).
    assert (Hn' : nand (hw w') = nand (hw w)) by reflexivity.
    assert (Hs' : settings (hw w') = settings (hw w)) by reflexivity.
    assert (Hb' : nand_busy (hw w') = busy).
    { change (nand_busy (hw w')) with (Nat.pred (nand_busy (hw w))). now rewrite Hbusy. }
    assert (Hc' : clock (hw w') = c0 + (d + tick (hw w))).
    { change (clock (hw w')) with (clock (hw w) + tick (hw w)). lia. }
    destruct (IH w' (d + tick (hw w))) as (h & E & Hn & Hb & Hset).
    + exact Hs.
    + rewrite Hb'. lia.
    + exact Ht.
    + exact Hc'.
    + lia.
    + rewrite Hb'. intros Hne. specialize (Hfit ltac:(discriminate)).
      change (tick (hw w')) with (tick (hw w)).
      replace (Z.of_nat (S busy) - 1) with (Z.of_nat busy) in Hfit by lia.
      replace ((Z.of_nat busy - 1) * tick (hw w))
        with (Z.of_nat busy * tick (hw w) - tick (hw w)) by lia.
      lia.
    + exists h. split; [|split; [|split]].
      * rewrite E. unfold w'. rewrite !with_hw_with_hw. reflexivity.
      * rewrite Hn. exact Hn'.
      * exact Hb.
      * rewrite Hset. exact Hs'.
Qed.

Lemma bench_wait (fuel : nat) w :
  nand_stuck (hw w) = false ->
  (nand_busy (hw w) < fuel)%nat ->
  0 <= tick (hw w) ->
  Z.of_nat (nand_busy (hw w)) * tick (hw w) <= 1000 ->
  exists h,
    waitForNandReady fuel w = Some (tt, with_hw h w) /\
    nand h = nand (hw w) /\ nand_busy h = 0%nat /\ settings h = settings (hw w).
Proof.
  intros Hs Hf Ht Hfit. unfold waitForNandReady. unfold bind at 1. cbn [millis].
  change (fst (hw_millis (hw w))) with (clock (hw w)).
  set (w' := with_hw (snd (hw_millis (hw w))) w).
  destruct (bench_wait_loop fuel (clock (hw w)) (tick (hw w)) w')
    as (h & E & Hn & Hb & Hset); try assumption; try reflexivity.
  - intros _. change (nand_busy (hw w')) with (nand_busy (hw w)).
    change (tick (hw w')) with (tick (hw w)).
    replace ((Z.of_nat (nand_busy (hw w)) - 1) * tick (hw w))
      with (Z.of_nat (nand_busy (hw w)) * tick (hw w) - tick (hw w)) by lia.
    lia.
  - exists h. split; [exact E|]. split; [exact Hn|]. split; [exact Hb | exact Hset].
Qed.

(** The wait that follows a confirm command on a ready bench. *)
Lemma bench_wait_after_confirm (fuel : nat) (c : Z) w :
  ready_bench (hw w) ->
  (nand_latency (hw w) < fuel)%nat ->
  nand_starts_work true (to_byte c) = true ->
  exists h,
    waitForNandReady fuel (command_cycle c w) = Some (tt, with_hw h (command_cycle c w)) /\
    nand h = sim_nand_latch true false (to_byte c) (nand (hw w)) /\
    nand_busy h = 0%nat /\ settings h = settings (hw w).
Proof.
  intros (Hb & Hs & Ht & Hfit) Hf Hc.
  destruct (bench_command_cycle c w Hb) as (Hn1 & Hb1 & Hs1).
  rewrite Hc in Hb1.
  destruct (settings_fields _ _ Hs1) as (El & Es & Et).
  destruct (bench_wait fuel (command_cycle c w)) as (h & E & Hn & Hbh & Hset).
  - now rewrite Es.
  - now rewrite Hb1.
  - now rewrite Et.
  - now rewrite Hb1, Et.
  - exists h. split; [exact E|]. split; [now rewrite Hn|]. split; [exact Hbh|].
    now rewrite Hset.
Qed.

Lemma nand_read_bytes_reads (l : list Z) :
  nand_read_bytes (map NandRead l) = l.
Proof.
  induction l as [|v l IH]; [reflexivity|].
  change (v :: nand_read_bytes (map NandRead l) = v :: l). now rewrite IH.
Qed.

Lemma bus_deselect w : bus (deselect w) = bus w ++ [NandCE HIGH].
Proof. reflexivity. Qed.

Lemma bus_with_serial (s : list Out) w : bus (with_serial s w) = bus w.
Proof. reflexivity. Qed.

Lemma bus_with_hw (h : Bench) w : bus (with_hw h w) = bus w.
Proof. reflexivity. Qed.

(** The chip when the data of a page program have been latched. *)
Lemma bench_program_data (address : Z) (data : list Z) w :
  nand_busy (hw w) = 0%nat ->
  let wd := write_cycles data
              (address_cycles (nand_address address)
                 (command_cycle NAND_CMD_PROGRAM (select w))) in
  nand (hw wd)
  = chip_latches false false data
      (chip_latches false true (nand_address address)
         (sim_nand_latch true false (to_byte NAND_CMD_PROGRAM) (nand (hw w)))) /\
  nand_busy (hw wd) = 0%nat /\
  settings (hw wd) = settings (hw w).
Proof.
  intros Hb wd.
  destruct (bench_command_cycle NAND_CMD_PROGRAM (select w) Hb) as (Hn1 & Hb1 & Hs1).
  change (nand_starts_work true (to_byte NAND_CMD_PROGRAM)) with false in Hb1.
  destruct (latches_command_cycle NAND_CMD_PROGRAM (select w)) as [Hc1 _].
  destruct (bench_address_cycles (nand_address address) _ Hb1 Hc1) as (Hn2 & Hb2 & Hs2).
  destruct (latches_address_cycles (nand_address address)
              (command_cycle NAND_CMD_PROGRAM (select w))) as [Hc2 Ha2].
  rewrite Hc1 in Hc2.
  destruct (bench_write_cycles data _ Hb2 Hc2) as (Hn3 & Hb3 & Hs3).
  rewrite Ha2 in Hn3.
  unfold wd. rewrite Hn3, Hb3, Hs3, Hn2, Hs2, Hn1, Hs1. repeat split.
Qed.

(** [nandWriteData] on the ready bench: the write goes through without a
    timeout, the chip is as after the program and status cycles and ready
    again, and the one line printed tells the fail bit of its status. *)
Lemma nandWriteData_bench (fuel : nat) (address : Z) (data : list Z) (numBytes : Z) w :
  buffer data numBytes ->
  address mod 512 + numBytes <= 512 ->
  ready_bench (hw w) ->
  (nand_latency (hw w) < fuel)%nat ->
  exists w1,
    nandWriteData fuel address data numBytes w = Some (tt, w1) /\
    nand (hw w1) = chip_programmed (nand_address address) data (nand (hw w)) /\
    ready_bench (hw w1) /\
    settings (hw w1) = settings (hw w) /\
    serial w1
    = serial w ++ [Println (if Z.testbit (status (nand (hw w1))) 0
                            then "Program failed!" else "Program successful")].
Proof.
  intros (Hn & Hmax & Hbytes) Hin Hready Hf.
  assert (Hall : firstn (Z.to_nat numBytes) data = data).
  { apply firstn_all2. lia. }
  rewrite nandWriteData_unfold by (try apply in_page_no_wrap; lia).
  rewrite Hall. unfold program_setup.
  set (wd := write_cycles data
               (address_cycles (nand_address address)
                  (command_cycle NAND_CMD_PROGRAM (select w)))).
  destruct (bench_program_data address data w (proj1 Hready)) as (Hnd & Hbd & Hsd).
  fold wd in Hnd, Hbd, Hsd.
  assert (Hrd : ready_bench (hw wd)) by exact (ready_bench_again _ _ Hsd Hbd Hready).
  destruct (settings_fields _ _ Hsd) as (Eld & _ & _).
  destruct (bench_wait_after_confirm fuel NAND_CMD_PROGRAM_CONFIRM wd Hrd)
    as (h & E & Hnh & Hbh & Hsh); [now rewrite Eld | reflexivity |].
  rewrite E.
  set (ws := command_cycle NAND_CMD_PROGRAM_CONFIRM wd) in *.
  set (w2 := with_hw h ws).
  assert (Hb2 : nand_busy (hw w2) = 0%nat) by exact Hbh.
  destruct (bench_command_cycle NAND_CMD_READ_STATUS w2 Hb2) as (Hn3 & Hb3 & Hs3).
  change (nand_starts_work true (to_byte NAND_CMD_READ_STATUS)) with false in Hb3.
  set (w3 := command_cycle NAND_CMD_READ_STATUS w2) in *.
  destruct (bench_read_cycle w3 Hb3) as (Hd & Hn4 & Hb4 & Hs4).
  assert (Hhw : hw (program_finish w2) = hw (read_cycle w3)) by reflexivity.
  assert (Hchip : nand (hw (program_finish w2))
                  = chip_programmed (nand_address address) data (nand (hw w))).
  { rewrite Hhw, Hn4, Hn3. change (nand (hw w2)) with (nand h).
    rewrite Hnh, Hnd. reflexivity. }
  assert (Hset : settings (hw (program_finish w2)) = settings (hw w)).
  { rewrite Hhw, Hs4, Hs3. change (settings (hw w2)) with (settings h).
    now rewrite Hsh, Hsd. }
  eexists. split; [reflexivity|]. split; [exact Hchip|]. split; [|split; [exact Hset|]].
  - apply (ready_bench_again (hw w)); [exact Hset | | exact Hready].
    rewrite Hhw. exact Hb4.
  - assert (Hst : negb (Z.land (driven w3) 0x01 =? 0)
                  = Z.testbit (status (nand (hw (program_finish w2)))) 0).
    { rewrite Hd, Hn3, Hhw, Hn4, Hn3.
      change (sim_nand_drive (sim_nand_latch true false (to_byte NAND_CMD_READ_STATUS)
                                (nand (hw w2))))
        with (status (nand (hw w2))).
      change (status (sim_nand_advance
                        (sim_nand_latch true false (to_byte NAND_CMD_READ_STATUS)
                           (nand (hw w2)))))
        with (status (nand (hw w2))).
      apply status_bit0. }
    rewrite <- Hst.
    unfold program_finish at 1. cbv zeta. fold w3.
    rewrite serial_say, serial_deselect, serial_read_cycle.
    unfold w3. rewrite serial_command_cycle. unfold w2. rewrite serial_with_hw.
    unfold ws. rewrite serial_command_cycle. unfold wd.
    rewrite serial_write_cycles, serial_address_cycles, serial_command_cycle.
    reflexivity.
Qed.

(** Setting up a read takes no byte from the chip. *)
Lemma bus_read_setup (address : Z) w :
  exists evs, bus (read_setup address w) = bus w ++ evs /\ nand_read_bytes evs = [].
Proof.
  unfold read_setup.
  rewrite bus_command_cycle, bus_address_cycles, bus_command_cycle.
  change (bus (select w)) with (bus w ++ [NandCE LOW]).
  rewrite <- !app_assoc. eexists. split; [reflexivity|].
  unfold nand_read_bytes. rewrite !flat_map_app.
  unfold nand_address. cbv zeta. reflexivity.
Qed.

(** [nandReadData] on the ready bench: the read goes through without a
    timeout, the bytes taken from the chip are those at the read pointer,
    and the dump printed shows them. *)
Lemma nandReadData_bench (fuel : nat) (address numBytes : Z) w :
  0 <= numBytes < 65536 ->
  ready_bench (hw w) ->
  (nand_latency (hw w) < fuel)%nat ->
  exists w2 evs dump,
    nandReadData fuel address numBytes w = Some (tt, w2) /\
    bus w2 = bus w ++ evs /\
    serial w2 = serial w ++ dump /\
    nand_read_bytes evs
    = chip_reads (Z.to_nat numBytes) (chip_loaded (nand_address address) (nand (hw w))) /\
    hex_column dump = nand_read_bytes evs /\
    ascii_column dump = map as_text (nand_read_bytes evs).
Proof.
  intros Hnum Hready Hf.
  set (wa := address_cycles (nand_address address)
               (command_cycle NAND_CMD_READ (select w))).
  destruct (bench_command_cycle NAND_CMD_READ (select w) (proj1 Hready))
    as (Hn1 & Hb1 & Hs1).
  change (nand_starts_work true (to_byte NAND_CMD_READ)) with false in Hb1.
  destruct (latches_command_cycle NAND_CMD_READ (select w)) as [Hc1 _].
  destruct (bench_address_cycles (nand_address address) _ Hb1 Hc1) as (Hn2 & Hb2 & Hs2).
  fold wa in Hn2, Hb2, Hs2.
  assert (Hsa : settings (hw wa) = settings (hw w)) by now rewrite Hs2, Hs1.
  assert (Hra : ready_bench (hw wa)) by exact (ready_bench_again _ _ Hsa Hb2 Hready).
  destruct (settings_fields _ _ Hsa) as (Ela & _ & _).
  destruct (bench_wait_after_confirm fuel NAND_CMD_READ_CONFIRM wa Hra)
    as (h & E & Hnh & Hbh & Hsh); [now rewrite Ela | reflexivity |].
  change (command_cycle NAND_CMD_READ_CONFIRM wa) with (read_setup address w) in E.
  destruct (nandReadData_after_wait_shows fuel address numBytes w _ Hnum E)
    as (t & Eread & Hhex & Htext).
  destruct (bus_read_setup address w) as (evs0 & Hb0 & Hr0).
  set (w3 := with_hw h (read_setup address w)) in *.
  assert (Hbytes : read_bytes (Z.to_nat numBytes) w3
                   = chip_reads (Z.to_nat numBytes)
                       (chip_loaded (nand_address address) (nand (hw w)))).
  { rewrite bench_read_bytes by exact Hbh.
    change (nand (hw w3)) with (nand h). rewrite Hnh, Hn2, Hn1. reflexivity. }
  assert (Hevs : nand_read_bytes
                   (evs0 ++ map NandRead (read_bytes (Z.to_nat numBytes) w3)
                         ++ [NandCE HIGH])
                 = read_bytes (Z.to_nat numBytes) w3).
  { unfold nand_read_bytes. rewrite !flat_map_app.
    fold (nand_read_bytes evs0).
    fold (nand_read_bytes (map NandRead (read_bytes (Z.to_nat numBytes) w3))).
    rewrite Hr0, nand_read_bytes_reads. cbn [flat_map app]. now rewrite app_nil_r. }
  exists (deselect (with_serial (serial w3 ++ t) (read_cycles (Z.to_nat numBytes) w3))).
  exists (evs0 ++ map NandRead (read_bytes (Z.to_nat numBytes) w3) ++ [NandCE HIGH]).
  exists t.
  split; [exact Eread|]. split; [|split; [|split; [|split]]].
  - rewrite bus_deselect, bus_with_serial, bus_read_cycles.
    unfold w3. rewrite bus_with_hw, Hb0. now rewrite <- !app_assoc.
  - rewrite serial_deselect, serial_with_serial.
    unfold w3. rewrite serial_with_hw, serial_read_setup. reflexivity.
  - rewrite Hevs. exact Hbytes.
  - rewrite Hevs. exact Hhex.
  - rewrite Hevs. exact Htext.
Qed.

End OnTheBench.

(** C3: on the simulated NAND chip (ready, with a working ready/busy line,
    and busy for no longer than the wait lasts), a write of [data] that
    stays within its 512-byte page goes through and reports the fail bit
    of the status it has read; when that bit (bit 0 of the chip's status
    register) is clear, a read of as many bytes at the same address goes
    through as well, the bytes [nandReadByte] gets from the chip are exactly
    [data], and so are the bytes that the dump of [hexDump] shows, in its
    hex columns and in its text column. *)
Theorem nand_write_then_read_returns_data (fuel : nat) (address : Z) (data : list Z)
        (numBytes : Z) (w : World Bench) :
  buffer data numBytes ->
  address mod 512 + numBytes <= 512 ->
  ready_bench (hw w) ->
  (nand_latency (hw w) < fuel)%nat ->
  exists w1,
    nandWriteData fuel address data numBytes w = Some (tt, w1) /\
    serial w1
    = serial w ++ [Println (if Z.testbit (status (nand (hw w1))) 0
                            then "Program failed!" else "Program successful")] /\
    (Z.testbit (status (nand (hw w1))) 0 = false ->
     exists w2 evs dump,
       nandReadData fuel address numBytes w1 = Some (tt, w2) /\
       bus w2 = bus w1 ++ evs /\
       serial w2 = serial w1 ++ dump /\
       nand_read_bytes evs = data /\
       hex_column dump = data /\
       ascii_column dump = map as_text data).
Proof.
  intros Hbuf Hin Hready Hf.
  destruct (nandWriteData_bench fuel address data numBytes w Hbuf Hin Hready Hf)
    as (w1 & Ew & Hchip & Hready1 & Hset & Hser).
  exists w1. split; [exact Ew|]. split; [exact Hser|]. intros Hok.
  destruct (settings_fields _ _ Hset) as (El & _ & _).
  destruct Hbuf as (Hn & Hmax & Hbytes).
  assert (Hnum : 0 <= numBytes < 65536).
  { assert (0 <= address mod 512 < 512) by (apply Z.mod_pos_bound; lia). lia. }
  destruct (nandReadData_bench fuel address numBytes w1 Hnum Hready1)
    as (w2 & evs & dump & Er & Hbus & Hs2 & Hreads & Hhex & Htext);
    [now rewrite El|].
  assert (Hdata : nand_read_bytes evs = data).
  { rewrite Hreads, Hchip. rewrite Hchip in Hok.
    replace (Z.to_nat numBytes) with (length data) by lia.
    unfold nand_address in *. cbv zeta in *.
    now apply chip_round_trip. }
  exists w2, evs, dump. split; [exact Er|]. split; [exact Hbus|]. split; [exact Hs2|].
  split; [exact Hdata|]. split; [now rewrite Hhex | now rewrite Htext, Hdata].
Qed.

Lemma nand_write_then_read_returns_data_witness :
  exists w1,
    nandWriteData 3 1000 [0x48; 0x69; 0x21] 3 (power_on bench0) = Some (tt, w1) /\
    Z.testbit (status (nand (hw w1))) 0 = false /\
    exists w2 evs dump,
      nandReadData 3 1000 3 w1 = Some (tt, w2) /\
      bus w2 = bus w1 ++ evs /\
      serial w2 = serial w1 ++ dump /\
      nand_read_bytes evs = [0x48; 0x69; 0x21] /\
      hex_column dump = [0x48; 0x69; 0x21] /\
      ascii_column dump = [Some 0x48; Some 0x69; Some 0x21].
Proof.
  destruct (nand_write_then_read_returns_data 3 1000 [0x48; 0x69; 0x21] 3
              (power_on bench0)) as (w1 & Ew & _ & Hread).
  - split; [reflexivity|]. split; [lia|]. repeat constructor; unfold is_byte; lia.
  - cbn. lia.
  - repeat split; cbn; lia.
  - cbn. lia.
  - assert (Hok : Z.testbit (status (nand (hw w1))) 0 = false).
    { vm_compute in Ew. injection Ew as <-. reflexivity. }
    exists w1. split; [exact Ew|]. split; [exact Hok|]. exact (Hread Hok).
Defined.

(** On the bench: three bytes written at address 1000 and read back; the
    first byte taken from the chip is the status the write ends with, and
    the dump of the read shows the three bytes. *)
Example nand_round_trip_on_the_bench :
  option_map (fun w => (nand_read_bytes (bus w), hex_column (serial w),
                        ascii_column (serial w)))
             (run (nandWriteData 3 1000 [0x48; 0x69; 0x21] 3 ;; nandReadData 3 1000 3)
                  (power_on bench0))
  = Some ([0x40; 0x48; 0x69; 0x21], [0x48; 0x69; 0x21],
          [Some 0x48; Some 0x69; Some 0x21]).
Proof. vm_compute. reflexivity. Qed.

(** When the chip is busy for longer than the wait lasts, the wait times
    out, the driver reads on, and what it gets is not the data: the chip
    gives no data while it is busy. *)
Example nand_read_while_busy_gets_no_data :
  option_map (fun w => (nand_read_bytes (bus w), hex_column (serial w)))
             (run (nandWriteData 3 1000 [0x48; 0x69; 0x21] 3 ;; nandReadData 3 1000 3)
                  (power_on (mkBench blank_nand 0 3 false idle_flash
                                     (fun a => a =? 0x50) 0 600)))
  <> Some ([0x40; 0x48; 0x69; 0x21], [0x48; 0x69; 0x21]).
Proof. vm_compute. discriminate. Qed.

(** ** What the drivers leave alone *)

Section Preserves.

Context {H : Type} {HW : Hardware H}.

Lemma preserves_ret {A B : Type} (f : World H -> B) (a : A) : preserves f (ret (H := H) a).
Proof. intros w x w' E. now injection E as _ <-. Qed.

Lemma preserves_bind {A B C : Type} (f : World H -> C) (m : M H A) (k : A -> M H B) :
  preserves f m -> (forall a, preserves f (k a)) -> preserves f (bind m k).
Proof.
  intros Hm Hk w x w' E. apply bind_inv in E as (a & w1 & E1 & E2).
  rewrite (Hk a _ _ _ E2). exact (Hm _ _ _ E1).
Qed.

Lemma preserves_modify {C : Type} (f : World H -> C) (g : World H -> World H) :
  (forall w, f (g w) = f w) -> preserves f (modify g).
Proof. intros Hg w x w' E. injection E as _ <-. apply Hg. Qed.

Lemma preserves_gets {A C : Type} (f : World H -> C) (g : World H -> A) :
  preserves f (gets g).
Proof. intros w x w' E. now injection E as _ <-. Qed.

Lemma preserves_out_of_fuel {A C : Type} (f : World H -> C) :
  preserves f (out_of_fuel (H := H) (A := A)).
Proof. intros w x w' E. discriminate. Qed.

Lemma preserves_when {C : Type} (f : World H -> C) (c : bool) (m : M H unit) :
  preserves f m -> preserves f (when c m).
Proof. destruct c; [trivial | intros _; apply preserves_ret]. Qed.

Lemma preserves_for_each {A C : Type} (f : World H -> C) (l : list A)
      (body : A -> M H unit) :
  (forall x, preserves f (body x)) -> preserves f (for_each l body).
Proof.
  intros Hb. induction l as [|x l IH]; cbn [for_each].
  - apply preserves_ret.
  - apply preserves_bind; [apply Hb | intros _; exact IH].
Qed.

Lemma preserves_foldM {A S C : Type} (f : World H -> C) (l : list A) (s : S)
      (body : A -> S -> M H S) :
  (forall x s0, preserves f (body x s0)) -> preserves f (foldM l s body).
Proof.
  intros Hb. revert s. induction l as [|x l IH]; intros s; cbn [foldM].
  - apply preserves_ret.
  - apply preserves_bind; [apply Hb | intros s'; apply IH].
Qed.

End Preserves.

Create HintDb preserves discriminated.

(** A primitive that returns the state transformed: the component is read
    off the transformed state. *)
Ltac preserves_prim :=
  let w := fresh "w" in let x := fresh "x" in let w' := fresh "w'" in
  let E := fresh "E" in
  intros w x w' E;
  unfold digitalWrite, digitalRead, millis, delay, delayMicroseconds, SPI_transfer,
    Wire_beginTransmission, Wire_write, Wire_endTransmission, Wire_requestFrom,
    Wire_available, Wire_read, Serial_print, Serial_println, Serial_print_num,
    Serial_println_num, Serial_write, Serial_newline, modify, gets in E;
  cbv zeta beta in E;
  repeat match type of E with
         | context [match ?t with _ => _ end] => destruct t
         end;
  injection E as _ <-; reflexivity.

Ltac preserves_step :=
  lazymatch goal with
  | |- preserves _ (bind _ _) => apply preserves_bind; [|intro]
  | |- preserves _ (ret _) => apply preserves_ret
  | |- preserves _ out_of_fuel => apply preserves_out_of_fuel
  | |- preserves _ (when _ _) => apply preserves_when
  | |- preserves _ (for_each _ _) => apply preserves_for_each; intro
  | |- preserves _ (foldM _ _ _) => apply preserves_foldM; intros
  | |- preserves _ (if ?c then _ else _) => destruct c
  | |- preserves _ (match ?t with _ => _ end) => destruct t
  | |- preserves _ (let _ := _ in _) => cbv zeta
  | |- preserves _ _ => first [assumption | solve [auto with preserves] | solve [preserves_prim]]
  end.

Ltac preserves_all := repeat preserves_step.


(** The drivers and the commands other than the mode commands leave the
    selected memory type alone. *)

Section MemoryType.

Context {H : Type} {HW : Hardware H}.

Lemma memtype_nandWriteByte (v : Z) : preserves currentMemoryType (nandWriteByte v).
Proof. unfold nandWriteByte. preserves_all. Qed.

Lemma memtype_nandReadByte : preserves currentMemoryType nandReadByte.
Proof. unfold nandReadByte. preserves_all. Qed.

Local Hint Resolve memtype_nandWriteByte memtype_nandReadByte : preserves.

Lemma memtype_waitForNandReady (fuel : nat) : preserves currentMemoryType (waitForNandReady fuel).
Proof.
  unfold waitForNandReady. apply preserves_bind; [preserves_prim | intros startTime].
  induction fuel as [|fuel IH]; cbn [waitForNandReady_loop]; preserves_all.
Qed.

Local Hint Resolve memtype_waitForNandReady : preserves.

Lemma memtype_nandReset (fuel : nat) : preserves currentMemoryType (nandReset fuel).
Proof. unfold nandReset. preserves_all. Qed.

Lemma memtype_nandReadID : preserves currentMemoryType nandReadID.
Proof. unfold nandReadID. preserves_all. Qed.

Lemma memtype_hexDump (readFunc : M H Z) (numBytes : Z) :
  preserves currentMemoryType readFunc -> preserves currentMemoryType (hexDump readFunc numBytes).
Proof. intros Hr. unfold hexDump. preserves_all. Qed.

Lemma memtype_nandSendAddress (offset page : Z) : preserves currentMemoryType (nandSendAddress offset page).
Proof. unfold nandSendAddress. preserves_all. Qed.

Local Hint Resolve memtype_nandReset memtype_nandReadID memtype_hexDump
  memtype_nandSendAddress : preserves.

Lemma memtype_nandReadData (fuel : nat) (address numBytes : Z) :
  preserves currentMemoryType (nandReadData fuel address numBytes).
Proof. unfold nandReadData. preserves_all. Qed.

Lemma memtype_nandWriteData (fuel : nat) (address : Z) (data : list Z) (numBytes : Z) :
  preserves currentMemoryType (nandWriteData fuel address data numBytes).
Proof. unfold nandWriteData. preserves_all. Qed.

Lemma memtype_nandErase (fuel : nat) (option : ascii) (address : Z) :
  preserves currentMemoryType (nandErase fuel option address).
Proof. unfold nandErase. preserves_all. Qed.

Lemma memtype_nandReadStatus : preserves currentMemoryType nandReadStatus.
Proof. unfold nandReadStatus. preserves_all. Qed.

Lemma memtype_identifySPIFlash (m d1 d2 : Z) : preserves currentMemoryType (identifySPIFlash (H := H) m d1 d2).
Proof. unfold identifySPIFlash. preserves_all. Qed.

Local Hint Resolve memtype_identifySPIFlash : preserves.

Lemma memtype_spiReadID : preserves currentMemoryType spiReadID.
Proof. unfold spiReadID. preserves_all. Qed.

Lemma memtype_spiReadData (address numBytes : Z) : preserves currentMemoryType (spiReadData address numBytes).
Proof. unfold spiReadData. preserves_all. Qed.

Lemma memtype_waitForSpiReady : preserves currentMemoryType waitForSpiReady.
Proof. unfold waitForSpiReady. preserves_all. Qed.

Local Hint Resolve memtype_waitForSpiReady : preserves.

Lemma memtype_spiWritePage (address : Z) (data : list Z) (numBytes : Z) :
  preserves currentMemoryType (spiWritePage address data numBytes).
Proof. unfold spiWritePage. preserves_all. Qed.

Local Hint Resolve memtype_spiWritePage : preserves.

Lemma memtype_spiWriteData (address : Z) (data : list Z) (numBytes : Z) :
  preserves currentMemoryType (spiWriteData address data numBytes).
Proof. unfold spiWriteData. preserves_all. Qed.

Lemma memtype_spiErase_loop (fuel : nat) (startTime : Z) :
  preserves currentMemoryType (spiErase_loop fuel startTime).
Proof.
  revert startTime. induction fuel as [|fuel IH]; intros startTime;
    cbn [spiErase_loop]; preserves_all.
Qed.

Local Hint Resolve memtype_spiErase_loop : preserves.

Lemma memtype_spiErase (fuel : nat) (option : ascii) (address : Z) :
  preserves currentMemoryType (spiErase fuel option address).
Proof. unfold spiErase. preserves_all. Qed.

Lemma memtype_spiReadStatus : preserves currentMemoryType spiReadStatus.
Proof. unfold spiReadStatus. preserves_all. Qed.

Lemma memtype_i2cDetect : preserves currentMemoryType i2cDetect.
Proof. unfold i2cDetect. preserves_all. Qed.

Lemma memtype_i2cFill (js buffer : list Z) : preserves currentMemoryType (i2cFill (H := H) js buffer).
Proof.
  revert buffer. induction js as [|j js IH]; intros buffer; cbn [i2cFill]; preserves_all.
Qed.

Local Hint Resolve memtype_i2cFill : preserves.

Lemma memtype_i2cReadData_loop (fuel : nat) (address numBytes : Z) (use16 : bool)
      (i : Z) (buffer : list Z) :
  preserves currentMemoryType (i2cReadData_loop fuel address numBytes use16 i buffer).
Proof.
  revert i buffer. induction fuel as [|fuel IH]; intros i buffer;
    cbn [i2cReadData_loop]; preserves_all.
Qed.

Local Hint Resolve memtype_i2cReadData_loop : preserves.

Lemma memtype_i2cReadData (fuel : nat) (address numBytes : Z) :
  preserves currentMemoryType (i2cReadData fuel address numBytes).
Proof. unfold i2cReadData. preserves_all. Qed.

Lemma memtype_i2cWriteChunk (use16 : bool) (currentAddr : Z) (data : list Z)
      (bytesWritten bytesToWrite : Z) :
  preserves currentMemoryType (i2cWriteChunk use16 currentAddr data bytesWritten bytesToWrite).
Proof. unfold i2cWriteChunk. preserves_all. Qed.

Local Hint Resolve memtype_i2cWriteChunk : preserves.

Lemma memtype_i2cWriteData_loop (fuel : nat) (address : Z) (data : list Z) (numBytes : Z)
      (use16 : bool) (bytesWritten : Z) :
  preserves currentMemoryType (i2cWriteData_loop fuel address data numBytes use16 bytesWritten).
Proof.
  revert bytesWritten. induction fuel as [|fuel IH]; intros bytesWritten;
    cbn [i2cWriteData_loop]; preserves_all.
Qed.

Local Hint Resolve memtype_i2cWriteData_loop : preserves.

Lemma memtype_i2cWriteData (address : Z) (data : list Z) (numBytes : Z) :
  preserves currentMemoryType (i2cWriteData address data numBytes).
Proof. unfold i2cWriteData. preserves_all. Qed.

Local Hint Resolve memtype_i2cWriteData : preserves.

Lemma memtype_i2cErase (option : ascii) (address : Z) : preserves currentMemoryType (i2cErase option address).
Proof. unfold i2cErase. preserves_all. Qed.

Lemma memtype_i2cReadStatus : preserves currentMemoryType i2cReadStatus.
Proof. unfold i2cReadStatus. preserves_all. Qed.

Local Hint Resolve memtype_nandReadData memtype_nandWriteData memtype_nandErase
  memtype_nandReadStatus memtype_spiReadID memtype_spiReadData memtype_spiWriteData
  memtype_spiErase memtype_spiReadStatus memtype_i2cDetect memtype_i2cReadData
  memtype_i2cErase memtype_i2cReadStatus : preserves.

Lemma memtype_printMenu : preserves currentMemoryType (printMenu (H := H)).
Proof. unfold printMenu. preserves_all. Qed.

Lemma memtype_readDeviceID : preserves currentMemoryType readDeviceID.
Proof. unfold readDeviceID. preserves_all. Qed.

Lemma memtype_readData (fuel : nat) (inp : Input) : preserves currentMemoryType (readData fuel inp).
Proof. unfold readData. preserves_all. Qed.

Lemma memtype_writeData (fuel : nat) (inp : Input) : preserves currentMemoryType (writeData fuel inp).
Proof. unfold writeData. preserves_all. Qed.

Lemma memtype_eraseDispatch (fuel : nat) (option : ascii) (address : Z) :
  preserves currentMemoryType (eraseDispatch fuel option address).
Proof. unfold eraseDispatch. preserves_all. Qed.

Local Hint Resolve memtype_eraseDispatch : preserves.

Lemma memtype_eraseMemory (fuel : nat) (inp : Input) : preserves currentMemoryType (eraseMemory fuel inp).
Proof. unfold eraseMemory. preserves_all. Qed.

Lemma memtype_readStatus : preserves currentMemoryType readStatus.
Proof. unfold readStatus. preserves_all. Qed.


Lemma memtype_setI2CAddress (inp : Input) :
  preserves currentMemoryType (setI2CAddress (H := H) inp).
Proof. unfold setI2CAddress. preserves_all. Qed.

Lemma setMemoryType_selects (fuel : nat) (type : MemoryType) (w w' : World H) :
  setMemoryType fuel type w = Some (tt, w') -> currentMemoryType w' = type.
Proof.
  unfold setMemoryType. exec_by reflexivity.
  intros E.
  assert (Hp : preserves currentMemoryType
                 (match type with
                  | MEM_NAND_FLASH =>
                      Serial_println "NAND Flash mode selected" ;; nandReset fuel
                  | MEM_SPI_FLASH => Serial_println "SPI Flash mode selected"
                  | MEM_I2C_EEPROM =>
                      Serial_println "I2C EEPROM mode selected" ;;
                      Serial_print "Current I2C address: 0x" ;;
                      a <- gets i2cAddress ;; Serial_println_num a HEX
                  | MEM_UNKNOWN => Serial_println "Unknown memory type!"
                  end)) by preserves_all.
  rewrite (Hp _ _ _ E). reflexivity.
Qed.

(** X1: What a command does to the two globals of the session.  The memory
    type changes with the mode commands '1', '2', '3' and with no other
    command; it is set even when the NAND reset that follows '1' times out.
    The EEPROM bus address changes only with command 'a' and a valid
    address.  No driver touches either. *)
Theorem handleCommand_changes_the_globals_only_on_request (fuel : nat) (cmd : ascii)
        (inp : Input) (w w' : World H) :
  handleCommand fuel cmd inp w = Some (tt, w') ->
  currentMemoryType w'
  = (if Ascii.eqb cmd "1" then MEM_NAND_FLASH
     else if Ascii.eqb cmd "2" then MEM_SPI_FLASH
     else if Ascii.eqb cmd "3" then MEM_I2C_EEPROM
     else currentMemoryType w) /\
  i2cAddress w'
  = (if Ascii.eqb cmd "a" && (0x08 <=? to_byte (addressValue inp))
        && (to_byte (addressValue inp) <=? 0x77)
     then to_byte (addressValue inp) else i2cAddress w).
Proof.
  unfold handleCommand.
  destruct (Ascii.eqb_spec cmd "1") as [-> | N1].
  { intros E. split; [exact (setMemoryType_selects _ _ _ _ E)|].
    exact (keeps_setMemoryType _ _ _ _ _ E). }
  destruct (Ascii.eqb_spec cmd "2") as [-> | N2].
  { intros E. split; [exact (setMemoryType_selects _ _ _ _ E)|].
    exact (keeps_setMemoryType _ _ _ _ _ E). }
  destruct (Ascii.eqb_spec cmd "3") as [-> | N3].
  { intros E. split; [exact (setMemoryType_selects _ _ _ _ E)|].
    exact (keeps_setMemoryType _ _ _ _ _ E). }
  destruct (Ascii.eqb_spec cmd "i") as [-> | Ni].
  { intros E. split; [exact (memtype_readDeviceID _ _ _ E) | exact (keeps_readDeviceID _ _ _ E)]. }
  destruct (Ascii.eqb_spec cmd "r") as [-> | Nr].
  { intros E. split; [exact (memtype_readData _ _ _ _ _ E) | exact (keeps_readData _ _ _ _ _ E)]. }
  destruct (Ascii.eqb_spec cmd "w") as [-> | Nw].
  { intros E. split; [exact (memtype_writeData _ _ _ _ _ E) | exact (keeps_writeData _ _ _ _ _ E)]. }
  destruct (Ascii.eqb_spec cmd "e") as [-> | Ne].
  { intros E. split; [exact (memtype_eraseMemory _ _ _ _ _ E) | exact (keeps_eraseMemory _ _ _ _ _ E)]. }
  destruct (Ascii.eqb_spec cmd "s") as [-> | Ns].
  { intros E. split; [exact (memtype_readStatus _ _ _ E) | exact (keeps_readStatus _ _ _ E)]. }
  destruct (Ascii.eqb_spec cmd "a") as [-> | Na].
  { intros E. split; [exact (memtype_setI2CAddress _ _ _ _ E)|].
    cbn [Ascii.eqb Bool.eqb andb].
    destruct (valid_i2cAddress_dec (to_byte (addressValue inp))) as [Hv | Hv].
    - rewrite (setI2CAddress_accepts inp w Hv) in E. injection E as <-.
      destruct Hv as [Hlo Hhi].
      apply Z.leb_le in Hlo, Hhi. rewrite Hlo, Hhi. reflexivity.
    - rewrite (setI2CAddress_rejects inp w Hv) in E. injection E as <-.
      replace ((8 <=? to_byte (addressValue inp)) && (to_byte (addressValue inp) <=? 119))
        with false; [reflexivity|].
      symmetry. apply andb_false_iff. unfold valid_i2cAddress in Hv.
      destruct (Z.leb_spec 8 (to_byte (addressValue inp))); [|now left].
      right. apply Z.leb_gt. lia. }
  cbn [andb].
  destruct (Ascii.eqb cmd "h").
  { intros E. split; [exact (memtype_printMenu _ _ _ E) | exact (keeps_printMenu _ _ _ E)]. }
  destruct (Ascii.eqb cmd "010" || Ascii.eqb cmd "013").
  { intros E. now injection E as <-. }
  intros E. now injection E as <-.
Qed.

End MemoryType.

Lemma handleCommand_changes_the_globals_only_on_request_witness :
  exists w',
    handleCommand 3 "1" (mkInput 0 0 [] "1" "" 0) (power_on bench0) = Some (tt, w') /\
    currentMemoryType w' = MEM_NAND_FLASH /\ i2cAddress w' = 0x50.
Proof.
  destruct (handleCommand 3 "1" (mkInput 0 0 [] "1" "" 0) (power_on bench0))
    as [[[] w']|] eqn:E; [|vm_compute in E; discriminate E].
  destruct (handleCommand_changes_the_globals_only_on_request 3 "1" _ _ w' E) as [Ht Ha].
  exists w'. split; [reflexivity|]. split; [exact Ht | exact Ha].
Defined.

(** * Further properties of the drivers *)

(** ** The NAND data bus *)

Section DataBus.

Context {H : Type} {HW : Hardware H}.

Lemma port_d_low_bits (P d n : Z) :
  0 <= n < 2 ->
  Z.testbit (to_byte (Z.lor (Z.land P 3) (Z.shiftl (Z.land d 63) 2))) n = Z.testbit P n.
Proof.
  intros Hn. unfold to_byte.
  assert (E : n = 0 \/ n = 1) by lia.
  destruct E as [-> | ->]; repeat (progress (bitwise; closed_bits)); reflexivity.
Qed.

Lemma port_b_high_bits (B d n : Z) :
  2 <= n < 8 ->
  Z.testbit (to_byte (Z.lor (Z.land B 252) (Z.land (Z.shiftr d 6) 3))) n = Z.testbit B n.
Proof.
  intros Hn. unfold to_byte.
  assert (E : n = 2 \/ n = 3 \/ n = 4 \/ n = 5 \/ n = 6 \/ n = 7) by lia.
  destruct E as [-> | [-> | [-> | [-> | [-> | ->]]]]];
    repeat (progress (bitwise; closed_bits)); reflexivity.
Qed.

(** X2: [nandWriteByte] on the selected chip: one write cycle with the byte on
    the eight data lines; of the two port registers it changes no bit but
    those of the data lines (D0, D1 and D10-D13 stay as they were), and WE
    is high again when it returns. *)
Theorem nandWriteByte_drives_only_the_data_lines (v : Z) (w : World H) :
  ce (pins w) = LOW ->
  exists w',
    nandWriteByte v w = Some (tt, w') /\
    bus w' = bus w ++ [NandWrite (cle (pins w)) (ale (pins w)) (to_byte v)] /\
    data_lines w' = to_byte v /\
    (forall n, 0 <= n < 2 -> Z.testbit (PORTD w') n = Z.testbit (PORTD w) n) /\
    (forall n, 2 <= n < 8 -> Z.testbit (PORTB w') n = Z.testbit (PORTB w) n) /\
    is_byte (PORTD w') /\ is_byte (PORTB w') /\
    pins w' = pin_set NAND_WE_PIN HIGH (pins w).
Proof.
  intros Hce. exists (write_cycle v w).
  split; [now apply nandWriteByte_exec|].
  split; [reflexivity|].
  split; [apply lines_of_ports|].
  split; [intros n Hn; apply port_d_low_bits; exact Hn|].
  split; [intros n Hn; apply port_b_high_bits; exact Hn|].
  split; [apply to_byte_is_byte|].
  split; [apply to_byte_is_byte | reflexivity].
Qed.

(** X3: [nandReadByte] on the selected chip: one read cycle; the value returned,
    put together from PIND and PINB, is the byte the chip drives; the port
    latches are not written, D2-D9 become inputs and no other direction bit
    changes. *)
Theorem nandReadByte_returns_the_driven_byte (w : World H) :
  ce (pins w) = LOW ->
  exists w',
    nandReadByte w = Some (to_byte (nand_drive (hw_delay 1 (hw w))), w') /\
    bus w' = bus w ++ [NandRead (to_byte (nand_drive (hw_delay 1 (hw w))))] /\
    PORTD w' = PORTD w /\ PORTB w' = PORTB w /\
    DDRD w' = Z.land (DDRD w) 0x03 /\ DDRB w' = Z.land (DDRB w) 0xFC /\
    pins w' = pin_set NAND_RE_PIN HIGH (pins w).
Proof.
  intros Hce. exists (read_cycle w).
  split; [now apply nandReadByte_exec|]. now repeat split.
Qed.

End DataBus.

Lemma nandWriteByte_drives_only_the_data_lines_witness :
  exists w',
    nandWriteByte 0xA5 (select (power_on bench0)) = Some (tt, w') /\
    data_lines w' = 0xA5.
Proof.
  destruct (nandWriteByte_drives_only_the_data_lines 0xA5 (select (power_on bench0))
              eq_refl) as (w' & E & _ & Hl & _).
  exists w'. split; [exact E | exact Hl].
Defined.

Lemma nandReadByte_returns_the_driven_byte_witness :
  exists w',
    nandReadByte (select (power_on bench0)) = Some (0xFF, w') /\
    PORTD w' = 0.
Proof.
  destruct (nandReadByte_returns_the_driven_byte (select (power_on bench0)) eq_refl)
    as (w' & E & _ & Hd & _).
  exists w'. split; [exact E | exact Hd].
Defined.

(** ** The NAND protocol *)

Section NandProtocol.

Context {H : Type} {HW : Hardware H}.

Lemma nand_cycles_app (a b : list BusEvent) :
  nand_cycles (a ++ b) = nand_cycles a ++ nand_cycles b.
Proof. apply flat_map_app. Qed.

Lemma bus_after_deselect (w : World H) : bus (deselect w) = bus w ++ [NandCE HIGH].
Proof. reflexivity. Qed.

Lemma bus_after_say (o : Out) (w : World H) : bus (say o w) = bus w.
Proof. reflexivity. Qed.

Lemma bus_after_with_serial (s : list Out) (w : World H) : bus (with_serial s w) = bus w.
Proof. reflexivity. Qed.

Lemma bus_after_read_cycle (w : World H) :
  bus (read_cycle w) = bus w ++ [NandRead (driven w)].
Proof. reflexivity. Qed.

Lemma cycles_select (w : World H) :
  nand_cycles (bus (select w)) = nand_cycles (bus w) ++ [Select].
Proof. change (bus (select w)) with (bus w ++ [NandCE LOW]). now rewrite nand_cycles_app. Qed.

Lemma cycles_deselect (w : World H) :
  nand_cycles (bus (deselect w)) = nand_cycles (bus w) ++ [Deselect].
Proof. rewrite bus_after_deselect. now rewrite nand_cycles_app. Qed.

Lemma cycles_command (c : Z) (w : World H) :
  ale (pins w) = LOW ->
  nand_cycles (bus (command_cycle c w)) = nand_cycles (bus w) ++ [Cmd (to_byte c)].
Proof.
  intros Ha. rewrite bus_command_cycle, nand_cycles_app, Ha. reflexivity.
Qed.

Lemma cycles_address (l : list Z) (w : World H) :
  cle (pins w) = LOW ->
  nand_cycles (bus (address_cycles l w))
  = nand_cycles (bus w) ++ map (fun v => Addr (to_byte v)) l.
Proof.
  intros Hc. rewrite bus_address_cycles, nand_cycles_app, Hc. f_equal.
  induction l as [|v l IH]; [reflexivity|].
  cbn [map]. change (nand_cycles (?e :: ?r)) with (nand_cycles [e] ++ nand_cycles r).
  now rewrite IH.
Qed.

Lemma cycles_data (l : list Z) (w : World H) :
  cle (pins w) = LOW -> ale (pins w) = LOW ->
  nand_cycles (bus (write_cycles l w))
  = nand_cycles (bus w) ++ map (fun v => DataIn (to_byte v)) l.
Proof.
  intros Hc Ha. rewrite bus_write_cycles, nand_cycles_app, Hc, Ha. f_equal.
  induction l as [|v l IH]; [reflexivity|].
  cbn [map]. change (nand_cycles (?e :: ?r)) with (nand_cycles [e] ++ nand_cycles r).
  now rewrite IH.
Qed.

Lemma cycles_reads (k : nat) (w : World H) :
  nand_cycles (bus (read_cycles k w))
  = nand_cycles (bus w) ++ map DataOut (read_bytes k w).
Proof.
  rewrite bus_read_cycles, nand_cycles_app. f_equal.
  induction (read_bytes k w) as [|v l IH]; [reflexivity|].
  cbn [map]. change (nand_cycles (?e :: ?r)) with (nand_cycles [e] ++ nand_cycles r).
  now rewrite IH.
Qed.

Lemma length_read_bytes (k : nat) (w : World H) : length (read_bytes k w) = k.
Proof.
  revert w. induction k as [|k IH]; intros w; [reflexivity|].
  cbn [read_bytes length]. now rewrite IH.
Qed.

(** The latches after the set-up cycles. *)
Lemma latches_read_setup (address : Z) (w : World H) :
  nand_idle w -> nand_idle (read_setup address w).
Proof.
  intros [Hc Ha]. unfold read_setup.
  destruct (latches_command_cycle NAND_CMD_READ_CONFIRM
              (address_cycles (nand_address address)
                 (command_cycle NAND_CMD_READ (select w)))) as [Hc1 Ha1].
  destruct (latches_address_cycles (nand_address address)
              (command_cycle NAND_CMD_READ (select w))) as [_ Ha2].
  split; [exact Hc1 | now rewrite Ha1, Ha2].
Qed.

Lemma cycles_read_setup (address : Z) (w : World H) :
  nand_idle w ->
  nand_cycles (bus (read_setup address w))
  = nand_cycles (bus w) ++ [Select; Cmd NAND_CMD_READ]
      ++ map Addr (nand_address address) ++ [Cmd NAND_CMD_READ_CONFIRM].
Proof.
  intros [Hc Ha]. unfold read_setup.
  destruct (latches_address_cycles (nand_address address)
              (command_cycle NAND_CMD_READ (select w))) as [_ Ha2].
  destruct (latches_command_cycle NAND_CMD_READ (select w)) as [Hc1 Ha1].
  rewrite cycles_command by exact Ha2.
  rewrite cycles_address by exact Hc1.
  rewrite cycles_command by exact Ha.
  rewrite cycles_select, <- !app_assoc.
  unfold nand_address. cbv zeta. cbn [map app]. rewrite !to_byte_land. reflexivity.
Qed.

(** X4: [nandReadData], when its wait returns: chip select, the read command,
    five address cycles, read confirm, then exactly [numBytes] read cycles
    (none when [numBytes] is 0) and the chip is deselected. *)
Theorem nandReadData_takes_numBytes_bytes (fuel : nat) (address numBytes : Z)
        (w w' : World H) :
  nand_idle w ->
  nandReadData fuel address numBytes w = Some (tt, w') ->
  exists bytes,
    length bytes = Z.to_nat numBytes /\
    nand_cycles (bus w')
    = nand_cycles (bus w) ++ [Select; Cmd NAND_CMD_READ]
        ++ map Addr (nand_address address) ++ [Cmd NAND_CMD_READ_CONFIRM]
        ++ map DataOut bytes ++ [Deselect].
Proof.
  intros Hidle E.
  destruct (waitForNandReady fuel (read_setup address w)) as [[[] w2]|] eqn:Hwait.
  - destruct (nandReadData_after_wait fuel address numBytes w w2 Hwait) as (t & E2).
    rewrite E2 in E. injection E as <-.
    exists (read_bytes (Z.to_nat numBytes) w2). split; [apply length_read_bytes|].
    rewrite cycles_deselect, bus_after_with_serial, cycles_reads.
    rewrite (waits_bus _ _ (waitForNandReady_waits _ _ _ Hwait)).
    rewrite cycles_read_setup by exact Hidle.
    now rewrite <- !app_assoc.
  - rewrite nandReadData_unfold, Hwait in E. discriminate.
Qed.

Lemma cycles_program_setup (address : Z) (chunk : list Z) (w : World H) :
  nand_idle w ->
  nand_cycles (bus (program_setup address chunk w))
  = nand_cycles (bus w) ++ [Select; Cmd NAND_CMD_PROGRAM]
      ++ map Addr (nand_address address) ++ map (fun v => DataIn (to_byte v)) chunk
      ++ [Cmd NAND_CMD_PROGRAM_CONFIRM].
Proof.
  intros [Hc Ha]. unfold program_setup.
  set (w1 := command_cycle NAND_CMD_PROGRAM (select w)).
  set (w2 := address_cycles (nand_address address) w1).
  destruct (latches_command_cycle NAND_CMD_PROGRAM (select w)) as [Hc1 Ha1].
  destruct (latches_address_cycles (nand_address address) w1) as [Hc2 Ha2].
  destruct (pins_write_cycles chunk w2) as [Hc3 Ha3].
  fold w1 in Hc1, Ha1. fold w2 in Hc2, Ha2.
  rewrite cycles_command by (rewrite Ha3; exact Ha2).
  rewrite cycles_data by (rewrite ?Hc2; assumption).
  unfold w2. rewrite cycles_address by exact Hc1.
  unfold w1. rewrite cycles_command by exact Ha.
  rewrite cycles_select, <- !app_assoc.
  unfold nand_address. cbv zeta. cbn [map app]. rewrite !to_byte_land. reflexivity.
Qed.

(** X5: [nandWriteData] of data that stays in its page, when its wait returns:
    chip select, the program command, five address cycles, the data bytes
    in order, program confirm, then the status read; the chip is deselected
    and the last line on the serial output says whether bit 0 of the status
    that was read is set. *)
Theorem nandWriteData_programs_and_reports (fuel : nat) (address : Z) (data : list Z)
        (numBytes : Z) (w w' : World H) :
  nand_idle w ->
  buffer data numBytes ->
  address mod 512 + numBytes <= 512 ->
  nandWriteData fuel address data numBytes w = Some (tt, w') ->
  exists st s,
    nand_cycles (bus w')
    = nand_cycles (bus w) ++ [Select; Cmd NAND_CMD_PROGRAM]
        ++ map Addr (nand_address address) ++ map DataIn data
        ++ [Cmd NAND_CMD_PROGRAM_CONFIRM; Cmd NAND_CMD_READ_STATUS; DataOut st; Deselect]
    /\
    serial w'
    = serial w ++ s ++ [Println (if Z.land st 0x01 =? 0
                                 then "Program successful" else "Program failed!")].
Proof.
  intros Hidle (Hn & Hmax & Hbytes) Hin E.
  assert (Hall : firstn (Z.to_nat numBytes) data = data) by (apply firstn_all2; lia).
  rewrite nandWriteData_unfold in E by (try apply in_page_no_wrap; lia).
  rewrite Hall in E.
  destruct (waitForNandReady fuel (program_setup address data w))
    as [[[] w2]|] eqn:Hwait; [|discriminate].
  injection E as <-.
  destruct (waitForNandReady_waits _ _ _ Hwait) as (h & s & Ew2).
  assert (Hale2 : ale (pins w2) = LOW).
  { rewrite Ew2. change (ale (pins (program_setup address data w)) = LOW).
    unfold program_setup.
    destruct (latches_command_cycle NAND_CMD_PROGRAM_CONFIRM
                (write_cycles data
                   (address_cycles (nand_address address)
                      (command_cycle NAND_CMD_PROGRAM (select w))))) as [_ ->].
    destruct (pins_write_cycles data
                (address_cycles (nand_address address)
                   (command_cycle NAND_CMD_PROGRAM (select w)))) as [_ ->].
    apply latches_address_cycles. }
  exists (driven (command_cycle NAND_CMD_READ_STATUS w2)), s.
  unfold program_finish. cbv zeta. split.
  - rewrite bus_after_say, cycles_deselect, bus_after_read_cycle, nand_cycles_app.
    rewrite cycles_command by exact Hale2.
    rewrite Ew2, bus_after_with_serial.
    change (bus (with_hw h (program_setup address data w)))
      with (bus (program_setup address data w)).
    rewrite cycles_program_setup by exact Hidle.
    rewrite (map_ext_in (fun v => DataIn (to_byte v)) DataIn)
      by (intros v Hv; rewrite to_byte_small; [reflexivity|];
          rewrite Forall_forall in Hbytes; now apply Hbytes).
    rewrite <- !app_assoc. reflexivity.
  - rewrite serial_say, serial_deselect, serial_read_cycle, serial_command_cycle.
    rewrite Ew2, serial_with_serial, serial_program_setup, <- app_assoc.
    match goal with |- context [?a =? 0] => destruct (a =? 0) end; reflexivity.
Qed.

End NandProtocol.

Lemma nandReadData_takes_numBytes_bytes_witness :
  exists bytes,
    length bytes = 4%nat /\
    option_map (fun w => nand_cycles (bus w)) (run (nandReadData 3 0x1234 4) (power_on bench0))
    = Some ([Select; Cmd NAND_CMD_READ] ++ map Addr (nand_address 0x1234)
            ++ [Cmd NAND_CMD_READ_CONFIRM] ++ map DataOut bytes ++ [Deselect]).
Proof.
  destruct (nandReadData 3 0x1234 4 (power_on bench0)) as [[[] w']|] eqn:E;
    [|vm_compute in E; discriminate E].
  destruct (nandReadData_takes_numBytes_bytes 3 0x1234 4 (power_on bench0) w'
              (conj eq_refl eq_refl) E) as (bytes & Hl & Hc).
  exists bytes. split; [exact Hl|].
  unfold run. rewrite E. cbn [option_map]. rewrite Hc. reflexivity.
Defined.

Lemma nandWriteData_programs_and_reports_witness :
  exists w' st s,
    nandWriteData 3 0x1234 [1; 2; 3] 3 (power_on bench0) = Some (tt, w') /\
    serial w'
    = serial (power_on bench0) ++ s ++
      [Println (if Z.land st 0x01 =? 0 then "Program successful" else "Program failed!")].
Proof.
  destruct (nandWriteData 3 0x1234 [1; 2; 3] 3 (power_on bench0)) as [[[] w']|] eqn:E;
    [|vm_compute in E; discriminate E].
  destruct (nandWriteData_programs_and_reports 3 0x1234 [1; 2; 3] 3 (power_on bench0) w')
    as (st & s & _ & Hs).
  - split; reflexivity.
  - split; [reflexivity|]. split; [lia|]. repeat constructor; unfold is_byte; lia.
  - cbn. lia.
  - exact E.
  - exists w', st, s. split; [reflexivity | exact Hs].
Defined.

(** ** The ready-wait when the chip gets ready *)

Section ReadyInTime.

Context {H : Type} {HW : Hardware H}.

Lemma waitForNandReady_loop_ready (k fuel : nat) (startTime : Z) (w : World H) :
  (forall j, (j < k)%nat -> poll_rb (polls j (hw w)) = LOW) ->
  poll_rb (polls k (hw w)) = HIGH ->
  (forall j, (j < k)%nat -> elapsed startTime (hw w) j <= 1000) ->
  (k < fuel)%nat ->
  waitForNandReady_loop fuel startTime w
  = Some (tt, with_hw (snd (nand_rb (polls k (hw w)))) w).
Proof.
  revert fuel w. induction k as [|k IH]; intros fuel w Hlow Hhigh Hle Hfuel.
  - destruct fuel as [|fuel]; [lia|]. cbn [waitForNandReady_loop].
    unfold bind at 1. cbn [digitalRead].
    unfold poll_rb in Hhigh. cbn [polls] in Hhigh. rewrite Hhigh. reflexivity.
  - destruct fuel as [|fuel]; [lia|]. cbn [waitForNandReady_loop].
    unfold bind at 1. cbn [digitalRead].
    pose proof (Hlow 0%nat (Nat.lt_0_succ _)) as H0. unfold poll_rb in H0. cbn [polls] in H0.
    rewrite H0. cbn [Bool.eqb LOW].
    unfold bind at 1. cbn [millis].
    pose proof (Hle 0%nat (Nat.lt_0_succ _)) as H1.
    unfold elapsed, poll_clock in H1. cbn [polls] in H1.
    cbn [hw with_hw].
    replace (1000 <? _) with false by (symmetry; apply Z.ltb_ge; exact H1).
    rewrite IH.
    + rewrite with_hw_with_hw. reflexivity.
    + intros j Hj. apply (Hlow (S j)). lia.
    + exact Hhigh.
    + intros j Hj. apply (Hle (S j)). lia.
    + lia.
Qed.

(** X6: When the ready/busy line reads high at its sample number [k] (counted
    from zero) and no more than 1000 ms have been measured at the turns
    before, [waitForNandReady] returns at that sample: nothing is added to
    the serial output (no timeout warning) and only the polled hardware has
    moved on. *)
Theorem waitForNandReady_returns_when_ready (k fuel : nat) (w : World H) :
  (forall j, (j < k)%nat -> poll_rb (polls j (wait_hw w)) = LOW) ->
  poll_rb (polls k (wait_hw w)) = HIGH ->
  (forall j, (j < k)%nat -> elapsed (wait_start w) (wait_hw w) j <= 1000) ->
  (k < fuel)%nat ->
  waitForNandReady fuel w
  = Some (tt, with_hw (snd (nand_rb (polls k (wait_hw w)))) w).
Proof.
  intros Hlow Hhigh Hle Hfuel. unfold waitForNandReady.
  exec_by reflexivity.
  rewrite (waitForNandReady_loop_ready k fuel); try assumption.
  rewrite with_hw_with_hw. reflexivity.
Qed.

End ReadyInTime.

Lemma waitForNandReady_returns_when_ready_witness :
  option_map (fun w => (serial w, nand_busy (hw w), clock (hw w)))
             (run (waitForNandReady 3)
                  (command_cycle NAND_CMD_RESET (select (power_on bench0))))
  = Some ([], 0%nat, 3).
Proof.
  unfold run.
  rewrite (waitForNandReady_returns_when_ready 2 3).
  - reflexivity.
  - intros j Hj. assert (E : j = 0%nat \/ j = 1%nat) by lia.
    destruct E as [-> | ->]; reflexivity.
  - reflexivity.
  - intros j Hj. assert (E : j = 0%nat \/ j = 1%nat) by lia.
    destruct E as [-> | ->]; vm_compute; discriminate.
  - lia.
Defined.

(** ** Address bytes *)

Lemma low_byte (x : Z) : Z.land x 255 = x mod 256.
Proof. change 255 with (Z.ones 8). now rewrite Z.land_ones by lia. Qed.

Lemma byte_at (x s : Z) : 0 <= s -> Z.land (Z.shiftr x s) 255 = (x / 2 ^ s) mod 256.
Proof. intros Hs. now rewrite low_byte, Z.shiftr_div_pow2. Qed.

(** Three address bytes carry the low 24 bits. *)
Lemma three_bytes (x : Z) :
  Z.land x 255 + 256 * Z.land (Z.shiftr x 8) 255 + 65536 * Z.land (Z.shiftr x 16) 255
  = x mod 2 ^ 24.
Proof.
  rewrite low_byte, !byte_at by lia.
  change (2 ^ 8) with 256. change (2 ^ 16) with 65536. change (2 ^ 24) with 16777216.
  pose proof (Z.div_mod x 256 ltac:(lia)).
  pose proof (Z.div_mod (x / 256) 256 ltac:(lia)).
  pose proof (Z.div_mod (x / 65536) 256 ltac:(lia)).
  pose proof (Z.div_mod x 16777216 ltac:(lia)).
  pose proof (Z.mod_pos_bound x 256 ltac:(lia)).
  pose proof (Z.mod_pos_bound (x / 256) 256 ltac:(lia)).
  pose proof (Z.mod_pos_bound (x / 65536) 256 ltac:(lia)).
  pose proof (Z.mod_pos_bound x 16777216 ltac:(lia)).
  assert (E1 : x / 65536 = x / 256 / 256) by (rewrite Z.div_div by lia; reflexivity).
  assert (E2 : x / 16777216 = x / 65536 / 256) by (rewrite Z.div_div by lia; reflexivity).
  lia.
Qed.

(** X7: The five address cycles of a NAND read or program are bytes; the first
    two are the column [address mod 512], the other three the page number
    [address / 512] reduced to the sixteen bits of an [unsigned int], so the
    fifth is always 0 and addresses 32 MiB apart get the same cycles. *)
Theorem nand_address_is_column_and_page (address : Z) :
  Forall is_byte (nand_address address) /\
  length (nand_address address) = 5%nat /\
  nth 0 (nand_address address) 0 + 256 * nth 1 (nand_address address) 0
  = address mod 512 /\
  nth 2 (nand_address address) 0 + 256 * nth 3 (nand_address address) 0
  + 65536 * nth 4 (nand_address address) 0
  = (address / 512) mod 2 ^ 16 /\
  nth 4 (nand_address address) 0 = 0 /\
  nand_address (address + 2 ^ 25) = nand_address address.
Proof.
  assert (Hc : 0 <= address mod 512 < 512) by (apply Z.mod_pos_bound; lia).
  assert (Hp : 0 <= to_uint (address / 512) < 65536)
    by (apply Z.mod_pos_bound; lia).
  assert (Halias : nand_address (address + 2 ^ 25) = nand_address address).
  { unfold nand_address. cbv zeta.
    replace ((address + 2 ^ 25) mod 512) with (address mod 512).
    - replace (to_uint ((address + 2 ^ 25) / 512)) with (to_uint (address / 512));
        [reflexivity|].
      unfold to_uint.
      replace (address + 2 ^ 25) with (address + 65536 * 512) by reflexivity.
      rewrite Z.div_add by lia.
      change (2 ^ 16) with 65536.
      replace (address / 512 + 65536) with (address / 512 + 1 * 65536) by lia.
      now rewrite Z.mod_add by lia.
    - replace (address + 2 ^ 25) with (address + 65536 * 512) by reflexivity.
      now rewrite Z.mod_add by lia. }
  pose proof (three_bytes (address mod 512)) as Tc.
  pose proof (three_bytes (to_uint (address / 512))) as Tp.
  assert (Z16 : forall x, 0 <= x < 65536 -> Z.land (Z.shiftr x 16) 255 = 0).
  { intros x Hx. rewrite Z.shiftr_div_pow2 by lia.
    rewrite Z.div_small by (change (2 ^ 16) with 65536; lia). reflexivity. }
  rewrite (Z16 _ Hp) in Tp.
  rewrite (Z16 (address mod 512)) in Tc by lia.
  rewrite (Z.mod_small (address mod 512)) in Tc by (change (2 ^ 24) with 16777216; lia).
  rewrite (Z.mod_small (to_uint (address / 512))) in Tp
    by (change (2 ^ 24) with 16777216; lia).
  refine (conj _ (conj _ (conj _ (conj _ (conj _ Halias)))));
    unfold nand_address; cbv zeta; cbn [nth length];
    rewrite ?(to_uint_small (address mod 512)) by lia; rewrite ?(Z16 _ Hp).
  - repeat constructor; rewrite ?low_byte, ?byte_at by lia;
      unfold is_byte; try apply Z.mod_pos_bound; lia.
  - reflexivity.
  - lia.
  - rewrite Tp. reflexivity.
  - reflexivity.
Qed.

(** ** The SPI flash protocol *)

Section FrameRules.

Context {H : Type} {HW : Hardware H}.

Lemma frames_ret {A : Type} (x : A) (c : option (list Z)) :
  frames (ret (H := H) x) c c [].
Proof. intros w. exists x, w. split; [reflexivity | now apply scans_quiet]. Qed.

Lemma frames_bind {A B : Type} (m : M H A) (k : A -> M H B)
      (a b c : option (list Z)) (f1 f2 : list (list Z)) :
  frames m a b f1 -> (forall x, frames (k x) b c f2) -> frames (bind m k) a c (f1 ++ f2).
Proof.
  intros Hm Hk w. destruct (Hm w) as (x & w1 & E1 & S1).
  destruct (Hk x w1) as (y & w2 & E2 & S2).
  exists y, w2. split.
  - unfold bind. now rewrite E1.
  - exact (scans_trans _ _ _ _ _ _ _ _ S1 S2).
Qed.

Lemma frames_prints {A : Type} (m : M H A) (c : option (list Z)) :
  only_prints m -> frames m c c [].
Proof.
  intros Hm w. destruct (Hm w) as (x & t & E).
  exists x, (with_serial (serial w ++ t) w). split; [exact E | now apply scans_quiet].
Qed.

Lemma frames_select : frames (digitalWrite (H := H) SPI_CS_PIN LOW) None (Some []) [].
Proof. intros w. exists tt, (spi_cs LOW w). split; [reflexivity | apply scans_select]. Qed.

Lemma frames_release (f : list Z) :
  frames (digitalWrite (H := H) SPI_CS_PIN HIGH) (Some f) None [f].
Proof. intros w. exists tt, (spi_cs HIGH w). split; [reflexivity | apply scans_release]. Qed.

Lemma frames_transfer (b : Z) (f : list Z) :
  frames (SPI_transfer b) (Some f) (Some (f ++ [to_byte b])) [].
Proof. intros w. eexists. exists (spi_byte b w). split; [reflexivity | apply scans_byte]. Qed.

Lemma frames_delay (ms : Z) (c : option (list Z)) : frames (delay (H := H) ms) c c [].
Proof. intros w. eexists. eexists. split; [reflexivity | now apply scans_quiet]. Qed.

Lemma frames_millis (c : option (list Z)) : frames (millis (H := H)) c c [].
Proof. intros w. eexists. eexists. split; [reflexivity | now apply scans_quiet]. Qed.

(** A loop whose every turn clocks one zero byte out. *)
Lemma frames_foldM_zeros {A S : Type} (l : list A) (s : S) (body : A -> S -> M H S)
      (f : list Z) :
  (forall x s0 f0, frames (body x s0) (Some f0) (Some (f0 ++ [0])) []) ->
  frames (foldM l s body) (Some f) (Some (f ++ repeat 0 (length l))) [].
Proof.
  intros Hb. revert s f. induction l as [|x l IH]; intros s f; cbn [foldM length repeat].
  - rewrite app_nil_r. apply frames_ret.
  - change (@nil (list Z)) with (@nil (list Z) ++ []).
    apply frames_bind with (b := Some (f ++ [0])); [apply Hb|].
    intros s'. replace (f ++ 0 :: repeat 0 (length l)) with ((f ++ [0]) ++ repeat 0 (length l))
      by now rewrite <- app_assoc.
    apply IH.
Qed.

Lemma frames_eq {A : Type} (m : M H A) (a b : option (list Z)) (fs fs' : list (list Z)) :
  frames m a b fs -> fs = fs' -> frames m a b fs'.
Proof. now intros Hm <-. Qed.

Lemma frames_closed {A : Type} (m : M H A) (fs : list (list Z)) (w : World H) :
  frames m None None fs ->
  exists x w' evs, m w = Some (x, w') /\ bus w' = bus w ++ evs /\ spi_frames evs = fs.
Proof.
  intros Hm. destruct (Hm w) as (x & w' & E & evs & HB & HF).
  exists x, w', evs. split; [exact E|]. split; [exact HB|].
  unfold spi_frames. rewrite <- (app_nil_r evs), HF. cbn. now rewrite app_nil_r.
Qed.

End FrameRules.

Ltac frames_print := apply frames_prints; repeat prints_step.

Ltac frames_step :=
  lazymatch goal with
  | |- frames (bind _ _) _ _ _ => eapply frames_bind; [|intro]
  | |- frames (digitalWrite SPI_CS_PIN LOW) _ _ _ => apply frames_select
  | |- frames (digitalWrite SPI_CS_PIN HIGH) _ _ _ => apply frames_release
  | |- frames (SPI_transfer _) _ _ _ => apply frames_transfer
  | |- frames (delay _) _ _ _ => apply frames_delay
  | |- frames millis _ _ _ => apply frames_millis
  | |- frames (ret _) _ _ _ => apply frames_ret
  | |- frames _ _ _ _ => frames_print
  end.

Section SpiProtocol.

Context {H : Type} {HW : Hardware H}.

Lemma spiReadData_frames (address numBytes : Z) :
  frames (spiReadData address numBytes) None None
    [[SPI_CMD_FAST_READ; Z.land (Z.shiftr address 16) 0xFF;
      Z.land (Z.shiftr address 8) 0xFF; Z.land address 0xFF; 0]
     ++ repeat 0 (Z.to_nat numBytes)].
Proof.
  unfold spiReadData.
  change [[SPI_CMD_FAST_READ; Z.land (Z.shiftr address 16) 0xFF;
                Z.land (Z.shiftr address 8) 0xFF; Z.land address 0xFF; 0]
               ++ repeat 0 (Z.to_nat numBytes)]
    with ([] ++ [] ++ [] ++ [] ++ [] ++ [] ++ [] ++
          [[SPI_CMD_FAST_READ; Z.land (Z.shiftr address 16) 0xFF;
            Z.land (Z.shiftr address 8) 0xFF; Z.land address 0xFF; 0]
           ++ repeat 0 (Z.to_nat numBytes)] ++ []).
  apply frames_bind with (b := Some []); [apply frames_select | intros _].
  apply frames_bind with (b := Some [SPI_CMD_FAST_READ]);
    [apply (frames_transfer SPI_CMD_FAST_READ []) | intros _].
  apply frames_bind
    with (b := Some [SPI_CMD_FAST_READ; Z.land (Z.shiftr address 16) 0xFF]).
  { rewrite <- (to_byte_land (Z.shiftr address 16)) at 2.
    apply (frames_transfer _ [SPI_CMD_FAST_READ]). }
  intros _.
  apply frames_bind
    with (b := Some [SPI_CMD_FAST_READ; Z.land (Z.shiftr address 16) 0xFF;
                     Z.land (Z.shiftr address 8) 0xFF]).
  { rewrite <- (to_byte_land (Z.shiftr address 8)) at 2.
    apply (frames_transfer _ [SPI_CMD_FAST_READ; _]). }
  intros _.
  apply frames_bind
    with (b := Some [SPI_CMD_FAST_READ; Z.land (Z.shiftr address 16) 0xFF;
                     Z.land (Z.shiftr address 8) 0xFF; Z.land address 0xFF]).
  { rewrite <- (to_byte_land address) at 2.
    apply (frames_transfer _ [SPI_CMD_FAST_READ; _; _]). }
  intros _.
  apply frames_bind
    with (b := Some [SPI_CMD_FAST_READ; Z.land (Z.shiftr address 16) 0xFF;
                     Z.land (Z.shiftr address 8) 0xFF; Z.land address 0xFF; 0]);
    [apply (frames_transfer 0 [SPI_CMD_FAST_READ; _; _; _]) | intros _].
  apply frames_bind
    with (b := Some ([SPI_CMD_FAST_READ; Z.land (Z.shiftr address 16) 0xFF;
                      Z.land (Z.shiftr address 8) 0xFF; Z.land address 0xFF; 0]
                     ++ repeat 0 (Z.to_nat numBytes))).
  { replace (Z.to_nat numBytes) with (length (interval 0 numBytes))
      by (unfold interval; rewrite length_map, length_seq; f_equal; lia).
    apply frames_foldM_zeros. intros i buffer f0.
    change (@nil (list Z)) with (@nil (list Z) ++ [] ++ []).
    apply frames_bind with (b := Some f0); [frames_print | intros _].
    apply frames_bind with (b := Some (f0 ++ [0]));
      [apply (frames_transfer 0 f0) | intros b].
    cbv zeta. frames_print. }
  intros _.
  apply frames_bind with (b := None); [apply frames_release | intros _].
  frames_print.
Qed.

(** X8: [spiReadData] always returns, and all it puts on the bus is one frame:
    the fast-read command, the three address bytes, one dummy byte and one
    zero byte for every byte read (none for [numBytes = 0]).  The address
    bytes are the low 24 bits of the address, most significant first. *)
Theorem spiReadData_is_one_fast_read_frame (address numBytes : Z) (w : World H) :
  exists w' evs,
    spiReadData address numBytes w = Some (tt, w') /\
    bus w' = bus w ++ evs /\
    spi_frames evs
    = [[SPI_CMD_FAST_READ; Z.land (Z.shiftr address 16) 0xFF;
        Z.land (Z.shiftr address 8) 0xFF; Z.land address 0xFF; 0]
       ++ repeat 0 (Z.to_nat numBytes)] /\
    65536 * Z.land (Z.shiftr address 16) 0xFF + 256 * Z.land (Z.shiftr address 8) 0xFF
    + Z.land address 0xFF = address mod 2 ^ 24.
Proof.
  destruct (frames_closed _ _ w (spiReadData_frames address numBytes))
    as ([] & w' & evs & E & HB & HF).
  exists w', evs. split; [exact E|]. split; [exact HB|]. split; [exact HF|].
  rewrite <- three_bytes. lia.
Qed.

(** X9: The two read-only commands of the flash, [spiReadID] and
    [spiReadStatus], always return and put one frame each on the bus: the
    JEDEC-ID command followed by three zero bytes, and the read-status
    command followed by one zero byte.  Neither sends a write enable. *)
Theorem spi_identity_and_status_are_single_read_frames (w : World H) :
  (exists w' evs,
     spiReadID w = Some (tt, w') /\ bus w' = bus w ++ evs /\
     spi_frames evs = [[SPI_CMD_READ_ID; 0; 0; 0]]) /\
  (exists w' evs,
     spiReadStatus w = Some (tt, w') /\ bus w' = bus w ++ evs /\
     spi_frames evs = [[SPI_CMD_READ_STATUS; 0]]).
Proof.
  split.
  - assert (F : frames spiReadID None None [[SPI_CMD_READ_ID; 0; 0; 0]]).
    { unfold spiReadID, identifySPIFlash.
      eapply frames_eq; [repeat frames_step | reflexivity]. }
    destruct (frames_closed _ _ w F) as ([] & w' & evs & E & HB & HF).
    exists w', evs. split; [exact E|]. split; [exact HB | exact HF].
  - assert (F : frames spiReadStatus None None [[SPI_CMD_READ_STATUS; 0]]).
    { unfold spiReadStatus.
      eapply frames_eq; [repeat frames_step | reflexivity]. }
    destruct (frames_closed _ _ w F) as ([] & w' & evs & E & HB & HF).
    exists w', evs. split; [exact E|]. split; [exact HB | exact HF].
Qed.

Lemma serial_spi_cs (level : bool) (w : World H) : serial (spi_cs level w) = serial w.
Proof. reflexivity. Qed.

Lemma serial_spi_bytes (l : list Z) (w : World H) : serial (spi_bytes l w) = serial w.
Proof.
  revert w. induction l as [|b l IH]; intros w; [reflexivity|].
  change (spi_bytes (b :: l) w) with (spi_bytes l (spi_byte b w)). now rewrite IH.
Qed.

Lemma serial_page_program (address : Z) (chunk : list Z) (w : World H) :
  serial (page_program address chunk w) = serial w ++ [Println "Write complete"].
Proof.
  unfold page_program, status_poll. cbv zeta.
  rewrite serial_say, !serial_spi_cs, serial_spi_bytes, !serial_spi_cs, serial_spi_bytes.
  rewrite serial_spi_cs, serial_with_hw, serial_spi_cs.
  change (serial (spi_byte SPI_CMD_WRITE_ENABLE (spi_cs LOW w)))
    with (serial (spi_cs LOW w)).
  now rewrite serial_spi_cs.
Qed.

(** X10: A flash write that stays in its 256-byte page is not split: write
    enable, one page program with the address and all the data in order
    (no data byte when the buffer is empty), one status read; the only line
    on the serial output is "Write complete". *)
Theorem spiWriteData_in_page_is_one_page_program (address : Z) (data : list Z)
        (numBytes : Z) (w : World H) :
  buffer data numBytes ->
  address mod 256 + numBytes <= 256 ->
  exists w' evs,
    spiWriteData address data numBytes w = Some (tt, w') /\
    bus w' = bus w ++ evs /\
    spi_frames evs
    = [[SPI_CMD_WRITE_ENABLE];
       [SPI_CMD_PAGE_PROGRAM; Z.land (Z.shiftr address 16) 0xFF;
        Z.land (Z.shiftr address 8) 0xFF; Z.land address 0xFF] ++ data;
       [SPI_CMD_READ_STATUS; 0]] /\
    serial w' = serial w ++ [Println "Write complete"].
Proof.
  intros (Hn & Hmax & Hbytes) Hin.
  assert (Hoff : 0 <= address mod 256 < 256) by (apply Z.mod_pos_bound; lia).
  unfold spiWriteData. cbv zeta.
  rewrite (to_uint_small (address mod 256)) by lia.
  rewrite (to_uint_small (address mod 256 + numBytes)) by lia.
  replace (256 <? address mod 256 + numBytes) with false
    by (symmetry; apply Z.ltb_ge; lia).
  rewrite spiWritePage_exec by lia.
  replace (firstn (Z.to_nat numBytes) data) with data
    by (symmetry; apply firstn_all2; lia).
  destruct (scans_page_program address data w Hbytes) as (evs & HB & HF).
  eexists. exists evs. split; [reflexivity|]. split; [exact HB|]. split.
  - unfold spi_frames. rewrite <- (app_nil_r evs), HF. reflexivity.
  - apply serial_page_program.
Qed.

Lemma bus_after_with_hw (h : H) (w : World H) : bus (with_hw h w) = bus w.
Proof. reflexivity. Qed.

Lemma scans_status_poll (w : World H) :
  scans w (status_poll w) None None [[SPI_CMD_READ_STATUS; 0]].
Proof.
  pose proof (scans_select w) as S.
  pose proof (scans_trans _ _ _ _ _ _ _ _ S
    (scans_bytes [SPI_CMD_READ_STATUS; 0] _ _)) as S1.
  exact (scans_trans _ _ _ _ _ _ _ _ S1 (scans_release _ _)).
Qed.

Lemma bus_status_poll (w : World H) :
  exists x,
    bus (status_poll w)
    = bus w ++ [SpiCS LOW; SpiXfer SPI_CMD_READ_STATUS x; SpiXfer 0 (polled_status w);
                SpiCS HIGH].
Proof.
  eexists. unfold status_poll, spi_cs, spi_bytes, spi_byte, log, polled_status.
  cbn [fold_left bus with_bus with_hw with_pins hw]. rewrite <- !app_assoc. reflexivity.
Qed.

(** The polling loop of [spiErase] ends with a status read that has the
    write-in-progress bit clear; before it come only status reads. *)
Lemma spiErase_loop_until_ready (fuel : nat) (startTime : Z) (w w' : World H) :
  spiErase_loop fuel startTime w = Some (tt, w') ->
  exists k w0,
    scans w w0 None None (repeat [SPI_CMD_READ_STATUS; 0] k) /\
    Z.land (polled_status w0) 1 = 0 /\
    w' = status_poll w0.
Proof.
  revert startTime w. induction fuel as [|fuel IH]; intros startTime w;
    cbn [spiErase_loop]; [discriminate|].
  rewrite (bind_exec _ _ _ _ _ (waitForSpiReady_exec w)).
  destruct (Z.land (polled_status w) 1 =? 0) eqn:Hst; cbn [negb].
  - intros E. injection E as <-. exists 0%nat, w.
    split; [now apply scans_quiet|]. split; [now apply Z.eqb_eq | reflexivity].
  - exec_by reflexivity.
    match goal with |- (if ?c then _ else _) _ = _ -> _ => destruct c end.
    + exec_by reflexivity. exec_by reflexivity.
      intros E. apply IH in E as (k & w0 & Sc & Hclear & ->).
      exists (S k), w0. split; [|split; [exact Hclear | reflexivity]].
      change (repeat [SPI_CMD_READ_STATUS; 0] (S k))
        with ([[SPI_CMD_READ_STATUS; 0]] ++ repeat [SPI_CMD_READ_STATUS; 0] k).
      refine (scans_trans _ _ _ _ _ _ _ _ (scans_status_poll w) _).
      refine (scans_trans _ _ _ _ _ _ [] _ _ Sc).
      apply scans_quiet.
      now rewrite ?bus_after_with_hw, ?bus_after_say.
    + intros E. apply IH in E as (k & w0 & Sc & Hclear & ->).
      exists (S k), w0. split; [|split; [exact Hclear | reflexivity]].
      change (repeat [SPI_CMD_READ_STATUS; 0] (S k))
        with ([[SPI_CMD_READ_STATUS; 0]] ++ repeat [SPI_CMD_READ_STATUS; 0] k).
      refine (scans_trans _ _ _ _ _ _ _ _ (scans_status_poll w) _).
      refine (scans_trans _ _ _ _ _ _ [] _ _ Sc).
      apply scans_quiet.
      now rewrite ?bus_after_with_hw, ?bus_after_say.
Qed.

(** The erase frame of [spiErase] as a run of transfers. *)
Lemma spiErase_frame_exec {B : Type} (option : ascii) (address : Z) (k : unit -> M H B)
      (w : World H) :
  bind (if Ascii.eqb option "1" then
          _ <- SPI_transfer SPI_CMD_SECTOR_ERASE ;;
          _ <- SPI_transfer (Z.land (Z.shiftr address 16) 0xFF) ;;
          _ <- SPI_transfer (Z.land (Z.shiftr address 8) 0xFF) ;;
          _ <- SPI_transfer (Z.land address 0xFF) ;;
          ret tt
        else if Ascii.eqb option "2" then
          _ <- SPI_transfer SPI_CMD_BLOCK_ERASE_64K ;;
          _ <- SPI_transfer (Z.land (Z.shiftr address 16) 0xFF) ;;
          _ <- SPI_transfer (Z.land (Z.shiftr address 8) 0xFF) ;;
          _ <- SPI_transfer (Z.land address 0xFF) ;;
          ret tt
        else if Ascii.eqb option "3" then
          _ <- SPI_transfer SPI_CMD_CHIP_ERASE ;;
          ret tt
        else ret tt) k w
  = k tt (spi_bytes (spi_erase_frame option address) w).
Proof.
  unfold spi_erase_frame.
  destruct (Ascii.eqb option "1"); [reflexivity|].
  destruct (Ascii.eqb option "2"); [reflexivity|].
  destruct (Ascii.eqb option "3"); reflexivity.
Qed.

Lemma spi_erase_frame_bytes (option : ascii) (address : Z) :
  map to_byte (spi_erase_frame option address) = spi_erase_frame option address.
Proof.
  unfold spi_erase_frame.
  destruct (Ascii.eqb option "1"); [cbn [map]; now rewrite !to_byte_land|].
  destruct (Ascii.eqb option "2"); [cbn [map]; now rewrite !to_byte_land|].
  destruct (Ascii.eqb option "3"); reflexivity.
Qed.

(** X11: [spiErase], when it returns: write enable, the erase frame the option
    selects, then status reads, the last of which has the write-in-progress
    bit clear: the function does not return while the flash reports busy. *)
Theorem spiErase_polls_until_ready (fuel : nat) (option : ascii) (address : Z)
        (w w' : World H) :
  spiErase fuel option address w = Some (tt, w') ->
  exists k evs x st,
    bus w' = bus w ++ evs
             ++ [SpiCS LOW; SpiXfer SPI_CMD_READ_STATUS x; SpiXfer 0 st; SpiCS HIGH] /\
    Z.land st 1 = 0 /\
    spi_frames evs
    = [[SPI_CMD_WRITE_ENABLE]; spi_erase_frame option address]
      ++ repeat [SPI_CMD_READ_STATUS; 0] k.
Proof.
  unfold spiErase.
  exec (digitalWrite_CS LOW w).
  exec (SPI_transfer_exec SPI_CMD_WRITE_ENABLE (spi_cs LOW w)).
  exec (digitalWrite_CS HIGH (spi_byte SPI_CMD_WRITE_ENABLE (spi_cs LOW w))).
  exec_by reflexivity.
  match goal with |- bind _ _ ?w1 = _ -> _ => exec (digitalWrite_CS LOW w1) end.
  rewrite spiErase_frame_exec.
  match goal with |- bind _ _ ?w1 = _ -> _ => exec (digitalWrite_CS HIGH w1) end.
  exec_by reflexivity. exec_by reflexivity.
  intros E. apply bind_inv in E as ([] & w6 & E1 & E2).
  apply spiErase_loop_until_ready in E1 as (k & w0 & Sc & Hclear & ->).
  injection E2 as <-.
  pose proof (scans_select w) as S0.
  pose proof (scans_trans _ _ _ _ _ _ _ _ S0 (scans_byte SPI_CMD_WRITE_ENABLE _ _)) as S1.
  pose proof (scans_trans _ _ _ _ _ _ _ _ S1 (scans_release _ _)) as S2.
  pose proof (scans_trans _ _ _ _ _ _ _ _ S2 (scans_delay (1000 * 1) _ None)) as S3.
  pose proof (scans_trans _ _ _ _ _ _ _ _ S3 (scans_select _)) as S4.
  pose proof (scans_trans _ _ _ _ _ _ _ _ S4
    (scans_bytes (spi_erase_frame option address) _ _)) as S5.
  pose proof (scans_trans _ _ _ _ _ _ _ _ S5 (scans_release _ _)) as S6.
  match type of Sc with scans (say ?o (with_hw ?h ?w5)) _ _ _ _ =>
    pose proof (scans_trans _ _ _ _ _ _ _ _ S6
      (scans_quiet w5 (say o (with_hw h w5)) None eq_refl)) as S7
  end.
  pose proof (scans_trans _ _ _ _ _ _ _ _ S7 Sc) as S8.
  clear - S8 Hclear.
  destruct S8 as (evs & HB & HF).
  destruct (bus_status_poll w0) as (x & Hx).
  exists k, evs, x, (polled_status w0).
  split; [|split; [exact Hclear|]].
  - rewrite bus_after_say, Hx, HB, <- app_assoc. reflexivity.
  - unfold spi_frames. rewrite <- (app_nil_r evs), HF.
    cbn [app map]. rewrite spi_erase_frame_bytes, !app_nil_r. reflexivity.
Qed.

End SpiProtocol.

Lemma spiErase_polls_until_ready_witness :
  exists w' k evs x st,
    spiErase 5 "1" 0x12000 (power_on bench0) = Some (tt, w') /\
    bus w' = bus (power_on bench0) ++ evs
             ++ [SpiCS LOW; SpiXfer SPI_CMD_READ_STATUS x; SpiXfer 0 st; SpiCS HIGH] /\
    Z.land st 1 = 0 /\
    spi_frames evs = [[0x06]; [0x20; 1; 0x20; 0]] ++ repeat [0x05; 0] k.
Proof.
  destruct (spiErase 5 "1" 0x12000 (power_on bench0)) as [[[] w']|] eqn:E;
    [|vm_compute in E; discriminate E].
  destruct (spiErase_polls_until_ready 5 "1" 0x12000 (power_on bench0) w' E)
    as (k & evs & x & st & HB & Hst & HF).
  exists w', k, evs, x, st.
  split; [reflexivity|]. split; [exact HB|]. split; [exact Hst | exact HF].
Defined.

Lemma spiWriteData_in_page_is_one_page_program_witness :
  exists w' evs,
    spiWriteData 0x1F0 [1; 2; 3] 3 (power_on bench0) = Some (tt, w') /\
    bus w' = bus (power_on bench0) ++ evs /\
    spi_frames evs = [[0x06]; [0x02; 0; 1; 0xF0; 1; 2; 3]; [0x05; 0]] /\
    serial w' = serial (power_on bench0) ++ [Println "Write complete"].
Proof.
  apply (spiWriteData_in_page_is_one_page_program 0x1F0 [1; 2; 3] 3 (power_on bench0)).
  - split; [reflexivity|]. split; [lia|]. repeat constructor; unfold is_byte; lia.
  - cbn. lia.
Defined.

(** ** The EEPROM protocol *)

Section Scan.

Context {H : Type} {HW : Hardware H}.

Lemma i2cDetect_turn (addr count : Z) (w : World H) :
  exists count' w' r,
    (Wire_beginTransmission addr ;;
     error <- Wire_endTransmission ;;
     if error =? 0 then
       Serial_print "Device found at address 0x" ;;
       when (addr <? 16) (Serial_print "0") ;;
       Serial_print_num addr HEX ;;
       (if (0x50 <=? addr) && (addr <=? 0x57)
        then Serial_println " (likely EEPROM)"
        else Serial_newline) ;;
       ret (to_byte (count + 1))
     else ret count) w = Some (count', w') /\
    bus w' = bus w ++ [WireTx addr [] r].
Proof.
  exec_by reflexivity. exec_by reflexivity.
  match goal with |- context [(if ?e =? 0 then ?m1 else ?m2) ?w1] =>
    assert (Hp : only_prints (if e =? 0 then m1 else m2))
      by (destruct (e =? 0); repeat prints_step);
    destruct (Hp w1) as (c1 & t & E1)
  end.
  exists c1. eexists. eexists. split; [exact E1|].
  rewrite bus_after_with_serial. reflexivity.
Qed.

Lemma i2cDetect_loop (l : list Z) (count : Z) (w : World H) :
  exists count' w' evs,
    foldM l count (fun addr count =>
      Wire_beginTransmission addr ;;
      error <- Wire_endTransmission ;;
      if error =? 0 then
        Serial_print "Device found at address 0x" ;;
        when (addr <? 16) (Serial_print "0") ;;
        Serial_print_num addr HEX ;;
        (if (0x50 <=? addr) && (addr <=? 0x57)
         then Serial_println " (likely EEPROM)"
         else Serial_newline) ;;
        ret (to_byte (count + 1))
      else ret count) w = Some (count', w') /\
    bus w' = bus w ++ evs /\
    Forall2 (fun addr e => exists r, e = WireTx addr [] r) l evs.
Proof.
  revert count w. induction l as [|addr l IH]; intros count w.
  - exists count, w, []. split; [reflexivity|]. split; [now rewrite app_nil_r | constructor].
  - cbn [foldM].
    destruct (i2cDetect_turn addr count w) as (c1 & w1 & r & E1 & B1).
    exec E1.
    destruct (IH c1 w1) as (count' & w' & evs & E2 & HB & HF).
    exists count', w', (WireTx addr [] r :: evs). split; [exact E2|]. split.
    + rewrite HB, B1, <- app_assoc. reflexivity.
    + constructor; [|exact HF]. now exists r.
Qed.

(** X12: The bus scan of [i2cDetect] always returns; it addresses each of the
    112 addresses 0x08 ... 0x77 once, in ascending order, always with an
    empty transmission: the scan never sends a data byte and never reads. *)
Theorem i2cDetect_probes_every_address_once (w : World H) :
  exists w' evs,
    i2cDetect w = Some (tt, w') /\
    bus w' = bus w ++ evs /\
    Forall2 (fun addr e => exists r, e = WireTx addr [] r) (interval 0x08 0x78) evs.
Proof.
  unfold i2cDetect. exec_by reflexivity.
  match goal with |- context [bind (foldM ?l ?c ?body) ?k ?w1] =>
    destruct (i2cDetect_loop l c w1) as (count' & w2 & evs & E & HB & HF);
    rewrite (bind_exec (foldM l c body) k w1 w2 count' E)
  end.
  assert (Hp : only_prints (H := H) (when (count' =? 0) (Serial_println "No I2C devices found!")))
    by (repeat prints_step).
  destruct (Hp w2) as ([] & t & E2).
  eexists. exists evs. split; [exact E2|]. split; [|exact HF].
  rewrite bus_after_with_serial, HB, bus_after_say. reflexivity.
Qed.

End Scan.

Section Absent.

Context {H : Type} {HW : Hardware H}.

(** X13: When the EEPROM does not acknowledge the presence probe, [i2cReadData]
    and [i2cWriteData] report it and do nothing else: the probe is the only
    transaction on the bus, no address or data byte is sent, nothing is
    requested. *)
Theorem i2c_transfers_stop_at_a_silent_device (fuel : nat) (address numBytes : Z)
        (data : list Z) (w : World H) :
  to_byte (fst (i2c_transmit (i2cAddress w) [] (hw w))) <> 0 ->
  let report := [Print "Error: Device at address 0x"; PrintNum (i2cAddress w) HEX;
                 Println " not responding"] in
  let probe := WireTx (i2cAddress w) []
                 (to_byte (fst (i2c_transmit (i2cAddress w) [] (hw w)))) in
  (exists w', i2cReadData fuel address numBytes w = Some (tt, w') /\
              bus w' = bus w ++ [probe] /\ serial w' = serial w ++ report) /\
  (exists w', i2cWriteData address data numBytes w = Some (tt, w') /\
              bus w' = bus w ++ [probe] /\ serial w' = serial w ++ report).
Proof.
  intros Herr report probe.
  apply Z.eqb_neq in Herr.
  split.
  - unfold i2cReadData.
    exec_by reflexivity. exec_by reflexivity. exec_by reflexivity.
    cbn [wire with_wire txAddress txBuffer hw]. rewrite Herr. cbn [negb].
    eexists. split; [reflexivity|]. split; [reflexivity|].
    rewrite !serial_say, <- !app_assoc. reflexivity.
  - unfold i2cWriteData.
    exec_by reflexivity. exec_by reflexivity. exec_by reflexivity.
    cbn [wire with_wire txAddress txBuffer hw]. rewrite Herr. cbn [negb].
    eexists. split; [reflexivity|]. split; [reflexivity|].
    rewrite !serial_say, <- !app_assoc. reflexivity.
Qed.

End Absent.

Lemma i2c_transfers_stop_at_a_silent_device_witness :
  let w := with_i2cAddress 0x51 (power_on bench0) in
  (exists w', i2cReadData 3 0 16 w = Some (tt, w') /\
              bus w' = [WireTx 0x51 [] 2]) /\
  (exists w', i2cWriteData 0 [1; 2; 3] 3 w = Some (tt, w') /\
              bus w' = [WireTx 0x51 [] 2]).
Proof.
  intros w.
  destruct (i2c_transfers_stop_at_a_silent_device 3 0 16 [1; 2; 3] w)
    as ((w1 & E1 & B1 & _) & (w2 & E2 & B2 & _)).
  - vm_compute. discriminate.
  - split; [exists w1 | exists w2]; split; assumption.
Defined.

Section Coverage.

Context {H : Type} {HW : Hardware H}.

Lemma serial_i2cWriteChunk (use16 : bool) (cur : Z) (data : list Z) (bw btw : Z) :
  preserves serial (i2cWriteChunk use16 cur data bw btw).
Proof. unfold i2cWriteChunk. preserves_all. Qed.

Lemma elt_skipn (data : list Z) (n : nat) (i : Z) :
  0 <= i -> elt (skipn n data) i = elt data (Z.of_nat n + i).
Proof.
  intros Hi. unfold elt. revert data. induction n as [|n IH]; intros data.
  - cbn [skipn]. now rewrite Z.add_0_l.
  - destruct data as [|d data].
    + cbn [skipn]. now destruct (Z.to_nat i), (Z.to_nat (Z.of_nat (S n) + i)).
    + cbn [skipn]. rewrite IH.
      replace (Z.to_nat (Z.of_nat (S n) + i)) with (S (Z.to_nat (Z.of_nat n + i))) by lia.
      reflexivity.
Qed.

(** The data bytes of the chunk that starts [bw] bytes into the buffer. *)
Lemma chunk_elts (data : list Z) (bw btw : Z) :
  0 <= bw -> 0 <= btw -> bw + btw <= Z.of_nat (length data) ->
  Z.of_nat (length data) <= 32767 ->
  map (fun i => elt data (to_uint (bw + i))) (interval 0 btw)
  = firstn (Z.to_nat btw) (skipn (Z.to_nat bw) data).
Proof.
  intros Hbw Hbtw Hlen Hmax.
  rewrite <- elts_prefix by (rewrite length_skipn; lia).
  apply map_ext_in. intros i Hi.
  unfold interval in Hi. apply in_map_iff in Hi as (k & <- & Hk). apply in_seq in Hk.
  rewrite to_uint_small by lia.
  rewrite elt_skipn by lia. f_equal. lia.
Qed.

Lemma two_bytes (x : Z) :
  256 * Z.land (Z.shiftr x 8) 255 + Z.land x 255 = x mod 65536.
Proof.
  rewrite (low_byte x), byte_at by lia. change (2 ^ 8) with 256.
  pose proof (Z.div_mod x 256 ltac:(lia)).
  pose proof (Z.div_mod (x / 256) 256 ltac:(lia)).
  pose proof (Z.div_mod x 65536 ltac:(lia)).
  pose proof (Z.mod_pos_bound x 256 ltac:(lia)).
  pose proof (Z.mod_pos_bound (x / 256) 256 ltac:(lia)).
  pose proof (Z.mod_pos_bound x 65536 ltac:(lia)).
  assert (E : x / 65536 = x / 256 / 256) by (rewrite Z.div_div by lia; reflexivity).
  lia.
Qed.

Lemma to_ulong_mod (x m : Z) : (m | 2 ^ 32) -> 0 < m -> to_ulong x mod m = x mod m.
Proof.
  intros Hd Hm. unfold to_ulong. symmetry.
  rewrite <- (Z.mod_mod_divide x (2 ^ 32) m) by assumption. reflexivity.
Qed.

Lemma i2cWriteData_loop_carries (fuel : nat) (address : Z) (data : list Z)
      (numBytes : Z) (use16 : bool) (bw : Z) (w : World H) :
  buffer data numBytes ->
  0 <= bw <= numBytes ->
  (Z.to_nat (numBytes - bw) <= fuel)%nat ->
  exists w' evs,
    i2cWriteData_loop fuel address data numBytes use16 bw w = Some (tt, w') /\
    bus w' = bus w ++ evs /\
    serial w' = serial w /\
    carries use16 (address + bw) evs (skipn (Z.to_nat bw) data).
Proof.
  intros (Hn & Hmax & Hbytes). revert bw w.
  induction fuel as [|fuel IH]; intros bw w Hbw Hfuel.
  - cbn [i2cWriteData_loop].
    replace (bw <? numBytes) with false by (symmetry; apply Z.ltb_ge; lia).
    exists w, []. rewrite app_nil_r. repeat split.
    cbn [carries]. apply skipn_all2. lia.
  - cbn [i2cWriteData_loop].
    destruct (Z.ltb_spec bw numBytes) as [Hlt | Hge].
    + cbv zeta.
      set (cur := to_ulong (address + bw)).
      assert (Hoff : 0 <= cur mod 8 < 8) by (apply Z.mod_pos_bound; lia).
      rewrite (to_uint_small (cur mod 8)) by lia.
      rewrite (to_uint_small (8 - cur mod 8)) by lia.
      rewrite (to_uint_small (numBytes - bw)) by lia.
      set (btw := Z.min (8 - cur mod 8) (numBytes - bw)).
      assert (Hbtw : 0 < btw <= 8 /\ bw + btw <= numBytes) by (unfold btw; lia).
      destruct Hbtw as (Hb1 & Hb3).
      destruct (i2cWriteChunk_event use16 cur data bw btw w ltac:(lia))
        as (w1 & err & E1 & B1).
      assert (S1 : serial w1 = serial w).
      { exact (serial_i2cWriteChunk use16 cur data bw btw w tt w1 E1). }
      exec E1.
      rewrite (to_uint_small (bw + btw)) by lia.
      destruct (IH (bw + btw) w1 ltac:(lia) ltac:(lia))
        as (w' & evs & E2 & B2 & S2 & C2).
      exists w'. eexists. split; [exact E2|]. split; [|split].
      * rewrite B2, B1, <- app_assoc. reflexivity.
      * now rewrite S2.
      * cbn [app carries].
        rewrite chunk_elts by lia.
        set (d := firstn (Z.to_nat btw) (skipn (Z.to_nat bw) data)).
        assert (Hd : length d = Z.to_nat btw).
        { unfold d. rewrite length_firstn, length_skipn. lia. }
        assert (Hdb : Forall is_byte d).
        { pose proof Hbytes as Hb0.
          rewrite <- (firstn_skipn (Z.to_nat bw) data) in Hb0.
          apply Forall_app in Hb0 as [_ Hb2].
          rewrite <- (firstn_skipn (Z.to_nat btw) (skipn (Z.to_nat bw) data)) in Hb2.
          apply Forall_app in Hb2 as [Hb4 _]. exact Hb4. }
        assert (Hcd : chunk_data use16
                        (map to_byte ((if use16 then [Z.land (Z.shiftr cur 8) 255] else [])
                                      ++ Z.land cur 255 :: d)) = d).
        { unfold chunk_data. destruct use16; cbn [app map skipn];
            now apply map_to_byte_bytes. }
        cbv zeta. rewrite Hcd, Hd. split; [|split; [|split]].
        -- unfold chunk_start. destruct use16; cbn [app map nth].
           ++ rewrite !to_byte_land, two_bytes. unfold cur.
              apply to_ulong_mod; [exists 65536; reflexivity | lia].
           ++ rewrite to_byte_land, low_byte. unfold cur.
              apply to_ulong_mod; [exists 16777216; reflexivity | lia].
        -- intros Hnil. rewrite Hnil in Hd. cbn in Hd. lia.
        -- reflexivity.
        -- rewrite skipn_skipn.
           replace (Z.to_nat btw + Z.to_nat bw)%nat with (Z.to_nat (bw + btw)) by lia.
           replace (address + bw + Z.of_nat (Z.to_nat btw)) with (address + (bw + btw))
             by lia.
           exact C2.
    + exists w, []. rewrite app_nil_r. repeat split.
      cbn [carries]. apply skipn_all2. lia.
Qed.

(** X14: When the EEPROM acknowledges the presence probe, [i2cWriteData] sends
    the whole buffer: after the probe come write transactions that carry
    the data bytes in order and without gaps, the first addressed at
    [address], each next one at the address after the last byte of the one
    before (as far as the one or two address bytes can hold it); then
    "Write complete" is printed. *)
Theorem i2cWriteData_sends_all_the_data (address : Z) (data : list Z) (numBytes : Z)
        (w : World H) :
  buffer data numBytes ->
  to_byte (fst (i2c_transmit (i2cAddress w) [] (hw w))) = 0 ->
  exists w' evs,
    i2cWriteData address data numBytes w = Some (tt, w') /\
    bus w' = bus w ++ WireTx (i2cAddress w) [] 0 :: evs /\
    carries (0xFF <? address) address evs data /\
    serial w' = serial w ++ [Println "Write complete"].
Proof.
  intros Hbuf Hack. unfold i2cWriteData.
  exec_by reflexivity. exec_by reflexivity. exec_by reflexivity.
  cbn [wire with_wire txAddress txBuffer hw]. rewrite Hack. cbn [Z.eqb negb]. cbv zeta.
  match goal with |- context [bind _ _ ?w1] =>
    destruct (i2cWriteData_loop_carries (Z.to_nat numBytes) address data numBytes
                (0xFF <? address) 0 w1 Hbuf)
      as (w' & evs & E & B & S1 & C)
  end.
  { destruct Hbuf as (-> & _). lia. }
  { rewrite Z.sub_0_r. lia. }
  exec E. eexists. exists evs. split; [reflexivity|].
  rewrite Z.add_0_r in C. cbn [Z.to_nat skipn] in C.
  split; [|split; [exact C|]].
  - rewrite bus_after_say, B. cbn [bus log with_bus with_wire with_hw].
    rewrite <- app_assoc. reflexivity.
  - rewrite serial_say, S1. reflexivity.
Qed.

End Coverage.

Lemma i2cWriteData_sends_all_the_data_witness :
  exists w' evs,
    i2cWriteData 0xFC [1; 2; 3; 4; 5; 6] 6 (power_on bench0) = Some (tt, w') /\
    bus w' = bus (power_on bench0) ++ WireTx 0x50 [] 0 :: evs /\
    carries false 0xFC evs [1; 2; 3; 4; 5; 6].
Proof.
  destruct (i2cWriteData_sends_all_the_data 0xFC [1; 2; 3; 4; 5; 6] 6 (power_on bench0))
    as (w' & evs & E & B & C & _).
  - split; [reflexivity|]. split; [lia|]. repeat constructor; unfold is_byte; lia.
  - reflexivity.
  - exists w', evs. split; [exact E|]. split; [exact B | exact C].
Defined.

(** On the bench: six bytes written at 0xFC with one address byte; the
    second transaction is addressed at 0x00, not at 0x100. *)
Example i2cWriteData_wraps_one_byte_addresses :
  option_map (fun w => wire_writes (bus w))
    (run (i2cWriteData 0xFC [1; 2; 3; 4; 5; 6] 6) (power_on bench0))
  = Some [(0x50, [0xFC; 1; 2; 3; 4]); (0x50, [0x00; 5; 6])].
Proof. vm_compute. reflexivity. Qed.

Section Requests.

Context {H : Type} {HW : Hardware H}.





End Requests.


(** ** The control lines between commands *)

Section Moves.

Context {H : Type} {HW : Hardware H}.

Lemma moves_bind {A B : Type} (p q r : Pins) (m : M H A) (k : A -> M H B) :
  moves p q m -> (forall a, moves q r (k a)) -> moves p r (bind m k).
Proof.
  intros Hm Hk w x w' E Hp. apply bind_inv in E as (a & w1 & E1 & E2).
  exact (Hk a _ _ _ E2 (Hm _ _ _ E1 Hp)).
Qed.

Lemma moves_preserves {A : Type} (p : Pins) (m : M H A) :
  preserves pins m -> moves p p m.
Proof. intros Hm w x w' E Hp. now rewrite (Hm _ _ _ E). Qed.

Lemma moves_eq {A : Type} (p q q' : Pins) (m : M H A) :
  moves p q m -> q = q' -> moves p q' m.
Proof. now intros Hm <-. Qed.

Lemma moves_digitalWrite (p : Pins) (pin : Pin) (v : bool) :
  moves p (pin_set pin v p) (digitalWrite pin v).
Proof.
  intros w x w' E Hp. injection E as _ <-. rewrite <- Hp.
  destruct pin; cbv zeta beta;
    repeat match goal with |- context [if ?c then _ else _] => destruct c end;
    reflexivity.
Qed.

Lemma moves_ret {A : Type} (p : Pins) (a : A) : moves p p (ret (H := H) a).
Proof. apply moves_preserves, preserves_ret. Qed.

Lemma moves_out_of_fuel {A : Type} (p q : Pins) :
  moves p q (out_of_fuel (H := H) (A := A)).
Proof. intros w x w' E. discriminate. Qed.

Lemma moves_when (p : Pins) (c : bool) (m : M H unit) :
  moves p p m -> moves p p (when c m).
Proof. destruct c; [trivial | intros _; apply moves_ret]. Qed.

Lemma moves_for_each {A : Type} (p : Pins) (l : list A) (body : A -> M H unit) :
  (forall x, moves p p (body x)) -> moves p p (for_each l body).
Proof.
  intros Hb. induction l as [|x l IH]; cbn [for_each].
  - apply moves_ret.
  - eapply moves_bind; [apply Hb | intros _; exact IH].
Qed.

Lemma moves_foldM {A S : Type} (p : Pins) (l : list A) (s : S) (body : A -> S -> M H S) :
  (forall x s0, moves p p (body x s0)) -> moves p p (foldM l s body).
Proof.
  intros Hb. revert s. induction l as [|x l IH]; intros s; cbn [foldM].
  - apply moves_ret.
  - eapply moves_bind; [apply Hb | intros s'; apply IH].
Qed.

End Moves.

Create HintDb moves discriminated.

Ltac moves_step :=
  lazymatch goal with
  | |- moves _ _ (bind _ _) => eapply moves_bind; [|intro]
  | |- moves _ _ (ret _) => apply moves_ret
  | |- moves _ _ out_of_fuel => apply moves_out_of_fuel
  | |- moves _ _ (digitalWrite _ _) => apply moves_digitalWrite
  | |- moves _ _ (when _ _) =>
      apply moves_when; eapply moves_eq; [moves_all | vm_compute; reflexivity]
  | |- moves _ _ (for_each _ _) =>
      apply moves_for_each; intro; eapply moves_eq; [moves_all | vm_compute; reflexivity]
  | |- moves _ _ (foldM _ _ _) =>
      apply moves_foldM; intros; eapply moves_eq; [moves_all | vm_compute; reflexivity]
  | |- moves _ _ (if ?c then _ else _) => destruct c
  | |- moves _ _ (match ?t with _ => _ end) => destruct t
  | |- moves _ _ (let _ := _ in _) => cbv zeta
  | |- moves _ _ _ =>
      first [ solve [eauto with moves]
            | apply moves_preserves;
              first [solve [auto with preserves] | solve [preserves_prim]] ]
  end
with moves_all := repeat moves_step.

(** [m] takes the control lines from the safe state back to it. *)
Ltac moves_safe := eapply moves_eq; [moves_all | vm_compute; reflexivity].

Section PinsAlone.

Context {H : Type} {HW : Hardware H}.

Lemma pins_waitForNandReady (fuel : nat) : preserves pins (waitForNandReady fuel).
Proof.
  unfold waitForNandReady. apply preserves_bind; [preserves_prim | intros startTime].
  induction fuel as [|fuel IH]; cbn [waitForNandReady_loop]; preserves_all.
Qed.

Lemma pins_identifySPIFlash (m d1 d2 : Z) :
  preserves pins (identifySPIFlash (H := H) m d1 d2).
Proof. unfold identifySPIFlash. preserves_all. Qed.

Lemma pins_i2cDetect : preserves pins i2cDetect.
Proof. unfold i2cDetect. preserves_all. Qed.

Lemma pins_i2cFill (js buffer : list Z) : preserves pins (i2cFill (H := H) js buffer).
Proof.
  revert buffer. induction js as [|j js IH]; intros buffer; cbn [i2cFill]; preserves_all.
Qed.

Local Hint Resolve pins_i2cFill : preserves.

Lemma pins_i2cReadData_loop (fuel : nat) (address numBytes : Z) (use16 : bool)
      (i : Z) (buffer : list Z) :
  preserves pins (i2cReadData_loop fuel address numBytes use16 i buffer).
Proof.
  revert i buffer. induction fuel as [|fuel IH]; intros i buffer;
    cbn [i2cReadData_loop]; preserves_all.
Qed.

Local Hint Resolve pins_i2cReadData_loop : preserves.

Lemma pins_i2cReadData (fuel : nat) (address numBytes : Z) :
  preserves pins (i2cReadData fuel address numBytes).
Proof. unfold i2cReadData. preserves_all. Qed.

Lemma pins_i2cWriteData_loop (fuel : nat) (address : Z) (data : list Z) (numBytes : Z)
      (use16 : bool) (bytesWritten : Z) :
  preserves pins (i2cWriteData_loop fuel address data numBytes use16 bytesWritten).
Proof.
  revert bytesWritten. induction fuel as [|fuel IH]; intros bytesWritten;
    cbn [i2cWriteData_loop]; unfold i2cWriteChunk; preserves_all.
Qed.

Local Hint Resolve pins_i2cWriteData_loop : preserves.

Lemma pins_i2cWriteData (address : Z) (data : list Z) (numBytes : Z) :
  preserves pins (i2cWriteData address data numBytes).
Proof. unfold i2cWriteData. preserves_all. Qed.

Local Hint Resolve pins_i2cWriteData : preserves.

Lemma pins_i2cErase (option : ascii) (address : Z) :
  preserves pins (i2cErase option address).
Proof. unfold i2cErase. preserves_all. Qed.

Lemma pins_i2cReadStatus : preserves pins i2cReadStatus.
Proof. unfold i2cReadStatus. preserves_all. Qed.

Lemma pins_printMenu : preserves pins (printMenu (H := H)).
Proof. unfold printMenu. preserves_all. Qed.

Lemma pins_setI2CAddress (inp : Input) : preserves pins (setI2CAddress (H := H) inp).
Proof. unfold setI2CAddress. preserves_all. Qed.

End PinsAlone.

#[export] Hint Resolve pins_waitForNandReady pins_identifySPIFlash pins_i2cDetect
  pins_i2cReadData pins_i2cWriteData pins_i2cErase pins_i2cReadStatus pins_printMenu
  pins_setI2CAddress : preserves.

Section SafeState.

Context {H : Type} {HW : Hardware H}.

Lemma moves_nandWriteByte (p : Pins) (v : Z) :
  moves p (pin_set NAND_WE_PIN HIGH p) (nandWriteByte v).
Proof. unfold nandWriteByte. eapply moves_eq; [moves_all | reflexivity]. Qed.

Lemma moves_nandReadByte (p : Pins) :
  moves p (pin_set NAND_RE_PIN HIGH p) nandReadByte.
Proof. unfold nandReadByte. eapply moves_eq; [moves_all | reflexivity]. Qed.

Local Hint Resolve moves_nandWriteByte moves_nandReadByte : moves.

Lemma safe_nandReset (fuel : nat) : moves safe_pins safe_pins (nandReset fuel).
Proof. unfold nandReset. moves_safe. Qed.

Lemma safe_nandReadID : moves safe_pins safe_pins nandReadID.
Proof. unfold nandReadID. moves_safe. Qed.

Lemma safe_nandReadData (fuel : nat) (address numBytes : Z) :
  moves safe_pins safe_pins (nandReadData fuel address numBytes).
Proof. unfold nandReadData, hexDump, nandSendAddress. moves_safe. Qed.

Lemma safe_nandWriteData (fuel : nat) (address : Z) (data : list Z) (numBytes : Z) :
  moves safe_pins safe_pins (nandWriteData fuel address data numBytes).
Proof. unfold nandWriteData, nandSendAddress. cbv zeta. moves_safe. Qed.

Lemma safe_nandErase (fuel : nat) (option : ascii) (address : Z) :
  moves safe_pins safe_pins (nandErase fuel option address).
Proof. unfold nandErase. moves_safe. Qed.

Lemma safe_nandReadStatus : moves safe_pins safe_pins nandReadStatus.
Proof. unfold nandReadStatus. moves_safe. Qed.

Lemma safe_spiReadID : moves safe_pins safe_pins spiReadID.
Proof. unfold spiReadID. moves_safe. Qed.

Lemma safe_spiReadData (address numBytes : Z) :
  moves safe_pins safe_pins (spiReadData address numBytes).
Proof. unfold spiReadData. moves_safe. Qed.

Lemma safe_waitForSpiReady : moves safe_pins safe_pins waitForSpiReady.
Proof. unfold waitForSpiReady. moves_safe. Qed.

Local Hint Resolve safe_waitForSpiReady : moves.

Lemma safe_spiWritePage (address : Z) (data : list Z) (numBytes : Z) :
  moves safe_pins safe_pins (spiWritePage address data numBytes).
Proof. unfold spiWritePage. moves_safe. Qed.

Local Hint Resolve safe_spiWritePage : moves.

Lemma safe_spiWriteData (address : Z) (data : list Z) (numBytes : Z) :
  moves safe_pins safe_pins (spiWriteData address data numBytes).
Proof. unfold spiWriteData. cbv zeta. moves_safe. Qed.

Lemma safe_spiErase_loop (fuel : nat) (startTime : Z) :
  moves safe_pins safe_pins (spiErase_loop fuel startTime).
Proof.
  revert startTime. induction fuel as [|fuel IH]; intros startTime;
    cbn [spiErase_loop]; moves_all.
Qed.

Local Hint Resolve safe_spiErase_loop : moves.

Lemma safe_spiErase (fuel : nat) (option : ascii) (address : Z) :
  moves safe_pins safe_pins (spiErase fuel option address).
Proof. unfold spiErase. moves_safe. Qed.

Lemma safe_spiReadStatus : moves safe_pins safe_pins spiReadStatus.
Proof. unfold spiReadStatus. moves_safe. Qed.

Local Hint Resolve safe_nandReset safe_nandReadID safe_nandReadData safe_nandWriteData
  safe_nandErase safe_nandReadStatus safe_spiReadID safe_spiReadData safe_spiWriteData
  safe_spiErase safe_spiReadStatus : moves.

Lemma safe_handleCommand (fuel : nat) (cmd : ascii) (inp : Input) :
  moves safe_pins safe_pins (handleCommand fuel cmd inp).
Proof.
  unfold handleCommand, setMemoryType, readDeviceID, readData, writeData, eraseMemory,
    eraseDispatch, readStatus.
  moves_all.
Qed.

(** X16: From power-on, whatever commands are given with whatever input, the
    control lines are in their safe state again whenever a command has
    returned: flash and NAND chip deselected, both NAND latches low, both
    strobes high -- also after a refused write, an aborted erase or a
    timed-out wait. *)
Theorem session_leaves_the_control_lines_safe (fuel : nat) (cmds : list (ascii * Input))
        (h : H) (w' : World H) :
  session fuel cmds (power_on h) = Some (tt, w') ->
  pins w' = safe_pins.
Proof.
  assert (Hs : forall w, pins w = safe_pins ->
                         session fuel cmds w = Some (tt, w') -> pins w' = safe_pins).
  { induction cmds as [|[cmd inp] cmds IH]; intros w Hw; cbn [session].
    - intros E. now injection E as <-.
    - intros E. apply bind_inv in E as ([] & w1 & E1 & E2).
      exact (IH w1 (safe_handleCommand fuel cmd inp w tt w1 E1 Hw) E2). }
  apply Hs. reflexivity.
Qed.

End SafeState.

Lemma session_leaves_the_control_lines_safe_witness :
  exists w',
    session 3 [("1"%char, mkInput 0 0 [] "1" "" 0);
               ("w"%char, mkInput 0x1FF 0 [1; 2] "1" "" 0);
               ("e"%char, mkInput 0 0 [] "3" "NO" 0)] (power_on bench0) = Some (tt, w') /\
    pins w' = safe_pins.
Proof.
  destruct (session 3 [("1"%char, mkInput 0 0 [] "1" "" 0);
                       ("w"%char, mkInput 0x1FF 0 [1; 2] "1" "" 0);
                       ("e"%char, mkInput 0 0 [] "3" "NO" 0)] (power_on bench0))
    as [[[] w']|] eqn:E; [|vm_compute in E; discriminate E].
  exists w'. split; [reflexivity|].
  exact (session_leaves_the_control_lines_safe 3 _ bench0 w' E).
Defined.

(** ** Guards of the command layer *)

Section Guards.

Context {H : Type} {HW : Hardware H}.

Lemma says_fold (l : list Out) (w : World H) :
  fold_left (fun w0 o => say o w0) l w = with_serial (serial w ++ l) w.
Proof.
  revert w. induction l as [|o l IH]; intros w; cbn [fold_left].
  - symmetry. apply with_serial_same.
  - rewrite IH. unfold say, with_serial. cbn [serial]. rewrite <- app_assoc. reflexivity.
Qed.

(** X17: [eraseMemory] erases nothing unless the option is '1', '2' or '3',
    and a chip erase (option '3') only when the trimmed answer is exactly
    YES.  With option '3' and any other answer it prints its menu, the
    warning and "Erase aborted!"; with an option other than the three it
    prints its menu and "Invalid option".  In both cases it returns, nothing
    goes on a bus, and the hardware and the rest of the state are
    untouched. *)
Theorem eraseMemory_needs_a_valid_option_and_confirmation (fuel : nat) (inp : Input)
        (w : World H) :
  currentMemoryType w <> MEM_UNKNOWN ->
  let menu := [Println "Erase options:"; Println "1. Sector erase";
               Println "2. Block erase"; Println "3. Chip erase"] in
  (eraseOption inp = "3"%char -> confirmation inp <> "YES"%string ->
   eraseMemory fuel inp w
   = Some (tt, with_serial (serial w ++ menu ++
                            [Println "WARNING: This will erase the entire chip!";
                             Println "Type 'YES' to confirm:";
                             Println "Erase aborted!"]) w)) /\
  (eraseOption inp <> "1"%char -> eraseOption inp <> "2"%char ->
   eraseOption inp <> "3"%char ->
   eraseMemory fuel inp w
   = Some (tt, with_serial (serial w ++ menu ++ [Println "Invalid option"]) w)).
Proof.
  intros Ht menu.
  assert (Hg : MemoryType_eqb (currentMemoryType w) MEM_UNKNOWN = false)
    by (destruct (currentMemoryType w); [contradiction | reflexivity ..]).
  split.
  - intros Ho Hc. unfold eraseMemory. exec_by reflexivity. rewrite Hg, Ho.
    cbv zeta. cbn [Ascii.eqb Bool.eqb andb orb when].
    apply String.eqb_neq in Hc. rewrite Hc. cbn [negb].
    do 7 exec_by reflexivity.
    unfold menu. rewrite <- says_fold. reflexivity.
  - intros N1 N2 N3. unfold eraseMemory. exec_by reflexivity. rewrite Hg.
    cbv zeta.
    apply Ascii.eqb_neq in N1, N2, N3. rewrite N1, N2, N3. cbn [orb when].
    do 5 exec_by reflexivity.
    unfold menu. rewrite <- says_fold. reflexivity.
Qed.

End Guards.

Lemma eraseMemory_needs_a_valid_option_and_confirmation_witness :
  let w := with_currentMemoryType MEM_SPI_FLASH (power_on bench0) in
  option_map (fun w' => (bus w', wip_reads (flash (hw w'))))
             (run (eraseMemory 3 (mkInput 0 0 [] "3" "yes" 0)) w)
  = Some ([], 0%nat).
Proof.
  intros w. unfold run.
  rewrite (proj1 (eraseMemory_needs_a_valid_option_and_confirmation 3
                    (mkInput 0 0 [] "3" "yes" 0) w ltac:(discriminate))
                 eq_refl ltac:(discriminate)).
  reflexivity.
Defined.

(** ** The read command *)

Section ReadCommand.

Context {H : Type} {HW : Hardware H}.

(** What [readData] does before it calls a driver: prompts and the banner,
    with the count limited to 256. *)
Lemma readData_driver (fuel : nat) (inp : Input) (w : World H) :
  currentMemoryType w <> MEM_UNKNOWN ->
  exists s,
    readData fuel inp w
    = match currentMemoryType w with
      | MEM_NAND_FLASH =>
          nandReadData fuel (to_ulong (hexValue inp)) (Z.min (to_uint (decValue inp)) 256)
      | MEM_SPI_FLASH =>
          spiReadData (to_ulong (hexValue inp)) (Z.min (to_uint (decValue inp)) 256)
      | MEM_I2C_EEPROM =>
          i2cReadData fuel (to_ulong (hexValue inp)) (Z.min (to_uint (decValue inp)) 256)
      | MEM_UNKNOWN => Serial_println "Unknown memory type!"
      end (with_serial (serial w ++ s) w).
Proof.
  intros Ht.
  assert (Hg : MemoryType_eqb (currentMemoryType w) MEM_UNKNOWN = false)
    by (destruct (currentMemoryType w); [contradiction | reflexivity ..]).
  exists ([Println "Enter start address (in hex):";
           Println "Enter number of bytes to read:"]
          ++ (if 256 <? to_uint (decValue inp)
              then [Println "Warning: Limiting to 256 bytes"] else [])
          ++ [Print "Reading "; PrintNum (Z.min (to_uint (decValue inp)) 256) DEC;
              Print " bytes from address 0x";
              PrintlnNum (to_ulong (hexValue inp)) HEX]).
  unfold readData. exec_by reflexivity. rewrite Hg. cbv zeta.
  replace (if 256 <? to_uint (decValue inp) then 256 else to_uint (decValue inp))
    with (Z.min (to_uint (decValue inp)) 256)
    by (destruct (Z.ltb_spec 256 (to_uint (decValue inp))); lia).
  rewrite <- says_fold.
  destruct (256 <? to_uint (decValue inp)); cbn [when];
    do 7 exec_by reflexivity; reflexivity.
Qed.

(** X18: The read command never takes more than 256 bytes from a memory, whatever
    count was typed.  On the serial flash it always returns, and its one
    frame is a fast read at the typed address with min(count, 256) bytes
    clocked out.  On the NAND flash, when the wait returns, the read
    sequence has min(count, 256) read cycles. *)
Theorem readData_reads_at_most_256_bytes (fuel : nat) (inp : Input) (w : World H) :
  let address := to_ulong (hexValue inp) in
  let count := Z.min (to_uint (decValue inp)) 256 in
  (currentMemoryType w = MEM_SPI_FLASH ->
   exists w' evs,
     readData fuel inp w = Some (tt, w') /\
     bus w' = bus w ++ evs /\
     spi_frames evs
     = [[SPI_CMD_FAST_READ; Z.land (Z.shiftr address 16) 0xFF;
         Z.land (Z.shiftr address 8) 0xFF; Z.land address 0xFF; 0]
        ++ repeat 0 (Z.to_nat count)]) /\
  (currentMemoryType w = MEM_NAND_FLASH ->
   nand_idle w ->
   forall w', readData fuel inp w = Some (tt, w') ->
   exists bytes,
     length bytes = Z.to_nat count /\
     nand_cycles (bus w')
     = nand_cycles (bus w) ++ [Select; Cmd NAND_CMD_READ]
         ++ map Addr (nand_address address) ++ [Cmd NAND_CMD_READ_CONFIRM]
         ++ map DataOut bytes ++ [Deselect]).
Proof.
  intros address count. split.
  - intros Ht.
    destruct (readData_driver fuel inp w) as (s & E); [rewrite Ht; discriminate|].
    rewrite Ht in E. fold address count in E.
    destruct (frames_closed _ _ (with_serial (serial w ++ s) w)
                (spiReadData_frames address count))
      as ([] & w' & evs & E' & HB & HF).
    exists w', evs. rewrite E. split; [exact E'|]. split; [|exact HF].
    rewrite HB. apply f_equal2; [apply bus_after_with_serial | reflexivity].
  - intros Ht Hidle w' E0.
    destruct (readData_driver fuel inp w) as (s & E); [rewrite Ht; discriminate|].
    rewrite Ht in E. fold address count in E. rewrite E in E0. clear E.
    set (w0 := with_serial (serial w ++ s) w) in E0.
    assert (Hbus : bus w0 = bus w) by apply bus_after_with_serial.
    assert (Hidle0 : nand_idle w0) by exact Hidle.
    clearbody w0. rewrite <- Hbus.
    destruct (waitForNandReady fuel (read_setup address w0)) as [[[] w2]|] eqn:Hwait.
    + destruct (nandReadData_after_wait fuel address count w0 w2 Hwait) as (t & E2).
      rewrite E2 in E0. injection E0 as <-.
      exists (read_bytes (Z.to_nat count) w2). split; [apply length_read_bytes|].
      rewrite cycles_deselect, bus_after_with_serial, cycles_reads.
      rewrite (waits_bus _ _ (waitForNandReady_waits _ _ _ Hwait)).
      rewrite cycles_read_setup by exact Hidle0.
      now rewrite <- !app_assoc.
    + rewrite nandReadData_unfold, Hwait in E0. discriminate.
Qed.

End ReadCommand.

Lemma readData_reads_at_most_256_bytes_witness :
  (let w := with_currentMemoryType MEM_SPI_FLASH (power_on bench0) in
   exists w' evs,
     readData 3 (mkInput 0x10 1000 [] "1" "" 0) w = Some (tt, w') /\
     bus w' = bus w ++ evs /\
     spi_frames evs = [[SPI_CMD_FAST_READ; 0; 0; 0x10; 0] ++ repeat 0 256%nat]) /\
  (let w := with_currentMemoryType MEM_NAND_FLASH (power_on bench0) in
   exists bytes,
     length bytes = 256%nat /\
     option_map (fun w' => nand_cycles (bus w'))
                (run (readData 3 (mkInput 0x1234 300 [] "1" "" 0)) w)
     = Some ([Select; Cmd NAND_CMD_READ] ++ map Addr (nand_address 0x1234)
             ++ [Cmd NAND_CMD_READ_CONFIRM] ++ map DataOut bytes ++ [Deselect])).
Proof.
  split.
  - intros w.
    exact (proj1 (readData_reads_at_most_256_bytes 3 (mkInput 0x10 1000 [] "1" "" 0) w)
                 eq_refl).
  - intros w.
    destruct (readData 3 (mkInput 0x1234 300 [] "1" "" 0) w) as [[[] w']|] eqn:E;
      [|vm_compute in E; discriminate E].
    destruct (proj2 (readData_reads_at_most_256_bytes 3 (mkInput 0x1234 300 [] "1" "" 0) w)
                    eq_refl (conj eq_refl eq_refl) w' E) as (bytes & Hl & Hc).
    exists bytes. split; [exact Hl|].
    unfold run. rewrite E. cbn [option_map]. rewrite Hc. reflexivity.
Defined.

(** ** One bus per memory type *)

Section OnBus.

Context {H : Type} {HW : Hardware H}.

Lemma on_bus_bind {A B : Type} (t : MemoryType) (m : M H A) (k : A -> M H B) :
  on_bus t m -> (forall a, on_bus t (k a)) -> on_bus t (bind m k).
Proof.
  intros Hm Hk w x w' E Ht. apply bind_inv in E as (a & w1 & E1 & E2).
  destruct (Hm _ _ _ E1 Ht) as (Ht1 & evs1 & B1 & F1).
  destruct (Hk a _ _ _ E2 Ht1) as (Ht2 & evs2 & B2 & F2).
  split; [exact Ht2|]. exists (evs1 ++ evs2). split.
  - rewrite B2, B1. symmetry. apply app_assoc.
  - apply Forall_app. split; assumption.
Qed.

Lemma on_bus_quiet {A : Type} (t : MemoryType) (m : M H A) :
  preserves currentMemoryType m -> preserves bus m -> on_bus t m.
Proof.
  intros Hm Hb w x w' E Ht. split; [now rewrite (Hm _ _ _ E)|].
  exists []. rewrite (Hb _ _ _ E), app_nil_r. split; [reflexivity | constructor].
Qed.

(** The selected memory type is the one the judgement runs with. *)
Lemma on_bus_selected {B : Type} (t : MemoryType) (k : MemoryType -> M H B) :
  on_bus t (k t) -> on_bus t (bind (gets currentMemoryType) k).
Proof.
  intros Hk w x w' E Ht. apply bind_inv in E as (a & w1 & E1 & E2).
  injection E1 as <- <-. rewrite Ht in E2. exact (Hk _ _ _ E2 Ht).
Qed.

Lemma on_bus_ret {A : Type} (t : MemoryType) (a : A) : on_bus t (ret (H := H) a).
Proof. apply on_bus_quiet; apply preserves_ret. Qed.

Lemma on_bus_out_of_fuel {A : Type} (t : MemoryType) :
  on_bus t (out_of_fuel (H := H) (A := A)).
Proof. intros w x w' E. discriminate. Qed.

Lemma on_bus_when (t : MemoryType) (c : bool) (m : M H unit) :
  on_bus t m -> on_bus t (when c m).
Proof. destruct c; [trivial | intros _; apply on_bus_ret]. Qed.

Lemma on_bus_for_each {A : Type} (t : MemoryType) (l : list A) (body : A -> M H unit) :
  (forall x, on_bus t (body x)) -> on_bus t (for_each l body).
Proof.
  intros Hb. induction l as [|x l IH]; cbn [for_each].
  - apply on_bus_ret.
  - apply on_bus_bind; [apply Hb | intros _; exact IH].
Qed.

Lemma on_bus_foldM {A S : Type} (t : MemoryType) (l : list A) (s : S)
      (body : A -> S -> M H S) :
  (forall x s0, on_bus t (body x s0)) -> on_bus t (foldM l s body).
Proof.
  intros Hb. revert s. induction l as [|x l IH]; intros s; cbn [foldM].
  - apply on_bus_ret.
  - apply on_bus_bind; [apply Hb | intros s'; apply IH].
Qed.

(** One event of the right kind. *)
Lemma on_bus_event {A : Type} (t : MemoryType) (m : M H A) :
  preserves currentMemoryType m ->
  (forall w x w', m w = Some (x, w') ->
                  bus w' = bus w \/ exists e, bus w' = bus w ++ [e] /\ bus_kind e = t) ->
  on_bus t m.
Proof.
  intros Hm Hb w x w' E Ht. split; [now rewrite (Hm _ _ _ E)|].
  destruct (Hb _ _ _ E) as [-> | (e & -> & He)].
  - exists []. rewrite app_nil_r. split; [reflexivity | constructor].
  - exists [e]. split; [reflexivity | repeat constructor; exact He].
Qed.

Lemma on_bus_digitalWrite (pin : Pin) (v : bool) :
  on_bus (match pin with SPI_CS_PIN => MEM_SPI_FLASH | _ => MEM_NAND_FLASH end)
         (digitalWrite pin v).
Proof.
  apply on_bus_event; [preserves_prim|].
  intros w x w' E. injection E as _ <-.
  destruct pin; cbv zeta beta;
    repeat match goal with |- context [if ?c then _ else _] => destruct c end;
    first [left; reflexivity | right; eexists; split; reflexivity].
Qed.

Lemma on_bus_SPI_transfer (b : Z) : on_bus MEM_SPI_FLASH (SPI_transfer b).
Proof.
  apply on_bus_event; [preserves_prim|].
  intros w x w' E. injection E as _ <-. right. eexists. split; reflexivity.
Qed.

Lemma on_bus_Wire_endTransmission : on_bus MEM_I2C_EEPROM Wire_endTransmission.
Proof.
  apply on_bus_event; [preserves_prim|].
  intros w x w' E. injection E as _ <-. right. eexists. split; reflexivity.
Qed.

Lemma on_bus_Wire_requestFrom (a q : Z) : on_bus MEM_I2C_EEPROM (Wire_requestFrom a q).
Proof.
  apply on_bus_event; [preserves_prim|].
  intros w x w' E. injection E as _ <-. right. eexists. split; reflexivity.
Qed.

End OnBus.

Create HintDb on_bus discriminated.

#[export] Hint Resolve on_bus_SPI_transfer on_bus_Wire_endTransmission
  on_bus_Wire_requestFrom : on_bus.

Ltac on_bus_step :=
  lazymatch goal with
  | |- on_bus _ (bind (gets currentMemoryType) _) => apply on_bus_selected
  | |- on_bus _ (bind _ _) => apply on_bus_bind; [|intro]
  | |- on_bus _ (ret _) => apply on_bus_ret
  | |- on_bus _ out_of_fuel => apply on_bus_out_of_fuel
  | |- on_bus _ (digitalWrite ?p _) => exact (on_bus_digitalWrite p _)
  | |- on_bus _ (when _ _) => apply on_bus_when
  | |- on_bus _ (for_each _ _) => apply on_bus_for_each; intro
  | |- on_bus _ (foldM _ _ _) => apply on_bus_foldM; intros
  | |- on_bus _ (if ?c then _ else _) => destruct c
  | |- on_bus _ (match ?t with _ => _ end) => destruct t
  | |- on_bus _ (let _ := _ in _) => cbv zeta
  | |- on_bus _ _ =>
      first [ assumption
            | solve [auto with on_bus]
            | apply on_bus_quiet; solve [preserves_prim] ]
  end.

Ltac on_bus_all := repeat on_bus_step.

Section Buses.

Context {H : Type} {HW : Hardware H}.

Lemma on_bus_nandWriteByte (v : Z) : on_bus MEM_NAND_FLASH (nandWriteByte v).
Proof. unfold nandWriteByte. on_bus_all. Qed.

Lemma on_bus_nandReadByte : on_bus MEM_NAND_FLASH nandReadByte.
Proof. unfold nandReadByte. on_bus_all. Qed.

Local Hint Resolve on_bus_nandWriteByte on_bus_nandReadByte : on_bus.

Lemma on_bus_waitForNandReady (fuel : nat) : on_bus MEM_NAND_FLASH (waitForNandReady fuel).
Proof.
  unfold waitForNandReady. apply on_bus_bind; [on_bus_all | intros startTime].
  induction fuel as [|fuel IH]; cbn [waitForNandReady_loop]; on_bus_all.
Qed.

Local Hint Resolve on_bus_waitForNandReady : on_bus.

Lemma on_bus_nandReset (fuel : nat) : on_bus MEM_NAND_FLASH (nandReset fuel).
Proof. unfold nandReset. on_bus_all. Qed.

Lemma on_bus_nandReadID : on_bus MEM_NAND_FLASH nandReadID.
Proof. unfold nandReadID. on_bus_all. Qed.

Lemma on_bus_nandReadData (fuel : nat) (address numBytes : Z) :
  on_bus MEM_NAND_FLASH (nandReadData fuel address numBytes).
Proof. unfold nandReadData, hexDump, nandSendAddress. on_bus_all. Qed.

Lemma on_bus_nandWriteData (fuel : nat) (address : Z) (data : list Z) (numBytes : Z) :
  on_bus MEM_NAND_FLASH (nandWriteData fuel address data numBytes).
Proof. unfold nandWriteData, nandSendAddress. on_bus_all. Qed.

Lemma on_bus_nandErase (fuel : nat) (option : ascii) (address : Z) :
  on_bus MEM_NAND_FLASH (nandErase fuel option address).
Proof. unfold nandErase. on_bus_all. Qed.

Lemma on_bus_nandReadStatus : on_bus MEM_NAND_FLASH nandReadStatus.
Proof. unfold nandReadStatus. on_bus_all. Qed.

Lemma on_bus_spiReadID : on_bus MEM_SPI_FLASH spiReadID.
Proof. unfold spiReadID, identifySPIFlash. on_bus_all. Qed.

Lemma on_bus_spiReadData (address numBytes : Z) :
  on_bus MEM_SPI_FLASH (spiReadData address numBytes).
Proof. unfold spiReadData. on_bus_all. Qed.

Lemma on_bus_waitForSpiReady : on_bus MEM_SPI_FLASH waitForSpiReady.
Proof. unfold waitForSpiReady. on_bus_all. Qed.

Local Hint Resolve on_bus_waitForSpiReady : on_bus.

Lemma on_bus_spiWritePage (address : Z) (data : list Z) (numBytes : Z) :
  on_bus MEM_SPI_FLASH (spiWritePage address data numBytes).
Proof. unfold spiWritePage. on_bus_all. Qed.

Local Hint Resolve on_bus_spiWritePage : on_bus.

Lemma on_bus_spiWriteData (address : Z) (data : list Z) (numBytes : Z) :
  on_bus MEM_SPI_FLASH (spiWriteData address data numBytes).
Proof. unfold spiWriteData. on_bus_all. Qed.

Lemma on_bus_spiErase_loop (fuel : nat) (startTime : Z) :
  on_bus MEM_SPI_FLASH (spiErase_loop fuel startTime).
Proof.
  revert startTime. induction fuel as [|fuel IH]; intros startTime;
    cbn [spiErase_loop]; on_bus_all.
Qed.

Local Hint Resolve on_bus_spiErase_loop : on_bus.

Lemma on_bus_spiErase (fuel : nat) (option : ascii) (address : Z) :
  on_bus MEM_SPI_FLASH (spiErase fuel option address).
Proof. unfold spiErase. on_bus_all. Qed.

Lemma on_bus_spiReadStatus : on_bus MEM_SPI_FLASH spiReadStatus.
Proof. unfold spiReadStatus. on_bus_all. Qed.

Lemma on_bus_i2cDetect : on_bus MEM_I2C_EEPROM i2cDetect.
Proof. unfold i2cDetect. on_bus_all. Qed.

Lemma on_bus_i2cFill (js buffer : list Z) : on_bus MEM_I2C_EEPROM (i2cFill (H := H) js buffer).
Proof.
  revert buffer. induction js as [|j js IH]; intros buffer; cbn [i2cFill]; on_bus_all.
Qed.

Local Hint Resolve on_bus_i2cFill : on_bus.

Lemma on_bus_i2cReadData_loop (fuel : nat) (address numBytes : Z) (use16 : bool)
      (i : Z) (buffer : list Z) :
  on_bus MEM_I2C_EEPROM (i2cReadData_loop fuel address numBytes use16 i buffer).
Proof.
  revert i buffer. induction fuel as [|fuel IH]; intros i buffer;
    cbn [i2cReadData_loop]; on_bus_all.
Qed.

Local Hint Resolve on_bus_i2cReadData_loop : on_bus.

Lemma on_bus_i2cReadData (fuel : nat) (address numBytes : Z) :
  on_bus MEM_I2C_EEPROM (i2cReadData fuel address numBytes).
Proof. unfold i2cReadData. on_bus_all. Qed.

Lemma on_bus_i2cWriteData_loop (fuel : nat) (address : Z) (data : list Z) (numBytes : Z)
      (use16 : bool) (bytesWritten : Z) :
  on_bus MEM_I2C_EEPROM (i2cWriteData_loop fuel address data numBytes use16 bytesWritten).
Proof.
  revert bytesWritten. induction fuel as [|fuel IH]; intros bytesWritten;
    cbn [i2cWriteData_loop]; unfold i2cWriteChunk; on_bus_all.
Qed.

Local Hint Resolve on_bus_i2cWriteData_loop : on_bus.

Lemma on_bus_i2cWriteData (address : Z) (data : list Z) (numBytes : Z) :
  on_bus MEM_I2C_EEPROM (i2cWriteData address data numBytes).
Proof. unfold i2cWriteData. on_bus_all. Qed.

Local Hint Resolve on_bus_i2cWriteData : on_bus.

Lemma on_bus_i2cErase (option : ascii) (address : Z) :
  on_bus MEM_I2C_EEPROM (i2cErase option address).
Proof. unfold i2cErase. on_bus_all. Qed.

Lemma on_bus_i2cReadStatus : on_bus MEM_I2C_EEPROM i2cReadStatus.
Proof. unfold i2cReadStatus. on_bus_all. Qed.

Local Hint Resolve on_bus_nandReset on_bus_nandReadID on_bus_nandReadData
  on_bus_nandWriteData on_bus_nandErase on_bus_nandReadStatus on_bus_spiReadID
  on_bus_spiReadData on_bus_spiWriteData on_bus_spiErase on_bus_spiReadStatus
  on_bus_i2cDetect on_bus_i2cReadData on_bus_i2cErase on_bus_i2cReadStatus : on_bus.

(** The commands that work on the memory use the bus of the selected type;
    the others use none. *)
Lemma on_bus_command (t : MemoryType) (fuel : nat) (cmd : ascii) (inp : Input) :
  cmd <> "1"%char -> cmd <> "2"%char -> cmd <> "3"%char ->
  on_bus t (handleCommand fuel cmd inp).
Proof.
  intros N1 N2 N3. apply Ascii.eqb_neq in N1, N2, N3.
  unfold handleCommand. rewrite N1, N2, N3.
  unfold readDeviceID, readData, writeData, eraseMemory, eraseDispatch, readStatus,
    setI2CAddress, printMenu.
  destruct t; on_bus_all.
Qed.

Lemma on_bus_setMemoryType (fuel : nat) (type : MemoryType) (w w' : World H) :
  setMemoryType fuel type w = Some (tt, w') ->
  currentMemoryType w' = type /\
  exists evs, bus w' = bus w ++ evs /\ Forall (fun e => bus_kind e = type) evs.
Proof.
  intros E. unfold setMemoryType in E. apply bind_inv in E as ([] & w1 & E1 & E2).
  injection E1 as <-.
  assert (Hk : on_bus type
                 (match type with
                  | MEM_NAND_FLASH => Serial_println "NAND Flash mode selected" ;; nandReset fuel
                  | MEM_SPI_FLASH => Serial_println "SPI Flash mode selected"
                  | MEM_I2C_EEPROM =>
                      Serial_println "I2C EEPROM mode selected" ;;
                      Serial_print "Current I2C address: 0x" ;;
                      a <- gets i2cAddress ;; Serial_println_num a HEX
                  | MEM_UNKNOWN => Serial_println "Unknown memory type!"
                  end))
    by (destruct type; on_bus_all).
  exact (Hk _ _ _ E2 eq_refl).
Qed.

(** X19: Every bus event a command adds belongs to the memory type that is
    selected when the command has returned: a command never touches the bus
    of a memory that is not selected, and with no type selected it touches
    none.  (The only command that changes the selection and uses a bus is
    '1', which resets the NAND chip it has just selected.) *)
Theorem handleCommand_uses_only_the_selected_bus (fuel : nat) (cmd : ascii) (inp : Input)
        (w w' : World H) :
  handleCommand fuel cmd inp w = Some (tt, w') ->
  exists evs,
    bus w' = bus w ++ evs /\
    Forall (fun e => bus_kind e = currentMemoryType w') evs.
Proof.
  intros E.
  assert (Hmode : forall type, setMemoryType fuel type w = Some (tt, w') ->
            exists evs, bus w' = bus w ++ evs /\
                        Forall (fun e => bus_kind e = currentMemoryType w') evs).
  { intros type E1. destruct (on_bus_setMemoryType _ _ _ _ E1) as (-> & Hevs).
    exact Hevs. }
  destruct (Ascii.eqb_spec cmd "1") as [-> | N1]; [exact (Hmode _ E)|].
  destruct (Ascii.eqb_spec cmd "2") as [-> | N2]; [exact (Hmode _ E)|].
  destruct (Ascii.eqb_spec cmd "3") as [-> | N3]; [exact (Hmode _ E)|].
  destruct (on_bus_command (currentMemoryType w) fuel cmd inp N1 N2 N3 _ _ _ E eq_refl)
    as (-> & Hevs).
  exact Hevs.
Qed.

End Buses.

Lemma handleCommand_uses_only_the_selected_bus_witness :
  exists w' evs,
    handleCommand 3 "1" (mkInput 0 0 [] "1" "" 0) (power_on bench0) = Some (tt, w') /\
    bus w' = bus (power_on bench0) ++ evs /\
    Forall (fun e => bus_kind e = MEM_NAND_FLASH) evs /\ evs <> [].
Proof.
  destruct (handleCommand 3 "1" (mkInput 0 0 [] "1" "" 0) (power_on bench0))
    as [[[] w']|] eqn:E; [|vm_compute in E; discriminate E].
  destruct (handleCommand_uses_only_the_selected_bus _ _ _ _ _ E) as (evs & B & F).
  exists w', evs. split; [reflexivity|]. split; [exact B|]. split.
  - replace (currentMemoryType w') with MEM_NAND_FLASH in F; [exact F|].
    vm_compute in E. injection E as <-. reflexivity.
  - intros ->. vm_compute in E. injection E as <-. vm_compute in B. discriminate B.
Defined.

(** ** What the NAND identity and status commands report *)

Section NandReports.

Context {H : Type} {HW : Hardware H}.

Lemma address_byte_exec {B : Type} (v : Z) (k : M H B) (w : World H) :
  ce (pins w) = LOW ->
  (digitalWrite NAND_ALE_PIN HIGH ;; nandWriteByte v ;; digitalWrite NAND_ALE_PIN LOW ;; k) w
  = k (address_cycles [v] w).
Proof.
  intros Hce.
  exec_by (apply digitalWrite_latch; now right).
  exec_by (apply nandWriteByte_exec; exact Hce).
  exec_by (apply digitalWrite_latch; now right).
  reflexivity.
Qed.

(** One labelled byte of [nandReadID]: the label, a read cycle, the value
    read. *)
Lemma read_and_print {B : Type} (label : string) (k : M H B) (w : World H) :
  ce (pins w) = LOW ->
  exists w1,
    (Serial_print label ;; b <- nandReadByte ;; Serial_println_num b HEX ;; k) w = k w1 /\
    ce (pins w1) = LOW /\
    nand_cycles (bus w1) = nand_cycles (bus w) ++ [DataOut (driven w)] /\
    serial w1 = serial w ++ [Print label; PrintlnNum (driven w) HEX].
Proof.
  intros Hce.
  exists (say (PrintlnNum (driven w) HEX) (read_cycle (say (Print label) w))).
  split; [|split; [exact Hce|split]].
  - exec_by reflexivity. exec_by (apply nandReadByte_exec; exact Hce).
    exec_by reflexivity. reflexivity.
  - rewrite bus_after_say, bus_after_read_cycle, bus_after_say, nand_cycles_app.
    reflexivity.
  - rewrite serial_say, serial_read_cycle, serial_say, <- app_assoc. reflexivity.
Qed.

(** X20: Started with CLE and ALE low, [nandReadID] and [nandReadStatus]
    always return.  [nandReadID] selects the chip, sends command 0x90 and
    the address byte 0x00, takes five bytes and deselects; the five values
    it prints, in order and each after its label, are the five bytes read.
    [nandReadStatus] sends command 0x70 and takes one byte; the value and
    the three flags it prints (bits 0, 6 and 7) are those of that byte. *)
Theorem nand_identity_and_status_report_the_bytes_read (w : World H) :
  nand_idle w ->
  (exists w' b1 b2 b3 b4 b5,
     nandReadID w = Some (tt, w') /\
     nand_cycles (bus w')
     = nand_cycles (bus w)
       ++ [Select; Cmd NAND_CMD_READ_ID; Addr 0x00; DataOut b1; DataOut b2;
           DataOut b3; DataOut b4; DataOut b5; Deselect] /\
     serial w'
     = serial w
       ++ [Print "Manufacturer ID: 0x"; PrintlnNum b1 HEX;
           Print "Device ID: 0x"; PrintlnNum b2 HEX;
           Print "Third ID byte: 0x"; PrintlnNum b3 HEX;
           Print "Fourth ID byte: 0x"; PrintlnNum b4 HEX;
           Print "Fifth ID byte: 0x"; PrintlnNum b5 HEX]) /\
  (exists w' st,
     nandReadStatus w = Some (tt, w') /\
     nand_cycles (bus w')
     = nand_cycles (bus w) ++ [Select; Cmd NAND_CMD_READ_STATUS; DataOut st; Deselect] /\
     serial w'
     = serial w
       ++ [Print "Status: 0x"; PrintlnNum st HEX;
           Print "Program/Erase Failed: ";
           Println (if negb (Z.land st 0x01 =? 0) then "Yes" else "No");
           Print "Ready/Busy: ";
           Println (if negb (Z.land st 0x40 =? 0) then "Ready" else "Busy");
           Print "Write Protected: ";
           Println (if negb (Z.land st 0x80 =? 0) then "Yes" else "No")]).
Proof.
  intros [Hc Ha].
  assert (Hsel : ce (pins (select w)) = LOW) by reflexivity.
  set (w1 := command_cycle NAND_CMD_READ_ID (select w)).
  assert (Hcyc1 : nand_cycles (bus w1)
                  = nand_cycles (bus w) ++ [Select; Cmd NAND_CMD_READ_ID]).
  { unfold w1. rewrite cycles_command by exact Ha.
    rewrite cycles_select, <- app_assoc. reflexivity. }
  split.
  - unfold nandReadID. exec_by (apply digitalWrite_select).
    rewrite command_exec by exact Hsel. fold w1.
    assert (Hce1 : ce (pins w1) = LOW) by reflexivity.
    rewrite address_byte_exec by exact Hce1.
    set (w2 := address_cycles [0x00] w1).
    assert (Hce2 : ce (pins w2) = LOW).
    { unfold w2. rewrite ce_address_cycles. exact Hce1. }
    assert (Hcyc2 : nand_cycles (bus w2) = nand_cycles (bus w1) ++ [Addr 0x00]).
    { unfold w2. rewrite cycles_address; [reflexivity|].
      destruct (latches_command_cycle NAND_CMD_READ_ID (select w)) as [Hcl _].
      exact Hcl. }
    assert (Hser2 : serial w2 = serial w).
    { unfold w2, w1. rewrite serial_address_cycles, serial_command_cycle. reflexivity. }
    clearbody w2.
    destruct (read_and_print "Manufacturer ID: 0x"
                (Serial_print "Device ID: 0x" ;;
                 b <- nandReadByte ;; Serial_println_num b HEX ;;
                 Serial_print "Third ID byte: 0x" ;;
                 b <- nandReadByte ;; Serial_println_num b HEX ;;
                 Serial_print "Fourth ID byte: 0x" ;;
                 b <- nandReadByte ;; Serial_println_num b HEX ;;
                 Serial_print "Fifth ID byte: 0x" ;;
                 b <- nandReadByte ;; Serial_println_num b HEX ;;
                 digitalWrite NAND_CE_PIN HIGH) w2 Hce2)
      as (w3 & E3 & Hce3 & Hcyc3 & Hser3).
    rewrite E3. clear E3.
    destruct (read_and_print "Device ID: 0x"
                (Serial_print "Third ID byte: 0x" ;;
                 b <- nandReadByte ;; Serial_println_num b HEX ;;
                 Serial_print "Fourth ID byte: 0x" ;;
                 b <- nandReadByte ;; Serial_println_num b HEX ;;
                 Serial_print "Fifth ID byte: 0x" ;;
                 b <- nandReadByte ;; Serial_println_num b HEX ;;
                 digitalWrite NAND_CE_PIN HIGH) w3 Hce3)
      as (w4 & E4 & Hce4 & Hcyc4 & Hser4).
    rewrite E4. clear E4.
    destruct (read_and_print "Third ID byte: 0x"
                (Serial_print "Fourth ID byte: 0x" ;;
                 b <- nandReadByte ;; Serial_println_num b HEX ;;
                 Serial_print "Fifth ID byte: 0x" ;;
                 b <- nandReadByte ;; Serial_println_num b HEX ;;
                 digitalWrite NAND_CE_PIN HIGH) w4 Hce4)
      as (w5 & E5 & Hce5 & Hcyc5 & Hser5).
    rewrite E5. clear E5.
    destruct (read_and_print "Fourth ID byte: 0x"
                (Serial_print "Fifth ID byte: 0x" ;;
                 b <- nandReadByte ;; Serial_println_num b HEX ;;
                 digitalWrite NAND_CE_PIN HIGH) w5 Hce5)
      as (w6 & E6 & Hce6 & Hcyc6 & Hser6).
    rewrite E6. clear E6.
    destruct (read_and_print "Fifth ID byte: 0x"
                (digitalWrite NAND_CE_PIN HIGH) w6 Hce6)
      as (w7 & E7 & Hce7 & Hcyc7 & Hser7).
    rewrite E7. clear E7.
    exists (deselect w7), (driven w2), (driven w3), (driven w4), (driven w5), (driven w6).
    split; [apply digitalWrite_deselect|]. split.
    + rewrite cycles_deselect, Hcyc7, Hcyc6, Hcyc5, Hcyc4, Hcyc3, Hcyc2, Hcyc1.
      rewrite <- !app_assoc. reflexivity.
    + rewrite serial_deselect, Hser7, Hser6, Hser5, Hser4, Hser3, Hser2.
      rewrite <- !app_assoc. reflexivity.
  - clear Hcyc1 w1.
    set (w1 := command_cycle NAND_CMD_READ_STATUS (select w)).
    assert (Hcyc1 : nand_cycles (bus w1)
                    = nand_cycles (bus w) ++ [Select; Cmd NAND_CMD_READ_STATUS]).
    { unfold w1. rewrite cycles_command by exact Ha.
      rewrite cycles_select, <- app_assoc. reflexivity. }
    assert (Hce1 : ce (pins w1) = LOW) by reflexivity.
    assert (Hser1 : serial w1 = serial w).
    { unfold w1. rewrite serial_command_cycle. reflexivity. }
    unfold nandReadStatus. exec_by (apply digitalWrite_select).
    rewrite command_exec by exact Hsel. fold w1. clearbody w1.
    exec_by (apply nandReadByte_exec; exact Hce1).
    exec_by (apply digitalWrite_deselect).
    do 7 exec_by reflexivity.
    eexists. exists (driven w1). split; [reflexivity|]. split.
    + rewrite !bus_after_say, cycles_deselect, bus_after_read_cycle, nand_cycles_app, Hcyc1.
      rewrite <- !app_assoc. reflexivity.
    + rewrite !serial_say, serial_deselect, serial_read_cycle, Hser1.
      rewrite <- !app_assoc. reflexivity.
Qed.

End NandReports.

Lemma nand_identity_and_status_report_the_bytes_read_witness :
  exists w' st,
    nandReadStatus (power_on bench0) = Some (tt, w') /\
    nand_cycles (bus w') = [Select; Cmd NAND_CMD_READ_STATUS; DataOut st; Deselect].
Proof.
  destruct (proj2 (nand_identity_and_status_report_the_bytes_read (power_on bench0)
                     (conj eq_refl eq_refl)))
    as (w' & st & E & Hc & _).
  exists w', st. split; [exact E | exact Hc].
Defined.
